(* ===== verification/_CoqProject ===== *)
-Q . S2P
Prelude.v
Float64.v
Crypto.v
Core.v
Hamming.v
Sha256Bpf.v
Merkle.v
BlockStream.v
StateDb.v
Pipeline.v
SignedManifest.v
Rollback.v
Harness.v
BootGuard.v
BootValidate.v
Enforcement.v
Json.v
Telemetry.v
ImaPolicy.v
Loader.v
HostInit.v
LoaderMain.v
Attestation.v
Tpm.v
Files.v
Recovery.v
Shell.v
Verify.v
Device.v
Commands.v
Text.v
Auth.v
RateLimit.v
Siem.v
ApiAudit.v
Db.v
Api.v
ApiDoc.v
Plugin.v
Btf.v
Build.v
EndToEnd.v
Appraisal.v
Commitment.v
Fips.v
BootLog.v
TestKit.v
TestsCore.v
TestsUefi.v
TestsCli.v
TestsApi.v
TestsFiles.v
