(* ===== verification/Prelude.v ===== *)
(** * DFIM: a verification library for the integrity monitor

    DFIM protects a boot image by a sidecar: a Merkle root over its 4096-byte blocks, an
    error-correcting copy of the metadata and, in version 2, an ECDSA signature and a
    release counter.  Three programs use it.  A UEFI application checks the Windows boot
    manager before it starts it; a loader and an eBPF probe extend the check to Linux
    executables and kernel modules; a command line tool builds and verifies sidecars,
    restores a damaged image, runs the remote attestation protocol with a TPM and stress
    tests raw devices.  All of them share the core engine.  Two services stand beside
    them: a management API over a database of assets, policies and alerts of several
    tenants, and a host for integrity policies compiled to WebAssembly.

    ** Files and sources

    This file is the prelude: outcomes with panics, the state monad, machine integers,
    slices and array writes, encodings, and their lemmas and tactics.  The others, each
    after the sources it models:

    - [Crypto]: the interfaces of the crates [sha2], [subtle] and [p256], as classes of
      operations and classes of laws; [Toy] instances evaluate the models.
    - [Core]: [dfim_core_engine/src] [error.rs], [constants.rs], [observer.rs],
      [integrity_gate.rs], [crypto.rs], [digest.rs].
    - [Hamming]: [hamming.rs].  [Sha256Bpf]: [bpf_sha256.rs].  [Merkle]: [merkle.rs].
    - [BlockStream]: [parser.rs] and the serializer of [dfim_windows_uefi/src/manifest.rs].
    - [StateDb]: [state_db.rs].
    - [Pipeline]: the builder of [manifest.rs] and [dfim_windows_uefi/src/pipeline.rs].
    - [SignedManifest]: [signed_manifest.rs].  [Rollback]: [rollback.rs].
    - [BootGuard]: [dfim_windows_uefi/src/main.rs], the boot decision.
    - [BootValidate]: [dfim_core_engine/src/boot_validate.rs], the same validation in
      fixed buffers for the kernel side.
    - [Enforcement]: [enforcement_policy.rs] and the probe,
      [dfim_linux_kernel/dfim-ebpf/src] [main.rs] and [vmlinux.rs].
    - [Json], [Telemetry]: the writers [telemetry_sink.rs], [cli_output.rs] of
      [dfim_cli_provisioner/src] and [siem_sink.rs] of the loader.
    - [ImaPolicy]: [dfim_core_engine/src/ima_policy.rs] and the loader's [ima.rs].
    - [Loader]: [dfim_linux_kernel/dfim-ebpf-user/src] [main.rs] and [deny_monitor.rs].
    - [HostInit]: [dfim_host_init/src/lib.rs].
    - [Attestation]: [dfim_cli_provisioner/src/attestation.rs].
    - [Tpm]: [tpm.rs], the commands sent to a TPM through the crate [tss_esapi].
    - [Files]: the file system under the command line tool: a cache and a disk that differ
      until they are synchronised, and crashes between any two calls.
    - [Recovery]: [recovery.rs].  [Verify]: [verify.rs].
    - [Shell], [Commands]: [main.rs] of the tool, its arguments, events and exit statuses,
      and every subcommand.
    - [Device]: [raw_stress.rs] and [platform/mod.rs], [platform/unix.rs].
    - [Float64]: IEEE 754 binary64 on the Standard Library's [SpecFloat], with the error
      bounds and exactness lemmas the next files use.  [Text]: the string functions.
    - [Auth], [RateLimit], [Siem], [Db]: [auth.rs], [ratelimit.rs], [siem.rs], [db.rs] of
      [dfim_management_api/src].  [Api]: its [main.rs] and [metrics.rs].
    - [Plugin]: [dfim_plugin_sdk/src/lib.rs].
    - [Commitment]: [kdf.rs], [phasor.rs] and labels of [secrets.rs].  [Fips]: [fips.rs].
    - [LoaderMain]: the loader as a process, [main.rs] with its waiting loop and its end.
    - [Harness]: [dfim_kani_proofs/src/proofs.rs], [fuzz/fuzz_targets] and the seed generator.
    - [ApiAudit]: [audit.rs] of the management API.  [ApiDoc]: its [openapi.rs], and the start
      of the service in [main.rs].
    - [Btf]: [dfim_linux_kernel/dfim-ebpf/build.rs], which reads the kernel's type
      information.  [Build]: the build scripts [dfim_windows_uefi/build.rs],
      [build-support/litcrypt_key.rs] and [dfim-ebpf-user/build.rs].
    - [Appraisal]: [dfim-ebpf/src/appraisal.rs], which no module declaration names.
    - [BootLog]: the texts of [secrets.rs] and what the boot guard prints.
    - [EndToEnd]: the programs run on one another's output.
    - [TestKit], [TestsCore], [TestsUefi], [TestsCli], [TestsApi], [TestsFiles]: the unit tests
      of the crates and [dfim_core_engine/tests], each a computation of the model with the
      name of the test.

    ** Conventions

    A Rust function is a function of the same name.  [Result] is [outcome], whose third
    constructor [Panic] stands for every abort (index or slice out of range, arithmetic
    outside the machine width); code with mutable state is in the monad [stm], which
    keeps the state on errors.  Integers are [Z], with [as_u8], [as_u32], [checked_add]
    and the like where the code narrows or checks.  Bytes are [Byte.byte] and text is the
    list of its bytes.  Fields named [x_wf] state what the Rust types guarantee (array
    lengths, integer ranges).  Loops are structural folds over the range they run
    through; where the source has a loop without an evident bound (the tree builder, the
    decimal and hexadecimal printers) the definition has fuel, and the theorems show that
    it is enough: [3 N] iterations, the source's own cap, for a tree of [N] leaves, 39
    and 32 digits for a 128-bit number, and one round per byte of a file of type
    information, whose entries take twelve or more.  An [f64] is a [spec_float] with the rounding of
    binary64.  A handler of the management API is a program of SQL statements ([prog]),
    run alone by [run] or interleaved with others by [step]; the server may fail any
    statement, before or after its effect, and orders rows as it likes where the statement
    does not.

    Hashing and signing are parameters.  No law excludes collisions: where security rests
    on their absence the theorem ends in "or here are two strings with the same digest",
    and the strings are ones that the code hashed.

    ** What the theorems show

    - The boot decision: [boot_only_validated], [guard_fails_closed] and
      [provisioned_machine_boots] describe every run of the UEFI application on every
      firmware, by what it started and how it ended.
    - The sidecar: [signed_sidecar_sound] and [signed_sidecar_complete] for the signed
      format, [sidecar_binding] and [sidecar_complete] for the unsigned one,
      [merkle_binding] and [merkle_complete] for the tree; the formats are bijective
      ([block_stream_bijection], [rollback_baseline_bijection], [state_db_accepts]).
    - The codecs: single-bit errors are corrected at every supported width
      ([hamming_corrects_single_error], [block_codec_corrects]), the workspace SHA-256 is
      FIPS 180-4 ([sha256_workspace_correct]).
    - The Linux side: the fixed-buffer validators refine the pipeline
      ([compact_validator_refines_pipeline] and the two [scratch] theorems), the hooks
      enforce exactly the policy ([hooks_enforce_policy]), a hook is attached only after
      every check ([hooks_attached_only_when_ready]), and no interleaving of the loader's
      map updates with running hooks refuses the target ([provisioning_never_denies]); over
      the whole life of the loader's process, and after it, a hook is attached only if the
      process passed the licence gate and a checked provisioning ([loader_lifecycle],
      [shutdown_ends]); where the library detaches what it drops, the end of the process
      ends the protection ([restart_unprotects]).
    - Attestation: [attestation_verify_exact], [attestation_no_replay],
      [attestation_envelopes_exact].
    - Logs and gates: every log line reads back as the event's fields whatever they hold
      ([audit_log_roundtrip], [siem_log_roundtrip], [deny_record_roundtrip]); the IMA gate
      and the licence gate are exact ([ima_gate_exact], [license_window],
      [license_file_exact]).
    - The command line tool: a recovery interrupted anywhere leaves the old target or the
      verified one on the disk ([recovery_crash_safe]), never a mixture or an unverified
      image ([recovery_no_hybrid]), and succeeds when the inputs are right
      ([recovery_succeeds]); exit status 0 means a verified image and a written audit event
      ([recover_exit_zero], [verify_v2_exit_zero]); what is provisioned verifies
      ([provision_then_verify]); a quote taken by [tpm.rs] is accepted by the remote
      verifier ([attestation_end_to_end]); a flipped bit of the image on a device is
      detected ([injected_fault_detected]).
    - The management API: a request reaches a protected handler only with a valid token of
      a sufficient role ([protected_requests], [role_limits]); under every interleaving of
      requests and every fault of the database server a tenant's rows change only by its
      own requests ([tenant_isolation]), and its answers depend on the rows of others only
      through primary keys and the counts that the health check shows of the tenant
      "default" ([tenant_noninterference]); tokens are exact ([jwt_verify_exact],
      [login_session]); the limiter, in binary64 and behind sharded locks, is one map of
      buckets ([sharded_limiter_refines]) that admits at most a burst at one instant
      ([instant_burst_bound]); and the handlers of assets ([verify_asset_exact],
      [enroll_then_get], [asset_pages]) and the SIEM formats ([ndjson_batch_lines],
      [cef_message_roundtrip]).
    - The plugin SDK: [engine_invariant], [plugin_only_denies], and the sample policies
      against their exact rational reading ([telecom_policy_exact],
      [banking_policy_exact], [defense_policy_exact]).
    - Keys and self tests: a manifest reads back and its tag binds it
      ([manifest_authentication]), a build identity binds its terms
      ([build_identity_binding]), the known answers are those of the standards
      ([known_answers_hold]) and decide the mode ([self_test_decides]).
    - Termination: every definition is total; where the source loops,
      [merkle_build_terminates] and the like show that the fuel is never the reason of a
      result.
    - Building: the offsets that the probe is compiled with are those of the kernel's type
      information ([parse_btf_refines], [offsets_written]), and on any file, however corrupt,
      the parser ends without a panic ([parse_btf_total]); the trust anchors are exactly those of the
      environment ([deployment_trust_exact]); the eBPF object is the one cargo reports
      ([build_ebpf_exact]).
    - The programs together: a guard built for a signer boots exactly what the tool signed
      ([deployment_boots]); the loader attaches the hooks with the unsigned sidecar that the
      tool wrote, and with that sidecar only for the image it was written for
      ([sidecar_protects_target]); the probe finds
      the enrolled target exactly on the devices whose numbers the two encodings share
      ([probe_key_exact]).
    - The console of the boot guard shows each event of a run ([boot_console_refines]) and
      identifies the phase and the error of a refusal ([hardware_line_identifies]).
    - The audit trail of the API reads back under every interleaving of its writers
      ([audit_lines]); its interface document is compared with the router
      ([openapi_routes]).
    - The claims of the bounded harnesses and of the fuzz targets hold for inputs of any
      length ([harnesses_hold]), and the fuzzer's seeds are accepted ([seeds_accepted]).
    - The tests of the repository pass in the model, on the real SHA-256 where they compute
      digests ([hamming_tests_pass], [integration_tests_pass], [license_tests_pass], ...); a
      test that rejects tampering passes or exhibits a collision or a forged signature
      ([tamper_test_passes], [payload_tamper_test_passes]); a test of the rate limiter passes
      on a clock that stands still ([burst_test_passes]) and not on every other
      ([rate_tests_need_speed]).

    Some theorems state limits of the code: [strict_decoder_never_rejects],
    [hamming_wide_overflow], [fec_never_repairs], [merkle_duplicate_last_leaf],
    [merkle_interior_node_accepted], and, in the files of their components,
    [deny_monitor_silent], [ima_gate_ignores_conditions], [btf_float_misread],
    [key_file_newline], [merkle_mode_hollow], [asset_named_enroll], [audit_torn_line],
    [restart_unprotects] and [unsigned_enrolment].

    ** What is not modelled

    The firmware, the Linux kernel, the file system calls, the clock, [tss_esapi],
    the faults and row orders of the SQL server, [aya], [axum], [serde_json], [wasmtime] and the crypto crates are
    parameters.  Left out: the Windows variant of the device layer (stubs that refuse), the
    variants of two attestation commands that refuse when the tool is built without a TPM,
    the listening socket and the tracing of the management API, what the build scripts only
    print, module declarations and re-exports, shell and Python tooling, and of the tests those of a
    running server or device, the ignored soak test and the file [tests/integration_tests.rs],
    which no package compiles.  Copies of
    small helpers ([hex_encode], [json_escape], [asset_id]) in several files are modelled
    once.
 *)

From stdpp Require Import base list numbers option strings gmap.
From Stdlib Require Import ZArith Lia Strings.Byte.

Declare Scope dfim_scope.
Delimit Scope dfim_scope with dfim.

#[global] Open Scope Z_scope.

(** ** Outcomes of Rust computations

    [Ok] and [Err] are the two constructors of [core::result::Result].
    [Panic] is an out-of-range slice or index, an [unwrap] of [None], or an
    arithmetic operation that leaves its machine width: the last aborts a build
    with overflow checks and wraps silently in one without them, so a theorem
    that excludes [Panic] speaks about both. *)

Inductive outcome (E A : Type) : Type :=
| Ok (a : A)
| Err (e : E)
| Panic.
Arguments Ok {E A} a.
Arguments Err {E A} e.
Arguments Panic {E A}.

#[export] Instance outcome_ret {E} : MRet (outcome E) := fun A a => Ok a.

#[export] Instance outcome_bind {E} : MBind (outcome E) := fun A B f m =>
  match m with Ok a => f a | Err e => Err e | Panic => Panic end.

#[export] Instance outcome_fmap {E} : FMap (outcome E) := fun A B f m =>
  match m with Ok a => Ok (f a) | Err e => Err e | Panic => Panic end.

(** [Option::ok_or] *)
Definition ok_or {E A} (o : option A) (e : E) : outcome E A :=
  match o with Some a => Ok a | None => Err e end.

(** [Option::unwrap] *)
Definition unwrap {E A} (o : option A) : outcome E A :=
  match o with Some a => Ok a | None => Panic end.

(** [Result::map_err] *)
Definition map_err {E F A} (f : E -> F) (m : outcome E A) : outcome F A :=
  match m with Ok a => Ok a | Err e => Err (f e) | Panic => Panic end.

Definition is_ok {E A} (m : outcome E A) : bool :=
  match m with Ok _ => true | _ => false end.

(** A [for] loop with early return: a left fold in the outcome monad. *)
Fixpoint foldM {E A B} (f : B -> A -> outcome E B) (b : B) (l : list A) : outcome E B :=
  match l with
  | [] => Ok b
  | a :: l => b' ← f b a; foldM f b' l
  end.

(** ** Machine integers, kept as [Z] at their width *)

Definition U8_MAX : Z := 2 ^ 8 - 1.
Definition U16_MAX : Z := 2 ^ 16 - 1.
Definition U32_MAX : Z := 2 ^ 32 - 1.
Definition U64_MAX : Z := 2 ^ 64 - 1.
(** Every target of the workspace is 64-bit, so [usize] is 64 bits wide. *)
Definition USIZE_MAX : Z := 2 ^ 64 - 1.

Definition as_u8 (z : Z) : Z := z mod 2 ^ 8.
Definition as_u16 (z : Z) : Z := z mod 2 ^ 16.
Definition as_u32 (z : Z) : Z := z mod 2 ^ 32.
Definition as_u64 (z : Z) : Z := z mod 2 ^ 64.

Definition checked_add (a b : Z) : option Z :=
  if a + b <=? USIZE_MAX then Some (a + b) else None.
Definition checked_sub (a b : Z) : option Z :=
  if b <=? a then Some (a - b) else None.
Definition checked_mul (a b : Z) : option Z :=
  if a * b <=? USIZE_MAX then Some (a * b) else None.
Definition saturating_add (a b : Z) : Z := Z.min (a + b) USIZE_MAX.
Definition saturating_mul (a b : Z) : Z := Z.min (a * b) USIZE_MAX.
Definition saturating_sub (a b : Z) : Z := Z.max (a - b) 0.

(** The plain operators [a + b], [a * b], [a - b] on [usize]. *)
Definition add_usize {E} (a b : Z) : outcome E Z :=
  if a + b <=? USIZE_MAX then Ok (a + b) else Panic.
Definition mul_usize {E} (a b : Z) : outcome E Z :=
  if a * b <=? USIZE_MAX then Ok (a * b) else Panic.
Definition sub_usize {E} (a b : Z) : outcome E Z :=
  if b <=? a then Ok (a - b) else Panic.

(** [a << b], [a >> b] and [!a] on a [w]-bit unsigned integer: a shift by the
    width or more is an overflow. *)
Definition shl {E} (w a b : Z) : outcome E Z :=
  if (0 <=? b) && (b <? w) then Ok (Z.shiftl a b mod 2 ^ w) else Panic.
Definition shr {E} (w a b : Z) : outcome E Z :=
  if (0 <=? b) && (b <? w) then Ok (Z.shiftr a b) else Panic.
Definition lnot_w (w a : Z) : Z := Z.lxor a (2 ^ w - 1).

(** The range [a..b] *)
Definition range (a b : Z) : list Z :=
  (fun i => a + Z.of_nat i) <$> seq 0 (Z.to_nat (b - a)).

#[global] Arguments range : simpl never.

(** [usize::div_ceil] and [is_multiple_of] *)
Definition div_ceil (a b : Z) : Z := (a + b - 1) / b.
Definition is_multiple_of (a b : Z) : bool := a mod b =? 0.

(** ** Bytes *)

Definition b2z (b : byte) : Z := Z.of_N (Byte.to_N b).
Definition z2b (z : Z) : byte :=
  match Byte.of_N (Z.to_N (z mod 256)) with Some b => b | None => x00 end.

Definition bytes_of_string (s : string) : list byte := String.list_byte_of_string s.

(** Rust slice equality. *)
Fixpoint bytes_eqb (l1 l2 : list byte) : bool :=
  match l1, l2 with
  | [], [] => true
  | a :: l1, b :: l2 => Byte.eqb a b && bytes_eqb l1 l2
  | _, _ => false
  end.

(** [slice::starts_with] *)
Fixpoint starts_with (l p : list byte) {struct p} : bool :=
  match p, l with
  | [], _ => true
  | b :: p, a :: l => Byte.eqb a b && starts_with l p
  | _ :: _, [] => false
  end.

(** [to_le_bytes] of an [n]-byte integer, and [from_le_bytes] *)
Fixpoint le_encode (n : nat) (z : Z) : list byte :=
  match n with
  | O => []
  | S n => z2b z :: le_encode n (z / 256)
  end.

Fixpoint le_decode (l : list byte) : Z :=
  match l with
  | [] => 0
  | b :: l => b2z b + 256 * le_decode l
  end.

Definition be_encode (n : nat) (z : Z) : list byte := reverse (le_encode n z).
Definition be_decode (l : list byte) : Z := le_decode (reverse l).

(** ** Slices and arrays *)

Definition zlen {A} (l : list A) : Z := Z.of_nat (length l).

(** [&l[a..b]] *)
Definition slice {E A} (l : list A) (a b : Z) : outcome E (list A) :=
  if (0 <=? a) && (a <=? b) && (b <=? zlen l)
  then Ok (take (Z.to_nat (b - a)) (drop (Z.to_nat a) l))
  else Panic.

(** [l[i]] *)
Definition index {E A} (l : list A) (i : Z) : outcome E A :=
  if 0 <=? i then unwrap (l !! Z.to_nat i) else Panic.

(** [dst[a..b].copy_from_slice(src)] *)
Definition copy_into {E A} (dst : list A) (a b : Z) (src : list A) : outcome E (list A) :=
  if (0 <=? a) && (a <=? b) && (b <=? zlen dst) && (zlen src =? b - a)
  then Ok (take (Z.to_nat a) dst ++ src ++ drop (Z.to_nat b) dst)
  else Panic.

(** [dst[i] = x] *)
Definition store {E A} (dst : list A) (i : Z) (x : A) : outcome E (list A) :=
  if (0 <=? i) && (i <? zlen dst) then Ok (<[Z.to_nat i := x]> dst) else Panic.

(** [[x; n]] *)
Definition array {A} (x : A) (n : Z) : list A := replicate (Z.to_nat n) x.

(** ** Computations over mutable state

    [&mut] arguments that stay visible to the caller after an error are passed
    explicitly: the state survives every outcome. *)

Definition stm (S E A : Type) : Type := S -> outcome E A * S.

#[export] Instance stm_ret {S E} : MRet (stm S E) := fun A a s => (Ok a, s).

#[export] Instance stm_bind {S E} : MBind (stm S E) := fun A B f m s =>
  match m s with
  | (Ok a, s') => f a s'
  | (Err e, s') => (Err e, s')
  | (Panic, s') => (Panic, s')
  end.

Definition lift {S E A} (m : outcome E A) : stm S E A := fun s => (m, s).
Definition get {S E} : stm S E S := fun s => (Ok s, s).
Definition put {S E} (s : S) : stm S E unit := fun _ => (Ok tt, s).
Definition modify {S E} (f : S -> S) : stm S E unit := fun s => (Ok tt, f s).

Fixpoint iterM {S E A} (f : A -> stm S E unit) (l : list A) : stm S E unit :=
  match l with
  | [] => mret tt
  | a :: l => f a ;; iterM f l
  end.

(** ** Reasoning about outcomes *)

(** [safe m Q]: [m] does not panic, and its result, if any, satisfies [Q]. *)
Definition safe {E A} (m : outcome E A) (Q : A -> Prop) : Prop :=
  match m with Ok a => Q a | Err _ => True | Panic => False end.

Create HintDb dfim.
Create Rewrite HintDb zlen.

Section outcome_lemmas.
Context {E A B : Type}.
Implicit Types (m : outcome E A) (f : A -> outcome E B) (Q : A -> Prop).

Lemma bind_Ok m f b : (m ≫= f) = Ok b <-> exists a, m = Ok a /\ f a = Ok b.
Proof. destruct m; simpl; naive_solver. Qed.

Lemma Ok_inj (a a' : A) : @Ok E A a = Ok a' -> a = a'.
Proof. by intros [=]. Qed.

Lemma ok_bind (a : A) f : (Ok a ≫= f) = f a.
Proof. done. Qed.

Lemma bind_Err m f e :
  (m ≫= f) = Err e <-> m = Err e \/ exists a, m = Ok a /\ f a = Err e.
Proof. destruct m; simpl; naive_solver. Qed.

Lemma safe_bind m f (Q : B -> Prop) :
  safe m (fun a => safe (f a) Q) -> safe (m ≫= f) Q.
Proof. by destruct m. Qed.

Lemma safe_mono m Q Q' : safe m Q -> (forall a, Q a -> Q' a) -> safe m Q'.
Proof. destruct m; simpl; auto. Qed.

Lemma safe_Ok m Q a : safe m Q -> m = Ok a -> Q a.
Proof. intros ? ->. done. Qed.

Lemma safe_no_panic m Q : safe m Q -> m <> Panic.
Proof. by destruct m. Qed.

Lemma no_panic_safe m : m <> Panic -> safe m (fun a => m = Ok a).
Proof. by destruct m. Qed.

Lemma safe_ok_or (o : option A) (e : E) Q :
  (forall a, o = Some a -> Q a) -> safe (ok_or o e) Q.
Proof. destruct o; simpl; auto. Qed.

Lemma ok_or_Ok (o : option A) (e : E) a : ok_or o e = Ok a <-> o = Some a.
Proof. destruct o; simpl; naive_solver. Qed.

Lemma is_ok_true m : is_ok m = true <-> exists a, m = Ok a.
Proof. destruct m; simpl; naive_solver. Qed.
End outcome_lemmas.

(** Checked arithmetic: an overflow is an error, not a panic. *)
Lemma safe_checked_add {E B} a b (e : E) (f : Z -> outcome E B) Q :
  safe (f (a + b)) Q -> safe (ok_or (checked_add a b) e ≫= f) Q.
Proof. unfold checked_add. by destruct (_ <=? _). Qed.

Lemma safe_checked_mul {E B} a b (e : E) (f : Z -> outcome E B) Q :
  safe (f (a * b)) Q -> safe (ok_or (checked_mul a b) e ≫= f) Q.
Proof. unfold checked_mul. by destruct (_ <=? _). Qed.

Lemma safe_if_err {E A} (c : bool) (e : E) (m : outcome E A) Q :
  (c = false -> safe m Q) -> safe (if c then Err e else m) Q.
Proof. destruct c; simpl; auto. Qed.

(** Running a stateful computation step by step. *)
Lemma stm_step {S E A B} (m : stm S E A) (f : A -> stm S E B) s a s' :
  m s = (Ok a, s') -> (m ≫= f) s = f a s'.
Proof. intros Hm. unfold mbind, stm_bind. by rewrite Hm. Qed.

Lemma stm_lift {S E A B} (m : outcome E A) (f : A -> stm S E B) s :
  (lift m ≫= f) s =
    match m with Ok a => f a s | Err e => (Err e, s) | Panic => (Panic, s) end.
Proof. by destruct m. Qed.

Lemma stm_get {S E B} (f : S -> stm S E B) s : (get ≫= f) s = f s s.
Proof. done. Qed.

Lemma stm_modify {S E B} g (f : unit -> stm S E B) s : (modify g ≫= f) s = f tt (g s).
Proof. done. Qed.

(** A stateful computation that succeeds: each of its steps did. *)
Lemma stm_bind_Ok {S E A B} (m : stm S E A) (f : A -> stm S E B) s b s'' :
  (m ≫= f) s = (Ok b, s'') <-> exists a s', m s = (Ok a, s') /\ f a s' = (Ok b, s'').
Proof. unfold mbind, stm_bind. destruct (m s) as [[a|e|] s']; naive_solver. Qed.

Lemma stm_lift_Ok {S E A} (m : outcome E A) (s : S) a s' : lift m s = (Ok a, s') <-> m = Ok a /\ s' = s.
Proof. unfold lift. naive_solver. Qed.

Lemma foldM_app {E A B} (f : B -> A -> outcome E B) b l1 l2 :
  foldM f b (l1 ++ l2) = (b' ← foldM f b l1; foldM f b' l2).
Proof.
  revert b. induction l1 as [|a l1 IH]; intros b; simpl; [done|].
  destruct (f b a); simpl; auto.
Qed.

Lemma safe_foldM {E A B} (f : B -> A -> outcome E B) (I : list A -> B -> Prop) b l :
  I [] b ->
  (forall pre a post b, l = pre ++ a :: post -> I pre b -> safe (f b a) (I (pre ++ [a]))) ->
  safe (foldM f b l) (I l).
Proof.
  intros H0 Hstep.
  cut (forall post pre b, l = pre ++ post -> I pre b -> safe (foldM f b post) (I l)).
  { intros H. apply (H l [] b); done. }
  induction post as [|a post IH]; intros pre b' -> HI; simpl.
  { by rewrite app_nil_r. }
  apply safe_bind.
  eapply safe_mono; [by eapply Hstep|].
  intros b'' HI'. apply (IH (pre ++ [a])); [by rewrite <- app_assoc | done].
Qed.

Lemma foldM_Ok_inv {E A B} (f : B -> A -> outcome E B) (I : list A -> B -> Prop) b l b' :
  foldM f b l = Ok b' ->
  I [] b ->
  (forall pre a post b b', l = pre ++ a :: post -> I pre b -> f b a = Ok b' -> I (pre ++ [a]) b') ->
  I l b'.
Proof.
  intros Hf H0 Hstep.
  cut (forall post pre b, l = pre ++ post -> I pre b -> foldM f b post = Ok b' -> I l b').
  { intros H. by apply (H l [] b). }
  induction post as [|a post IH]; intros pre b0 -> HI Hfold; simpl in Hfold.
  { simplify_eq. by rewrite app_nil_r. }
  apply bind_Ok in Hfold as (b1 & H1 & H2).
  eapply (IH (pre ++ [a])); [by rewrite <- app_assoc | by eapply Hstep | done].
Qed.

(** A pure fold written in the monad. *)
Lemma foldM_pure {E A B} (f : B -> A -> outcome E B) (g : B -> A -> B) b l :
  (forall b a, a ∈ l -> f b a = Ok (g b a)) -> foldM f b l = Ok (foldl g b l).
Proof.
  revert b. induction l as [|a l IH]; intros b H; simpl; [done|].
  rewrite H by set_solver. simpl. apply IH. set_solver.
Qed.

(** A loop that only appends to its accumulator. *)
Lemma foldM_append {E A B} (f : list B -> A -> outcome E (list B)) (g : A -> list B) out l :
  (forall out a, a ∈ l -> f out a = Ok (out ++ g a)) ->
  foldM f out l = Ok (out ++ concat (map g l)).
Proof.
  revert out. induction l as [|a l IH]; intros out H; simpl; [by rewrite app_nil_r|].
  rewrite H by set_solver. simpl. rewrite IH by set_solver. by rewrite app_assoc.
Qed.

Lemma concat_singletons {A B} (f : A -> B) l : concat (map (fun a => [f a]) l) = map f l.
Proof. induction l; simpl; congruence. Qed.

(** ** Ranges *)

Lemma elem_of_range a b i : i ∈ range a b <-> a <= i < b.
Proof.
  unfold range. rewrite list_elem_of_fmap. split.
  - intros (k & -> & Hk%elem_of_seq). lia.
  - intros Hi. exists (Z.to_nat (i - a)). rewrite elem_of_seq. lia.
Qed.

Lemma zlen_range_nat a b : length (range a b) = Z.to_nat (b - a).
Proof. unfold range. by rewrite length_fmap, length_seq. Qed.

Lemma range_nil a b : b <= a -> range a b = [].
Proof. intros. unfold range. by replace (Z.to_nat (b - a)) with O by lia. Qed.

Lemma range_snoc a b : a <= b -> range a (b + 1) = range a b ++ [b].
Proof.
  intros. unfold range. replace (Z.to_nat (b + 1 - a)) with (S (Z.to_nat (b - a))) by lia.
  rewrite seq_S, fmap_app. simpl. do 2 f_equal. lia.
Qed.

Lemma range_cons a b : a < b -> range a b = a :: range (a + 1) b.
Proof.
  intros. unfold range. replace (Z.to_nat (b - a)) with (S (Z.to_nat (b - (a + 1)))) by lia.
  rewrite <- cons_seq, <- fmap_S_seq. simpl. f_equal; [lia|].
  rewrite <- list_fmap_compose. apply list_fmap_ext. intros; simpl. lia.
Qed.

Lemma range_lookup a b k z : range a b !! k = Some z -> z = a + Z.of_nat k /\ z < b.
Proof.
  unfold range. intros (i & -> & [-> Hi]%lookup_seq)%list_lookup_fmap_Some. lia.
Qed.

Lemma range_split a m b : a <= m <= b -> range a b = range a m ++ range m b.
Proof.
  intros H. unfold range. replace (Z.to_nat (b - a)) with (Z.to_nat (m - a) + Z.to_nat (b - m))%nat by lia.
  rewrite seq_app, fmap_app. f_equal. rewrite Nat.add_0_l.
  rewrite <- (Nat.add_0_r (Z.to_nat (m - a))), <- fmap_add_seq, <- list_fmap_compose.
  apply list_fmap_ext. intros; simpl. lia.
Qed.

(** A loop over a range, by its invariant: the computation succeeds. *)
Lemma foldM_range {E B} (f : B -> Z -> outcome E B) (I : Z -> B -> Prop) a b x :
  a <= b -> I a x ->
  (forall i x, a <= i < b -> I i x -> exists x', f x i = Ok x' /\ I (i + 1) x') ->
  exists x', foldM f x (range a b) = Ok x' /\ I b x'.
Proof.
  intros Hab H0 Hstep.
  cut (forall n, a <= n <= b -> exists x', foldM f x (range a n) = Ok x' /\ I n x').
  { intros H. apply H. lia. }
  intros n [Hn Hb]. revert n Hn Hb. apply (Zlt_lower_bound_ind (fun n => n <= b -> _)).
  intros n IH Hn Hb. destruct (decide (n = a)) as [->|].
  - exists x. rewrite range_nil by lia. done.
  - destruct (IH (n - 1)) as (x1 & Hf & HI); [lia..|].
    destruct (Hstep (n - 1) x1) as (x2 & Hs & HI2); [lia|done|].
    replace (n - 1 + 1) with n in HI2 by lia. exists x2. split; [|done].
    replace (range a n) with (range a (n - 1 + 1)) by (f_equal; lia).
    rewrite range_snoc by lia. rewrite foldM_app, Hf. simpl. by rewrite Hs.
Qed.

Lemma safe_foldM_range {E B} (f : B -> Z -> outcome E B) (I : Z -> B -> Prop) a b x :
  a <= b -> I a x ->
  (forall i x, a <= i < b -> I i x -> safe (f x i) (I (i + 1))) ->
  safe (foldM f x (range a b)) (I b).
Proof.
  intros Hab H0 Hstep.
  cut (forall n, a <= n <= b -> safe (foldM f x (range a n)) (I n)); [intros H; apply H; lia|].
  intros n [Hn Hb]. revert n Hn Hb. apply (Zlt_lower_bound_ind (fun n => n <= b -> _)).
  intros n IH Hn Hb. destruct (decide (n = a)) as [->|]; [by rewrite range_nil by lia|].
  replace n with (n - 1 + 1) at 1 by lia. rewrite range_snoc, foldM_app by lia.
  apply safe_bind. eapply safe_mono; [apply IH; lia|]. intros x' Hx'.
  simpl. apply safe_bind. eapply safe_mono; [apply Hstep; [lia|done]|].
  intros x2. by replace (n - 1 + 1) with n by lia.
Qed.

(** Run the loop over a range that the goal mentions, with invariant [I]; the
    goals are the range, the entry, the body and the rest, which gets the exit
    as [HI]. *)
Ltac loop_inv I :=
  match goal with
  | |- context [foldM ?f ?x (range ?a ?b)] =>
      destruct (foldM_range f I a b x) as (?x' & ?Hloop & ?HI);
      [| | |match goal with H : foldM _ _ _ = Ok _ |- _ => rewrite H; clear H end]
  end.

(** Case analysis on the guards and binds of a computation known to succeed. *)
Ltac inv_Ok H :=
  repeat match type of H with
  | (_ ≫= _) = Ok _ =>
      let a := fresh "a" in let Ha := fresh "Ha" in
      apply bind_Ok in H as (a & Ha & H)
  | (if ?b then Err _ else _) = Ok _ =>
      let Hb := fresh "Hg" in destruct b eqn:Hb; [discriminate H|]
  | (if ?b then _ else Err _) = Ok _ =>
      let Hb := fresh "Hg" in destruct b eqn:Hb; [|discriminate H]
  end.

(** ** Bytes and endianness *)

Lemma b2z_range b : 0 <= b2z b < 256.
Proof.
  unfold b2z. pose proof (Byte.to_N_bounded b). lia.
Qed.

Lemma b2z_z2b z : b2z (z2b z) = z mod 256.
Proof.
  unfold b2z, z2b. pose proof (Z.mod_pos_bound z 256 eq_refl) as Hz.
  destruct (Byte.of_N _) eqn:Hb.
  - apply Byte.to_of_N in Hb. lia.
  - apply Byte.of_N_None_iff in Hb. lia.
Qed.

Lemma b2z_inj a b : b2z a = b2z b -> a = b.
Proof.
  unfold b2z. intros H%N2Z.inj.
  pose proof (Byte.of_to_N a) as Ha. pose proof (Byte.of_to_N b) as Hb.
  rewrite H in Ha. congruence.
Qed.

Lemma z2b_b2z b : z2b (b2z b) = b.
Proof. apply b2z_inj. rewrite b2z_z2b. apply Z.mod_small, b2z_range. Qed.

Lemma z2b_inj x y : 0 <= x < 256 -> 0 <= y < 256 -> z2b x = z2b y -> x = y.
Proof.
  intros Hx Hy H. apply (f_equal b2z) in H. rewrite !b2z_z2b in H.
  by rewrite !Z.mod_small in H.
Qed.

Lemma byte_eqb_eq a b : Byte.eqb a b = true <-> a = b.
Proof.
  split; [apply Byte.byte_dec_bl|]. intros ->. apply Byte.byte_dec_lb. done.
Qed.

#[export] Instance byte_eq_decision : EqDecision byte.
Proof.
  intros a b. destruct (Byte.eqb a b) eqn:H; [left; by apply byte_eqb_eq|right].
  intros ->. rewrite (proj2 (byte_eqb_eq b b) eq_refl) in H. done.
Defined.

Lemma bytes_eqb_eq l1 l2 : bytes_eqb l1 l2 = true <-> l1 = l2.
Proof.
  revert l2. induction l1 as [|a l1 IH]; intros [|b l2]; simpl; [done..|].
  rewrite andb_true_iff, byte_eqb_eq, IH. naive_solver.
Qed.

Lemma bytes_eqb_refl l : bytes_eqb l l = true.
Proof. by apply bytes_eqb_eq. Qed.

Lemma bytes_eqb_neq l1 l2 : bytes_eqb l1 l2 = false <-> l1 <> l2.
Proof. rewrite <- (bytes_eqb_eq l1 l2). by destruct (bytes_eqb l1 l2). Qed.

Lemma starts_with_app l p : starts_with l p = true <-> exists s, l = p ++ s.
Proof.
  revert l. induction p as [|b p IH]; intros l; simpl.
  { split; eauto. }
  destruct l as [|a l]; [naive_solver|].
  rewrite andb_true_iff, byte_eqb_eq, IH. naive_solver.
Qed.

Lemma zlen_nonneg {A} (l : list A) : 0 <= zlen l.
Proof. unfold zlen. lia. Qed.

Lemma zlen_nil {A} : zlen (@nil A) = 0.
Proof. done. Qed.

Lemma zlen_cons {A} (a : A) l : zlen (a :: l) = 1 + zlen l.
Proof. unfold zlen. simpl. lia. Qed.

Lemma zlen_app {A} (l1 l2 : list A) : zlen (l1 ++ l2) = zlen l1 + zlen l2.
Proof. unfold zlen. rewrite length_app. lia. Qed.

Lemma zlen_array {A} (x : A) n : 0 <= n -> zlen (array x n) = n.
Proof. unfold zlen, array. rewrite length_replicate. lia. Qed.

Lemma length_le_encode n z : length (le_encode n z) = n.
Proof. revert z. induction n; intros; simpl; auto. Qed.

Lemma zlen_le_encode n z : zlen (le_encode n z) = Z.of_nat n.
Proof. unfold zlen. by rewrite length_le_encode. Qed.

Lemma zlen_be_encode n z : zlen (be_encode n z) = Z.of_nat n.
Proof. unfold zlen, be_encode. by rewrite length_reverse, length_le_encode. Qed.

Lemma zlen_0_nil {A} (l : list A) : zlen l = 0 -> l = [].
Proof. destruct l; [done|]. rewrite zlen_cons. pose proof (zlen_nonneg l). lia. Qed.

Lemma zlen_pos {A} (l : list A) : l <> [] -> 0 < zlen l.
Proof. intros H. pose proof (zlen_nonneg l). destruct (decide (zlen l = 0)); [by apply zlen_0_nil in e|lia]. Qed.

#[export] Hint Rewrite @zlen_nil @zlen_cons @zlen_app zlen_le_encode zlen_be_encode : zlen.
#[export] Hint Rewrite @zlen_array using lia : zlen.

(** Normalise lengths, then decide. *)
Ltac len := autorewrite with zlen in *; repeat change (Z.of_nat 1) with 1 in *;
  repeat change (Z.of_nat 2) with 2 in *; repeat change (Z.of_nat 4) with 4 in *;
  repeat change (Z.of_nat 8) with 8 in *.
Ltac zlia := len; lia.

Lemma le_decode_range l : 0 <= le_decode l < 2 ^ (8 * zlen l).
Proof.
  induction l as [|b l IH]; simpl; [done|].
  pose proof (b2z_range b). rewrite zlen_cons.
  replace (8 * (1 + zlen l)) with (8 + 8 * zlen l) by lia.
  rewrite Z.pow_add_r by (pose proof (zlen_nonneg l); lia). lia.
Qed.

Lemma le_decode_encode n z : le_decode (le_encode n z) = z mod 2 ^ (8 * Z.of_nat n).
Proof.
  revert z. induction n as [|n IH]; intros z; simpl le_encode; simpl le_decode.
  { by rewrite Z.mod_1_r. }
  rewrite IH, b2z_z2b.
  replace (8 * Z.of_nat (S n)) with (8 + 8 * Z.of_nat n) by lia.
  rewrite Z.pow_add_r by lia. change (2 ^ 8) with 256.
  rewrite Z.rem_mul_r by lia. lia.
Qed.

Lemma le_encode_decode l : le_encode (length l) (le_decode l) = l.
Proof.
  induction l as [|b l IH]; simpl; [done|]. pose proof (b2z_range b). f_equal.
  - apply b2z_inj. rewrite b2z_z2b.
    rewrite (Z.mul_comm 256), Z.mod_add by lia. by apply Z.mod_small.
  - rewrite (Z.mul_comm 256), Z.div_add by lia.
    rewrite (Z.div_small (b2z b)) by lia. done.
Qed.

Lemma le_decode_encode_small n z :
  0 <= z < 2 ^ (8 * Z.of_nat n) -> le_decode (le_encode n z) = z.
Proof. intros. rewrite le_decode_encode. by apply Z.mod_small. Qed.

Lemma le_encode_decode_n n l : zlen l = Z.of_nat n -> le_encode n (le_decode l) = l.
Proof. unfold zlen. intros H%Nat2Z.inj. subst n. apply le_encode_decode. Qed.

Lemma be_decode_encode_small n z :
  0 <= z < 2 ^ (8 * Z.of_nat n) -> be_decode (be_encode n z) = z.
Proof.
  intros. unfold be_decode, be_encode. rewrite reverse_involutive.
  by apply le_decode_encode_small.
Qed.

Lemma be_encode_decode_n n l : zlen l = Z.of_nat n -> be_encode n (be_decode l) = l.
Proof.
  intros Hl. unfold be_encode, be_decode. rewrite le_encode_decode_n; [apply reverse_involutive|].
  unfold zlen in *. by rewrite length_reverse.
Qed.

Lemma be_decode_range l : 0 <= be_decode l < 2 ^ (8 * zlen l).
Proof.
  unfold be_decode. pose proof (le_decode_range (reverse l)) as H.
  unfold zlen in *. by rewrite length_reverse in H.
Qed.

(** ** Slices *)

Section slice_lemmas.
Context {E A : Type}.
Implicit Types (l p s : list A).

Lemma slice_inv l a b x :
  @slice E A l a b = Ok x ->
  0 <= a /\ a <= b /\ b <= zlen l /\ zlen x = b - a /\
  x = take (Z.to_nat (b - a)) (drop (Z.to_nat a) l).
Proof.
  unfold slice. destruct (_ && _) eqn:H; [|done]. intros [= <-].
  rewrite !andb_true_iff, !Z.leb_le in H. repeat split; try lia.
  unfold zlen in *. rewrite length_take, length_drop. lia.
Qed.

Lemma slice_ok l a b :
  0 <= a -> a <= b -> b <= zlen l ->
  exists x, @slice E A l a b = Ok x /\ zlen x = b - a.
Proof.
  intros. unfold slice.
  rewrite (proj2 (Z.leb_le 0 a)), (proj2 (Z.leb_le a b)), (proj2 (Z.leb_le b (zlen l))) by done.
  eexists; split; [done|]. unfold zlen in *. rewrite length_take, length_drop. lia.
Qed.

Lemma slice_take l n : 0 <= n <= zlen l -> @slice E A l 0 n = Ok (take (Z.to_nat n) l).
Proof.
  intros Hn. unfold slice.
  rewrite (proj2 (Z.leb_le 0 0)), (proj2 (Z.leb_le 0 n)), (proj2 (Z.leb_le n (zlen l))) by lia.
  simpl. by rewrite Z.sub_0_r, drop_0.
Qed.

Lemma slice_drop l n : 0 <= n <= zlen l -> @slice E A l n (zlen l) = Ok (drop (Z.to_nat n) l).
Proof.
  intros Hn. unfold slice.
  rewrite (proj2 (Z.leb_le 0 n)), (proj2 (Z.leb_le n (zlen l))), Z.leb_refl by lia.
  simpl. f_equal. apply take_ge. rewrite length_drop. unfold zlen. lia.
Qed.

Lemma slice_safe l a b :
  0 <= a -> a <= b -> b <= zlen l ->
  safe (@slice E A l a b) (fun x => slice l a b = @Ok E _ x /\ zlen x = b - a).
Proof. intros Ha Hb Hl. destruct (slice_ok l a b) as (x & -> & ?); done. Qed.

Lemma safe_slice_bind {B} l a b (f : list A -> outcome E B) Q :
  0 <= a -> a <= b -> b <= zlen l ->
  (forall x, slice l a b = @Ok E _ x -> zlen x = b - a -> safe (f x) Q) ->
  safe (slice l a b ≫= f) Q.
Proof. intros Ha Hb Hl Hf. destruct (slice_ok l a b) as (x & Hx & Hz); [done..|]. rewrite Hx. by apply Hf. Qed.

Lemma slice_skip p l a b :
  zlen p <= a -> @slice E A (p ++ l) a b = slice l (a - zlen p) (b - zlen p).
Proof.
  intros H. unfold slice. rewrite zlen_app. pose proof (zlen_nonneg p) as Hp.
  replace (0 <=? a) with true by (symmetry; apply Z.leb_le; lia).
  replace (0 <=? a - zlen p) with true by (symmetry; apply Z.leb_le; lia).
  replace (a - zlen p <=? b - zlen p) with (a <=? b)
    by (apply eq_true_iff_eq; rewrite !Z.leb_le; lia).
  replace (b - zlen p <=? zlen l) with (b <=? zlen p + zlen l)
    by (apply eq_true_iff_eq; rewrite !Z.leb_le; lia).
  destruct (_ && _); [|done]. do 2 f_equal; [lia|].
  rewrite drop_app_ge by (unfold zlen in *; lia).
  f_equal. unfold zlen. lia.
Qed.

Lemma slice_head p l b : b = zlen p -> @slice E A (p ++ l) 0 b = Ok p.
Proof.
  intros ->. unfold slice. rewrite zlen_app.
  pose proof (zlen_nonneg p). pose proof (zlen_nonneg l).
  rewrite (proj2 (Z.leb_le 0 (zlen p))), (proj2 (Z.leb_le (zlen p) _)) by lia. simpl.
  f_equal. rewrite drop_0. apply take_app_length'. unfold zlen. lia.
Qed.

Lemma slice_all l b : b = zlen l -> @slice E A l 0 b = Ok l.
Proof. intros ->. rewrite <- (app_nil_r l) at 1. by apply slice_head. Qed.

Lemma slice_join l a b c x y :
  @slice E A l a b = Ok x -> @slice E A l b c = Ok y -> @slice E A l a c = Ok (x ++ y).
Proof.
  intros (?&?&?&?&->)%slice_inv (?&?&?&?&->)%slice_inv. unfold slice.
  rewrite (proj2 (Z.leb_le 0 a)), (proj2 (Z.leb_le a c)), (proj2 (Z.leb_le c (zlen l))) by lia.
  simpl. f_equal.
  replace (Z.to_nat (c - a)) with (Z.to_nat (b - a) + Z.to_nat (c - b))%nat by lia.
  rewrite <- take_take_drop. do 2 f_equal. rewrite drop_drop. f_equal. lia.
Qed.

Lemma slice_split l a b c z :
  @slice E A l a c = Ok z -> a <= b <= c ->
  exists x y, @slice E A l a b = Ok x /\ @slice E A l b c = Ok y /\ z = x ++ y.
Proof.
  intros Hz Hb. pose proof (slice_inv _ _ _ _ Hz) as (?&?&?&?&?).
  destruct (slice_ok l a b) as (x & Hx & ?); [lia..|].
  destruct (slice_ok l b c) as (y & Hy & ?); [lia..|].
  exists x, y. split_and!; [done..|].
  pose proof (slice_join _ _ _ _ _ _ Hx Hy). congruence.
Qed.

Lemma slice_to_end l a x : @slice E A l a (zlen l) = Ok x -> drop (Z.to_nat a) l = x.
Proof.
  intros (?&?&?&?&->)%slice_inv. rewrite take_ge; [done|].
  rewrite length_drop. unfold zlen in *. lia.
Qed.

Lemma slice_index l a b x i :
  @slice E A l a b = Ok x -> 0 <= i < b - a -> @index E A x i = index l (a + i).
Proof.
  intros (?&?&?&?&->)%slice_inv Hi. unfold index.
  rewrite (proj2 (Z.leb_le 0 i)), (proj2 (Z.leb_le 0 (a + i))) by lia.
  rewrite lookup_take_lt by lia. rewrite lookup_drop. do 2 f_equal. lia.
Qed.

Lemma index_safe l i (Q : A -> Prop) :
  0 <= i < zlen l -> (forall x, @index E A l i = Ok x -> Q x) -> safe (@index E A l i) Q.
Proof.
  intros Hi HQ. unfold index in *. rewrite (proj2 (Z.leb_le 0 i)) in * by lia.
  destruct (lookup_lt_is_Some_2 l (Z.to_nat i)) as [x Hx]; [unfold zlen in *; lia|].
  rewrite Hx in *. by apply HQ.
Qed.

Lemma index_ok l i : 0 <= i < zlen l -> exists x, @index E A l i = Ok x.
Proof.
  intros Hi. unfold index. rewrite (proj2 (Z.leb_le 0 i)) by lia.
  destruct (lookup_lt_is_Some_2 l (Z.to_nat i)) as [x Hx]; [unfold zlen in *; lia|].
  rewrite Hx. by eexists.
Qed.

Lemma index_skip p l i :
  zlen p <= i -> @index E A (p ++ l) i = index l (i - zlen p).
Proof.
  intros H. pose proof (zlen_nonneg p). unfold index.
  rewrite (proj2 (Z.leb_le 0 i)), (proj2 (Z.leb_le 0 (i - _))) by lia.
  rewrite lookup_app_r by (unfold zlen in *; lia). do 2 f_equal. unfold zlen. lia.
Qed.

Lemma index_app_l p l i : i < zlen p -> @index E A (p ++ l) i = index p i.
Proof.
  intros H. unfold index. destruct (0 <=? i) eqn:Hi; [|done].
  rewrite lookup_app_l; [done|]. unfold zlen in H. lia.
Qed.

Lemma index_0 (x : A) l : @index E A (x :: l) 0 = Ok x.
Proof. done. Qed.

Lemma slice_one l i x : @index E A l i = Ok x -> @slice E A l i (i + 1) = Ok [x].
Proof.
  unfold index. destruct (0 <=? i) eqn:Hi; [|done].
  destruct (l !! Z.to_nat i) as [y|] eqn:Hl; [|done]. intros [= ->].
  pose proof (lookup_lt_Some _ _ _ Hl). apply Z.leb_le in Hi.
  unfold slice. rewrite (proj2 (Z.leb_le 0 i)), (proj2 (Z.leb_le i _)),
    (proj2 (Z.leb_le (i + 1) _)) by (unfold zlen; lia). simpl. f_equal.
  replace (i + 1 - i) with 1 by lia.
  rewrite (drop_S _ _ _ Hl). done.
Qed.
End slice_lemmas.

Lemma slice_here {E A} (p l : list A) a b :
  a = 0 -> b = zlen p -> @slice E A (p ++ l) a b = Ok p.
Proof. intros -> ->. by apply slice_head. Qed.

Lemma slice_whole {E A} (p : list A) a b : a = 0 -> b = zlen p -> @slice E A p a b = Ok p.
Proof. intros -> ->. by apply slice_all. Qed.

(** Read a fixed-offset field out of a concatenation whose lengths are known. *)
Ltac slice_app :=
  repeat (rewrite slice_skip by zlia);
  first [apply slice_here; zlia | apply slice_whole; zlia].

(** ** Bits *)

Lemma land1_shiftr a n : 0 <= n -> Z.land (Z.shiftr a n) 1 = Z.b2z (Z.testbit a n).
Proof.
  intros Hn. change 1 with (Z.ones 1). rewrite Z.land_ones by lia.
  rewrite Z.testbit_spec' by done. by rewrite Z.shiftr_div_pow2 by done.
Qed.

Lemma testbit_shiftl_b2z b j k :
  0 <= j -> 0 <= k -> Z.testbit (Z.shiftl (Z.b2z b) j) k = (k =? j) && b.
Proof.
  intros Hj Hk. rewrite Z.shiftl_spec by done. destruct (Z.eqb_spec k j) as [->|Hne]; simpl.
  - rewrite Z.sub_diag. by destruct b.
  - destruct (decide (k < j)); [by rewrite Z.testbit_neg_r by lia|].
    destruct b; [|by rewrite Z.testbit_0_l].
    change (Z.b2z true) with (2 ^ 0). rewrite Z.pow2_bits_false by lia. done.
Qed.

Lemma testbit_pow2 j k : 0 <= j -> Z.testbit (2 ^ j) k = (k =? j).
Proof.
  intros Hj. destruct (Z.eqb_spec k j) as [->|]; [by apply Z.pow2_bits_true|].
  by apply Z.pow2_bits_false.
Qed.

Lemma bits_lt x n :
  0 <= x -> 0 <= n -> (forall i, n <= i -> Z.testbit x i = false) -> x < 2 ^ n.
Proof.
  intros Hx Hn Hb. replace x with (x mod 2 ^ n); [apply Z.mod_pos_bound; lia|].
  apply Z.bits_inj'. intros i Hi. destruct (decide (i < n)).
  - by rewrite Z.mod_pow2_bits_low.
  - by rewrite Z.mod_pow2_bits_high, Hb by lia.
Qed.

Lemma testbit_above x n i : 0 <= x < 2 ^ n -> n <= i -> Z.testbit x i = false.
Proof.
  intros Hx Hi. destruct (decide (0 <= n)); [|rewrite Z.pow_neg_r in Hx; lia].
  replace x with (x mod 2 ^ n) by (by apply Z.mod_small). apply Z.mod_pow2_bits_high. lia.
Qed.

Lemma lxor_lt x y n : 0 <= x < 2 ^ n -> 0 <= y < 2 ^ n -> 0 <= Z.lxor x y < 2 ^ n.
Proof.
  intros Hx Hy. destruct (decide (0 <= n)); [|rewrite Z.pow_neg_r in Hx; lia].
  split; [by apply Z.lxor_nonneg; lia|].
  apply bits_lt; [by apply Z.lxor_nonneg; lia|done|]. intros i Hi.
  by rewrite Z.lxor_spec, (testbit_above x n i), (testbit_above y n i).
Qed.

Lemma shl_b2z {E} w b j : 0 <= j < w -> @shl E w (Z.b2z b) j = Ok (Z.shiftl (Z.b2z b) j).
Proof.
  intros Hj. unfold shl. rewrite (proj2 (Z.leb_le 0 j)), (proj2 (Z.ltb_lt j w)) by lia.
  simpl. f_equal. apply Z.mod_small. rewrite Z.shiftl_mul_pow2 by lia.
  assert (2 ^ j < 2 ^ w) by (apply Z.pow_lt_mono_r; lia).
  destruct b; simpl Z.b2z; lia.
Qed.

Lemma shl_1 {E} w j : 0 <= j < w -> @shl E w 1 j = Ok (2 ^ j).
Proof.
  intros Hj. change 1 with (Z.b2z true) at 1. rewrite shl_b2z by done.
  simpl. by rewrite Z.shiftl_1_l.
Qed.

Lemma shr_ok {E} w a j : 0 <= j < w -> @shr E w a j = Ok (Z.shiftr a j).
Proof.
  intros Hj. unfold shr. by rewrite (proj2 (Z.leb_le 0 j)), (proj2 (Z.ltb_lt j w)) by lia.
Qed.

(** A decidable fact about every element of a finite range. *)
Lemma range_forallb (P : Z -> bool) a b :
  forallb P (range a b) = true -> forall i, a <= i < b -> P i = true.
Proof.
  intros H i Hi. rewrite forallb_forall in H. apply H.
  apply list_elem_of_In. by apply elem_of_range.
Qed.

(** ** Buffer writes *)

(** The buffer [out] with [src] written at position [a]. *)
Definition splice {A} (out : list A) (a : nat) (src : list A) : list A :=
  take a out ++ src ++ drop (a + length src) out.

Section splice.
Context {E A : Type}.
Implicit Types (out src : list A).

Lemma length_splice out a src : (a + length src <= length out)%nat ->
  length (splice out a src) = length out.
Proof. intros. unfold splice. rewrite !length_app, length_take, length_drop. lia. Qed.

Lemma splice_splice out a s1 s2 : (a + length s1 + length s2 <= length out)%nat ->
  splice (splice out a s1) (a + length s1) s2 = splice out a (s1 ++ s2).
Proof.
  intros Hl. unfold splice. assert (Ht : length (take a out) = a) by (rewrite length_take; lia).
  assert (Hts : length (take a out ++ s1) = (a + length s1)%nat) by (rewrite length_app; lia).
  rewrite (app_assoc (take a out) s1). rewrite take_app_length' by done.
  rewrite drop_app_ge by lia. rewrite drop_drop, <- !app_assoc. do 4 f_equal.
  rewrite Hts, length_app. lia.
Qed.

Lemma splice_all out src : length src = length out -> splice out 0 src = src.
Proof.
  intros H. unfold splice. rewrite take_0, drop_ge by lia. simpl. by rewrite app_nil_r.
Qed.

Lemma splice_0 out src : splice out 0 src = src ++ drop (length src) out.
Proof. done. Qed.

Lemma splice_nil out a : splice out a [] = out.
Proof. unfold splice. simpl. by rewrite Nat.add_0_r, take_drop. Qed.

Lemma store_ok out i x : 0 <= i < zlen out ->
  @store E A out i x = Ok (splice out (Z.to_nat i) [x]).
Proof.
  intros Hi. unfold store. rewrite (proj2 (Z.leb_le 0 i)), (proj2 (Z.ltb_lt i _)) by lia.
  simpl. f_equal. unfold zlen in Hi. rewrite insert_take_drop by lia.
  unfold splice. simpl. do 3 f_equal. lia.
Qed.

Lemma copy_into_ok out a b src :
  0 <= a -> b <= zlen out -> zlen src = b - a ->
  @copy_into E A out a b src = Ok (splice out (Z.to_nat a) src).
Proof.
  intros Ha Hb Hs. pose proof (zlen_nonneg src). unfold copy_into.
  rewrite (proj2 (Z.leb_le 0 a)), (proj2 (Z.leb_le a b)), (proj2 (Z.leb_le b _)),
    (proj2 (Z.eqb_eq _ _)) by lia. simpl. unfold splice. do 4 f_equal. unfold zlen in *. lia.
Qed.
End splice.

Lemma le_encode_mod n z : le_encode n (z mod 2 ^ (8 * Z.of_nat n)) = le_encode n z.
Proof.
  rewrite <- (le_encode_decode_n n (le_encode n z)) by zlia. by rewrite le_decode_encode.
Qed.

(** Filling a zeroed buffer front to back: the next field lands after what is there. *)
Lemma fill_next {E} (p src : list byte) n a b : a = zlen p -> b = a + zlen src -> zlen src <= n ->
  @copy_into E _ (p ++ array x00 n) a b src = Ok ((p ++ src) ++ array x00 (n - zlen src)).
Proof.
  intros -> -> Hn. pose proof (zlen_nonneg p). pose proof (zlen_nonneg src).
  rewrite copy_into_ok by (rewrite ?zlen_app, ?zlen_array by lia; lia). f_equal. unfold splice.
  replace (Z.to_nat (zlen p)) with (length p) by (unfold zlen; lia). rewrite take_app_length, <- app_assoc.
  do 2 f_equal. rewrite drop_app_ge by lia. replace (length p + length src - length p)%nat with (length src) by lia.
  unfold array. rewrite drop_replicate. f_equal. unfold zlen. lia.
Qed.
