(* ===== verification/Float64.v ===== *)
(** * Float64: the [f64] of the management API and the plugin SDK

    IEEE 754 binary64 with round to nearest even, by the Standard Library's [SpecFloat] at
    precision 53 and exponent bound 1024: the operators, the conversions and the decimal
    literals that the sources use.  Every finite number is an integral multiple of
    [2^-1074]; [fval] is that multiple, and it turns the comparisons of floats, and the
    operations that are exact, into integer arithmetic. *)

From stdpp Require Import base list numbers option strings.
From Stdlib Require Import ZArith Lia Floats.SpecFloat.
From S2P Require Import Prelude.

Abbreviation f64 := spec_float.

Definition f64_add : f64 -> f64 -> f64 := SFadd 53 1024.
Definition f64_sub : f64 -> f64 -> f64 := SFsub 53 1024.
Definition f64_mul : f64 -> f64 -> f64 := SFmul 53 1024.
Definition f64_div : f64 -> f64 -> f64 := SFdiv 53 1024.

(** [n as f64] *)
Definition f64_of (n : Z) : f64 := binary_normalize 53 1024 n 0 false.

(** The decimal literal [n / d]: both are exact, so that the quotient is the literal's
    correctly rounded value. *)
Definition f64_lit (n d : Z) : f64 := f64_div (f64_of n) (f64_of d).

(** [x >= y] and [x > y] *)
Definition f64_ge (x y : f64) : bool := SFleb y x.
Definition f64_gt (x y : f64) : bool := SFltb y x.

(** [f64::min]: the other operand when one is not a number *)
Definition f64_min (x y : f64) : f64 :=
  match x, y with
  | S754_nan, _ => y
  | _, S754_nan => x
  | _, _ => if SFltb y x then y else x
  end.

(** [u128 as f64] and the like never produce what is not canonical. *)
Definition valid (x : f64) : bool := valid_binary 53 1024 x.

(** The value of a finite number, in units of [2^-1074] *)
Definition fval (x : f64) : Z :=
  match x with
  | S754_finite s m e => cond_Zopp s (Z.pos m * 2 ^ (e + 1074))
  | _ => 0
  end.

Definition unit_one : Z := 2 ^ 1074.

(** A number that is finite, canonical and not negative *)
Definition nonneg (x : f64) : bool :=
  match x with
  | S754_zero s => negb s
  | S754_finite s _ _ => negb s && valid x
  | _ => false
  end.

(** ** Canonical numbers *)

Lemma fexp_val e : fexp 53 1024 e = Z.max (e - 53) (-1074).
Proof. reflexivity. Qed.

Lemma digits2_size m : digits2_pos m = Pos.size m.
Proof. induction m; simpl; congruence. Qed.

Lemma Zdigits2_log2 m : 0 < m -> Zdigits2 m = Z.log2 m + 1.
Proof.
  destruct m as [|p|p]; try lia. intros _. cbn [Zdigits2]. rewrite digits2_size.
  destruct p; cbn [Z.log2 Pos.size]; lia.
Qed.

Lemma digits2_bounds p : 2 ^ (Z.pos (digits2_pos p) - 1) <= Z.pos p < 2 ^ Z.pos (digits2_pos p).
Proof.
  pose proof (Zdigits2_log2 (Z.pos p)) as Hd. cbn [Zdigits2] in Hd. rewrite Hd by lia.
  pose proof (Z.log2_spec (Z.pos p)). replace (Z.log2 (Z.pos p) + 1 - 1) with (Z.log2 (Z.pos p)) by lia.
  rewrite Z.add_1_r. lia.
Qed.

Lemma Zdigits2_unique m d : 0 < d -> 2 ^ (d - 1) <= m < 2 ^ d -> Zdigits2 m = d.
Proof.
  intros Hd Hm. assert (0 < m) by (pose proof (Z.pow_pos_nonneg 2 (d - 1)); lia).
  rewrite Zdigits2_log2 by done. rewrite (Z.log2_unique m (d - 1)); [lia.. |].
  replace (Z.succ (d - 1)) with d by lia. lia.
Qed.

Lemma Zdigits2_bounds m : 0 < m -> 0 < Zdigits2 m /\ 2 ^ (Zdigits2 m - 1) <= m < 2 ^ Zdigits2 m.
Proof. destruct m as [|p|p]; try lia. intros _. cbn [Zdigits2]. split; [lia | apply digits2_bounds]. Qed.

Lemma Zdigits2_mono a b : 0 <= a <= b -> Zdigits2 a <= Zdigits2 b.
Proof.
  intros Hab. destruct (decide (a = 0)) as [->|]; [destruct b; simpl; lia |].
  rewrite !Zdigits2_log2 by lia. pose proof (Z.log2_le_mono a b). lia.
Qed.

Lemma Zdigits2_le m d : 0 <= d -> 0 <= m < 2 ^ d -> Zdigits2 m <= d.
Proof.
  intros Hd Hm. destruct (decide (m = 0)) as [->|]; [simpl; lia |].
  rewrite Zdigits2_log2 by lia. pose proof (Z.log2_lt_pow2 m d). lia.
Qed.

Lemma Zdigits2_shift m k : 0 < m -> 0 <= k -> Zdigits2 (m * 2 ^ k) = Zdigits2 m + k.
Proof.
  intros. pose proof (Z.pow_pos_nonneg 2 k). rewrite !Zdigits2_log2 by nia. rewrite Z.log2_mul_pow2 by lia. lia.
Qed.

Lemma Zdigits2_div m k : 0 < m -> 0 <= k -> Zdigits2 (m / 2 ^ k) = Z.max 0 (Zdigits2 m - k).
Proof.
  intros Hm Hk. destruct (Zdigits2_bounds m Hm) as (Hd & Hlo & Hhi).
  destruct (decide (k < Zdigits2 m)).
  - rewrite Z.max_r by lia. apply Zdigits2_unique; [lia|]. split.
    + apply Z.div_le_lower_bound; [lia|]. rewrite <- Z.pow_add_r by lia.
      replace (k + (Zdigits2 m - k - 1)) with (Zdigits2 m - 1) by lia. done.
    + apply Z.div_lt_upper_bound; [lia|]. rewrite <- Z.pow_add_r by lia.
      replace (k + (Zdigits2 m - k)) with (Zdigits2 m) by lia. done.
  - rewrite Z.max_l by lia. rewrite Z.div_small; [done|]. split; [lia|].
    eapply Z.lt_le_trans; [exact Hhi|]. apply Z.pow_le_mono_r; lia.
Qed.

(** ** Rounding *)

Lemma shr_1_m mrs : 0 <= shr_m mrs -> shr_m (shr_1 mrs) = shr_m mrs / 2.
Proof.
  destruct mrs as [m r s]; simpl. intros Hm. rewrite <- Z.div2_div.
  destruct m as [|[p|p|]|p]; simpl; (done || lia).
Qed.

Lemma iter_shr p : forall mrs, 0 <= shr_m mrs -> shr_m (iter_pos shr_1 p mrs) = shr_m mrs / 2 ^ Z.pos p.
Proof.
  induction p as [p IH|p IH|]; intros mrs Hm; cbn [iter_pos].
  - assert (0 <= shr_m mrs / 2) by (apply Z.div_pos; lia).
    assert (0 <= shr_m mrs / 2 / 2 ^ Z.pos p) by (apply Z.div_pos; lia).
    rewrite (IH (iter_pos _ _ _)); rewrite (IH (shr_1 mrs)); rewrite shr_1_m; try done.
    rewrite !Z.div_div by lia. f_equal. rewrite (Pos2Z.inj_xI p), Z.pow_add_r, Z.mul_comm by lia.
    replace (2 * Z.pos p) with (Z.pos p + Z.pos p) by lia. rewrite Z.pow_add_r by lia. lia.
  - assert (0 <= shr_m mrs / 2 ^ Z.pos p) by (apply Z.div_pos; lia).
    rewrite (IH (iter_pos _ _ _)); rewrite (IH mrs); try done.
    rewrite Z.div_div by lia. f_equal. rewrite (Pos2Z.inj_xO p).
    replace (2 * Z.pos p) with (Z.pos p + Z.pos p) by lia. rewrite Z.pow_add_r by lia. lia.
  - by apply shr_1_m.
Qed.

Lemma shr_spec mrs e k : 0 <= shr_m mrs -> 0 <= k ->
  shr_m (fst (SpecFloat.shr mrs e k)) = shr_m mrs / 2 ^ k /\ snd (SpecFloat.shr mrs e k) = e + k.
Proof.
  intros Hm Hk. destruct k as [|p|p]; [simpl; rewrite Z.div_1_r; lia | | lia].
  cbn [SpecFloat.shr fst snd]. split; [by apply iter_shr | done].
Qed.

Lemma shr_record_m m l : shr_m (shr_record_of_loc m l) = m.
Proof. by destruct l as [|[]]. Qed.

(** The exponent at which a mantissa is canonical *)
Definition cexp (m e : Z) : Z := fexp 53 1024 (Zdigits2 m + e).

Lemma shr_fexp_spec m e l : 0 <= m -> e <= cexp m e ->
  shr_m (fst (shr_fexp 53 1024 m e l)) = m / 2 ^ (cexp m e - e) /\ snd (shr_fexp 53 1024 m e l) = cexp m e.
Proof.
  intros Hm He. unfold shr_fexp. fold (cexp m e).
  destruct (shr_spec (shr_record_of_loc m l) e (cexp m e - e)) as [-> ->]; rewrite ?shr_record_m; [lia.. |].
  split; [done | lia].
Qed.

(** After the shift the mantissa is canonical, or zero at the least exponent. *)
Lemma shifted_cexp m e : 0 < m -> e <= cexp m e ->
  let m' := m / 2 ^ (cexp m e - e) in
  0 <= m' < 2 ^ 53 /\ cexp m' (cexp m e) = cexp m e /\ (m' < 2 ^ 52 -> cexp m e = -1074).
Proof.
  intros Hm He m'. destruct (Zdigits2_bounds m Hm) as (Hd & Hlo & Hhi).
  assert (Hm' : 0 <= m') by (apply Z.div_pos; lia).
  pose proof (Zdigits2_div m (cexp m e - e) Hm ltac:(lia)) as Hdiv. fold m' in Hdiv.
  assert (Hc : cexp m e = Z.max (Zdigits2 m + e - 53) (-1074)) by (unfold cexp; by rewrite fexp_val).
  assert (Hd53 : Zdigits2 m' <= 53) by lia.
  assert (Hb : m' < 2 ^ 53).
  { destruct (decide (m' = 0)) as [->|]; [lia|]. destruct (Zdigits2_bounds m') as (_ & _ & Hu); [lia|].
    eapply Z.lt_le_trans; [exact Hu|]. apply Z.pow_le_mono_r; lia. }
  split; [lia|]. split.
  - unfold cexp at 1. rewrite fexp_val. lia.
  - intros Hlt. destruct (decide (m' = 0)) as [H0|]; [rewrite H0 in Hdiv; simpl in Hdiv; lia|].
    destruct (Zdigits2_bounds m') as (_ & Hl & _); [lia|].
    destruct (decide (Zdigits2 m' = 53)) as [E|]; [rewrite E in Hl; lia | lia].
Qed.

Definition signed_as (s : bool) (x : f64) : Prop :=
  x = S754_zero s \/ x = S754_infinity s \/ exists m e, x = S754_finite s m e.

(** What rounding returns: canonical, with the given sign, never "not a number"; its value is
    that of the truncated mantissa or of the next one. *)
Lemma round_aux_spec s m e l : 0 <= m -> e <= cexp m e ->
  let x := binary_round_aux 53 1024 s m e l in
  let m1 := m / 2 ^ (cexp m e - e) in
  valid x = true /\ exists m2, (m2 = m1 \/ m2 = m1 + 1) /\
    (x = S754_infinity s \/ (x = S754_zero s /\ m2 = 0) \/
     exists m' e', x = S754_finite s m' e' /\ Z.pos m' * 2 ^ (e' + 1074) = m2 * 2 ^ (cexp m e + 1074)).
Proof.
  intros Hm He. cbv zeta. unfold binary_round_aux.
  pose proof (shr_fexp_spec m e l Hm He) as [Hs1 Hs2].
  destruct (shr_fexp 53 1024 m e l) as [mrs1 e1]. simpl in Hs1, Hs2.
  set (m2 := round_nearest_even (shr_m mrs1) (loc_of_shr_record mrs1)).
  assert (Hm2 : m2 = shr_m mrs1 \/ m2 = shr_m mrs1 + 1).
  { unfold m2, round_nearest_even. destruct (loc_of_shr_record mrs1) as [|[]]; auto. destruct (Z.even _); auto. }
  assert (H1 : 0 <= shr_m mrs1 < 2 ^ 53 /\ cexp (shr_m mrs1) e1 = e1 /\ -1074 <= e1 /\ (shr_m mrs1 < 2 ^ 52 -> e1 = -1074)).
  { destruct (decide (m = 0)) as [->|].
    - rewrite Hs1, Hs2. rewrite Z.div_0_l by (pose proof (Z.pow_pos_nonneg 2 (cexp 0 e - e)); lia).
      unfold cexp in *. simpl in He |- *. rewrite !fexp_val in *. simpl in *. lia.
    - destruct (shifted_cexp m e) as (Hb & Hc & Hsm); [lia.. |]. rewrite Hs1, Hs2.
      split; [done|]. split; [done|]. split; [| done]. unfold cexp. rewrite fexp_val. lia. }
  destruct H1 as (Hb1 & Hc1 & Hl1 & Hsub).
  assert (Hdig : cexp m2 e1 = e1 \/ (m2 = 2 ^ 53 /\ cexp m2 e1 = e1 + 1)).
  { destruct (decide (m2 = 2 ^ 53)) as [->|Hne].
    - right. split; [done|]. unfold cexp. rewrite fexp_val.
      rewrite (Zdigits2_unique (2 ^ 53) 54) by lia. lia.
    - left. unfold cexp. rewrite fexp_val.
      assert (Zdigits2 m2 <= 53) by (apply Zdigits2_le; lia).
      destruct (decide (shr_m mrs1 < 2 ^ 52)) as [Hlt|]; [rewrite (Hsub Hlt); lia|].
      rewrite (Zdigits2_unique m2 53) by lia. lia. }
  pose proof (shr_fexp_spec m2 e1 loc_Exact ltac:(lia) ltac:(lia)) as [Ht1 Ht2].
  destruct (shr_fexp 53 1024 m2 e1 loc_Exact) as [mrs2 e2]. simpl in Ht1, Ht2.
  assert (Hfin : 0 <= shr_m mrs2 /\ cexp (shr_m mrs2) e2 = e2 /\ shr_m mrs2 * 2 ^ (e2 + 1074) = m2 * 2 ^ (e1 + 1074)).
  { destruct Hdig as [E|[Em E]]; rewrite E in Ht1, Ht2; subst e2.
    - rewrite Z.sub_diag, Z.div_1_r in Ht1. rewrite Ht1. split; [lia | done].
    - replace (e1 + 1 - e1) with 1 in Ht1 by lia. rewrite Em in Ht1 |- *. change (2 ^ 53 / 2 ^ 1) with (2 ^ 52) in Ht1.
      rewrite Ht1. split; [lia|]. split.
      + unfold cexp. rewrite fexp_val, (Zdigits2_unique (2 ^ 52) 53) by lia. lia.
      + rewrite <- !Z.pow_add_r by lia. f_equal. lia. }
  destruct Hfin as (Hp & Hcan & Hval). rewrite Hs2 in *.
  destruct (shr_m mrs2) as [|p|p] eqn:Hsm; [| | lia].
  - split; [done|]. exists m2. rewrite <- Hs1. split; [done|]. right; left. split; [done|].
    assert (0 < 2 ^ (cexp m e + 1074)) by (apply Z.pow_pos_nonneg; lia). lia.
  - destruct (e2 <=? 1024 - 53) eqn:Hle.
    + split.
      * unfold valid, valid_binary, bounded, canonical_mantissa. apply andb_true_intro. split; [| done].
        apply Z.eqb_eq. exact Hcan.
      * exists m2. rewrite <- Hs1. split; [done|]. right; right. by exists p, e2.
    + split; [done|]. exists m2. rewrite <- Hs1. split; [done|]. by left.
Qed.

Lemma round_aux_valid s m e l : 0 <= m -> e <= cexp m e ->
  valid (binary_round_aux 53 1024 s m e l) = true /\ signed_as s (binary_round_aux 53 1024 s m e l).
Proof.
  intros Hm He. destruct (round_aux_spec s m e l Hm He) as (Hv & m2 & _ & Hx). split; [done|].
  unfold signed_as. naive_solver.
Qed.

(** A canonical mantissa is returned as it is. *)
Lemma round_aux_exact s p e : cexp (Z.pos p) e = e -> e <= 971 ->
  binary_round_aux 53 1024 s (Z.pos p) e loc_Exact = S754_finite s p e.
Proof.
  intros Hc He.
  assert (Hs : shr_fexp 53 1024 (Z.pos p) e loc_Exact = (Build_shr_record (Z.pos p) false false, e)).
  { unfold shr_fexp. fold (cexp (Z.pos p) e). by rewrite Hc, Z.sub_diag. }
  unfold binary_round_aux. rewrite Hs. cbn [shr_m loc_of_shr_record round_nearest_even]. rewrite Hs. cbn [shr_m].
  by replace (e <=? 1024 - 53) with true by lia.
Qed.

Lemma pos_iter_xO p d : Z.pos (Pos.iter xO p d) = Z.pos p * 2 ^ Z.pos d.
Proof.
  induction d as [|d IH] using Pos.peano_ind; [simpl; lia|].
  rewrite Pos.iter_succ, Pos2Z.inj_xO, IH, Pos2Z.inj_succ, Z.pow_succ_r by lia. lia.
Qed.

(** Aligning a mantissa to a smaller exponent keeps the value. *)
Lemma shl_align_spec p e e' :
  Z.pos (fst (shl_align p e e')) = Z.pos p * 2 ^ (e - snd (shl_align p e e')) /\ snd (shl_align p e e') = Z.min e e'.
Proof.
  unfold shl_align. destruct (e' - e) as [|d|d] eqn:Hd; cbn [fst snd].
  - rewrite Z.sub_diag. lia.
  - rewrite Z.sub_diag. lia.
  - rewrite pos_iter_xO. replace (e - e') with (Z.pos d) by lia. lia.
Qed.

Lemma round_valid s p e :
  valid (binary_round 53 1024 s p e) = true /\ signed_as s (binary_round 53 1024 s p e).
Proof.
  unfold binary_round. change (fexp 53 1024 (Z.pos (digits2_pos p) + e)) with (cexp (Z.pos p) e).
  pose proof (shl_align_spec p e (cexp (Z.pos p) e)) as [Hm He].
  destruct (shl_align p e (cexp (Z.pos p) e)) as [mz ez]. cbn [fst snd] in Hm, He. subst ez.
  apply round_aux_valid; [lia|]. unfold cexp at 2. rewrite Hm, Zdigits2_shift by lia.
  unfold cexp. rewrite !fexp_val. lia.
Qed.

(** A number of at most 53 bits is not rounded. *)
Lemma round_exact s p e : Z.pos p < 2 ^ 53 -> -1074 <= e <= 971 ->
  exists m' e', binary_round 53 1024 s p e = S754_finite s m' e' /\ valid (S754_finite s m' e') = true /\
    Z.pos m' * 2 ^ (e' + 1074) = Z.pos p * 2 ^ (e + 1074).
Proof.
  intros Hp He. unfold binary_round. change (fexp 53 1024 (Z.pos (digits2_pos p) + e)) with (cexp (Z.pos p) e).
  pose proof (shl_align_spec p e (cexp (Z.pos p) e)) as [Hm He'].
  assert (Hc : cexp (Z.pos p) e = Z.max (Zdigits2 (Z.pos p) + e - 53) (-1074)) by (unfold cexp; by rewrite fexp_val).
  assert (Hd : Zdigits2 (Z.pos p) <= 53) by (apply Zdigits2_le; lia).
  destruct (shl_align p e (cexp (Z.pos p) e)) as [mz ez]. cbn [fst snd] in Hm, He'. subst ez.
  rewrite Z.min_r in Hm |- * by lia.
  assert (Hcan : cexp (Z.pos mz) (cexp (Z.pos p) e) = cexp (Z.pos p) e).
  { unfold cexp at 1. rewrite Hm, Zdigits2_shift by lia. rewrite fexp_val. lia. }
  exists mz, (cexp (Z.pos p) e). split; [apply round_aux_exact; [done | lia]|]. split.
  - unfold valid, valid_binary, bounded, canonical_mantissa. apply andb_true_intro.
    split; [apply Z.eqb_eq; exact Hcan | lia].
  - rewrite Hm, <- Z.mul_assoc, <- Z.pow_add_r by lia. do 2 f_equal. lia.
Qed.

(** Nor is a longer one whose low bits are zero. *)
Lemma iter_shr_exact p : forall q, 0 < q ->
  iter_pos shr_1 p (Build_shr_record (q * 2 ^ Z.pos p) false false) = Build_shr_record q false false.
Proof.
  assert (H1 : forall q, 0 < q -> shr_1 (Build_shr_record (q * 2) false false) = Build_shr_record q false false).
  { intros q Hq. destruct q as [|q|q]; try lia. by rewrite Z.mul_comm. }
  induction p as [p IH|p IH|]; intros q Hq; cbn [iter_pos].
  - replace (Z.pos p~1) with (Z.pos p + Z.pos p + 1) by lia. rewrite !Z.pow_add_r, !Z.mul_assoc by lia. rewrite Z.pow_1_r.
    rewrite H1 by (repeat apply Z.mul_pos_pos; try apply Z.pow_pos_nonneg; lia).
    rewrite IH by (apply Z.mul_pos_pos; [lia | apply Z.pow_pos_nonneg; lia]). by apply IH.
  - replace (Z.pos p~0) with (Z.pos p + Z.pos p) by lia. rewrite Z.pow_add_r, Z.mul_assoc by lia.
    rewrite IH by (apply Z.mul_pos_pos; [lia | apply Z.pow_pos_nonneg; lia]). by apply IH.
  - by apply H1.
Qed.

Lemma round_exact_long s p e q k : Z.pos p = q * 2 ^ k -> 0 < q < 2 ^ 53 -> 0 <= k -> -1074 <= e -> e + k <= 971 ->
  exists m' e', binary_round 53 1024 s p e = S754_finite s m' e' /\ valid (S754_finite s m' e') = true /\
    Z.pos m' * 2 ^ (e' + 1074) = Z.pos p * 2 ^ (e + 1074).
Proof.
  intros Hp Hq Hk He Hek.
  assert (Hdp : Zdigits2 (Z.pos p) = Zdigits2 q + k) by (rewrite Hp; apply Zdigits2_shift; lia).
  assert (Hdq : Zdigits2 q <= 53) by (apply Zdigits2_le; lia).
  destruct (decide (Zdigits2 (Z.pos p) <= 53)) as [Hs|Hl].
  { destruct (Zdigits2_bounds (Z.pos p)) as (_ & _ & Hu); [lia|].
    apply round_exact; [| lia]. eapply Z.lt_le_trans; [exact Hu|]. apply Z.pow_le_mono_r; lia. }
  set (j := Zdigits2 (Z.pos p) - 53). set (m := q * 2 ^ (k - j)).
  assert (Hpm : Z.pos p = m * 2 ^ j).
  { unfold m. rewrite <- Z.mul_assoc, <- Z.pow_add_r by lia. rewrite Hp. do 2 f_equal. lia. }
  assert (Hm : 0 < m) by (apply Z.mul_pos_pos; [lia | apply Z.pow_pos_nonneg; lia]).
  assert (Hdm : Zdigits2 m = 53) by (unfold m; rewrite Zdigits2_shift by lia; lia).
  assert (Hc : cexp (Z.pos p) e = e + j) by (unfold cexp; rewrite fexp_val; lia).
  assert (Hcm : cexp m (e + j) = e + j) by (unfold cexp; rewrite fexp_val; lia).
  assert (Hs1 : shr_fexp 53 1024 (Z.pos p) e loc_Exact = (Build_shr_record m false false, e + j)).
  { unfold shr_fexp. change (fexp 53 1024 (Zdigits2 (Z.pos p) + e)) with (cexp (Z.pos p) e). rewrite Hc.
    replace (e + j - e) with j by lia. destruct j as [|jp|jp] eqn:Ej; [lia | | lia].
    cbn [SpecFloat.shr shr_record_of_loc]. rewrite Hpm, iter_shr_exact by done. done. }
  assert (Hs2 : shr_fexp 53 1024 m (e + j) loc_Exact = (Build_shr_record m false false, e + j)).
  { unfold shr_fexp. change (fexp 53 1024 (Zdigits2 m + (e + j))) with (cexp m (e + j)). by rewrite Hcm, Z.sub_diag. }
  assert (Hal : shl_align p e (cexp (Z.pos p) e) = (p, e)).
  { unfold shl_align. rewrite Hc. replace (e + j - e) with j by lia. destruct j eqn:Ej; [done | done | lia]. }
  unfold binary_round. change (fexp 53 1024 (Z.pos (digits2_pos p) + e)) with (cexp (Z.pos p) e). rewrite Hal.
  unfold binary_round_aux. rewrite Hs1. cbn [shr_m loc_of_shr_record round_nearest_even]. rewrite Hs2. cbn [shr_m].
  destruct m as [|mp|mp] eqn:Em; [lia | | lia]. replace (e + j <=? 1024 - 53) with true by lia.
  exists mp, (e + j). split; [done|]. split.
  - unfold valid, valid_binary, bounded, canonical_mantissa. apply andb_true_intro.
    split; [apply Z.eqb_eq; exact Hcm | lia].
  - rewrite Hpm, <- Z.mul_assoc, <- Z.pow_add_r by lia. do 2 f_equal. lia.
Qed.

(** ** The operations *)

Lemma valid_finite s m e : valid (S754_finite s m e) = true <-> cexp (Z.pos m) e = e /\ e <= 971.
Proof. unfold valid, valid_binary, bounded, canonical_mantissa. rewrite andb_true_iff, Z.eqb_eq, Z.leb_le. done. Qed.

(** A canonical number fills 53 bits or has the least exponent. *)
Lemma valid_finite_bounds s m e : valid (S754_finite s m e) = true ->
  -1074 <= e <= 971 /\ Z.pos m < 2 ^ 53 /\ (2 ^ 52 <= Z.pos m \/ e = -1074).
Proof.
  intros [Hc He]%valid_finite. unfold cexp in Hc. rewrite fexp_val in Hc.
  destruct (Zdigits2_bounds (Z.pos m)) as (_ & Hl & Hu); [lia|].
  split; [lia|]. split.
  - eapply Z.lt_le_trans; [exact Hu|]. apply Z.pow_le_mono_r; lia.
  - destruct (decide (e = -1074)); [by right|]. left.
    etransitivity; [| exact Hl]. apply Z.pow_le_mono_r; lia.
Qed.

Lemma finite_lt s1 s2 m1 e1 m2 e2 :
  valid (S754_finite s1 m1 e1) = true -> valid (S754_finite s2 m2 e2) = true -> e1 < e2 ->
  Z.pos m1 * 2 ^ (e1 + 1074) < Z.pos m2 * 2 ^ (e2 + 1074).
Proof.
  intros V1%valid_finite_bounds V2%valid_finite_bounds He.
  apply (Z.lt_le_trans _ (2 ^ 53 * 2 ^ (e1 + 1074))); [apply Z.mul_lt_mono_pos_r; lia|].
  rewrite <- Z.pow_add_r by lia. apply (Z.le_trans _ (2 ^ 52 * 2 ^ (e2 + 1074))); [| apply Z.mul_le_mono_nonneg_r; lia].
  rewrite <- Z.pow_add_r by lia. apply Z.pow_le_mono_r; lia.
Qed.

Lemma nonneg_inv x : nonneg x = true ->
  x = S754_zero false \/ exists m e, x = S754_finite false m e /\ valid x = true.
Proof.
  destruct x as [[]| | |[] m e]; try done; [by left|]. intros Hv. right. by exists m, e.
Qed.

Lemma fval_pos m e : valid (S754_finite false m e) = true -> 0 < fval (S754_finite false m e).
Proof.
  intros V%valid_finite_bounds. cbn [fval cond_Zopp]. pose proof (Z.pow_pos_nonneg 2 (e + 1074)). nia.
Qed.

Lemma nonneg_fval x : nonneg x = true -> 0 <= fval x.
Proof. intros [->|(m & e & -> & V)]%nonneg_inv; [done|]. pose proof (fval_pos m e V). lia. Qed.

Lemma nonneg_valid x : nonneg x = true -> valid x = true.
Proof. by intros [->|(m & e & -> & V)]%nonneg_inv. Qed.

(** Comparing numbers that are not negative is comparing their values. *)
Lemma nonneg_compare x y : nonneg x = true -> nonneg y = true -> SFcompare x y = Some (fval x ?= fval y).
Proof.
  intros [->|(m1 & e1 & -> & V1)]%nonneg_inv [->|(m2 & e2 & -> & V2)]%nonneg_inv; cbn [SFcompare].
  - done.
  - f_equal. symmetry. apply Z.compare_lt_iff, fval_pos, V2.
  - f_equal. symmetry. apply Z.compare_gt_iff, fval_pos, V1.
  - f_equal. cbn [fval cond_Zopp]. destruct (Z.compare_spec e1 e2) as [->|Hlt|Hgt].
    + apply valid_finite_bounds in V2. pose proof (Z.pow_pos_nonneg 2 (e2 + 1074)).
      change (Pos.compare_cont Eq m1 m2) with (Z.pos m1 ?= Z.pos m2). apply Zmult_compare_compat_r. lia.
    + symmetry. apply Z.compare_lt_iff. by eapply finite_lt.
    + symmetry. apply Z.compare_gt_iff. by eapply finite_lt.
Qed.

Lemma f64_ge_spec x y : nonneg x = true -> nonneg y = true -> f64_ge x y = (fval y <=? fval x).
Proof.
  intros. unfold f64_ge, SFleb. rewrite nonneg_compare by done. unfold Z.leb. by destruct (_ ?= _).
Qed.

(** The smaller of a number and a sum that may have overflowed *)
Lemma f64_min_nonneg x y : valid x = true -> signed_as false x -> nonneg y = true ->
  nonneg (f64_min x y) = true /\ fval (f64_min x y) <= fval y /\
  (nonneg x = true -> fval (f64_min x y) = Z.min (fval x) (fval y)).
Proof.
  intros V Hs Hy.
  assert (Hx : nonneg x = true \/ x = S754_infinity false).
  { destruct Hs as [->|[->|(m & e & ->)]]; [by left | by right | by left]. }
  destruct Hx as [Hx| ->].
  - assert (E : f64_min x y = if SFltb y x then y else x).
    { by destruct (nonneg_inv x Hx) as [->|(? & ? & -> & _)]; destruct (nonneg_inv y Hy) as [->|(? & ? & -> & _)]. }
    rewrite E. unfold SFltb. rewrite nonneg_compare by done. destruct (Z.compare_spec (fval y) (fval x)); split_and!; (done || lia).
  - destruct (nonneg_inv y Hy) as [->|(? & ? & -> & _)]; cbn; split_and!; done.
Qed.

Lemma signed_zero s : signed_as s (S754_zero s).
Proof. by left. Qed.

(** Sums, products and quotients of numbers that are not negative *)
Lemma f64_add_nonneg x y : valid x = true -> signed_as false x -> valid y = true -> signed_as false y ->
  valid (f64_add x y) = true /\ signed_as false (f64_add x y).
Proof.
  intros Vx [->|[->|(m1 & e1 & ->)]] Vy [->|[->|(m2 & e2 & ->)]]; unfold f64_add; cbn [SFadd];
    try (split; [done | unfold signed_as; naive_solver]).
  unfold cond_Zopp. cbn [Z.add binary_normalize]. apply round_valid.
Qed.

Lemma cexp_digits m e : cexp m e = Z.max (Zdigits2 m + e - 53) (-1074).
Proof. unfold cexp. by rewrite fexp_val. Qed.

Lemma f64_mul_nonneg x y : nonneg x = true -> nonneg y = true ->
  valid (f64_mul x y) = true /\ signed_as false (f64_mul x y).
Proof.
  intros [->|(m1 & e1 & -> & V1)]%nonneg_inv [->|(m2 & e2 & -> & V2)]%nonneg_inv; unfold f64_mul; cbn [SFmul xorb];
    try (split; [done | apply signed_zero]).
  apply round_aux_valid; [lia|]. apply valid_finite_bounds in V1, V2. rewrite cexp_digits.
  destruct (decide (e1 = -1074 /\ e2 = -1074)) as [[-> ->]|Hn]; [lia|].
  enough (53 <= Zdigits2 (Z.pos (m1 * m2))) by lia.
  transitivity (Zdigits2 (2 ^ 52)); [rewrite (Zdigits2_unique (2 ^ 52) 53) by lia; lia|]. apply Zdigits2_mono. lia.
Qed.

Lemma f64_of_nonneg n : 0 <= n -> valid (f64_of n) = true /\ signed_as false (f64_of n).
Proof.
  intros Hn. destruct n as [|p|p]; [split; [done | apply signed_zero] | | lia]. apply round_valid.
Qed.

(** Integers below [2^53] are exact. *)
Lemma f64_of_exact n : 0 <= n < 2 ^ 53 -> nonneg (f64_of n) = true /\ fval (f64_of n) = n * unit_one.
Proof.
  intros Hn. destruct n as [|p|p]; [done | | lia]. cbn [f64_of binary_normalize].
  destruct (round_exact false p 0) as (m & e & E & V & Hv); [lia.. |]. unfold f64_of; cbn [binary_normalize]. rewrite E.
  split; [done|]. exact Hv.
Qed.

(** Subtracting one from a number that is at least one is exact: the difference needs no
    more bits than the number. *)
Lemma f64_sub_one x : nonneg x = true -> unit_one <= fval x < 2 ^ 53 * unit_one ->
  nonneg (f64_sub x (f64_of 1)) = true /\ fval (f64_sub x (f64_of 1)) = fval x - unit_one.
Proof.
  intros Hx Hb. destruct (nonneg_inv x Hx) as [->|(m & e & -> & V)]; [unfold unit_one in Hb; simpl in Hb; lia|].
  pose proof (valid_finite_bounds _ _ _ V) as (He & Hm & Hn).
  assert (Hone : f64_of 1 = S754_finite false (2 ^ 52)%positive (-52)) by reflexivity. rewrite Hone.
  assert (He0 : -52 <= e <= 0).
  { cbn [fval cond_Zopp] in Hb. unfold unit_one in Hb. split.
    - apply Z.nlt_ge. intros Hlt.
      assert (Z.pos m * 2 ^ (e + 1074) < 2 ^ 1074); [| lia].
      apply (Z.lt_le_trans _ (2 ^ 53 * 2 ^ (e + 1074))); [apply Z.mul_lt_mono_pos_r; lia|].
      rewrite <- Z.pow_add_r by lia. apply Z.pow_le_mono_r; lia.
    - apply Z.nlt_ge. intros Hlt. destruct Hn as [Hn|]; [| lia].
      assert (2 ^ 53 * 2 ^ 1074 <= Z.pos m * 2 ^ (e + 1074)); [| lia].
      transitivity (2 ^ 52 * 2 ^ (e + 1074)); [| apply Z.mul_le_mono_nonneg_r; lia].
      rewrite <- !Z.pow_add_r by lia. apply Z.pow_le_mono_r; lia. }
  unfold f64_sub. cbn [SFsub]. rewrite Z.min_r by lia.
  pose proof (shl_align_spec m e (-52)) as [Ha Hb']. rewrite Hb', Z.min_r in Ha by lia.
  assert (Ho : fst (shl_align (2 ^ 52)%positive (-52) (-52)) = (2 ^ 52)%positive) by reflexivity. rewrite Ho.
  unfold cond_Zopp. rewrite Ha. change (Z.pos (2 ^ 52)) with (2 ^ 52).
  replace (e - -52) with (e + 52) by lia.
  assert (Hq : Z.pos m * 2 ^ (e + 52) - 2 ^ 52 = (Z.pos m - 2 ^ (- e)) * 2 ^ (e + 52)).
  { rewrite Z.mul_sub_distr_r, <- Z.pow_add_r by lia. do 2 f_equal. lia. }
  cbn [fval cond_Zopp] in Hb |- *.
  assert (Hfin : Z.pos m * 2 ^ (e + 1074) - unit_one = (Z.pos m * 2 ^ (e + 52) - 2 ^ 52) * 2 ^ (-52 + 1074)).
  { rewrite Z.mul_sub_distr_r, <- Z.mul_assoc, <- !Z.pow_add_r by lia. unfold unit_one. do 3 f_equal; lia. }
  rewrite Hfin. destruct (Z.pos m * 2 ^ (e + 52) - 2 ^ 52) as [|p|p] eqn:Ep.
  - done.
  - cbn [binary_normalize].
    assert (0 < 2 ^ (- e)) by (apply Z.pow_pos_nonneg; lia). assert (0 < 2 ^ (e + 52)) by (apply Z.pow_pos_nonneg; lia).
    destruct (round_exact_long false p (-52) (Z.pos m - 2 ^ (- e)) (e + 52)) as (m' & e' & E & V' & Hv); [lia | nia | lia.. |].
    rewrite E. split; [done | exact Hv].
  - assert (0 < 2 ^ (-52 + 1074)) by (apply Z.pow_pos_nonneg; lia). nia.
Qed.

Lemma div_digits m d s : 0 < m -> 0 < d -> 0 <= s -> Zdigits2 m + s - Zdigits2 d <= Zdigits2 (m * 2 ^ s / d).
Proof.
  intros Hm Hd Hs. destruct (Zdigits2_bounds m Hm) as (Hm0 & Hml & _). destruct (Zdigits2_bounds d Hd) as (Hd0 & _ & Hdu).
  set (k := Zdigits2 m + s - Zdigits2 d).
  destruct (decide (k <= 0)).
  { assert (0 <= m * 2 ^ s / d) by (apply Z.div_pos; [apply Z.mul_nonneg_nonneg; lia | lia]).
    destruct (m * 2 ^ s / d); simpl; lia. }
  assert (Hq : 2 ^ (k - 1) <= m * 2 ^ s / d).
  { apply Z.div_le_lower_bound; [lia|]. transitivity (2 ^ Zdigits2 d * 2 ^ (k - 1)).
    { apply Z.mul_le_mono_nonneg_r; lia. }
    rewrite <- Z.pow_add_r by lia. transitivity (2 ^ (Zdigits2 m - 1) * 2 ^ s).
    { rewrite <- Z.pow_add_r by lia. apply Z.pow_le_mono_r; lia. }
    apply Z.mul_le_mono_nonneg_r; lia. }
  transitivity (Zdigits2 (2 ^ (k - 1))).
  - rewrite Zdigits2_log2 by lia. rewrite Z.log2_pow2 by lia. lia.
  - apply Zdigits2_mono. lia.
Qed.

Lemma f64_div_nonneg x y : nonneg x = true -> nonneg y = true -> 0 < fval y ->
  valid (f64_div x y) = true /\ signed_as false (f64_div x y).
Proof.
  intros [->|(m1 & e1 & -> & V1)]%nonneg_inv [->|(m2 & e2 & -> & V2)]%nonneg_inv Hy; unfold f64_div; cbn [SFdiv xorb];
    try (simpl in Hy; lia).
  { split; [done | apply signed_zero]. }
  unfold SFdiv_core_binary. set (d1 := Zdigits2 (Z.pos m1)). set (d2 := Zdigits2 (Z.pos m2)).
  set (e' := Z.min (fexp 53 1024 (d1 + e1 - (d2 + e2))) (e1 - e2)). set (s := e1 - e2 - e').
  assert (Hs : 0 <= s) by lia.
  replace (match s with Z0 => Z.pos m1 | Z.pos _ => Z.shiftl (Z.pos m1) s | Z.neg _ => 0 end) with (Z.pos m1 * 2 ^ s).
  2:{ destruct s; [lia | by rewrite Z.shiftl_mul_pow2 by lia | lia]. }
  pose proof (Z.div_eucl_eq (Z.pos m1 * 2 ^ s) (Z.pos m2)) as Hdiv.
  assert (Hq : fst (Z.div_eucl (Z.pos m1 * 2 ^ s) (Z.pos m2)) = Z.pos m1 * 2 ^ s / Z.pos m2) by done.
  destruct (Z.div_eucl _ _) as [q r]. simpl in Hq. subst q.
  apply round_aux_valid.
  - apply Z.div_pos; [apply Z.mul_nonneg_nonneg; lia | lia].
  - pose proof (div_digits (Z.pos m1) (Z.pos m2) s ltac:(lia) ltac:(lia) Hs). fold d1 d2 in H.
    rewrite cexp_digits. unfold e' at 1. rewrite fexp_val. lia.
Qed.

(** What computing with numbers that are not negative can give: such a number, positive
    infinity, or (from zero times infinity) not a number. *)
Definition benign (x : f64) : Prop := valid x = true /\ (signed_as false x \/ x = S754_nan).

Lemma benign_cases x : benign x -> nonneg x = true \/ x = S754_infinity false \/ x = S754_nan.
Proof. intros [V [[->|[->|(m & e & ->)]]| ->]]; naive_solver. Qed.

Lemma nonneg_benign x : nonneg x = true -> benign x.
Proof.
  intros Hx. split; [by apply nonneg_valid|]. left.
  destruct (nonneg_inv x Hx) as [->|(m & e & -> & _)]; unfold signed_as; naive_solver.
Qed.

Lemma benign_special x : x = S754_infinity false \/ x = S754_nan -> benign x.
Proof. intros [->| ->]; split; unfold signed_as; naive_solver. Qed.

Lemma benign_add x y : benign x -> benign y -> benign (f64_add x y).
Proof.
  intros [Vx [Hx| ->]] [Vy [Hy| ->]]; [| apply benign_special; right; by (destruct x || destruct y || idtac) ..].
  destruct (f64_add_nonneg x y Vx Hx Vy Hy). by split; [| left].
Qed.

Lemma benign_mul x y : benign x -> benign y -> benign (f64_mul x y).
Proof.
  intros Bx%benign_cases By%benign_cases. destruct Bx as [Hx|Bx], By as [Hy|By].
  - destruct (f64_mul_nonneg x y Hx Hy). by split; [| left].
  - destruct (nonneg_inv x Hx) as [->|(m & e & -> & _)]; destruct By as [->| ->]; apply benign_special; simpl; auto.
  - destruct (nonneg_inv y Hy) as [->|(m & e & -> & _)]; destruct Bx as [->| ->]; apply benign_special; simpl; auto.
  - destruct Bx as [->| ->], By as [->| ->]; apply benign_special; simpl; auto.
Qed.

Lemma benign_min x y : benign x -> nonneg y = true ->
  nonneg (f64_min x y) = true /\ fval (f64_min x y) <= fval y.
Proof.
  intros [V [Hs| ->]] Hy; [| done]. destruct (f64_min_nonneg x y V Hs Hy) as (? & ? & _). done.
Qed.

Lemma f64_min_id x y : nonneg x = true -> nonneg y = true -> fval x <= fval y -> f64_min x y = x.
Proof.
  intros Hx Hy Hle.
  assert (E : f64_min x y = if SFltb y x then y else x).
  { by destruct (nonneg_inv x Hx) as [->|(? & ? & -> & _)]; destruct (nonneg_inv y Hy) as [->|(? & ? & -> & _)]. }
  rewrite E. unfold SFltb. rewrite nonneg_compare by done. by destruct (Z.compare_spec (fval y) (fval x)); [| lia |].
Qed.

Lemma f64_mul_zero x : nonneg x = true -> f64_mul (S754_zero false) x = S754_zero false.
Proof. by intros [->|(m & e & -> & _)]%nonneg_inv. Qed.

Lemma f64_add_zero x : nonneg x = true -> f64_add x (S754_zero false) = x.
Proof. by intros [->|(m & e & -> & _)]%nonneg_inv. Qed.

(** ** Lower bounds by powers of two, which rounding respects *)

Definition at_least (k : Z) (x : f64) : Prop :=
  x = S754_infinity false \/ (nonneg x = true /\ 2 ^ (k + 1074) <= fval x).

Lemma round_aux_lower m e l k : 0 < m -> e <= cexp m e -> -1074 <= k < Zdigits2 m + e ->
  at_least k (binary_round_aux 53 1024 false m e l).
Proof.
  intros Hm He Hk. destruct (round_aux_spec false m e l) as (Hv & m2 & Hm2 & Hx); [lia | done |].
  set (m1 := m / 2 ^ (cexp m e - e)) in *.
  assert (Hc : cexp m e = Z.max (Zdigits2 m + e - 53) (-1074)) by apply cexp_digits.
  pose proof (Zdigits2_div m (cexp m e - e) Hm ltac:(lia)) as Hd. fold m1 in Hd.
  assert (Hm1 : 0 < m1).
  { assert (0 <= m1) by (apply Z.div_pos; lia). destruct (decide (m1 = 0)) as [E|]; [| lia].
    rewrite E in Hd. simpl in Hd. lia. }
  destruct (Zdigits2_bounds m1 Hm1) as (Hd0 & Hlo & _).
  assert (Hb : 2 ^ (k + 1074) <= m2 * 2 ^ (cexp m e + 1074)).
  { transitivity (m1 * 2 ^ (cexp m e + 1074)); [| apply Z.mul_le_mono_nonneg_r; lia].
    transitivity (2 ^ (Zdigits2 m1 - 1 + (cexp m e + 1074))); [apply Z.pow_le_mono_r; lia|].
    rewrite Z.pow_add_r by lia. apply Z.mul_le_mono_nonneg_r; lia. }
  destruct Hx as [->|[[-> ->]|(m' & e' & Hfin & Hval)]]; [by left | lia |].
  rewrite Hfin in Hv |- *. right. split; [exact Hv|]. cbn [fval cond_Zopp]. by rewrite Hval.
Qed.

Lemma round_lower p e k : -1074 <= k -> 2 ^ (k + 1074) <= Z.pos p * 2 ^ (e + 1074) -> -1074 <= e ->
  at_least k (binary_round 53 1024 false p e).
Proof.
  intros Hk Hle He. unfold binary_round. change (fexp 53 1024 (Z.pos (digits2_pos p) + e)) with (cexp (Z.pos p) e).
  pose proof (shl_align_spec p e (cexp (Z.pos p) e)) as [Hm He'].
  destruct (shl_align p e (cexp (Z.pos p) e)) as [mz ez]. cbn [fst snd] in Hm, He'. subst ez.
  assert (Hdig : Zdigits2 (Z.pos mz) + e `min` cexp (Z.pos p) e = Zdigits2 (Z.pos p) + e) by (rewrite Hm, Zdigits2_shift by lia; lia).
  apply round_aux_lower; [lia | rewrite (cexp_digits (Z.pos mz)), Hdig, cexp_digits; lia |]. split; [lia|]. rewrite Hdig.
  apply Z.nle_gt. intros Hn. destruct (Zdigits2_bounds (Z.pos p)) as (Hd0 & _ & Hu); [lia|].
  assert (Z.pos p * 2 ^ (e + 1074) < 2 ^ (k + 1074)); [| lia].
  apply (Z.lt_le_trans _ (2 ^ Zdigits2 (Z.pos p) * 2 ^ (e + 1074))); [apply Z.mul_lt_mono_pos_r; lia|].
  rewrite <- Z.pow_add_r by lia. apply Z.pow_le_mono_r; lia.
Qed.

Lemma f64_mul_lower x y k : nonneg x = true -> nonneg y = true -> -1074 <= k -> 2 ^ (k + 2148) <= fval x * fval y ->
  at_least k (f64_mul x y).
Proof.
  intros Hx Hy Hk Hle.
  destruct (nonneg_inv x Hx) as [->|(m1 & e1 & -> & V1)]; [assert (0 < 2 ^ (k + 2148)) by (apply Z.pow_pos_nonneg; lia); simpl in Hle; lia|].
  destruct (nonneg_inv y Hy) as [->|(m2 & e2 & -> & V2)].
  { assert (0 < 2 ^ (k + 2148)) by (apply Z.pow_pos_nonneg; lia). cbn [fval] in Hle. lia. }
  unfold f64_mul. cbn [SFmul xorb]. pose proof (valid_finite_bounds _ _ _ V1). pose proof (valid_finite_bounds _ _ _ V2).
  cbn [fval cond_Zopp] in Hle.
  assert (Hd : k < Zdigits2 (Z.pos (m1 * m2)) + (e1 + e2)).
  { apply Z.nle_gt. intros Hn. destruct (Zdigits2_bounds (Z.pos (m1 * m2))) as (Hd0 & _ & Hu); [lia|].
    assert (Z.pos m1 * 2 ^ (e1 + 1074) * (Z.pos m2 * 2 ^ (e2 + 1074)) < 2 ^ (k + 2148)); [| lia].
    replace (Z.pos m1 * 2 ^ (e1 + 1074) * (Z.pos m2 * 2 ^ (e2 + 1074))) with (Z.pos (m1 * m2) * (2 ^ (e1 + 1074) * 2 ^ (e2 + 1074))) by lia.
    rewrite <- Z.pow_add_r by lia.
    apply (Z.lt_le_trans _ (2 ^ Zdigits2 (Z.pos (m1 * m2)) * 2 ^ (e1 + 1074 + (e2 + 1074)))); [apply Z.mul_lt_mono_pos_r; lia|].
    rewrite <- Z.pow_add_r by lia. apply Z.pow_le_mono_r; lia. }
  apply round_aux_lower; [lia | rewrite cexp_digits | lia].
  destruct (decide (e1 = -1074 /\ e2 = -1074)) as [[-> ->]|Hn]; [lia|].
  enough (53 <= Zdigits2 (Z.pos (m1 * m2))) by lia.
  transitivity (Zdigits2 (2 ^ 52)); [rewrite (Zdigits2_unique (2 ^ 52) 53) by lia; lia|]. apply Zdigits2_mono. lia.
Qed.

Lemma f64_add_comm x y : f64_add x y = f64_add y x.
Proof.
  unfold f64_add. destruct x as [[]|[]| |s1 m1 e1], y as [[]|[]| |s2 m2 e2]; try done. cbn [SFadd].
  rewrite (Z.min_comm e1 e2). by rewrite Z.add_comm.
Qed.

Lemma f64_add_lower x y k : -1074 <= k -> at_least k x -> nonneg y = true \/ y = S754_infinity false -> at_least k (f64_add x y).
Proof.
  intros Hk Hx [Hy| ->].
  2:{ destruct Hx as [->|[Hx _]]; [by left|]. by destruct (nonneg_inv x Hx) as [->|(? & ? & -> & _)]; left. }
  destruct Hx as [->|[Hx Hle]].
  { by destruct (nonneg_inv y Hy) as [->|(? & ? & -> & _)]; left. }
  destruct (nonneg_inv y Hy) as [->|(m2 & e2 & -> & V2)]; [rewrite f64_add_zero by done; by right|].
  destruct (nonneg_inv x Hx) as [->|(m1 & e1 & -> & V1)].
  { assert (0 < 2 ^ (k + 1074)) by (apply Z.pow_pos_nonneg; lia). cbn [fval] in Hle. lia. }
  unfold f64_add. cbn [SFadd cond_Zopp]. cbn [fval cond_Zopp] in Hle.
  pose proof (valid_finite_bounds _ _ _ V1) as (? & _). pose proof (valid_finite_bounds _ _ _ V2) as (? & _).
  pose proof (shl_align_spec m1 e1 (e1 `min` e2)) as [Ha Hb]. rewrite Hb in Ha.
  unfold cond_Zopp. cbn [Z.add binary_normalize]. apply round_lower; [done | | lia].
  transitivity (Z.pos m1 * 2 ^ (e1 + 1074)); [done|].
  transitivity (Z.pos (fst (shl_align m1 e1 (e1 `min` e2))) * 2 ^ (e1 `min` e2 + 1074)).
  - rewrite Ha. rewrite <- Z.mul_assoc, <- Z.pow_add_r by lia. apply Z.eq_le_incl. do 2 f_equal. lia.
  - apply Z.mul_le_mono_nonneg_r; lia.
Qed.

(** A number that is at least [2^k] is greater than a smaller one. *)
Lemma at_least_gt k x y : at_least k x -> nonneg y = true -> fval y < 2 ^ (k + 1074) -> f64_gt x y = true.
Proof.
  intros [->|[Hx Hle]] Hy Hlt.
  - by destruct (nonneg_inv y Hy) as [->|(? & ? & -> & _)].
  - unfold f64_gt, SFltb. rewrite nonneg_compare by done.
    assert (fval y < fval x) as Hc%Z.compare_lt_iff by lia. by rewrite Hc.
Qed.
