(* ===== verification/Crypto.v ===== *)
(** * Crypto: the third-party primitives, as interfaces

    [sha2], [subtle] and [p256] are crates outside the
    repository.  Each is a class of operations, the parameters of the
    definitions that call them, and a class of laws, what the callers rely on.
    No law says that a hash has no collisions: where that matters a theorem
    exhibits the collision instead.

    [toy_digest] and the instances of [Module Toy] are concrete functions that
    satisfy every law; they are used only to evaluate definitions on concrete
    inputs. *)

From stdpp Require Import base list numbers option strings.
From Stdlib Require Import ZArith Lia Strings.Byte.
From S2P Require Import Prelude.

(** [sha2::Sha256::digest] and [subtle::ConstantTimeEq::ct_eq] on [[u8; 32]]. *)
Class HashOps := {
  sha256 : list byte -> list byte;
  ct_eq : list byte -> list byte -> bool
}.

Class HashLaws `{HashOps} : Prop := {
  sha256_length : forall data, length (sha256 data) = 32%nat;
  ct_eq_spec : forall a b, ct_eq a b = true <-> a = b
}.

(** ECDSA P-256 of the [p256] crate on encoded values: [SigningKey::from_bytes]
    accepts the scalar, [VerifyingKey::from(&key).to_sec1_point(true)],
    [Signer::sign] as fixed-size bytes, [VerifyingKey::from_sec1_bytes] and
    [Signature::from_slice] accept their input, and [Verifier::verify]. *)
Class SigOps := {
  sk_valid : list byte -> bool;
  pk_of : list byte -> list byte;
  sign : list byte -> list byte -> list byte;
  pk_valid : list byte -> bool;
  sig_valid : list byte -> bool;
  sig_verify : list byte -> list byte -> list byte -> bool
}.

(** The crate's own round trip: what a key signs, its public key verifies. *)
Class SigLaws `{SigOps} : Prop := {
  pk_of_length : forall sk, sk_valid sk = true -> length (pk_of sk) = 33%nat;
  pk_of_valid : forall sk, sk_valid sk = true -> pk_valid (pk_of sk) = true;
  sign_length : forall sk msg, sk_valid sk = true -> length (sign sk msg) = 64%nat;
  sign_valid : forall sk msg, sk_valid sk = true -> sig_valid (sign sk msg) = true;
  sign_verifies : forall sk msg, sk_valid sk = true -> sig_verify (pk_of sk) msg (sign sk msg) = true
}.

(** Two different inputs with the same digest. *)
Definition collision `{HashOps} (x y : list byte) : Prop :=
  x <> y /\ sha256 x = sha256 y.

Module Toy.

(** Xor-folding of the input into 32 bytes, seeded with its length. *)
Fixpoint xor_bytes (l1 l2 : list byte) : list byte :=
  match l1, l2 with
  | a :: l1, b :: l2 => z2b (Z.lxor (b2z a) (b2z b)) :: xor_bytes l1 l2
  | [], l => l
  | l, [] => l
  end.

Fixpoint fold_chunks (fuel : nat) (acc l : list byte) : list byte :=
  match fuel with
  | O => acc
  | S fuel =>
      match l with
      | [] => acc
      | _ => fold_chunks fuel (reverse (take 32 (xor_bytes acc (take 32 l)))) (drop 32 l)
      end
  end.

Definition toy_digest (data : list byte) : list byte :=
  take 32 (fold_chunks (length data) (le_encode 32 (zlen data)) data ++ replicate 32 x00).

Definition hash : HashOps := {| sha256 := toy_digest; ct_eq := bytes_eqb |}.

(** A tag that depends on key and message stands for a signature. *)
Definition toy_sign (sk msg : list byte) : list byte := toy_digest (sk ++ msg) ++ toy_digest msg.

Definition sig : SigOps := {|
  sk_valid sk := zlen sk =? 32;
  pk_of sk := x02 :: sk;
  sign := toy_sign;
  pk_valid pk := zlen pk =? 33;
  sig_valid s := zlen s =? 64;
  sig_verify pk msg s := bytes_eqb s (toy_sign (List.tl pk) msg)
|}.

End Toy.

Section hash_lemmas.
Context `{HashLaws}.

Lemma zlen_sha256 data : zlen (sha256 data) = 32.
Proof. unfold zlen. by rewrite sha256_length. Qed.

Lemma ct_eq_refl a : ct_eq a a = true.
Proof. by apply ct_eq_spec. Qed.

Lemma ct_eq_false a b : ct_eq a b = false <-> a <> b.
Proof. rewrite <- (ct_eq_spec a b). by destruct (ct_eq a b). Qed.

(** Equal digests of different inputs are a collision. *)
Lemma sha256_inj_or_collision x y : sha256 x = sha256 y -> x = y \/ collision x y.
Proof. intros Heq. destruct (decide (x = y)); [by left | by right]. Qed.
End hash_lemmas.

#[export] Hint Rewrite @zlen_sha256 using done : zlen.

Lemma length_toy_digest data : length (Toy.toy_digest data) = 32%nat.
Proof. unfold Toy.toy_digest. rewrite length_take, length_app, length_replicate. lia. Qed.

Lemma toy_sig_laws : @SigLaws Toy.sig.
Proof.
  assert (Hs : forall sk msg, length (Toy.toy_sign sk msg) = 64%nat)
    by (intros; unfold Toy.toy_sign; by rewrite length_app, !length_toy_digest).
  split; cbn [sk_valid pk_of sign pk_valid sig_valid sig_verify Toy.sig].
  - intros sk Hk%Z.eqb_eq. unfold zlen in Hk. simpl. lia.
  - intros sk Hk%Z.eqb_eq. apply Z.eqb_eq. unfold zlen in *. simpl. lia.
  - intros sk msg _. apply Hs.
  - intros sk msg _. apply Z.eqb_eq. unfold zlen. by rewrite Hs.
  - intros sk msg _. apply (bytes_eqb_refl (Toy.toy_sign sk msg)).
Qed.

Lemma toy_hash_laws : @HashLaws Toy.hash.
Proof.
  split; simpl.
  - apply length_toy_digest.
  - apply bytes_eqb_eq.
Qed.
