(* ===== verification/Core.v ===== *)
(** * Core: errors, limits, the work-capping observer and the bound gates

    Models [error.rs], [constants.rs], [observer.rs], [integrity_gate.rs],
    [crypto.rs], [digest.rs] and the two bound checks of [boot_validate.rs] in
    [dfim_core_engine/src]. *)

From stdpp Require Import base list numbers option strings.
From Stdlib Require Import ZArith Lia Strings.Byte.
From S2P Require Import Prelude Crypto.

Inductive DfimError : Type :=
| InvalidParameter
| ParameterOverflow
| BufferTooShort
| BufferTooLong
| UncorrectableError
| CorruptMetadata
| IntegrityFailure
| WorkCapExceeded
| EmptyInput.

#[export] Instance DfimError_eq_dec : EqDecision DfimError.
Proof. solve_decision. Defined.

Abbreviation DfimResult := (outcome DfimError).

(** [DfimError::as_str] *)
Definition as_str (e : DfimError) : string :=
  match e with
  | InvalidParameter => "invalid parameter"
  | ParameterOverflow => "parameter overflow"
  | BufferTooShort => "buffer too short"
  | BufferTooLong => "buffer too long"
  | UncorrectableError => "uncorrectable error detected"
  | CorruptMetadata => "corrupt metadata detected"
  | IntegrityFailure => "integrity verification failed"
  | WorkCapExceeded => "computation work cap exceeded"
  | EmptyInput => "empty input"
  end.

Definition DK_LEN : Z := 32.
Definition SHA256_LEN : Z := 32.
Definition HAMMING_MIN_DATA_BITS : Z := 4.
Definition HAMMING_MAX_DATA_BITS : Z := 247.

Definition DFIM_BLOCK_SIZE : Z := 4096.
Definition MAX_BOOT_BLOCKS : Z := 64.
Definition MAX_IMAGE_BYTES : Z := MAX_BOOT_BLOCKS * DFIM_BLOCK_SIZE.
Definition MAX_PROOF_STEPS : Z := 16.
Definition MAX_FEC_BACKUP : Z := 128.

(** [PatternObserver]: a counter of loop iterations with a hard cap. *)
Record PatternObserver := { max_iterations : Z; count : Z }.

Module Observer.

Definition new (max_iterations : Z) : DfimResult PatternObserver :=
  if max_iterations =? 0 then Err InvalidParameter
  else Ok {| max_iterations := max_iterations; count := 0 |}.

(** [tick] takes [&mut self]; every caller propagates its error and drops the
    observer, so the incremented observer is returned on success. *)
Definition tick (self : PatternObserver) : DfimResult PatternObserver :=
  let count' := saturating_add self.(count) 1 in
  if count' >? self.(max_iterations) then Err WorkCapExceeded
  else Ok {| max_iterations := self.(max_iterations); count := count' |}.

Definition reset (self : PatternObserver) : PatternObserver :=
  {| max_iterations := self.(max_iterations); count := 0 |}.

(** [n] further ticks are available. *)
Definition budget (self : PatternObserver) : Z := self.(max_iterations) - self.(count).

Definition wf (self : PatternObserver) : Prop :=
  0 <= self.(count) <= self.(max_iterations) /\ self.(max_iterations) <= USIZE_MAX.

End Observer.

(** A loop whose body starts with [observer.tick()?]. *)
Definition observed {A B} (f : B -> A -> DfimResult B) :
    PatternObserver * B -> A -> DfimResult (PatternObserver * B) :=
  fun '(o, b) a => o ← Observer.tick o; b ← f b a; Ok (o, b).

Definition validate_block_count (block_count : Z) : DfimResult unit :=
  if block_count =? 0 then Err InvalidParameter
  else if block_count >? MAX_BOOT_BLOCKS then Err ParameterOverflow
  else Ok tt.

Definition validate_image_byte_len (image_len : Z) : DfimResult unit :=
  if image_len =? 0 then Err EmptyInput
  else if image_len >? MAX_IMAGE_BYTES then Err BufferTooLong
  else let blocks := div_ceil image_len DFIM_BLOCK_SIZE in
       if blocks >? MAX_BOOT_BLOCKS then Err ParameterOverflow
       else Ok tt.

Definition assert_image_bounds (image_len : Z) : DfimResult unit :=
  validate_image_byte_len image_len.

Definition assert_block_index (index block_count : Z) : DfimResult unit :=
  validate_block_count block_count ;;
  if index >=? block_count then Err IntegrityFailure else Ok tt.

Definition assert_target_path (path_component_len : Z) : DfimResult unit :=
  if path_component_len =? 0 then Err InvalidParameter
  else if path_component_len >? U32_MAX then Err ParameterOverflow
  else Ok tt.

(** [read_u32], one private copy in [parser.rs], [state_db.rs],
    [manifest.rs] and [signed_manifest.rs] *)
Definition read_u32 (bytes : list byte) : DfimResult Z :=
  if zlen bytes <? 4 then Err BufferTooShort
  else b0 ← index bytes 0; b1 ← index bytes 1; b2 ← index bytes 2; b3 ← index bytes 3;
       Ok (le_decode [b0; b1; b2; b3]).

(** The comparison loop [difference |= left[off + index] ^ right[index]] of
    [signed_manifest.rs] and [rollback.rs] *)
Definition xor_difference (left : list byte) (off : Z) (right : list byte) (n : Z) : DfimResult Z :=
  foldM (fun difference i =>
    l ← index left (off + i);
    r ← index right i;
    Ok (Z.lor difference (Z.lxor (b2z l) (b2z r)))) 0 (range 0 n).

Section crypto.
Context `{HashOps}.

Definition constant_time_hash_eq (a b : list byte) : bool := ct_eq a b.

Definition sha256_digest (data : list byte) : list byte := sha256 data.

Definition manifest_digest (canonical_utf8 : list byte) : DfimResult (list byte) :=
  if zlen canonical_utf8 =? 0 then Err EmptyInput
  else Ok (sha256_digest canonical_utf8).

(** Successive [update]s hash the concatenation. *)
Definition sha256_digest_chunked (chunks : list (list byte)) : list byte :=
  sha256 (concat chunks).
End crypto.

Definition HEX : list byte := bytes_of_string "0123456789abcdef".

(** [digest_to_hex]: [out[2 * i]] and [out[2 * i + 1]] for each byte *)
Definition digest_to_hex (digest : list byte) : DfimResult (list byte) :=
  snd <$> foldM (fun '(i, out) byte =>
    hi ← index HEX (Z.shiftr (b2z byte) 4);
    out ← store out (i * 2) hi;
    lo ← index HEX (Z.land (b2z byte) 15);
    out ← store out (i * 2 + 1) lo;
    Ok (i + 1, out)) (0, array x00 64) digest.

(** ** The observer *)

Lemma observer_new_ok n : 0 < n <= USIZE_MAX ->
  exists o, Observer.new n = Ok o /\ Observer.wf o /\ Observer.budget o = n.
Proof.
  intros Hn. unfold Observer.new. rewrite (proj2 (Z.eqb_neq n 0)) by lia.
  eexists; split_and!; [done| |]; unfold Observer.wf, Observer.budget; simpl; lia.
Qed.

Lemma observer_tick_ok o : Observer.wf o -> 0 < Observer.budget o ->
  exists o', Observer.tick o = Ok o' /\ Observer.wf o' /\
             Observer.budget o' = Observer.budget o - 1.
Proof.
  unfold Observer.wf, Observer.budget, Observer.tick, saturating_add. intros Hwf Hb.
  rewrite Z.min_l by lia. rewrite Z.gtb_ltb, (proj2 (Z.ltb_ge _ _)) by lia.
  eexists; split_and!; [done|..]; simpl; lia.
Qed.

(** A loop with enough budget behaves as the same loop without the observer. *)
Lemma observed_foldM {A B} (f : B -> A -> DfimResult B) o b l :
  Observer.wf o -> zlen l <= Observer.budget o ->
  exists o', Observer.wf o' /\ Observer.budget o' = Observer.budget o - zlen l /\
    foldM (observed f) (o, b) l = (b' ← foldM f b l; Ok (o', b')).
Proof.
  revert o b. induction l as [|a l IH]; intros o b Hwf Hb; len.
  { exists o. split_and!; [done|lia|done]. }
  pose proof (zlen_nonneg l).
  destruct (observer_tick_ok o) as (o1 & Ht & Hwf1 & Hb1); [done|lia|].
  destruct (f b a) as [b1|e|] eqn:Hf.
  - destruct (IH o1 b1) as (o2 & Hwf2 & Hb2 & Heq); [done|lia|].
    exists o2. split_and!; [done|lia|]. simpl. rewrite Ht. simpl. by rewrite Hf.
  - destruct (IH o1 b) as (o2 & Hwf2 & Hb2 & Heq); [done|lia|].
    exists o2. split_and!; [done|lia|]. simpl. rewrite Ht. simpl. by rewrite Hf.
  - destruct (IH o1 b) as (o2 & Hwf2 & Hb2 & Heq); [done|lia|].
    exists o2. split_and!; [done|lia|]. simpl. rewrite Ht. simpl. by rewrite Hf.
Qed.

Lemma observed_loop {A B} (f : B -> A -> DfimResult B) n b l :
  0 < n <= USIZE_MAX -> zlen l <= n ->
  (o ← Observer.new n; snd <$> foldM (observed f) (o, b) l) = foldM f b l.
Proof.
  intros Hn Hl. destruct (observer_new_ok n) as (o & -> & Hwf & Hb); [lia|]. simpl.
  destruct (observed_foldM f o b l) as (o' & _ & _ & ->); [done|lia|].
  by destruct (foldM f b l).
Qed.

(** ** Bound gates *)

Lemma validate_block_count_Ok n : 0 <= n ->
  validate_block_count n = Ok tt <-> 1 <= n <= MAX_BOOT_BLOCKS.
Proof.
  intros Hn. unfold validate_block_count, MAX_BOOT_BLOCKS.
  destruct (Z.eqb_spec n 0), (Z.gtb_spec n 64); split; (done || lia).
Qed.

Lemma validate_image_byte_len_Ok n : 0 <= n ->
  validate_image_byte_len n = Ok tt <-> 1 <= n <= MAX_IMAGE_BYTES.
Proof.
  intros Hn. unfold validate_image_byte_len, MAX_IMAGE_BYTES, MAX_BOOT_BLOCKS, DFIM_BLOCK_SIZE, div_ceil.
  destruct (Z.eqb_spec n 0), (Z.gtb_spec n (64 * 4096)),
    (Z.gtb_spec ((n + 4096 - 1) / 4096) 64); split;
    try done; Z.to_euclidean_division_equations; lia.
Qed.

Lemma assert_block_index_Ok i n : 0 <= n ->
  assert_block_index i n = Ok tt <-> 1 <= n <= MAX_BOOT_BLOCKS /\ i < n.
Proof.
  intros Hn. rewrite <- (validate_block_count_Ok n Hn). unfold assert_block_index.
  destruct (validate_block_count n) as [[]| |]; simpl; [|naive_solver..].
  rewrite Z.geb_leb. destruct (Z.leb_spec n i); naive_solver lia.
Qed.

(** ** Little-endian words *)

Lemma read_u32_four bytes : zlen bytes = 4 -> read_u32 bytes = Ok (le_decode bytes).
Proof.
  intros Hl. unfold read_u32. rewrite (proj2 (Z.ltb_ge _ _)) by lia.
  unfold zlen in Hl. destruct bytes as [|b0 [|b1 [|b2 [|b3 [|]]]]]; simpl in Hl; lia || done.
Qed.

Lemma read_u32_encode z : 0 <= z < 2 ^ 32 -> read_u32 (le_encode 4 z) = Ok z.
Proof.
  intros. rewrite read_u32_four by zlia. by rewrite le_decode_encode_small.
Qed.

Lemma le_decode_u32_range bytes : zlen bytes = 4 -> 0 <= le_decode bytes < 2 ^ 32.
Proof. intros Hl. pose proof (le_decode_range bytes). by rewrite Hl in *. Qed.

(** A little-endian word read from the middle of arbitrary data. *)
Lemma safe_read_u32 {B} data a b (f : Z -> DfimResult B) Q :
  0 <= a -> b = a + 4 -> b <= zlen data ->
  (forall z, 0 <= z < 2 ^ 32 -> slice data a b = @Ok DfimError _ (le_encode 4 z) -> safe (f z) Q) ->
  safe ((x ← slice data a b; read_u32 x) ≫= f) Q.
Proof.
  intros Ha -> Hl Hf. destruct (@slice_ok DfimError _ data a (a + 4)) as (x & Hx & Hz); [lia..|].
  rewrite Hx in *. rewrite ok_bind, read_u32_four, ok_bind by lia. apply Hf.
  - apply le_decode_u32_range. lia.
  - by rewrite (le_encode_decode_n 4) by lia.
Qed.

(** The difference is zero exactly on equal strings. *)
Lemma xor_difference_ok left off right n x : 0 <= off ->
  slice left off (off + n) = @Ok DfimError _ x -> zlen right = n ->
  exists d, xor_difference left off right n = Ok d /\ (d = 0 <-> x = right).
Proof.
  intros Ho Hx Hr. pose proof (slice_inv _ _ _ _ Hx) as (_ & _ & _ & Hxl & _).
  pose proof (zlen_nonneg right). unfold xor_difference.
  loop_inv (fun i d => d = 0 <-> take (Z.to_nat i) x = take (Z.to_nat i) right).
  - lia.
  - done.
  - intros i d Hi HI. rewrite <- (slice_index _ _ _ _ _ Hx) by lia.
    destruct (@index_ok DfimError _ x i) as [a Ha]; [lia|].
    destruct (@index_ok DfimError _ right i) as [b Hb]; [lia|].
    rewrite Ha, Hb, !ok_bind. eexists; split; [done|].
    unfold index in Ha, Hb. rewrite (proj2 (Z.leb_le 0 i)) in Ha, Hb by lia.
    destruct (x !! Z.to_nat i) as [a'|] eqn:Hxa; [|done]. injection Ha as ->.
    destruct (right !! Z.to_nat i) as [b'|] eqn:Hrb; [|done]. injection Hb as ->.
    replace (Z.to_nat (i + 1)) with (S (Z.to_nat i)) by lia.
    rewrite (take_S_r _ _ _ Hxa), (take_S_r _ _ _ Hrb), Z.lor_eq_0_iff, Z.lxor_eq_0_iff, HI.
    split.
    + intros [-> ->%b2z_inj]. done.
    + intros Heq. apply app_inj_tail in Heq as [-> ->]. done.
  - exists x'. split; [done|]. rewrite HI, !take_ge by (unfold zlen in *; lia). done.
Qed.
