(* ===== verification/Hamming.v ===== *)
(** * Hamming: the forward error correction of boot metadata

    Models [dfim_core_engine/src/hamming.rs]: the bit-level codec for any data
    width, the strict decoder, and the Hamming(7,4) block codec that protects
    the metadata of a sidecar.

    The theorems show that the codec corrects every single-bit error for every
    width whose codeword fits in a [u64], that the block codec round trips and
    survives one flipped bit per codeword, and where the code stops working:
    the widths whose shifts leave [u64], and the multi-bit errors that the
    strict (7,4) decoder cannot see because the code is perfect. *)

From stdpp Require Import base list numbers option strings.
From Stdlib Require Import ZArith Lia Strings.Byte.
From S2P Require Import Prelude Crypto Core.

(** [n - 1], shifted right until it is 0; a [usize] has 64 bits. *)
Fixpoint ceil_log2_loop (fuel : nat) (r v : Z) : Z :=
  match fuel with
  | O => r
  | S fuel => if v >? 0 then ceil_log2_loop fuel (r + 1) (Z.shiftr v 1) else r
  end.

Definition ceil_log2 (n : Z) : Z :=
  if n <=? 1 then 1 else ceil_log2_loop 64 0 (n - 1).

Definition in_data_range (n_data : Z) : bool :=
  (HAMMING_MIN_DATA_BITS <=? n_data) && (n_data <=? HAMMING_MAX_DATA_BITS).

(** The observer stops the loop after 64 iterations, so 65 units of fuel are
    never used up. *)
Fixpoint parity_loop (fuel : nat) (observer : PatternObserver) (n_data r : Z) : DfimResult Z :=
  match fuel with
  | O => Panic
  | S fuel =>
      pow ← shl 64 1 r;
      if pow <? n_data + r + 1 then
        observer ← Observer.tick observer;
        let r := r + 1 in
        if r >? 64 then Err ParameterOverflow
        else parity_loop fuel observer n_data r
      else Ok r
  end.

Definition parity_bit_count (n_data : Z) : DfimResult Z :=
  if negb (in_data_range n_data) then Err InvalidParameter
  else
    let r := ceil_log2 (n_data + 1) in
    observer ← Observer.new 64;
    parity_loop 65 observer n_data r.

Definition codeword_bit_length (n_data : Z) : DfimResult Z :=
  r ← parity_bit_count n_data;
  ok_or (checked_add n_data r) ParameterOverflow.

Definition is_parity_position (pos : Z) : bool :=
  negb (pos =? 0) && (Z.land pos (pos - 1) =? 0).

Definition data_mask (bits : Z) : Z :=
  if bits >=? 64 then U64_MAX else Z.shiftl 1 bits - 1.

(** [parity ^= (cw >> (pos - 1)) & 1] for the positions [1..=total] with bit
    [p] set, the inner loop of the encoder and of the decoder *)
Definition parity_of (cw total p : Z) : DfimResult Z :=
  foldM (fun parity pos =>
    sp ← shr 64 pos p;
    if Z.land sp 1 =? 1 then
      b ← shr 64 cw (pos - 1);
      Ok (Z.lxor parity (Z.land b 1))
    else Ok parity) 0 (range 1 (total + 1)).

(** The loop that spreads the data bits over the non-parity positions *)
Definition place_data (data total : Z) : DfimResult (Z * Z) :=
  foldM (fun '(cw, data_idx) pos =>
    if is_parity_position pos then Ok (cw, data_idx)
    else
      d ← shr 64 data data_idx;
      let bit := Z.land d 1 in
      sh ← shl 64 bit (pos - 1);
      Ok (Z.lor cw sh, data_idx + 1)) (0, 0) (range 1 (total + 1)).

(** The loop that fills in the parity positions [1 << p] *)
Definition place_parity (cw total r : Z) : DfimResult Z :=
  foldM (fun cw p =>
    parity_pos ← shl 64 1 p;
    parity ← parity_of cw total p;
    sh ← shl 64 parity (parity_pos - 1);
    Ok (Z.lor cw sh)) cw (range 0 r).

Definition encode_bits (data n_data : Z) : DfimResult Z :=
  if negb (in_data_range n_data) then Err InvalidParameter
  else
    let mask := data_mask n_data in
    if negb (Z.land data (lnot_w 64 mask) =? 0) then Err InvalidParameter
    else
      r ← parity_bit_count n_data;
      let total := n_data + r in
      st ← place_data data total;
      cw ← place_parity (fst st) total r;
      Ok (Z.land cw (data_mask total)).

(** The syndrome, a [u32] with bit [p] set when parity check [p] fails *)
Definition syndrome_of (cw total r : Z) : DfimResult Z :=
  foldM (fun syndrome p =>
    parity_pos ← shl 64 1 p;
    parity ← parity_of cw total p;
    if negb (parity =? 0) then
      sh ← shl 32 1 p;
      Ok (Z.lor syndrome sh)
    else Ok syndrome) 0 (range 0 r).

(** The loop that collects the data bits *)
Definition collect_data (cw total : Z) : DfimResult (Z * Z) :=
  foldM (fun '(data, data_idx) pos =>
    if is_parity_position pos then Ok (data, data_idx)
    else
      b ← shr 64 cw (pos - 1);
      let bit := Z.land b 1 in
      sh ← shl 64 bit data_idx;
      Ok (Z.lor data sh, data_idx + 1)) (0, 0) (range 1 (total + 1)).

Definition decode_bits (codeword n_data : Z) : DfimResult (Z * Z) :=
  if negb (in_data_range n_data) then Err InvalidParameter
  else
    r ← parity_bit_count n_data;
    let total := n_data + r in
    let mask := data_mask total in
    let cw := Z.land codeword mask in
    syndrome ← syndrome_of cw total r;
    cw ← (if negb (syndrome =? 0) then
            let err_pos := syndrome in
            if err_pos <=? total then
              sh ← shl 64 1 (err_pos - 1);
              Ok (Z.lxor cw sh)
            else Ok cw
          else Ok cw);
    st ← collect_data cw total;
    Ok (Z.land (fst st) (data_mask n_data), syndrome).

Definition decode_bits_strict (codeword n_data : Z) : DfimResult Z :=
  if negb (in_data_range n_data) then Err InvalidParameter
  else
    r ← parity_bit_count n_data;
    let total := n_data + r in
    let mask := data_mask total in
    let received := Z.land codeword mask in
    ds ← decode_bits received n_data;
    let '(data, syndrome) := ds in
    reencoded ← encode_bits data n_data;
    if reencoded =? received then Ok data
    else if syndrome =? 0 then Err CorruptMetadata
    else
      let err_pos := syndrome in
      if (err_pos =? 0) || (err_pos >? total) then Err CorruptMetadata
      else
        sh ← shl 64 1 (err_pos - 1);
        let corrected := Z.lxor received sh in
        if reencoded =? corrected then Ok data
        else Err CorruptMetadata.

(** ** The Hamming(7,4) block codec: two codewords per byte *)

(** [slice::chunks_exact(2)] *)
Fixpoint chunks_exact2 {A} (l : list A) : list (A * A) :=
  match l with
  | a :: b :: l => (a, b) :: chunks_exact2 l
  | _ => []
  end.

(** [((hi as u8) << 4) | (lo as u8)] *)
Definition join_nibbles (hi lo : Z) : byte :=
  z2b (Z.lor (as_u8 (Z.shiftl (as_u8 hi) 4)) (as_u8 lo)).

Definition encode_block (data : list byte) : DfimResult (list byte) :=
  if zlen data =? 0 then Err EmptyInput
  else
    observer ← Observer.new (saturating_mul (zlen data) 2);
    snd <$> foldM (observed (fun out byte =>
      let hi := Z.land (Z.shiftr (b2z byte) 4) 15 in
      let lo := Z.land (b2z byte) 15 in
      cw_hi ← encode_bits hi 4;
      cw_lo ← encode_bits lo 4;
      Ok (out ++ [z2b (Z.land cw_hi 127); z2b (Z.land cw_lo 127)]))) (observer, []) data.

(** The loop of the [_into] decoders: [out] and [written] belong to the caller
    and keep what was written when a later codeword is refused. *)
Fixpoint decode_into_loop (decode : Z -> DfimResult Z) (observer : PatternObserver)
    (chunks : list (byte * byte)) : stm (list byte * Z) DfimError unit :=
  match chunks with
  | [] => mret tt
  | (c0, c1) :: rest =>
      observer ← lift (Observer.tick observer);
      hi ← lift (decode (Z.land (b2z c0) 127));
      lo ← lift (decode (Z.land (b2z c1) 127));
      st ← get;
      let '(out, written) := st in
      out ← lift (store out written (join_nibbles hi lo));
      put (out, written + 1) ;;
      decode_into_loop decode observer rest
  end.

Definition decode_into (decode : Z -> DfimResult Z) (encoded : list byte) :
    stm (list byte * Z) DfimError unit :=
  if (zlen encoded =? 0) || negb (is_multiple_of (zlen encoded) 2)
  then lift (Err InvalidParameter)
  else
    let pairs := zlen encoded / 2 in
    st ← get;
    let out := fst st in
    if zlen out <? pairs then lift (Err BufferTooShort)
    else
      observer ← lift (Observer.new pairs);
      put (out, 0) ;;
      decode_into_loop decode observer (chunks_exact2 encoded).

Definition decode_block_into : list byte -> stm (list byte * Z) DfimError unit :=
  decode_into (fun cw => fst <$> decode_bits cw 4).

Definition decode_block_into_strict : list byte -> stm (list byte * Z) DfimError unit :=
  decode_into (fun cw => decode_bits_strict cw 4).

Definition decode_block (encoded : list byte) : DfimResult (list byte) :=
  if (zlen encoded =? 0) || negb (is_multiple_of (zlen encoded) 2) then Err InvalidParameter
  else
    let pairs := zlen encoded / 2 in
    observer ← Observer.new pairs;
    snd <$> foldM (observed (fun out '(c0, c1) =>
      hi ← decode_bits_strict (Z.land (b2z c0) 127) 4;
      lo ← decode_bits_strict (Z.land (b2z c1) 127) 4;
      Ok (out ++ [join_nibbles hi lo]))) (observer, []) (chunks_exact2 encoded).

(** ** What the codec means *)

(** The parity number of a codeword: the exclusive or of the 1-based positions
    of its set bits. *)
Definition syn (cw total : Z) : Z :=
  foldl (fun s pos => if Z.testbit cw (pos - 1) then Z.lxor s pos else s) 0 (range 1 (total + 1)).

(** How many of the positions [1..=m] carry data. *)
Definition data_count (m : Z) : Z :=
  zlen (filter (fun pos => is_parity_position pos = false) (range 1 (m + 1))).

(** Bit [k] of a word in which the data has been placed. *)
Definition placed (data k : Z) : bool :=
  negb (is_parity_position (k + 1)) && Z.testbit data (data_count k).

(** The parameters of a code whose codewords fit in a [u64]: [n] data bits, [r]
    parity bits, [total] in all. *)
Definition code_params (n r total : Z) : Prop :=
  parity_bit_count n = Ok r /\ in_data_range n = true /\ total = n + r /\
  n < 64 /\ 0 <= r <= 32 /\ total <= 63 /\ 2 ^ (r - 1) <= total < 2 ^ r /\ data_count total = n.

(** The codeword [cw] with bit [e] (1-based) flipped; [e = 0] flips nothing. *)
Definition flip (cw e : Z) : Z := if e =? 0 then cw else Z.lxor cw (2 ^ (e - 1)).

(** A received byte differs from the sent one in at most one bit. *)
Definition one_bit (sent received : byte) : Prop :=
  sent = received \/ exists k, 0 <= k < 8 /\ b2z received = Z.lxor (b2z sent) (2 ^ k).

(** ** Positions *)

Lemma data_count_S m : 0 <= m ->
  data_count (m + 1) = data_count m + (if is_parity_position (m + 1) then 0 else 1).
Proof.
  intros Hm. unfold data_count. rewrite (range_snoc 1 (m + 1)) by lia.
  rewrite filter_app, zlen_app. f_equal. rewrite filter_cons, filter_nil.
  destruct (is_parity_position (m + 1)); simpl; done.
Qed.

Lemma data_count_0 : data_count 0 = 0.
Proof. done. Qed.

Lemma data_count_mono a b : 0 <= a <= b -> data_count a <= data_count b.
Proof.
  intros [Ha Hab]. revert b Hab.
  apply (Zlt_lower_bound_ind (fun b => data_count a <= data_count b)).
  intros b IH Hb. destruct (decide (a = b)) as [->|]; [done|].
  specialize (IH (b - 1)). replace b with (b - 1 + 1) by lia.
  rewrite data_count_S by lia. destruct (is_parity_position _); lia.
Qed.

Lemma data_count_bounds m : 0 <= m -> 0 <= data_count m <= m.
Proof.
  intros Hm. split; [apply zlen_nonneg|]. revert m Hm.
  apply (Zlt_lower_bound_ind (fun m => data_count m <= m)). intros m IH Hm.
  destruct (decide (m = 0)) as [->|]; [done|].
  specialize (IH (m - 1)). replace m with (m - 1 + 1) at 1 by lia.
  rewrite data_count_S by lia. destruct (is_parity_position _); lia.
Qed.

Lemma data_count_surj m j : 0 <= m -> 0 <= j < data_count m ->
  exists k, 0 <= k < m /\ is_parity_position (k + 1) = false /\ data_count k = j.
Proof.
  intros Hm. revert m Hm j.
  apply (Zlt_lower_bound_ind (fun m => forall j, 0 <= j < data_count m -> _)).
  intros m IH Hm j Hj. destruct (decide (m = 0)) as [->|]; [by rewrite data_count_0 in Hj; lia|].
  destruct (decide (j < data_count (m - 1))) as [Hlt|Hge].
  - destruct (IH (m - 1) ltac:(lia) j ltac:(lia)) as (k & ? & ? & ?). exists k. split; [lia|done].
  - pose proof (data_count_S (m - 1) ltac:(lia)) as HS. replace (m - 1 + 1) with m in HS by lia.
    destruct (is_parity_position m) eqn:Hp; [lia|].
    exists (m - 1). replace (m - 1 + 1) with m by lia. split_and!; [lia..|done|lia].
Qed.

(** The [p]-th parity position. *)
Lemma is_parity_position_pow2 p : 0 <= p -> is_parity_position (2 ^ p) = true.
Proof.
  intros Hp. unfold is_parity_position.
  rewrite (proj2 (Z.eqb_neq _ _)) by lia. simpl. apply Z.eqb_eq.
  apply Z.bits_inj'. intros i Hi. rewrite Z.land_spec, Z.bits_0, testbit_pow2 by done.
  destruct (Z.eqb_spec i p) as [->|]; [|done]. simpl.
  replace (2 ^ p - 1) with (Z.ones p) by (rewrite Z.ones_equiv; lia).
  by rewrite Z.ones_spec_high by lia.
Qed.

(** ** The parity number *)

Lemma syn_S cw m : 0 <= m ->
  syn cw (m + 1) = if Z.testbit cw m then Z.lxor (syn cw m) (m + 1) else syn cw m.
Proof.
  intros Hm. unfold syn. rewrite (range_snoc 1 (m + 1)) by lia.
  rewrite foldl_app. simpl. by replace (m + 1 - 1) with m by lia.
Qed.

Lemma syn_flip_upto cw e m : 1 <= e -> 0 <= m ->
  syn (Z.lxor cw (2 ^ (e - 1))) m = if e <=? m then Z.lxor (syn cw m) e else syn cw m.
Proof.
  intros He. revert m.
  apply (Zlt_lower_bound_ind (fun m => syn _ m = if e <=? m then _ else _)).
  intros m IH Hm. destruct (decide (m = 0)) as [->|Hne].
  { by rewrite (proj2 (Z.leb_gt e 0)) by lia. }
  specialize (IH (m - 1) ltac:(lia)). replace m with (m - 1 + 1) by lia.
  rewrite !syn_S, IH, Z.lxor_spec, testbit_pow2 by lia.
  destruct (Z.eqb_spec (m - 1) (e - 1)).
  - rewrite (proj2 (Z.leb_gt e (m - 1))), (proj2 (Z.leb_le e (m - 1 + 1))) by lia.
    replace (m - 1 + 1) with e by lia.
    destruct (Z.testbit cw (m - 1)); simpl; [|done].
    by rewrite Z.lxor_assoc, Z.lxor_nilpotent, Z.lxor_0_r.
  - replace (e <=? m - 1 + 1) with (e <=? m - 1)
      by (apply eq_true_iff_eq; rewrite !Z.leb_le; lia).
    rewrite xorb_false_r. destruct (Z.testbit cw (m - 1)), (e <=? m - 1); try done.
    rewrite !Z.lxor_assoc. f_equal. apply Z.lxor_comm.
Qed.

Lemma syn_flip cw e total : 1 <= e <= total ->
  syn (Z.lxor cw (2 ^ (e - 1))) total = Z.lxor (syn cw total) e.
Proof. intros. rewrite syn_flip_upto by lia. by rewrite (proj2 (Z.leb_le e total)) by lia. Qed.

Lemma syn_range cw total r : 0 <= total < 2 ^ r -> 0 <= syn cw total < 2 ^ r.
Proof.
  intros [H0 Hr]. revert total H0 Hr.
  apply (Zlt_lower_bound_ind (fun total => total < 2 ^ r -> 0 <= syn cw total < 2 ^ r)).
  intros m IH Hm Hlt. destruct (decide (m = 0)) as [->|]; [by change (syn cw 0) with 0|].
  specialize (IH (m - 1) ltac:(lia) ltac:(lia)).
  pose proof (syn_S cw (m - 1) ltac:(lia)) as HS. replace (m - 1 + 1) with m in HS by lia.
  rewrite HS. destruct (Z.testbit _ _); [|done]. apply lxor_lt; lia.
Qed.

Lemma parity_of_ok cw total p : 0 <= total <= 64 -> 0 <= p < 64 ->
  parity_of cw total p = Ok (Z.b2z (Z.testbit (syn cw total) p)).
Proof.
  intros Ht Hp. unfold parity_of.
  loop_inv (fun i x => x = Z.b2z (Z.testbit (syn cw (i - 1)) p));
    [lia| | |subst x'; by replace (total + 1 - 1) with total by lia].
  { simpl. by rewrite Z.testbit_0_l. }
  intros i x Hi ->. rewrite (shr_ok 64 i p) by lia. simpl. rewrite (land1_shiftr i p) by lia.
  replace (i + 1 - 1) with (i - 1 + 1) by lia. rewrite syn_S by lia.
  replace (i - 1 + 1) with i by lia.
  destruct (Z.testbit i p) eqn:Hip; simpl.
  - rewrite (shr_ok 64 cw) by lia. simpl. rewrite (land1_shiftr cw) by lia. eexists; split; [done|].
    destruct (Z.testbit cw (i - 1)).
    + rewrite Z.lxor_spec, Hip. by destruct (Z.testbit (syn _ _) p).
    + by destruct (Z.testbit (syn _ _) p).
  - eexists; split; [done|]. destruct (Z.testbit cw (i - 1)); [|done].
    by rewrite Z.lxor_spec, Hip, xorb_false_r.
Qed.

Lemma syndrome_of_ok cw total r : 0 <= total <= 64 -> 0 <= r <= 32 -> total < 2 ^ r ->
  syndrome_of cw total r = Ok (syn cw total).
Proof.
  intros Ht Hr Hlt. unfold syndrome_of.
  loop_inv (fun p s => s = syn cw total mod 2 ^ p); [lia|by rewrite Z.mod_1_r| |subst x'].
  2: { f_equal. apply Z.mod_small, syn_range. lia. }
  intros p s Hp ->. rewrite (shl_1 64) by lia. simpl. rewrite parity_of_ok by lia. simpl.
  destruct (Z.testbit (syn cw total) p) eqn:Hb; simpl.
  - rewrite (shl_1 32) by lia. simpl. eexists; split; [done|].
    apply Z.bits_inj'. intros i Hi. rewrite Z.lor_spec, testbit_pow2 by lia.
    destruct (Z.eqb_spec i p) as [->|].
    + by rewrite orb_true_r, Z.mod_pow2_bits_low by lia.
    + rewrite orb_false_r. destruct (decide (i < p)).
      * by rewrite !Z.mod_pow2_bits_low by lia.
      * by rewrite !Z.mod_pow2_bits_high by lia.
  - eexists; split; [done|]. apply Z.bits_inj'. intros i Hi.
    destruct (decide (i < p)); [by rewrite !Z.mod_pow2_bits_low by lia|].
    destruct (decide (i = p)) as [->|].
    + by rewrite Z.mod_pow2_bits_high, Z.mod_pow2_bits_low by lia.
    + by rewrite !Z.mod_pow2_bits_high by lia.
Qed.

(** ** The encoder *)

Lemma place_data_ok data total : 0 <= total <= 64 ->
  exists cw, place_data data total = Ok (cw, data_count total) /\ 0 <= cw /\
    forall k, 0 <= k -> Z.testbit cw k = (k <? total) && placed data k.
Proof.
  intros Ht. unfold place_data.
  loop_inv (fun i '(cw, idx) => idx = data_count (i - 1) /\ 0 <= cw /\
      forall k, 0 <= k -> Z.testbit cw k = (k <? i - 1) && placed data k); [lia| | |destruct x' as [cw idx]; destruct HI as (-> & H0 & Hcw)].
  - split_and!; [done..|]. intros k Hk. rewrite Z.testbit_0_l.
    by rewrite (proj2 (Z.ltb_ge k _)) by lia.
  - intros i [cw idx] Hi (-> & H0 & Hcw).
    pose proof (data_count_bounds (i - 1) ltac:(lia)) as Hb.
    pose proof (data_count_S (i - 1) ltac:(lia)) as HS.
    replace (i - 1 + 1) with i in HS by lia. replace (i + 1 - 1) with i by lia.
    assert (Hstep : forall k b, 0 <= k -> b = placed data (i - 1) ->
      (k <? i - 1) && placed data k || (k =? i - 1) && b = (k <? i) && placed data k).
    { intros k b Hk ->. destruct (Z.ltb_spec k (i - 1)), (Z.ltb_spec k i), (Z.eqb_spec k (i - 1));
        subst; simpl; try lia; rewrite ?orb_false_r; done. }
    destruct (is_parity_position i) eqn:Hp.
    + eexists; split; [done|]. split_and!; [lia|done|]. intros k Hk.
      rewrite Hcw, <- (Hstep k false) by (done || (unfold placed;
        replace (i - 1 + 1) with i by lia; by rewrite Hp)).
      by rewrite andb_false_r, orb_false_r.
    + rewrite shr_ok by lia. simpl. rewrite land1_shiftr, shl_b2z by lia. simpl.
      eexists; split; [done|]. split_and!; [lia|apply Z.lor_nonneg; split; [done|]|].
      { apply Z.shiftl_nonneg. by destruct (Z.testbit _ _). }
      intros k Hk. rewrite Z.lor_spec, Hcw, testbit_shiftl_b2z by lia. apply Hstep; [done|].
      unfold placed. replace (i - 1 + 1) with i by lia. by rewrite Hp.
  - replace (total + 1 - 1) with total in * by lia. by exists cw.
Qed.

Lemma lor_fresh_bit cw b j : 0 <= j -> Z.testbit cw j = false ->
  Z.lor cw (Z.shiftl (Z.b2z b) j) = if b then Z.lxor cw (2 ^ j) else cw.
Proof.
  intros Hj Hf. destruct b; simpl; [|by rewrite Z.shiftl_0_l, Z.lor_0_r].
  rewrite Z.shiftl_1_l. apply Z.bits_inj'. intros i Hi.
  rewrite Z.lor_spec, Z.lxor_spec, testbit_pow2 by done.
  destruct (Z.eqb_spec i j) as [->|]; [by rewrite Hf|].
  by rewrite orb_false_r, xorb_false_r.
Qed.

(** Filling in the parity bits makes the parity number 0 and keeps the data. *)
Lemma place_parity_ok cw0 total r :
  0 <= cw0 -> 0 <= total <= 64 -> 0 <= r -> 2 ^ (r - 1) <= total < 2 ^ r ->
  (forall k, total <= k -> Z.testbit cw0 k = false) ->
  (forall k, 0 <= k -> is_parity_position (k + 1) = true -> Z.testbit cw0 k = false) ->
  exists cw, place_parity cw0 total r = Ok cw /\ 0 <= cw /\ syn cw total = 0 /\
    (forall k, total <= k -> Z.testbit cw k = false) /\
    (forall k, 0 <= k -> is_parity_position (k + 1) = false -> Z.testbit cw k = Z.testbit cw0 k).
Proof.
  intros H0 Ht Hr Hrt Hhigh Hpar. unfold place_parity.
  loop_inv (fun p cw => 0 <= cw /\
    (forall q, 0 <= q < p -> Z.testbit (syn cw total) q = false) /\
    (forall k, total <= k -> Z.testbit cw k = false) /\
    (forall q, p <= q -> Z.testbit cw (2 ^ q - 1) = false) /\
    (forall k, 0 <= k -> is_parity_position (k + 1) = false -> Z.testbit cw k = Z.testbit cw0 k)).
  - done.
  - split_and!; [done|lia|done| |done]. intros q Hq. apply Hpar; [lia|].
    replace (2 ^ q - 1 + 1) with (2 ^ q) by lia. by apply is_parity_position_pow2.
  - intros p cw Hp (Hc & Hsyn & Hh & Hnext & Hdata).
    assert (1 <= 2 ^ p <= total).
    { split; [lia|]. assert (2 ^ p <= 2 ^ (r - 1)) by (apply Z.pow_le_mono_r; lia). lia. }
    assert (p < 64) by (apply (Z.pow_lt_mono_r_iff 2); lia).
    rewrite (shl_1 64) by lia. simpl. rewrite parity_of_ok by lia. simpl.
    rewrite shl_b2z by lia. simpl. eexists; split; [done|].
    rewrite lor_fresh_bit by (lia || by apply Hnext).
    destruct (Z.testbit (syn cw total) p) eqn:Hb.
    + split_and!.
      * apply Z.lxor_nonneg; lia.
      * intros q Hq. rewrite syn_flip, Z.lxor_spec, testbit_pow2 by lia.
        destruct (Z.eqb_spec q p) as [->|]; [by rewrite Hb|]. rewrite Hsyn by lia. done.
      * intros k Hk. rewrite Z.lxor_spec, testbit_pow2, Hh by lia.
        by rewrite (proj2 (Z.eqb_neq _ _)) by lia.
      * intros q Hq. assert (2 ^ p < 2 ^ q) by (apply Z.pow_lt_mono_r; lia).
        rewrite Z.lxor_spec, testbit_pow2, Hnext by lia.
        by rewrite (proj2 (Z.eqb_neq _ _)) by lia.
      * intros k Hk Hkp. rewrite Z.lxor_spec, testbit_pow2, Hdata by (lia || done).
        destruct (Z.eqb_spec k (2 ^ p - 1)) as [->|]; [|by rewrite xorb_false_r].
        replace (2 ^ p - 1 + 1) with (2 ^ p) in Hkp by lia.
        rewrite is_parity_position_pow2 in Hkp by lia. done.
    + split_and!; [done| |done| |done].
      * intros q Hq. destruct (decide (q = p)) as [->|]; [done|]. apply Hsyn. lia.
      * intros q Hq. apply Hnext. lia.
  - destruct HI as (Hc & Hsyn & Hh & _ & Hdata). exists x'. split_and!; try done.
    apply Z.bits_inj'. intros q Hq. rewrite Z.bits_0. destruct (decide (q < r)).
    + by apply Hsyn.
    + apply (testbit_above _ r); [|lia]. apply syn_range. lia.
Qed.

Lemma data_mask_land x n : 0 <= n < 64 -> 0 <= x -> Z.land x (data_mask n) = x mod 2 ^ n.
Proof.
  intros Hn Hx. unfold data_mask. rewrite Z.geb_leb, (proj2 (Z.leb_gt 64 n)) by lia.
  rewrite Z.shiftl_1_l. replace (2 ^ n - 1) with (Z.ones n) by (rewrite Z.ones_equiv; lia).
  apply Z.land_ones. lia.
Qed.

(** The width check [data & !mask != 0] accepts exactly the [n]-bit words. *)
Lemma data_fits data n : 0 <= n < 64 -> 0 <= data < 2 ^ n ->
  Z.land data (lnot_w 64 (data_mask n)) = 0.
Proof.
  intros Hn Hd. unfold lnot_w, data_mask.
  rewrite Z.geb_leb, (proj2 (Z.leb_gt 64 n)), Z.shiftl_1_l by lia.
  replace (2 ^ n - 1) with (Z.ones n) by (rewrite Z.ones_equiv; lia).
  apply Z.bits_inj'. intros i Hi. rewrite Z.land_spec, Z.lxor_spec, Z.bits_0.
  change (2 ^ 64 - 1) with (Z.ones 64). destruct (decide (i < n)).
  - rewrite !Z.ones_spec_low by lia. by rewrite andb_false_r.
  - by rewrite (testbit_above data n) by lia.
Qed.

(** The codewords of 57 data bits are the longest that fit. *)
Definition code_paramsb (n : Z) : bool :=
  match parity_bit_count n with
  | Ok r => in_data_range n && (0 <=? r) && (r <=? 32) && (n + r <=? 63) &&
            (2 ^ (r - 1) <=? n + r) && (n + r <? 2 ^ r) && (data_count (n + r) =? n)
  | _ => false
  end.

Lemma code_params_ok n : 4 <= n <= 57 -> exists r, code_params n r (n + r).
Proof.
  intros Hn.
  assert (H : code_paramsb n = true).
  { apply (range_forallb code_paramsb 4 58); [by vm_compute|lia]. }
  unfold code_paramsb in H. destruct (parity_bit_count n) as [r| |] eqn:Hr; [|done..].
  exists r. unfold code_params. rewrite Hr. rewrite !andb_true_iff, !Z.leb_le, Z.ltb_lt, Z.eqb_eq in H.
  destruct H as [[[[[[? ?] ?] ?] ?] ?] ?]. split_and!; (done || lia).
Qed.

Section code.
Context (n r total : Z) (Hcode : code_params n r total).

Lemma encode_bits_ok data : 0 <= data < 2 ^ n ->
  exists cw, encode_bits data n = Ok cw /\ 0 <= cw < 2 ^ total /\ syn cw total = 0 /\
    forall k, 0 <= k < total -> is_parity_position (k + 1) = false ->
      Z.testbit cw k = Z.testbit data (data_count k).
Proof.
  destruct Hcode as (Hr & Hin & -> & Hn & Hr0 & Ht & Hpow & Hdc).
  pose proof (data_count_bounds (n + r)) as Hb. intros Hd.
  assert (0 <= n) by (unfold in_data_range, HAMMING_MIN_DATA_BITS in Hin;
    apply andb_true_iff in Hin as [Hin%Z.leb_le _]; lia).
  unfold encode_bits. rewrite Hin. simpl. rewrite data_fits by lia. simpl. rewrite Hr. simpl.
  destruct (place_data_ok data (n + r)) as (cw0 & -> & H0 & Hcw0); [lia|]. simpl.
  destruct (place_parity_ok cw0 (n + r) r) as (cw & -> & Hc & Hsyn & Hhigh & Hdata); [lia..| | |].
  { intros k Hk. rewrite Hcw0 by lia. by rewrite (proj2 (Z.ltb_ge _ _)) by lia. }
  { intros k Hk Hp. rewrite Hcw0 by lia. unfold placed. rewrite Hp. simpl. by rewrite andb_false_r. }
  simpl. assert (cw < 2 ^ (n + r)) by (apply bits_lt; [lia..|done]).
  exists cw. split_and!; [|lia..|done|].
  - f_equal. rewrite data_mask_land by lia. apply Z.mod_small. lia.
  - intros k Hk Hp. rewrite Hdata, Hcw0 by (lia || done). unfold placed.
    by rewrite Hp, (proj2 (Z.ltb_lt _ _)) by lia.
Qed.

Lemma collect_data_ok cw : 0 <= total <= 63 ->
  exists d, collect_data cw total = Ok (d, data_count total) /\ 0 <= d /\
    (forall k, 0 <= k < total -> is_parity_position (k + 1) = false ->
      Z.testbit d (data_count k) = Z.testbit cw k) /\
    (forall j, data_count total <= j -> Z.testbit d j = false).
Proof.
  intros Ht. unfold collect_data.
  loop_inv (fun i '(d, idx) => idx = data_count (i - 1) /\ 0 <= d /\
    (forall k, 0 <= k < i - 1 -> is_parity_position (k + 1) = false ->
      Z.testbit d (data_count k) = Z.testbit cw k) /\
    (forall j, data_count (i - 1) <= j -> Z.testbit d j = false)).
  - lia.
  - split_and!; [done..|lia|]. intros. apply Z.testbit_0_l.
  - intros i [d idx] Hi (-> & H0 & Hlow & Hhigh).
    pose proof (data_count_bounds (i - 1) ltac:(lia)) as Hb.
    pose proof (data_count_S (i - 1) ltac:(lia)) as HS.
    replace (i - 1 + 1) with i in HS by lia. replace (i + 1 - 1) with i by lia.
    destruct (is_parity_position i) eqn:Hp.
    + eexists; split; [done|]. split_and!; [lia|done| |].
      * intros k Hk Hkp. apply Hlow; [|done]. destruct (decide (k = i - 1)) as [->|]; [|lia].
        replace (i - 1 + 1) with i in Hkp by lia. congruence.
      * intros j Hj. apply Hhigh. lia.
    + rewrite (shr_ok 64 cw) by lia. simpl. rewrite land1_shiftr, shl_b2z by lia. simpl.
      eexists; split; [done|]. split_and!; [lia|apply Z.lor_nonneg; split; [done|]| |].
      { apply Z.shiftl_nonneg. by destruct (Z.testbit _ _). }
      * intros k Hk Hkp. pose proof (data_count_bounds k ltac:(lia)).
        rewrite Z.lor_spec, testbit_shiftl_b2z by lia.
        destruct (decide (k = i - 1)) as [->|].
        { by rewrite Hhigh, Z.eqb_refl by lia. }
        pose proof (data_count_S k ltac:(lia)) as HSk. rewrite Hkp in HSk.
        pose proof (data_count_mono (k + 1) (i - 1) ltac:(lia)).
        rewrite Hlow, (proj2 (Z.eqb_neq _ _)) by (lia || done). by rewrite orb_false_r.
      * intros j Hj. rewrite Z.lor_spec, testbit_shiftl_b2z, Hhigh by lia.
        by rewrite (proj2 (Z.eqb_neq _ _)) by lia.
  - destruct x' as [d idx]. destruct HI as (-> & H0 & Hlow & Hhigh).
    replace (total + 1 - 1) with total in * by lia. exists d. done.
Qed.

(** A word that carries the data of [data] in its data positions decodes to it. *)
Lemma collect_codeword data cw : 0 <= data < 2 ^ n ->
  (forall k, 0 <= k < total -> is_parity_position (k + 1) = false ->
    Z.testbit cw k = Z.testbit data (data_count k)) ->
  (st ← collect_data cw total; Ok (Z.land (fst st) (data_mask n))) = Ok data.
Proof.
  destruct Hcode as (Hr & Hin & Htot & Hn & Hr0 & Ht & Hpow & Hdc). intros Hd Hcw.
  assert (0 <= total) by lia. pose proof (data_count_bounds total) as Hb.
  destruct (collect_data_ok cw) as (d & -> & H0 & Hlow & Hhigh); [lia|]. simpl. f_equal.
  rewrite data_mask_land by lia. apply Z.bits_inj'. intros j Hj.
  destruct (decide (j < n)) as [Hjn|].
  - rewrite Z.mod_pow2_bits_low by lia.
    destruct (data_count_surj total j) as (k & Hk & Hkp & <-); [lia..|].
    rewrite Hlow by done. by apply Hcw.
  - rewrite Z.mod_pow2_bits_high by lia. symmetry. apply (testbit_above _ n); [done|lia].
Qed.

Lemma flip_range cw e : 0 <= cw < 2 ^ total -> 0 <= e <= total -> 0 <= flip cw e < 2 ^ total.
Proof.
  intros Hcw He. unfold flip. destruct (Z.eqb_spec e 0); [done|].
  apply lxor_lt; [done|]. split; [lia|]. apply Z.pow_lt_mono_r; lia.
Qed.

Lemma syn_flip_codeword cw e : syn cw total = 0 -> 0 <= e <= total -> syn (flip cw e) total = e.
Proof.
  intros Hs He. unfold flip. destruct (Z.eqb_spec e 0) as [->|]; [done|].
  rewrite syn_flip by lia. by rewrite Hs, Z.lxor_0_l.
Qed.

Lemma decode_flipped data cw e : 0 <= data < 2 ^ n -> encode_bits data n = Ok cw ->
  0 <= e <= total -> decode_bits (flip cw e) n = Ok (data, e).
Proof.
  intros Hd Henc He. destruct (encode_bits_ok data Hd) as (cw' & Henc' & Hcw & Hsyn & Hdata).
  rewrite Henc in Henc'. injection Henc' as <-.
  pose proof (flip_range cw e Hcw He) as Hf. pose proof (syn_flip_codeword cw e Hsyn He) as Hs.
  pose proof (collect_codeword data cw Hd Hdata) as Hcol.
  destruct Hcode as (Hr & Hin & Htot & Hn & Hr0 & Ht & Hpow & Hdc).
  unfold decode_bits. rewrite Hin. simpl. rewrite Hr. simpl. rewrite <- Htot.
  rewrite data_mask_land by lia. rewrite Z.mod_small by done.
  rewrite syndrome_of_ok by lia. simpl. rewrite Hs.
  assert (Hfix : (if negb (e =? 0) then
      (if e <=? total then sh ← shl 64 1 (e - 1); Ok (Z.lxor (flip cw e) sh) else Ok (flip cw e))
      else Ok (flip cw e)) = @Ok DfimError _ cw).
  { unfold flip. destruct (Z.eqb_spec e 0); simpl; [done|].
    rewrite (proj2 (Z.leb_le e total)), shl_1 by lia. simpl.
    by rewrite Z.lxor_assoc, Z.lxor_nilpotent, Z.lxor_0_r. }
  rewrite Hfix. simpl. apply bind_Ok in Hcol as (st & -> & Hst). simpl. by injection Hst as ->.
Qed.
End code.

(** ** The (7,4) codewords, exhaustively *)

Definition is_okb (m : DfimResult Z) (x : Z) : bool :=
  match m with Ok y => x =? y | _ => false end.

Lemma is_okb_true m x : is_okb m x = true -> m = Ok x.
Proof. unfold is_okb. destruct m; [|done..]. by intros ->%Z.eqb_eq. Qed.

(** The seven-bit codeword of a nibble. *)
Definition nibble_cw (d : Z) : Z := match encode_bits d 4 with Ok c => c | _ => 0 end.

Definition nibble_check (d : Z) : bool :=
  is_okb (encode_bits d 4) (nibble_cw d) && (0 <=? nibble_cw d) && (nibble_cw d <? 128) &&
  forallb (fun k => is_okb (decode_bits_strict (Z.land (Z.lxor (nibble_cw d) k) 127) 4) d &&
                    is_okb (fst <$> decode_bits (Z.land (Z.lxor (nibble_cw d) k) 127) 4) d)
          [0; 1; 2; 4; 8; 16; 32; 64; 128].

Lemma nibble_facts d : 0 <= d < 16 ->
  encode_bits d 4 = Ok (nibble_cw d) /\ 0 <= nibble_cw d < 128 /\
  forall k, k = 0 \/ (exists j, 0 <= j < 8 /\ k = 2 ^ j) ->
    decode_bits_strict (Z.land (Z.lxor (nibble_cw d) k) 127) 4 = Ok d /\
    fst <$> decode_bits (Z.land (Z.lxor (nibble_cw d) k) 127) 4 = Ok d.
Proof.
  intros Hd. pose proof (range_forallb nibble_check 0 16) as H. specialize (H ltac:(by vm_compute) d Hd).
  unfold nibble_check in H. rewrite !andb_true_iff, Z.leb_le, Z.ltb_lt, forallb_forall in H.
  destruct H as [[[H1%is_okb_true H2] H3] H4]. split_and!; [done..|].
  intros k Hk. assert (Hin : In k [0; 1; 2; 4; 8; 16; 32; 64; 128]).
  { destruct Hk as [->|(j & Hj & ->)]; [by left|right].
    change [1; 2; 4; 8; 16; 32; 64; 128] with (map (Z.pow 2) (range 0 8)).
    apply in_map, list_elem_of_In, elem_of_range. lia. }
  apply H4, andb_true_iff in Hin as [?%is_okb_true ?%is_okb_true]. done.
Qed.

(** Every seven-bit word is within one bit of a codeword: the code is perfect. *)
Definition perfect_check (w : Z) : bool :=
  match decode_bits_strict w 4, decode_bits w 4 with
  | Ok d, Ok (d', e) => (d =? d') && (0 <=? d) && (d <? 16) && (0 <=? e) && (e <=? 7) &&
                        is_okb (encode_bits d 4) (flip w e)
  | _, _ => false
  end.

Lemma perfect_facts w : 0 <= w < 128 ->
  exists d e, decode_bits_strict w 4 = Ok d /\ decode_bits w 4 = Ok (d, e) /\
    0 <= d < 16 /\ 0 <= e <= 7 /\ encode_bits d 4 = Ok (flip w e).
Proof.
  intros Hw. pose proof (range_forallb perfect_check 0 128 ltac:(by vm_compute) w Hw) as H.
  unfold perfect_check in H. destruct (decode_bits_strict w 4) as [d| |]; [|done..].
  destruct (decode_bits w 4) as [[d' e]| |]; [|done..].
  rewrite !andb_true_iff, !Z.leb_le, Z.ltb_lt, Z.eqb_eq in H.
  destruct H as [[[[[-> ?] ?] ?] ?] ?%is_okb_true]. exists d', e. done.
Qed.

Lemma land_127 x : 0 <= x -> 0 <= Z.land x 127 < 128.
Proof.
  intros Hx. change 127 with (Z.ones 7). rewrite Z.land_ones by lia.
  by apply Z.mod_pos_bound.
Qed.

Lemma join_nibbles_b2z b :
  join_nibbles (Z.land (Z.shiftr (b2z b) 4) 15) (Z.land (b2z b) 15) = b.
Proof. by destruct b; vm_compute. Qed.

Lemma nibble_range b :
  0 <= Z.land (Z.shiftr (b2z b) 4) 15 < 16 /\ 0 <= Z.land (b2z b) 15 < 16.
Proof. by destruct b; vm_compute. Qed.

(** ** The block codec *)

Definition enc_byte (b : byte) : list byte :=
  [z2b (nibble_cw (Z.land (Z.shiftr (b2z b) 4) 15)); z2b (nibble_cw (Z.land (b2z b) 15))].

Definition dec_nibble (c : byte) : Z :=
  match decode_bits_strict (Z.land (b2z c) 127) 4 with Ok d => d | _ => 0 end.

Definition dec_pair (c : byte * byte) : byte :=
  join_nibbles (dec_nibble c.1) (dec_nibble c.2).

Lemma encode_block_ok data : data <> [] -> zlen data <= USIZE_MAX ->
  encode_block data = Ok (concat (map enc_byte data)).
Proof.
  intros Hne Hlen. unfold encode_block.
  pose proof (zlen_pos data Hne). rewrite (proj2 (Z.eqb_neq _ _)) by lia.
  rewrite observed_loop by (unfold saturating_mul, USIZE_MAX in *; lia).
  rewrite (foldM_append _ enc_byte); [done|].
  intros out b _. destruct (nibble_range b) as [Hhi Hlo].
  destruct (nibble_facts _ Hhi) as (-> & Hch & _). simpl.
  destruct (nibble_facts _ Hlo) as (-> & Hcl & _). simpl. unfold enc_byte.
  change 127 with (Z.ones 7). rewrite !Z.land_ones by lia. by rewrite !Z.mod_small by done.
Qed.

Lemma dec_nibble_ok c : decode_bits_strict (Z.land (b2z c) 127) 4 = Ok (dec_nibble c) /\
  fst <$> decode_bits (Z.land (b2z c) 127) 4 = Ok (dec_nibble c).
Proof.
  unfold dec_nibble. pose proof (b2z_range c).
  destruct (perfect_facts (Z.land (b2z c) 127)) as (d & e & -> & -> & _); [|done].
  apply land_127. lia.
Qed.

Lemma zlen_chunks_exact2 {A} (l : list A) : zlen (chunks_exact2 l) = zlen l / 2.
Proof.
  cut (forall n (l : list A), (length l <= n)%nat -> zlen (chunks_exact2 l) = zlen l / 2).
  { intros H. by apply (H (length l)). }
  clear l. induction n as [|n IH]; intros [|a [|b l]] Hl; simpl in Hl; try done; [lia|].
  simpl. rewrite !zlen_cons, IH by lia. Z.to_euclidean_division_equations; lia.
Qed.

Lemma decode_block_ok encoded : encoded <> [] -> zlen encoded mod 2 = 0 -> zlen encoded <= USIZE_MAX ->
  decode_block encoded = Ok (map dec_pair (chunks_exact2 encoded)).
Proof.
  intros Hne Heven Hlen. unfold decode_block, is_multiple_of.
  pose proof (zlen_pos encoded Hne). rewrite Heven, (proj2 (Z.eqb_neq _ _)) by lia. simpl.
  rewrite observed_loop by (rewrite ?zlen_chunks_exact2; Z.to_euclidean_division_equations; lia).
  rewrite (foldM_append _ (fun c => [dec_pair c])).
  - simpl. by rewrite concat_singletons.
  - intros out [c0 c1] _. rewrite (proj1 (dec_nibble_ok c0)). simpl.
    by rewrite (proj1 (dec_nibble_ok c1)).
Qed.

Lemma decode_into_loop_ok decode observer chunks out written :
  (forall c, decode (Z.land (b2z c) 127) = Ok (dec_nibble c)) ->
  Observer.wf observer -> zlen chunks <= Observer.budget observer ->
  0 <= written -> written + zlen chunks <= zlen out ->
  decode_into_loop decode observer chunks (out, written) =
    (Ok tt, (splice out (Z.to_nat written) (map dec_pair chunks), written + zlen chunks)).
Proof.
  intros Hdec. revert observer out written.
  induction chunks as [|[c0 c1] chunks IH]; intros o out w Hwf Hb Hw Hout.
  { rewrite zlen_nil, Z.add_0_r. simpl map. by rewrite splice_nil. }
  rewrite zlen_cons in *. pose proof (zlen_nonneg chunks).
  destruct (observer_tick_ok o) as (o' & Ht & Hwf' & Hb'); [done|lia|].
  simpl. unfold mbind at 1, stm_bind at 1, lift at 1. rewrite Ht.
  unfold mbind at 1, stm_bind at 1, lift at 1. rewrite Hdec.
  unfold mbind at 1, stm_bind at 1, lift at 1. rewrite Hdec.
  unfold mbind at 1, stm_bind at 1, get.
  unfold mbind at 1, stm_bind at 1, lift. rewrite store_ok by lia.
  unfold mbind, stm_bind, put. unfold zlen in Hout |- *.
  rewrite IH; [|done|lia|lia|unfold zlen; rewrite length_splice by (simpl; lia); lia].
  do 2 f_equal; [|unfold zlen; lia].
  replace (Z.to_nat (w + 1)) with (Z.to_nat w + length [dec_pair (c0, c1)])%nat by (simpl; lia).
  rewrite splice_splice by (simpl; rewrite length_map; lia). done.
Qed.

Lemma decode_into_ok decode encoded out written :
  (forall c, decode (Z.land (b2z c) 127) = Ok (dec_nibble c)) ->
  encoded <> [] -> zlen encoded mod 2 = 0 -> zlen encoded <= USIZE_MAX ->
  zlen encoded / 2 <= zlen out ->
  decode_into decode encoded (out, written) =
    (Ok tt, (map dec_pair (chunks_exact2 encoded) ++ drop (Z.to_nat (zlen encoded / 2)) out,
             zlen encoded / 2)).
Proof.
  intros Hdec Hne Heven Hlen Hout. unfold decode_into, is_multiple_of.
  pose proof (zlen_pos encoded Hne). rewrite Heven, (proj2 (Z.eqb_neq _ _)) by lia. simpl.
  unfold mbind at 1, stm_bind at 1, get. simpl.
  rewrite (proj2 (Z.ltb_ge _ _)) by lia.
  destruct (observer_new_ok (zlen encoded / 2)) as (o & Ho & Hwf & Hb);
    [Z.to_euclidean_division_equations; lia|].
  unfold mbind, stm_bind, lift, put. rewrite Ho.
  rewrite decode_into_loop_ok by (done || rewrite zlen_chunks_exact2; lia).
  rewrite zlen_chunks_exact2, splice_0, length_map. do 3 f_equal.
  rewrite <- zlen_chunks_exact2. unfold zlen. by rewrite Nat2Z.id.
Qed.

(** A received codeword byte with at most one flipped bit, bit 7 included. *)
Lemma dec_nibble_one_bit d c : 0 <= d < 16 -> one_bit (z2b (nibble_cw d)) c -> dec_nibble c = d.
Proof.
  intros Hd Hc. destruct (nibble_facts d Hd) as (_ & Hcw & Hdec).
  assert (Hz : b2z (z2b (nibble_cw d)) = nibble_cw d) by (rewrite b2z_z2b; apply Z.mod_small; lia).
  assert (exists k, (k = 0 \/ exists j, 0 <= j < 8 /\ k = 2 ^ j) /\
    b2z c = Z.lxor (nibble_cw d) k) as (k & Hk & Heq).
  { destruct Hc as [<-|(j & Hj & Heq)].
    - exists 0. rewrite Z.lxor_0_r. auto.
    - exists (2 ^ j). rewrite <- Hz. eauto. }
  unfold dec_nibble. by rewrite Heq, (proj1 (Hdec k Hk)).
Qed.

Lemma dec_enc data received : Forall2 one_bit (concat (map enc_byte data)) received ->
  map dec_pair (chunks_exact2 received) = data /\ zlen received = 2 * zlen data.
Proof.
  revert received. induction data as [|b data IH]; intros received Hf; simpl in Hf.
  { by apply Forall2_nil_inv_l in Hf as ->. }
  apply Forall2_cons_inv_l in Hf as (c0 & r0 & H0 & Hf & ->).
  apply Forall2_cons_inv_l in Hf as (c1 & r1 & H1 & Hf & ->).
  destruct (IH _ Hf) as [IH1 IH2]. rewrite !zlen_cons. split; [|lia]. simpl. rewrite IH1. f_equal.
  destruct (nibble_range b) as [Hhi Hlo]. unfold dec_pair. simpl.
  rewrite (dec_nibble_one_bit _ _ Hhi H0), (dec_nibble_one_bit _ _ Hlo H1).
  apply join_nibbles_b2z.
Qed.

Lemma wide_code_facts n : 58 <= n <= 247 ->
  exists r, parity_bit_count n = Ok r /\ 0 < r /\ 65 <= n + r.
Proof.
  intros Hn.
  pose proof (range_forallb (fun n => match parity_bit_count n with Ok r => (0 <? r) && (65 <=? n + r) | _ => false end)
    58 248 ltac:(by vm_compute) n ltac:(lia)) as H. simpl in H.
  destruct (parity_bit_count n) as [r| |]; [|done..]. apply andb_true_iff in H as [?%Z.ltb_lt ?%Z.leb_le]. by exists r.
Qed.

Lemma parity_of_wide cw total : 65 <= total -> parity_of cw total 0 = Panic.
Proof.
  intros Ht. unfold parity_of. rewrite (range_split 1 65), (range_cons 65), foldM_app by lia.
  pose proof (parity_of_ok cw 64 0) as Hp. unfold parity_of in Hp.
  change (64 + 1) with 65 in Hp. by rewrite Hp by lia.
Qed.

(** ** Theorems *)

(** C37: for every data width from 4 to 57 bits the encoder succeeds on every
    data word of that width, the decoder returns the data from the codeword and
    from every word that differs from it in one bit, and the syndrome it reports
    is the 1-based position of the flipped bit (0 when there is none). *)
Theorem hamming_corrects_single_error n data :
  4 <= n <= 57 -> 0 <= data < 2 ^ n ->
  exists total cw, codeword_bit_length n = Ok total /\ encode_bits data n = Ok cw /\
    0 <= cw < 2 ^ total /\
    forall e, 0 <= e <= total -> decode_bits (flip cw e) n = Ok (data, e).
Proof.
  intros Hn Hd. destruct (code_params_ok n Hn) as [r Hcode].
  destruct (encode_bits_ok _ _ _ Hcode data Hd) as (cw & Henc & Hcw & _ & _).
  exists (n + r), cw. split_and!; [|done|lia..|].
  - unfold codeword_bit_length. destruct Hcode as (-> & _ & _ & _ & ? & ? & _). simpl.
    unfold checked_add. by rewrite (proj2 (Z.leb_le _ _)) by (unfold USIZE_MAX; lia).
  - intros e He. by eapply decode_flipped.
Qed.

Lemma hamming_corrects_single_error_witness :
  exists total cw, codeword_bit_length 11 = Ok total /\ encode_bits 1337 11 = Ok cw /\
    0 <= cw < 2 ^ total /\
    forall e, 0 <= e <= total -> decode_bits (flip cw e) 11 = Ok (1337, e).
Proof. apply (hamming_corrects_single_error 11 1337); split; vm_compute; done. Defined.

(** [parity_bit_count] returns, for every accepted width, the least [r] with
    [2^r >= n + r + 1], and rejects every other width with [InvalidParameter]. *)
Theorem parity_bit_count_minimal n :
  if in_data_range n then
    exists r, parity_bit_count n = Ok r /\ n + r + 1 <= 2 ^ r /\
      forall r', 0 <= r' < r -> 2 ^ r' < n + r' + 1
  else parity_bit_count n = Err InvalidParameter.
Proof.
  destruct (in_data_range n) eqn:Hin; [|by unfold parity_bit_count; rewrite Hin].
  unfold in_data_range in Hin. apply andb_true_iff in Hin as [H1%Z.leb_le H2%Z.leb_le].
  pose proof (range_forallb (fun n => match parity_bit_count n with
    | Ok r => (n + r + 1 <=? 2 ^ r) && forallb (fun r' => 2 ^ r' <? n + r' + 1) (range 0 r)
    | _ => false end) 4 248 ltac:(by vm_compute) n) as H. simpl in H.
  unfold HAMMING_MIN_DATA_BITS, HAMMING_MAX_DATA_BITS in *. specialize (H ltac:(lia)).
  destruct (parity_bit_count n) as [r| |]; [|done..]. exists r.
  apply andb_true_iff in H as [H3%Z.leb_le H4]. split_and!; [done..|].
  intros r' Hr'. apply Z.ltb_lt. by apply (range_forallb (fun r' => 2 ^ r' <? n + r' + 1) 0 r).
Qed.

(** Widths from 58 to 247 bits pass the range check of the encoder and of the
    decoder, but their codewords do not fit in the [u64] they are built in: both
    shift by 64 or more, on every input, instead of returning an error. *)
Theorem hamming_wide_overflow n data codeword :
  58 <= n <= 247 -> 0 <= data < 2 ^ Z.min n 64 -> 0 <= codeword < 2 ^ 64 ->
  in_data_range n = true /\ encode_bits data n = Panic /\ decode_bits codeword n = Panic.
Proof.
  intros Hn Hd Hcw. assert (Hin : in_data_range n = true).
  { unfold in_data_range, HAMMING_MIN_DATA_BITS, HAMMING_MAX_DATA_BITS.
    by rewrite (proj2 (Z.leb_le 4 n)), (proj2 (Z.leb_le n 247)) by lia. }
  destruct (wide_code_facts n Hn) as (r & Hr & Hpos & Htot). split_and!; [done|..].
  - unfold encode_bits. rewrite Hin. simpl.
    assert (Hfit : Z.land data (lnot_w 64 (data_mask n)) = 0).
    { destruct (decide (n < 64)) as [|Hge]; [apply data_fits; [lia|]; by rewrite Z.min_l in Hd by lia|].
      unfold data_mask. rewrite Z.geb_leb, (proj2 (Z.leb_le 64 n)) by lia. apply Z.land_0_r. }
    rewrite Hfit. simpl. rewrite Hr. simpl. unfold place_data.
    rewrite (range_split 1 65), (range_cons 65), foldM_app by lia.
    destruct (place_data_ok data 64) as (cw & Hpd & _); [lia|]. unfold place_data in Hpd.
    change (64 + 1) with 65 in Hpd. by rewrite Hpd.
  - unfold decode_bits. rewrite Hin. simpl. rewrite Hr. simpl. unfold syndrome_of.
    rewrite (range_cons 0 r) by lia. simpl. by rewrite parity_of_wide by lia.
Qed.

Lemma hamming_wide_overflow_witness :
  in_data_range 58 = true /\ encode_bits 5 58 = Panic /\ decode_bits 9 58 = Panic.
Proof. apply (hamming_wide_overflow 58 5 9); split; by vm_compute. Defined.

(** The strict (7,4) decoder, documented to reject multi-bit corruption, never
    rejects a word: it maps every word to the codeword at most one bit away.  So
    two flipped bits in a codeword are always decoded, without an error, to other
    data than was encoded. *)
Theorem strict_decoder_never_rejects :
  (forall w, 0 <= w < 128 -> exists d e, decode_bits_strict w 4 = Ok d /\
     0 <= e <= 7 /\ encode_bits d 4 = Ok (flip w e)) /\
  (forall d e1 e2, 0 <= d < 16 -> 1 <= e1 < e2 -> e2 <= 7 ->
     exists cw d', encode_bits d 4 = Ok cw /\
       decode_bits_strict (flip (flip cw e1) e2) 4 = Ok d' /\ d' <> d).
Proof.
  split.
  - intros w Hw. destruct (perfect_facts w Hw) as (d & e & ? & _ & _ & ? & ?). by exists d, e.
  - intros d e1 e2 Hd He1 He2.
    pose proof (range_forallb (fun d => forallb (fun e1 => forallb (fun e2 =>
      match decode_bits_strict (flip (flip (nibble_cw d) e1) e2) 4 with
      | Ok d' => negb (d' =? d) | _ => false end) (range (e1 + 1) 8)) (range 1 8)) 0 16
      ltac:(by vm_compute) d Hd) as H.
    apply (range_forallb _ 1 8) with (i := e1) in H; [|lia].
    apply (range_forallb _ (e1 + 1) 8) with (i := e2) in H; [|lia].
    exists (nibble_cw d). destruct (nibble_facts d Hd) as (-> & _).
    destruct (decode_bits_strict _ 4) as [d'| |]; [|done..]. exists d'.
    split_and!; [done..|]. by apply Z.eqb_neq, negb_true_iff.
Qed.

(** The (7,4) block codec round trips every non-empty block, through both the
    allocating decoder and the strict in-place decoder, even when every byte of
    the encoding arrives with one flipped bit; the in-place decoder writes exactly
    the data at the front of any large enough buffer and leaves the rest. *)
Theorem block_codec_corrects data received out written :
  data <> [] -> 2 * zlen data <= USIZE_MAX -> zlen data <= zlen out ->
  exists encoded, encode_block data = Ok encoded /\ zlen encoded = 2 * zlen data /\
    (Forall2 one_bit encoded received ->
     decode_block received = Ok data /\
     decode_block_into_strict received (out, written) =
       (Ok tt, (data ++ drop (length data) out, zlen data))).
Proof.
  intros Hne Hlen Hout. exists (concat (map enc_byte data)).
  rewrite encode_block_ok by (done || pose proof (zlen_nonneg data); lia). split_and!; [done|..].
  { apply dec_enc, Forall_Forall2_diag, Forall_true. by left. }
  intros Hf. destruct (dec_enc _ _ Hf) as [Hdec Hl]. pose proof (zlen_pos data Hne).
  assert (received <> []) by (intros ->; rewrite zlen_nil in Hl; lia).
  assert (zlen received mod 2 = 0) by (rewrite Hl, Z.mul_comm; by apply Z.mod_mul).
  assert (Hhalf : zlen received / 2 = zlen data) by (rewrite Hl, Z.mul_comm; by apply Z.div_mul).
  split.
  - rewrite decode_block_ok by (done || lia). by rewrite Hdec.
  - unfold decode_block_into_strict.
    rewrite (decode_into_ok _ received out written (fun c => proj1 (dec_nibble_ok c)))
      by (assumption || lia).
    rewrite Hdec, Hhalf. do 4 f_equal. unfold zlen. lia.
Qed.

Lemma block_codec_corrects_witness :
  exists encoded, encode_block [x44; x46] = Ok encoded /\ zlen encoded = 2 * zlen [x44; x46] /\
    (Forall2 one_bit encoded encoded ->
     decode_block encoded = Ok [x44; x46] /\
     decode_block_into_strict encoded (array x00 4, 9) = (Ok tt, ([x44; x46; x00; x00], 2))).
Proof.
  destruct (block_codec_corrects [x44; x46] (concat (map enc_byte [x44; x46])) (array x00 4) 9)
    as (encoded & H1 & H2 & H3); [done|by vm_compute..|].
  exists encoded. split_and!; [done..|]. intros Hf. by vm_compute in H1; injection H1 as <-; apply H3.
Defined.

(** On every input of non-zero even length the allocating decoder, the strict
    in-place decoder and the plain in-place decoder agree: all three succeed with
    the same bytes. *)
Theorem block_decoders_agree encoded out written :
  encoded <> [] -> zlen encoded mod 2 = 0 -> zlen encoded <= USIZE_MAX ->
  zlen encoded / 2 <= zlen out ->
  exists data, decode_block encoded = Ok data /\ zlen data = zlen encoded / 2 /\
    decode_block_into_strict encoded (out, written) =
      (Ok tt, (data ++ drop (length data) out, zlen data)) /\
    decode_block_into encoded (out, written) =
      (Ok tt, (data ++ drop (length data) out, zlen data)).
Proof.
  intros Hne Heven Hlen Hout. exists (map dec_pair (chunks_exact2 encoded)).
  assert (Hl : zlen (map dec_pair (chunks_exact2 encoded)) = zlen encoded / 2).
  { rewrite <- zlen_chunks_exact2. unfold zlen. by rewrite length_map. }
  assert (Hn : Z.to_nat (zlen encoded / 2) = length (map dec_pair (chunks_exact2 encoded)))
    by (unfold zlen in *; lia).
  split_and!; [by apply decode_block_ok|assumption|..]; rewrite Hl, <- Hn.
  - by apply (decode_into_ok _ _ _ _ (fun c => proj1 (dec_nibble_ok c))).
  - by apply (decode_into_ok _ _ _ _ (fun c => proj2 (dec_nibble_ok c))).
Qed.

Lemma block_decoders_agree_witness :
  exists data, decode_block [x03; x7f] = Ok data /\ zlen data = zlen [x03; x7f] / 2 /\
    decode_block_into_strict [x03; x7f] ([xaa; xaa], 7) =
      (Ok tt, (data ++ drop (length data) [xaa; xaa], zlen data)) /\
    decode_block_into [x03; x7f] ([xaa; xaa], 7) =
      (Ok tt, (data ++ drop (length data) [xaa; xaa], zlen data)).
Proof. apply block_decoders_agree; by vm_compute. Defined.
