(* ===== verification/Sha256Bpf.v ===== *)
(** * Sha256Bpf: the in-tree SHA-256 of the eBPF build

    Models [dfim_core_engine/src/bpf_sha256.rs]: a SHA-256 that works in a
    caller-provided workspace, reused between calls, because the message
    schedule does not fit on the kernel stack.

    The reference is [fips_sha256], SHA-256 as FIPS 180-4 states it: pad the whole
    message, then fold the compression function, with the message schedule as an
    expanding list.  It shares the constants and the round with the code; the constants are
    checked against their definition by roots of primes ([constants_of_roots]), and the
    whole against two published digests.  The theorems show that the workspace routine computes it for
    every message whatever the workspace held before, that the Merkle parent
    routine is the same hash of the concatenation, and that both leave a
    well-formed workspace. *)

From stdpp Require Import base list numbers option strings.
From Stdlib Require Import ZArith Lia Strings.Byte.
From S2P Require Import Prelude Crypto Core.

Module BpfSha.

Definition INIT_STATE : list Z :=
  [0x6a09e667; 0xbb67ae85; 0x3c6ef372; 0xa54ff53a; 0x510e527f; 0x9b05688c; 0x1f83d9ab; 0x5be0cd19].

Record Sha256Workspace := {
  state : list Z;
  w : list Z;
  block : list byte;
  merge : list byte
}.

(** [Sha256Workspace::new] *)
Definition new_workspace : Sha256Workspace :=
  {| state := INIT_STATE; w := array 0 64; block := array x00 64; merge := array x00 64 |}.

(** The source's table, row by row. *)
Definition K : list Z := concat [
  [0x428a2f98; 0x71374491; 0xb5c0fbcf; 0xe9b5dba5; 0x3956c25b; 0x59f111f1; 0x923f82a4; 0xab1c5ed5];
  [0xd807aa98; 0x12835b01; 0x243185be; 0x550c7dc3; 0x72be5d74; 0x80deb1fe; 0x9bdc06a7; 0xc19bf174];
  [0xe49b69c1; 0xefbe4786; 0x0fc19dc6; 0x240ca1cc; 0x2de92c6f; 0x4a7484aa; 0x5cb0a9dc; 0x76f988da];
  [0x983e5152; 0xa831c66d; 0xb00327c8; 0xbf597fc7; 0xc6e00bf3; 0xd5a79147; 0x06ca6351; 0x14292967];
  [0x27b70a85; 0x2e1b2138; 0x4d2c6dfc; 0x53380d13; 0x650a7354; 0x766a0abb; 0x81c2c92e; 0x92722c85];
  [0xa2bfe8a1; 0xa81a664b; 0xc24b8b70; 0xc76c51a3; 0xd192e819; 0xd6990624; 0xf40e3585; 0x106aa070];
  [0x19a4c116; 0x1e376c08; 0x2748774c; 0x34b0bcb5; 0x391c0cb3; 0x4ed8aa4a; 0x5b9cca4f; 0x682e6ff3];
  [0x748f82ee; 0x78a5636f; 0x84c87814; 0x8cc70208; 0x90befffa; 0xa4506ceb; 0xbef9a3f7; 0xc67178f2]].

(** [u32::rotate_right] *)
Definition rotr (x n : Z) : Z := Z.lor (Z.shiftr x n) (as_u32 (Z.shiftl x (32 - n))).
Definition ch (x y z : Z) : Z := Z.lxor (Z.land x y) (Z.land (lnot_w 32 x) z).
Definition maj (x y z : Z) : Z := Z.lxor (Z.lxor (Z.land x y) (Z.land x z)) (Z.land y z).
Definition sig0 (x : Z) : Z := Z.lxor (Z.lxor (rotr x 2) (rotr x 13)) (rotr x 22).
Definition sig1 (x : Z) : Z := Z.lxor (Z.lxor (rotr x 6) (rotr x 11)) (rotr x 25).
Definition gam0 (x : Z) : Z := Z.lxor (Z.lxor (rotr x 7) (rotr x 18)) (Z.shiftr x 3).
Definition gam1 (x : Z) : Z := Z.lxor (Z.lxor (rotr x 17) (rotr x 19)) (Z.shiftr x 10).

(** [u32::wrapping_add] *)
Definition wrapping_add32 (a b : Z) : Z := as_u32 (a + b).

(** The working variables [a .. h] *)
Definition vars : Type := (Z * Z * Z * Z * Z * Z * Z * Z)%type.

(** One round of the compression loop *)
Definition round (v : vars) (k wi : Z) : vars :=
  let '(a, b, c, d, e, f, g, h) := v in
  let t1 := wrapping_add32 (wrapping_add32 (wrapping_add32 (wrapping_add32 h (sig1 e)) (ch e f g)) k) wi in
  let t2 := wrapping_add32 (sig0 a) (maj a b c) in
  (wrapping_add32 t1 t2, a, b, c, wrapping_add32 d t1, e, f, g).

Section model.
Context {E : Type}.

(** [w[i] = u32::from_be_bytes(chunk)] for the sixteen chunks of the block *)
Definition load_words (w : list Z) (block : list byte) : outcome E (list Z) :=
  foldM (fun w i =>
    chunk ← slice block (4 * i) (4 * i + 4);
    store w i (be_decode chunk)) w (range 0 (zlen block / 4)).

Definition extend_words (w : list Z) : outcome E (list Z) :=
  foldM (fun w i =>
    w2 ← index w (i - 2);
    w7 ← index w (i - 7);
    w15 ← index w (i - 15);
    w16 ← index w (i - 16);
    store w i (wrapping_add32 (wrapping_add32 (wrapping_add32 (gam1 w2) w7) (gam0 w15)) w16))
    w (range 16 64).

Definition state_vars (state : list Z) : outcome E vars :=
  match state with
  | [a; b; c; d; e; f; g; h] => Ok (a, b, c, d, e, f, g, h)
  | _ => Panic
  end.

Definition compress_block_raw (state w : list Z) (block : list byte) : outcome E (list Z * list Z) :=
  w ← load_words w block;
  w ← extend_words w;
  v ← state_vars state;
  v' ← foldM (fun v i => k ← index K i; wi ← index w i; Ok (round v k wi)) v (range 0 64);
  let '(s0, s1, s2, s3, s4, s5, s6, s7) := v in
  let '(a, b, c, d, e, f, g, h) := v' in
  Ok ([wrapping_add32 s0 a; wrapping_add32 s1 b; wrapping_add32 s2 c; wrapping_add32 s3 d;
       wrapping_add32 s4 e; wrapping_add32 s5 f; wrapping_add32 s6 g; wrapping_add32 s7 h], w).

Definition reset_sha256 (ws : Sha256Workspace) : Sha256Workspace :=
  {| state := INIT_STATE; w := array 0 (zlen ws.(w)); block := ws.(block); merge := ws.(merge) |}.

Definition state_to_digest (state : list Z) : outcome E (list byte) :=
  snd <$> foldM (fun '(i, out) word =>
    out ← copy_into out (i * 4) (i * 4 + 4) (be_encode 4 word);
    Ok (i + 1, out)) (0, array x00 SHA256_LEN) state.

Definition set_block (ws : Sha256Workspace) (b : list byte) : Sha256Workspace :=
  {| state := ws.(state); w := ws.(w); block := b; merge := ws.(merge) |}.
Definition set_merge (ws : Sha256Workspace) (b : list byte) : Sha256Workspace :=
  {| state := ws.(state); w := ws.(w); block := ws.(block); merge := b |}.
(** [ws.block.fill(0)] *)
Definition zero_block (ws : Sha256Workspace) : Sha256Workspace :=
  set_block ws (array x00 (zlen ws.(block))).

(** [compress_block_raw(&mut ws.state, &mut ws.w, input)] *)
Definition compress (ws : Sha256Workspace) (input : list byte) : outcome E Sha256Workspace :=
  sw ← compress_block_raw ws.(state) ws.(w) input;
  Ok {| state := fst sw; w := snd sw; block := ws.(block); merge := ws.(merge) |}.

(** [while offset + 64 <= full_len]: every iteration consumes 64 bytes, so a
    message of [n] bytes needs fewer than [n + 1] units of fuel. *)
Fixpoint full_blocks (fuel : nat) (data : list byte) (ws : Sha256Workspace) (offset : Z) :
    outcome E (Sha256Workspace * Z) :=
  match fuel with
  | O => Panic
  | S fuel =>
      if offset + 64 <=? zlen data then
        chunk ← slice data offset (offset + 64);
        b ← copy_into ws.(block) 0 64 chunk;
        let ws := set_block ws b in
        ws ← compress ws ws.(block);
        full_blocks fuel data ws (offset + 64)
      else Ok (ws, offset)
  end.

Definition sha256_digest_ws (data : list byte) (ws : Sha256Workspace) :
    outcome E (list byte * Sha256Workspace) :=
  let ws := reset_sha256 ws in
  let full_len := zlen data in
  wo ← full_blocks (S (length data)) data ws 0;
  let '(ws, offset) := wo in
  let rem := full_len - offset in
  let ws := zero_block ws in
  tail ← slice data offset (zlen data);
  b ← copy_into ws.(block) 0 rem tail;
  b ← store b rem x80;
  let ws := set_block ws b in
  ws ← (if rem >=? 56 then
          ws ← compress ws ws.(block);
          Ok (zero_block ws)
        else Ok ws);
  let bit_len := as_u64 (full_len * 8) in
  b ← copy_into ws.(block) 56 64 (be_encode 8 bit_len);
  let ws := set_block ws b in
  ws ← compress ws ws.(block);
  digest ← state_to_digest ws.(state);
  Ok (digest, ws).

Definition parent_hash_ws (left right : list byte) (ws : Sha256Workspace) :
    outcome E (list byte * Sha256Workspace) :=
  m ← copy_into ws.(merge) 0 SHA256_LEN left;
  m ← copy_into m SHA256_LEN (zlen m) right;
  let ws := set_merge ws m in
  let ws := reset_sha256 ws in
  ws ← compress ws ws.(merge);
  let ws := zero_block ws in
  b ← store ws.(block) 0 x80;
  let bit_len := be_encode 8 512 in
  b ← copy_into b 56 64 bit_len;
  let ws := set_block ws b in
  ws ← compress ws ws.(block);
  digest ← state_to_digest ws.(state);
  Ok (digest, ws).

Definition wf (ws : Sha256Workspace) : Prop :=
  length ws.(state) = 8%nat /\ length ws.(w) = 64%nat /\
  length ws.(block) = 64%nat /\ length ws.(merge) = 64%nat.
End model.

(** ** FIPS 180-4 *)

(** The message, a one bit, zeros, and the 64-bit length in bits. *)
Definition fips_pad (data : list byte) : list byte :=
  data ++ [x80] ++ array x00 ((55 - zlen data) mod 64) ++ be_encode 8 (8 * zlen data).

(** The blocks of [n] elements of a list. *)
Fixpoint chunks {A} (fuel : nat) (n : nat) (l : list A) : list (list A) :=
  match fuel, l with
  | S fuel, _ :: _ => take n l :: chunks fuel n (drop n l)
  | _, _ => []
  end.

(** [W_t] for [t < 16] is the block, then each word follows from earlier ones. *)
Definition next_word (ws : list Z) : Z :=
  let at_ (k : nat) := nth (length ws - k) ws 0 in
  wrapping_add32 (wrapping_add32 (wrapping_add32 (gam1 (at_ 2%nat)) (at_ 7%nat)) (gam0 (at_ 15%nat)))
    (at_ 16%nat).

Fixpoint expand (n : nat) (ws : list Z) : list Z :=
  match n with
  | O => ws
  | S n => let ws := expand n ws in ws ++ [next_word ws]
  end.

Definition schedule (block : list byte) : list Z :=
  expand 48 (map be_decode (chunks 16 4 block)).

Definition add_vars (s v : vars) : vars :=
  let '(s0, s1, s2, s3, s4, s5, s6, s7) := s in
  let '(a, b, c, d, e, f, g, h) := v in
  (wrapping_add32 s0 a, wrapping_add32 s1 b, wrapping_add32 s2 c, wrapping_add32 s3 d,
   wrapping_add32 s4 e, wrapping_add32 s5 f, wrapping_add32 s6 g, wrapping_add32 s7 h).

Definition fips_compress (s : vars) (block : list byte) : vars :=
  add_vars s (foldl (fun v '(k, wi) => round v k wi) s (zip K (schedule block))).

Definition fips_init : vars :=
  (0x6a09e667, 0xbb67ae85, 0x3c6ef372, 0xa54ff53a, 0x510e527f, 0x9b05688c, 0x1f83d9ab, 0x5be0cd19).

Definition vars_list (v : vars) : list Z :=
  let '(a, b, c, d, e, f, g, h) := v in [a; b; c; d; e; f; g; h].

Definition fips_sha256 (data : list byte) : list byte :=
  let padded := fips_pad data in
  concat (map (be_encode 4)
    (vars_list (foldl fips_compress fips_init (chunks (length padded) 64 padded)))).

(** The instance of the hash interface in builds with feature [bpf]; outside them
    the [sha2] crate stands behind the interface. *)
Definition bpf_hash : HashOps := {| sha256 := fips_sha256; ct_eq := bytes_eqb |}.

(** ** Chunks *)

Section chunks.
Context {A : Type} (n : nat) (Hn : (0 < n)%nat).
Implicit Types (l : list A).

Lemma chunks_fuel f1 f2 l :
  (length l <= f1 * n)%nat -> (length l <= f2 * n)%nat -> chunks f1 n l = chunks f2 n l.
Proof using Hn.
  revert f2 l. induction f1 as [|f1 IH]; intros [|f2] [|a l] H1 H2; simpl in *; try done; try lia.
  f_equal. apply IH; rewrite length_drop; simpl; lia.
Qed.

Lemma chunks_app k f l1 l2 : length l1 = (k * n)%nat ->
  chunks (k + f) n (l1 ++ l2) = chunks k n l1 ++ chunks f n l2.
Proof using Hn.
  revert l1. induction k as [|k IH]; intros l1 Hl.
  { destruct l1; [done|simpl in Hl; lia]. }
  assert (n <= length l1)%nat by lia. destruct l1 as [|a l1]; [simpl in *; lia|].
  simpl chunks. rewrite <- app_comm_cons. f_equal.
  - by rewrite (app_comm_cons l1), take_app_le by done.
  - rewrite (app_comm_cons l1), drop_app_le by done. apply IH. rewrite length_drop. lia.
Qed.

Lemma chunks_lookup k l i : length l = (k * n)%nat -> (i < k)%nat ->
  chunks k n l !! i = Some (take n (drop (n * i) l)).
Proof using Hn.
  revert l i. induction k as [|k IH]; intros l i Hl Hi; [lia|].
  destruct l as [|a l]; [simpl in *; lia|]. simpl chunks.
  destruct i as [|i]; [by rewrite Nat.mul_0_r|]. simpl.
  rewrite IH by (rewrite ?length_drop; lia). rewrite drop_drop. do 3 f_equal. lia.
Qed.

Lemma length_chunks k l : length l = (k * n)%nat -> length (chunks k n l) = k.
Proof using Hn.
  revert l. induction k as [|k IH]; intros l Hl; [by destruct l|].
  destruct l as [|a l]; [simpl in *; lia|]. simpl. f_equal. apply IH. rewrite length_drop. simpl in *; lia.
Qed.
End chunks.

#[local] Arguments chunks : simpl never.
#[local] Arguments K : simpl never.

(** ** The compression function *)

Section compress.
Context {E : Type}.

Lemma load_words_ok (w : list Z) (block : list byte) :
  length w = 64%nat -> length block = 64%nat ->
  @load_words E w block = Ok (map be_decode (chunks 16 4 block) ++ drop 16 w).
Proof.
  intros Hw Hb. unfold load_words. set (M := map be_decode (chunks 16 4 block)).
  assert (HM : length M = 16%nat) by (unfold M; rewrite length_map; by apply length_chunks; [lia|]).
  replace (zlen block / 4) with 16 by (unfold zlen; by rewrite Hb).
  loop_inv (fun i l => l = take (Z.to_nat i) M ++ drop (Z.to_nat i) w).
  - lia.
  - done.
  - intros i l Hi ->. unfold slice. unfold zlen at 1. rewrite Hb.
    rewrite (proj2 (Z.leb_le 0 _)), (proj2 (Z.leb_le _ (4 * i + 4))),
      (proj2 (Z.leb_le _ (Z.of_nat 64))) by lia. simpl.
    rewrite store_ok by (unfold zlen; rewrite length_app, length_take, length_drop; lia).
    eexists; split; [done|].
    assert (Hl : length (take (Z.to_nat i) M) = Z.to_nat i) by (rewrite length_take; lia).
    unfold splice. rewrite take_app_length' by done. rewrite drop_app_ge by (simpl; lia).
    rewrite drop_drop, Hl. replace (Z.to_nat (i + 1)) with (S (Z.to_nat i)) by lia.
    erewrite (take_S_r M); [rewrite <- app_assoc; f_equal; simpl; f_equal; f_equal; lia|].
    unfold M. rewrite list_lookup_fmap, chunks_lookup by lia. simpl. do 4 f_equal; lia.
  - subst. by rewrite take_ge by lia.
Qed.

#[local] Arguments expand : simpl never.

Lemma expand_S n W : expand (S n) W = expand n W ++ [next_word (expand n W)].
Proof. done. Qed.

Lemma length_expand n W : length (expand n W) = (n + length W)%nat.
Proof. induction n as [|n IH]; [done|]. rewrite expand_S, length_app, IH. simpl. lia. Qed.

Lemma index_back (l l' : list Z) k : (0 < k <= length l)%nat ->
  @index E Z (l ++ l') (zlen l - Z.of_nat k) = Ok (nth (length l - k) l 0).
Proof.
  intros Hk. rewrite index_app_l by lia. unfold index, zlen.
  rewrite (proj2 (Z.leb_le 0 _)) by lia.
  destruct (lookup_lt_is_Some_2 l (length l - k)) as [x Hx]; [lia|].
  replace (Z.to_nat (Z.of_nat (length l) - Z.of_nat k)) with (length l - k)%nat by lia.
  rewrite Hx. simpl. f_equal. symmetry. apply nth_lookup_Some with (d := 0) in Hx. done.
Qed.

Lemma extend_words_ok (W w : list Z) : length W = 16%nat -> length w = 48%nat ->
  @extend_words E (W ++ w) = Ok (expand 48 W).
Proof.
  intros HW Hw. unfold extend_words.
  loop_inv (fun i l => l = expand (Z.to_nat (i - 16)) W ++ drop (Z.to_nat (i - 16)) w).
  - lia.
  - done.
  - intros i l Hi ->. set (P := expand (Z.to_nat (i - 16)) W).
    assert (HP : zlen P = i) by (unfold zlen, P; rewrite length_expand; lia).
    assert (HPn : length P = Z.to_nat i) by (unfold zlen in HP; lia).
    replace (i - 2) with (zlen P - Z.of_nat 2) by lia. rewrite index_back by lia. simpl.
    replace (i - 7) with (zlen P - Z.of_nat 7) by lia. rewrite index_back by lia. simpl.
    replace (i - 15) with (zlen P - Z.of_nat 15) by lia. rewrite index_back by lia. simpl.
    replace (i - 16) with (zlen P - Z.of_nat 16) by lia. rewrite index_back by lia. simpl.
    rewrite store_ok by (unfold zlen; rewrite length_app, length_drop; lia).
    eexists; split; [done|]. unfold splice. rewrite take_app_length' by lia.
    rewrite drop_app_ge by (simpl; lia). rewrite drop_drop.
    replace (Z.to_nat (i + 1 - 16)) with (S (Z.to_nat (i - 16))) by lia.
    rewrite expand_S. fold P. rewrite <- app_assoc. f_equal.
    simpl. f_equal. f_equal. lia.
  - subst. rewrite drop_ge by lia. by rewrite app_nil_r.
Qed.

Lemma rounds_ok (KK W : list Z) (v : vars) : length KK = 64%nat -> length W = 64%nat ->
  foldM (fun v i => k ← @index E Z KK i; wi ← index W i; Ok (round v k wi)) v (range 0 64) =
    Ok (foldl (fun v '(k, wi) => round v k wi) v (zip KK W)).
Proof.
  intros HK HW. loop_inv (fun i x =>
    x = foldl (fun v '(k, wi) => round v k wi) v (take (Z.to_nat i) (zip KK W))).
  - lia.
  - done.
  - intros i x Hi ->.
    destruct (lookup_lt_is_Some_2 KK (Z.to_nat i)) as [k Hk]; [lia|].
    destruct (lookup_lt_is_Some_2 W (Z.to_nat i)) as [wi Hwi]; [lia|].
    unfold index. rewrite (proj2 (Z.leb_le 0 i)), Hk, Hwi by lia. simpl.
    eexists; split; [done|]. replace (Z.to_nat (i + 1)) with (S (Z.to_nat i)) by lia.
    rewrite (take_S_r _ _ (k, wi)); [by rewrite foldl_app|].
    by apply lookup_zip_with_Some; exists k, wi.
  - subst. by rewrite take_ge by (rewrite length_zip_with, HW, HK; lia).
Qed.

Lemma compress_block_raw_ok s w (block : list byte) :
  length w = 64%nat -> length block = 64%nat ->
  @compress_block_raw E (vars_list s) w block =
    Ok (vars_list (fips_compress s block), schedule block).
Proof.
  intros Hw Hb. unfold compress_block_raw. rewrite load_words_ok by done. rewrite ok_bind.
  assert (length (map be_decode (chunks 16 4 block)) = 16%nat)
    by (rewrite length_map; by apply length_chunks; [lia|]).
  rewrite extend_words_ok by (rewrite ?length_drop; lia). rewrite ok_bind.
  destruct s as [[[[[[[s0 s1] s2] s3] s4] s5] s6] s7]. change (state_vars _) with (@Ok E _ (s0, s1, s2, s3, s4, s5, s6, s7)). rewrite ok_bind.
  rewrite rounds_ok by (done || rewrite length_expand; lia). rewrite ok_bind.
  unfold fips_compress, schedule.
  by destruct (foldl _ _ _) as [[[[[[[a b] c] d] e] f] g] h].
Qed.

Lemma length_schedule (block : list byte) : length block = 64%nat -> length (schedule block) = 64%nat.
Proof.
  intros Hb. unfold schedule.
  rewrite length_expand, length_map, length_chunks; lia.
Qed.

Lemma length_vars_list v : length (vars_list v) = 8%nat.
Proof. by destruct v as [[[[[[[? ?] ?] ?] ?] ?] ?] ?]. Qed.

Lemma length_words words : length (concat (map (be_encode 4) words)) = (4 * length words)%nat.
Proof.
  induction words as [|x words IH]; [done|]. rewrite map_cons, concat_cons, length_app, IH.
  unfold be_encode. rewrite length_reverse, length_le_encode. simpl. lia.
Qed.

Lemma state_to_digest_ok v :
  @state_to_digest E (vars_list v) = Ok (concat (map (be_encode 4) (vars_list v))).
Proof.
  cut (forall words i out, 0 <= i -> i * 4 + 4 * zlen words <= zlen out ->
    foldM (fun '(i, out) word =>
      out ← copy_into out (i * 4) (i * 4 + 4) (be_encode 4 word); Ok (i + 1, out)) (i, out) words =
    @Ok E _ (i + zlen words, splice out (Z.to_nat (i * 4)) (concat (map (be_encode 4) words)))).
  { intros H. unfold state_to_digest. pose proof (length_vars_list v) as Hv.
    rewrite H by (rewrite ?zlen_array; unfold zlen, SHA256_LEN; lia). simpl. f_equal.
    apply splice_all. unfold array. rewrite length_replicate, length_words, Hv. done. }
  induction words as [|word words IH]; intros i out Hi Hl; simpl foldM.
  { rewrite zlen_nil, Z.add_0_r. simpl. by rewrite splice_nil. }
  rewrite zlen_cons in Hl |- *. pose proof (zlen_nonneg words).
  assert (He : length (be_encode 4 word) = 4%nat) by (unfold be_encode; by rewrite length_reverse).
  pose proof (length_words words) as Hc.
  rewrite copy_into_ok by zlia. simpl. unfold zlen in *.
  rewrite IH by (unfold zlen; rewrite ?length_splice by lia; lia). do 2 f_equal; [unfold zlen; lia|].
  replace (Z.to_nat ((i + 1) * 4)) with (Z.to_nat (i * 4) + length (be_encode 4 word))%nat by lia.
  rewrite splice_splice by lia. done.
Qed.
End compress.

(** ** The workspace routines *)

Section digest.
Context {E : Type}.

(** A well-formed workspace whose chaining state is [s]. *)
Definition holds (ws : Sha256Workspace) (s : vars) : Prop :=
  ws.(state) = vars_list s /\ length ws.(w) = 64%nat /\
  length ws.(block) = 64%nat /\ length ws.(merge) = 64%nat.

Lemma holds_wf ws s : holds ws s -> wf ws.
Proof. intros (Hs & ? & ? & ?). unfold wf. by rewrite Hs, length_vars_list. Qed.

Lemma reset_holds ws : wf ws -> holds (reset_sha256 ws) fips_init.
Proof.
  intros (_ & Hw & ? & ?). unfold holds, reset_sha256. simpl. split_and!; [done| |done..].
  unfold array, zlen. by rewrite length_replicate, Hw, Nat2Z.id.
Qed.

Lemma set_block_holds ws s b : holds ws s -> length b = 64%nat -> holds (set_block ws b) s.
Proof. intros (? & ? & ? & ?) ?. by unfold holds. Qed.

Lemma compress_ok ws s (input : list byte) : holds ws s -> length input = 64%nat ->
  exists ws', @compress E ws input = Ok ws' /\ holds ws' (fips_compress s input) /\
    ws'.(block) = ws.(block).
Proof.
  intros (Hs & Hw & Hb & Hm) Hi. unfold compress. rewrite Hs, compress_block_raw_ok by done.
  rewrite ok_bind. eexists; split; [done|]. unfold holds. cbn [state w block merge fst snd].
  split_and!; try done. by apply length_schedule.
Qed.

(** The complete 64-byte blocks of a message, and what is left. *)
Definition whole (data : list byte) : nat := (length data / 64)%nat.
Definition head_blocks (data : list byte) : list (list byte) :=
  chunks (whole data) 64 (take (64 * whole data) data).

Lemma whole_step (l1 l2 : list byte) : length l1 = 64%nat -> whole (l1 ++ l2) = S (whole l2).
Proof.
  intros Hl. unfold whole. rewrite length_app, Hl, Nat.add_comm.
  replace 64%nat with (1 * 64)%nat at 1 by lia. rewrite Nat.div_add by lia. lia.
Qed.

Lemma head_blocks_step (l1 l2 : list byte) : length l1 = 64%nat ->
  head_blocks (l1 ++ l2) = l1 :: head_blocks l2.
Proof.
  intros Hl. unfold head_blocks. rewrite whole_step by done.
  replace (take (64 * S (whole l2)) (l1 ++ l2)) with (l1 ++ take (64 * whole l2) l2).
  2: { rewrite take_app_ge by lia. do 2 f_equal. lia. }
  change (S (whole l2)) with (1 + whole l2)%nat.
  rewrite chunks_app by lia. destruct l1 as [|a l1]; [done|]. unfold chunks at 1.
  by rewrite take_ge by lia.
Qed.

Lemma full_blocks_ok fuel pre rest ws s : holds ws s -> (length rest < fuel)%nat ->
  exists ws', @full_blocks E fuel (pre ++ rest) ws (zlen pre) =
      Ok (ws', zlen pre + Z.of_nat (64 * whole rest)) /\
    holds ws' (foldl fips_compress s (head_blocks rest)).
Proof.
  revert pre rest ws s. induction fuel as [|fuel IH]; intros pre rest ws s Hws Hf; [lia|].
  simpl. rewrite zlen_app. destruct (Z.leb_spec (zlen pre + 64) (zlen pre + zlen rest)) as [Hle|Hgt].
  - assert (64 <= length rest)%nat by (unfold zlen in *; lia).
    assert (exists b rest', rest = b ++ rest' /\ length b = 64%nat) as (b & rest' & -> & Hb).
    { exists (take 64 rest), (drop 64 rest). rewrite take_drop, length_take. split; [done|lia]. }
    rewrite slice_skip by lia. rewrite Z.sub_diag.
    replace (zlen pre + 64 - zlen pre) with (zlen b) by (unfold zlen; lia).
    rewrite slice_head by done. rewrite ok_bind. pose proof Hws as (_ & _ & Hwb & _).
    rewrite copy_into_ok by (unfold zlen; lia). rewrite ok_bind.
    rewrite splice_all by lia.
    destruct (compress_ok (set_block ws b) s b) as (ws1 & Hc & Hws1 & _);
      [by apply set_block_holds|done|].
    change (block (set_block ws b)) with b. rewrite Hc, ok_bind.
    replace (zlen pre + 64) with (zlen (pre ++ b)) by (rewrite zlen_app; unfold zlen; lia).
    destruct (IH (pre ++ b) rest' ws1 _ Hws1) as (ws2 & Hfb & Hws2).
    { rewrite length_app in Hf. lia. }
    exists ws2. rewrite <- app_assoc in Hfb. rewrite Hfb. split; [|by rewrite head_blocks_step].
    do 2 f_equal. rewrite zlen_app, whole_step by done. unfold zlen. lia.
  - assert (length rest < 64)%nat by (unfold zlen in *; lia).
    assert (Hw : whole rest = 0%nat) by (unfold whole; by apply Nat.div_small).
    exists ws. unfold head_blocks. rewrite Hw. split; [|done]. do 2 f_equal. lia.
Qed.
(** The bytes after the last whole block, and the final padded blocks. *)
Definition tail (data : list byte) : list byte := drop (64 * whole data) data.

Definition last_blocks (t : list byte) (len : list byte) : list (list byte) :=
  if (length t <? 56)%nat
  then [t ++ x80 :: replicate (55 - length t) x00 ++ len]
  else [t ++ x80 :: replicate (63 - length t) x00; replicate 56 x00 ++ len].

Lemma tail_length (data : list byte) :
  (64 * whole data <= length data)%nat /\ (length (tail data) < 64)%nat /\
  (length (tail data) + 64 * whole data = length data)%nat.
Proof.
  unfold tail, whole. rewrite length_drop.
  pose proof (Nat.div_mod_eq (length data) 64). pose proof (Nat.mod_upper_bound (length data) 64). lia.
Qed.

Lemma chunks_one (l : list byte) f : length l = 64%nat -> chunks (S f) 64 l = [l].
Proof.
  intros Hl. destruct l as [|a l]; [done|]. unfold chunks. rewrite take_ge, drop_ge by lia.
  by destruct f.
Qed.

Lemma last_blocks_chunks (t len : list byte) f : length len = 8%nat -> (length t < 64)%nat ->
  chunks (S (S f)) 64
    (t ++ [x80] ++ replicate (if (length t <? 56)%nat then 55 - length t else 119 - length t) x00 ++ len)
  = last_blocks t len.
Proof.
  intros Hlen Ht. unfold last_blocks. destruct (Nat.ltb_spec (length t) 56).
  - apply chunks_one. rewrite length_app. simpl. rewrite length_app, length_replicate. lia.
  - set (b1 := t ++ x80 :: replicate (63 - length t) x00).
    replace (119 - length t)%nat with (63 - length t + 56)%nat by lia.
    rewrite replicate_add.
    replace (t ++ [x80] ++ (replicate (63 - length t) x00 ++ replicate 56 x00) ++ len)
      with (b1 ++ replicate 56 x00 ++ len)
      by (unfold b1; generalize (replicate 56 x00); intros z; by rewrite <- !app_assoc).
    assert (length b1 = 64%nat) by (unfold b1; rewrite length_app; simpl; rewrite length_replicate; lia).
    change (S (S f)) with (1 + S f)%nat. rewrite chunks_app by lia.
    rewrite (chunks_one b1 0) by done. rewrite chunks_one; [done|].
    rewrite length_app, length_replicate. lia.
Qed.

Lemma pad_blocks (data : list byte) :
  chunks (length (fips_pad data)) 64 (fips_pad data) =
    head_blocks data ++ last_blocks (tail data) (be_encode 8 (8 * zlen data)).
Proof.
  destruct (tail_length data) as (Hw & Ht & Hl).
  assert (Hlen : length (be_encode 8 (8 * zlen data)) = 8%nat)
    by (unfold be_encode; by rewrite length_reverse, length_le_encode).
  rewrite <- (last_blocks_chunks _ _ (whole data) Hlen Ht). unfold head_blocks.
  rewrite <- chunks_app by (rewrite ?length_take; lia).
  assert (Hp : fips_pad data = take (64 * whole data) data ++ tail data ++ [x80] ++
    replicate (if (length (tail data) <? 56)%nat then 55 - length (tail data) else 119 - length (tail data)) x00
    ++ be_encode 8 (8 * zlen data)).
  { unfold fips_pad. rewrite (app_assoc (take _ _)). unfold tail at 1. rewrite take_drop.
    do 3 f_equal. unfold array. f_equal. unfold zlen.
    replace (55 - Z.of_nat (length data)) with
      (55 - Z.of_nat (length (tail data)) + - Z.of_nat (whole data) * 64) by lia.
    rewrite Z.mod_add by lia. destruct (Nat.ltb_spec (length (tail data)) 56).
    - rewrite Z.mod_small by lia. lia.
    - replace (55 - Z.of_nat (length (tail data)))
        with (119 - Z.of_nat (length (tail data)) + -1 * 64) by lia.
      rewrite Z.mod_add, Z.mod_small by lia. lia. }
  rewrite <- Hp. apply chunks_fuel; [lia..|].
  rewrite Hp, !length_app, length_take, length_replicate, Hlen. simpl.
  destruct (Nat.ltb_spec (length (tail data)) 56); lia.
Qed.

Lemma be_encode_u64 z : be_encode 8 (as_u64 z) = be_encode 8 z.
Proof. unfold be_encode, as_u64. by rewrite (le_encode_mod 8). Qed.
(** The last compression, of a buffer whose final 8 bytes are the length. *)
Lemma finish_ok ws s b len : holds ws s -> ws.(block) = b ++ replicate 8 x00 ->
  length b = 56%nat -> length len = 8%nat ->
  exists ws', (b ← copy_into ws.(block) 56 64 len;
               let ws := set_block ws b in
               ws ← compress ws ws.(block);
               digest ← state_to_digest ws.(state);
               Ok (digest, ws)) =
    @Ok E _ (concat (map (be_encode 4) (vars_list (fips_compress s (b ++ len)))), ws') /\ wf ws'.
Proof.
  intros Hws Hblock Hb Hlen. pose proof Hws as (_ & _ & Hwb & _).
  rewrite copy_into_ok by (unfold zlen; lia). rewrite ok_bind, Hblock.
  assert (Hsp : splice (b ++ replicate 8 x00) (Z.to_nat 56) len = b ++ len).
  { unfold splice. rewrite take_app_length' by (rewrite Hb; done).
    rewrite drop_ge, app_nil_r by (rewrite length_app, length_replicate; lia). done. }
  rewrite Hsp. assert (length (b ++ len) = 64%nat) by (rewrite length_app; lia).
  destruct (compress_ok (set_block ws (b ++ len)) s (b ++ len)) as (ws1 & Hc & Hws1 & _);
    [by apply set_block_holds|done|].
  cbv zeta. change (block (set_block ws (b ++ len))) with (b ++ len). rewrite Hc, ok_bind.
  pose proof Hws1 as (Hs1 & _). rewrite Hs1, state_to_digest_ok, ok_bind.
  eexists; split; [done|]. by eapply holds_wf.
Qed.

Lemma zero_block_block ws : length ws.(block) = 64%nat ->
  (zero_block ws).(block) = replicate 64 x00.
Proof. intros H. unfold zero_block, set_block, array, zlen. by rewrite H. Qed.

(** The tail, the padding bit and zeros. *)
Lemma tail_block (t : list byte) : (length t < 64)%nat ->
  splice (splice (replicate 64 x00) 0 t) (length t) [x80] = t ++ x80 :: replicate (63 - length t) x00.
Proof.
  intros Ht. change (length t) with (0 + length t)%nat at 1.
  rewrite splice_splice by (rewrite length_replicate; simpl; lia). rewrite splice_0.
  rewrite drop_replicate, length_app, <- app_assoc. simpl. do 3 f_equal. lia.
Qed.

Lemma sha256_digest_ws_ok data ws : wf ws ->
  exists ws', @sha256_digest_ws E data ws = Ok (fips_sha256 data, ws') /\ wf ws'.
Proof.
  intros Hwf. unfold sha256_digest_ws. destruct (tail_length data) as (Hw & Ht & Hl).
  destruct (full_blocks_ok (S (length data)) [] data (reset_sha256 ws) fips_init)
    as (ws1 & Hfb & Hws1); [by apply reset_holds|lia|].
  rewrite app_nil_l, zlen_nil in Hfb. cbv zeta. rewrite Hfb, ok_bind. rewrite Z.add_0_l.
  set (s1 := foldl fips_compress fips_init (head_blocks data)) in *.
  set (t := tail data) in *.
  assert (Hrem : zlen data - Z.of_nat (64 * whole data) = zlen t) by (unfold zlen; lia).
  rewrite Hrem. pose proof Hws1 as (_ & _ & Hb1 & _).
  assert (Hslice : @slice E _ data (Z.of_nat (64 * whole data)) (zlen data) = Ok t).
  { unfold slice. rewrite (proj2 (Z.leb_le 0 _)), (proj2 (Z.leb_le (Z.of_nat _) _)), Z.leb_refl
      by (unfold zlen; lia). simpl. f_equal. rewrite Nat2Z.id. unfold t, tail.
    apply take_ge. rewrite length_drop. unfold zlen. lia. }
  rewrite Hslice, ok_bind, zero_block_block by done. set (z64 := replicate 64 x00).
  assert (Hz : length z64 = 64%nat) by apply length_replicate.
  rewrite copy_into_ok by (unfold zlen; lia). rewrite ok_bind.
  rewrite store_ok by (unfold zlen; rewrite length_splice; lia). rewrite ok_bind.
  replace (Z.to_nat (zlen t)) with (length t) by (unfold zlen; lia).
  change (Z.to_nat 0) with 0%nat. unfold z64. rewrite tail_block by done. clear Hz z64.
  rewrite be_encode_u64, (Z.mul_comm (zlen data) 8).
  unfold fips_sha256. rewrite pad_blocks, foldl_app. fold s1 t.
  set (len := be_encode 8 (8 * zlen data)).
  assert (Hlen : length len = 8%nat) by (unfold len, be_encode; by rewrite length_reverse, length_le_encode).
  set (b := t ++ x80 :: replicate (63 - length t) x00).
  assert (Hbl : length b = 64%nat) by (unfold b; rewrite length_app; simpl; rewrite length_replicate; lia).
  assert (Hws2 : holds (set_block (zero_block ws1) b) s1).
  { apply set_block_holds; [|done]. apply set_block_holds; [done|].
    unfold array, zlen. rewrite length_replicate. lia. }
  unfold last_blocks. destruct (Nat.ltb_spec (length t) 56) as [Hlt|Hge].
  - rewrite Z.geb_leb, (proj2 (Z.leb_gt 56 _)) by (unfold zlen; lia). rewrite ok_bind.
    apply (finish_ok _ s1 (t ++ x80 :: replicate (55 - length t) x00) len) in Hws2; [|..|done].
    + by rewrite <- app_assoc in Hws2.
    + cbn [block set_block]. unfold b. rewrite <- app_assoc, <- app_comm_cons. do 2 f_equal.
      rewrite <- replicate_add. f_equal. lia.
    + rewrite length_app. simpl. rewrite length_replicate. lia.
  - rewrite Z.geb_leb, (proj2 (Z.leb_le 56 _)) by (unfold zlen; lia).
    destruct (compress_ok _ s1 b Hws2) as (ws2 & Hc & Hws3 & Hb3); [done|].
    change (block (set_block (zero_block ws1) b)) with b. rewrite Hc, !ok_bind.
    assert (Hws4 : holds (zero_block ws2) (fips_compress s1 b)).
    { pose proof Hws3 as (_ & _ & Hl3 & _). apply set_block_holds; [done|].
      unfold array, zlen. by rewrite length_replicate, Hl3, Nat2Z.id. }
    apply (finish_ok _ _ (replicate 56 x00) len) in Hws4; [done| |by rewrite length_replicate|done].
    rewrite zero_block_block; [by rewrite <- replicate_add|]. by destruct Hws3 as (_ & _ & ? & _).
Qed.
(** Two 32-byte digests fill one block; the second is pure padding. *)
Lemma parent_blocks (l : list byte) : length l = 64%nat ->
  chunks (length (fips_pad l)) 64 (fips_pad l) =
    [l; x80 :: replicate 55 x00 ++ be_encode 8 512].
Proof.
  intros Hl. rewrite pad_blocks. unfold head_blocks, tail, whole. rewrite Hl.
  change (64 / 64)%nat with 1%nat. rewrite take_ge, drop_ge by lia.
  rewrite (chunks_one l 0) by done. unfold zlen. by rewrite Hl.
Qed.

Lemma parent_hash_ws_ok left right ws :
  wf ws -> length left = 32%nat -> length right = 32%nat ->
  exists ws', @parent_hash_ws E left right ws = Ok (fips_sha256 (left ++ right), ws') /\ wf ws'.
Proof.
  intros Hwf Hl Hr. pose proof Hwf as (Hs & Hw & Hb & Hm). unfold parent_hash_ws, SHA256_LEN.
  rewrite copy_into_ok by (unfold zlen; lia). rewrite ok_bind.
  set (m1 := splice (merge ws) (Z.to_nat 0) left).
  assert (length m1 = 64%nat) by (unfold m1; rewrite length_splice; simpl; lia).
  rewrite copy_into_ok by (unfold zlen; lia). rewrite ok_bind.
  assert (Hm2 : splice m1 (Z.to_nat 32) right = left ++ right).
  { unfold m1. replace (Z.to_nat 32) with (Z.to_nat 0 + length left)%nat by (rewrite Hl; done).
    rewrite splice_splice by (simpl; lia). apply splice_all. rewrite length_app. lia. }
  rewrite Hm2. cbv zeta. assert (Hlr : length (left ++ right) = 64%nat) by (rewrite length_app; lia).
  assert (Hws0 : holds (reset_sha256 (set_merge ws (left ++ right))) fips_init)
    by (apply reset_holds; by unfold wf).
  destruct (compress_ok _ _ (left ++ right) Hws0 Hlr) as (ws1 & Hc & Hws1 & _).
  change (merge (reset_sha256 (set_merge ws (left ++ right)))) with (left ++ right).
  rewrite Hc, ok_bind. pose proof Hws1 as (_ & _ & Hb1 & _). rewrite zero_block_block by done.
  set (z64 := replicate 64 x00). assert (Hz : length z64 = 64%nat) by apply length_replicate.
  rewrite store_ok by (unfold zlen; lia). rewrite ok_bind.
  set (ws2 := set_block (zero_block ws1) (splice z64 (Z.to_nat 0) [x80])).
  assert (Hws2 : holds ws2 (fips_compress fips_init (left ++ right))).
  { apply set_block_holds; [apply set_block_holds; [done|]|].
    - unfold array, zlen. by rewrite length_replicate, Hb1, Nat2Z.id.
    - rewrite length_splice; simpl; lia. }
  apply (finish_ok _ _ (x80 :: replicate 55 x00) (be_encode 8 512)) in Hws2; [|done..].
  rewrite <- app_comm_cons in Hws2. unfold fips_sha256. rewrite parent_blocks by done.
  cbn [foldl]. exact Hws2.
Qed.
End digest.

(** C28: on every message, whatever the workspace was used for before, the
    workspace routine returns without a panic the FIPS 180-4 digest of the message,
    32 bytes, and leaves a workspace that can be used again. *)
Theorem sha256_workspace_correct data ws :
  wf ws -> exists ws', sha256_digest_ws data ws = @Ok DfimError _ (fips_sha256 data, ws') /\
    wf ws' /\ length (fips_sha256 data) = 32%nat.
Proof.
  intros Hwf. destruct (@sha256_digest_ws_ok DfimError data ws Hwf) as (ws' & ? & ?).
  exists ws'. split_and!; [done..|]. unfold fips_sha256.
  by rewrite length_words, length_vars_list.
Qed.

Lemma sha256_workspace_correct_witness :
  exists ws', sha256_digest_ws (bytes_of_string "abc") new_workspace =
      @Ok DfimError _ (fips_sha256 (bytes_of_string "abc"), ws') /\
    wf ws' /\ length (fips_sha256 (bytes_of_string "abc")) = 32%nat.
Proof. apply sha256_workspace_correct. by vm_compute. Defined.

(** The specialised Merkle parent routine, which skips the block loop and
    hard-codes the padding, computes the digest of the concatenation of its two
    32-byte arguments, so it agrees with hashing the pair by the general routine,
    from any two workspaces. *)
Theorem parent_hash_workspace_correct left right ws ws0 :
  wf ws -> wf ws0 -> length left = 32%nat -> length right = 32%nat ->
  exists ws', parent_hash_ws left right ws = @Ok DfimError _ (fips_sha256 (left ++ right), ws') /\
    wf ws' /\
    fst <$> parent_hash_ws left right ws = fst <$> @sha256_digest_ws DfimError (left ++ right) ws0.
Proof.
  intros Hwf Hwf0 Hl Hr.
  destruct (@parent_hash_ws_ok DfimError left right ws Hwf Hl Hr) as (ws' & Hp & ?).
  destruct (@sha256_digest_ws_ok DfimError (left ++ right) ws0 Hwf0) as (ws0' & Hd & _).
  exists ws'. by rewrite Hp, Hd.
Qed.

Lemma parent_hash_workspace_correct_witness :
  exists ws', parent_hash_ws (array x00 32) (array x01 32) new_workspace =
      @Ok DfimError _ (fips_sha256 (array x00 32 ++ array x01 32), ws') /\ wf ws' /\
    fst <$> parent_hash_ws (array x00 32) (array x01 32) new_workspace =
    fst <$> @sha256_digest_ws DfimError (array x00 32 ++ array x01 32) new_workspace.
Proof. apply parent_hash_workspace_correct; by vm_compute. Defined.

(** ** The constants, from their definition in FIPS 180-4 *)

Definition prime_b (p : Z) : bool := forallb (fun d => negb (p mod Z.of_nat d =? 0)) (seq 2 (Z.to_nat p - 2)).
Definition primes (n : nat) : list Z := take n (List.filter prime_b (map Z.of_nat (seq 2 400))).

(** [k] is the first 32 bits of the fractional part of the [e]-th root of [p]. *)
Definition root_fraction (e p k : Z) : bool :=
  existsb (fun i => let r := Z.of_nat i * 2 ^ 32 + k in (r ^ e <=? p * 2 ^ (32 * e)) && (p * 2 ^ (32 * e) <? (r + 1) ^ e)) (seq 0 20).

(** The round constants are the cube roots of the first 64 primes and the initial state the
    square roots of the first 8. *)
Lemma constants_of_roots :
  Forall2 (fun p k => root_fraction 3 p k = true /\ 0 <= k < 2 ^ 32) (primes 64) K /\
  Forall2 (fun p k => root_fraction 2 p k = true /\ 0 <= k < 2 ^ 32) (primes 8) INIT_STATE.
Proof.
  assert (Hall : forall e l m, forallb (fun x => root_fraction e (fst x) (snd x) && (0 <=? snd x) && (snd x <? 2 ^ 32)) (zip l m) = true ->
    length l = length m -> Forall2 (fun p k => root_fraction e p k = true /\ 0 <= k < 2 ^ 32) l m).
  { intros e l. induction l as [|p l IH]; intros [|k m] Hf Hl; try done; constructor.
    - cbn in Hf. apply andb_prop in Hf as [[[H1 H2%Z.leb_le]%andb_prop H3%Z.ltb_lt]%andb_prop _]. done.
    - cbn in Hf. apply andb_prop in Hf as [_ Hf]. injection Hl as Hl. by apply IH. }
  split; apply Hall; vm_compute; reflexivity.
Qed.

(** The test vectors of FIPS 180-4 for one and two blocks. *)
Example sha256_abc : be_decode (fips_sha256 (bytes_of_string "abc")) =
  0xba7816bf8f01cfea414140de5dae2223b00361a396177a9cb410ff61f20015ad.
Proof. by vm_compute. Qed.

Example sha256_two_blocks :
  be_decode (fips_sha256 (bytes_of_string "abcdbcdecdefdefgefghfghighijhijkijkljklmklmnlmnomnopnopq")) =
  0x248d6a61d20638b8e5c026930c3e6039a33ce45964ff2167f6ecedd419db06c1.
Proof. by vm_compute. Qed.

Lemma bpf_hash_laws : @HashLaws bpf_hash.
Proof.
  split; simpl; [|apply bytes_eqb_eq]. intros data. unfold fips_sha256.
  by rewrite length_words, length_vars_list.
Qed.

End BpfSha.
