(* ===== verification/Merkle.v ===== *)
(** * Merkle: membership proofs over SHA-256

    Models [dfim_core_engine/src/merkle.rs]: building the layers of the tree under
    the observer's work cap, producing the sibling path of a leaf and checking it.

    The abstract tree is [layers_of]: pair up a layer, duplicating an odd last
    node, until one node is left.  The theorems show that [build] computes it on
    every non-empty input without reaching its cap of [3 N] iterations, that the
    path of every leaf is produced and accepted and has [ceil (log2 N)] steps, that
    an accepted path of that length for other data yields a SHA-256 collision, and
    the two places where the format does not bind: an odd layer's duplicate, and
    interior nodes presented as leaves. *)

From stdpp Require Import base list numbers option strings.
From Stdlib Require Import ZArith Lia Strings.Byte.
From S2P Require Import Prelude Crypto Core.

(** [ProofSide]: exported, and used by no function of the crate. *)
Inductive ProofSide := Left | Right.

Record ProofStep := { sibling : list byte }.
Record MerkleProof := { steps : list ProofStep }.
Record MerkleTree := { root : list byte; layers : list (list (list byte)) }.

Section model.
Context `{HashOps}.

Definition leaf_hash (data : list byte) : list byte := sha256_digest data.

(** The 64-byte buffer holds the two digests one after the other. *)
Definition parent_hash (left right : list byte) : list byte := sha256_digest (left ++ right).

(** The inner [while i < current.len()]; [i] grows by 2. *)
Fixpoint level_loop (fuel : nat) (observer : PatternObserver) (current : list (list byte)) (i : Z)
    (next : list (list byte)) : DfimResult (PatternObserver * list (list byte)) :=
  match fuel with
  | O => Panic
  | S fuel =>
      if i <? zlen current then
        observer ← Observer.tick observer;
        left ← index current i;
        right ← (if i + 1 <? zlen current then index current (i + 1) else index current i);
        level_loop fuel observer current (i + 2) (next ++ [parent_hash left right])
      else Ok (observer, next)
  end.

(** The outer [while current.len() > 1] *)
Fixpoint layers_loop (fuel : nat) (observer : PatternObserver) (current : list (list byte))
    (layers : list (list (list byte))) : DfimResult (list (list byte) * list (list (list byte))) :=
  match fuel with
  | O => Panic
  | S fuel =>
      if zlen current >? 1 then
        on ← level_loop (S (length current)) observer current 0 [];
        let '(observer, next) := on in
        layers_loop fuel observer next (layers ++ [next])
      else Ok (current, layers)
  end.

Definition build (leaves : list (list byte)) : DfimResult MerkleTree :=
  if zlen leaves =? 0 then Err EmptyInput
  else
    observer ← Observer.new (saturating_mul (zlen leaves) 3);
    oc ← foldM (observed (fun current leaf => Ok (current ++ [sha256_digest leaf])))
           (observer, []) leaves;
    let '(observer, current) := oc in
    cl ← layers_loop (length leaves) observer current [current];
    let '(current, layers) := cl in
    root ← ok_or (head current) IntegrityFailure;
    Ok {| root := root; layers := layers |}.

Definition leaf_count (self : MerkleTree) : Z :=
  match head self.(layers) with Some l => zlen l | None => 0 end.

(** The body of the loop of [prove] *)
Definition prove_step : Z * list ProofStep -> list (list byte) -> DfimResult (Z * list ProofStep) :=
  fun '(idx, steps) layer =>
    let sibling_idx :=
      if is_multiple_of idx 2 then (if idx + 1 <? zlen layer then idx + 1 else idx)
      else idx - 1 in
    s ← index layer sibling_idx;
    Ok (idx / 2, steps ++ [{| sibling := s |}]).

Definition prove (self : MerkleTree) (idx : Z) : DfimResult MerkleProof :=
  let leaf_count := leaf_count self in
  if idx >=? leaf_count then Err InvalidParameter
  else
    observer ← Observer.new (Z.max leaf_count 1001);
    n ← sub_usize (zlen self.(layers)) 1;
    inner ← slice self.(layers) 0 n;
    ois ← foldM (observed prove_step) (observer, (idx, [])) inner;
    Ok {| steps := snd (snd ois) |}.

(** One step up the path, shared by [verify_proof] and [CompactProof::verify_block] *)
Definition climb (hash : list byte) (idx : Z) (sibling : list byte) : list byte :=
  if is_multiple_of idx 2 then parent_hash hash sibling else parent_hash sibling hash.

Definition verify_step : list byte * Z -> ProofStep -> DfimResult (list byte * Z) :=
  fun '(hash, idx) step => Ok (climb hash idx step.(sibling), idx / 2).

Definition verify_proof (root leaf_data : list byte) (leaf_index : Z) (proof : MerkleProof) :
    DfimResult bool :=
  let hash := leaf_hash leaf_data in
  observer ← Observer.new (Z.max (zlen proof.(steps)) 1001);
  ohi ← foldM (observed verify_step) (observer, (hash, leaf_index)) proof.(steps);
  Ok (constant_time_hash_eq (fst (snd ohi)) root).

(** ** The abstract tree *)

(** The layer above; an odd last node is paired with itself. *)
Fixpoint pair_up (l : list (list byte)) : list (list byte) :=
  match l with
  | a :: b :: l => parent_hash a b :: pair_up l
  | [a] => [parent_hash a a]
  | [] => []
  end.

(** The layers of the tree, leaves first, and its root. *)
Fixpoint layers_of (fuel : nat) (l : list (list byte)) : list (list (list byte)) :=
  match fuel with
  | O => [l]
  | S fuel => match l with
              | _ :: _ :: _ => l :: layers_of fuel (pair_up l)
              | _ => [l]
              end
  end.

Fixpoint root_of (fuel : nat) (l : list (list byte)) : list byte :=
  match fuel, l with
  | S fuel, _ :: _ :: _ => root_of fuel (pair_up l)
  | _, a :: _ => a
  | _, [] => []
  end.

Definition merkle_root (leaves : list (list byte)) : list byte :=
  root_of (length leaves) (map leaf_hash leaves).

(** The index of the sibling of [idx] in the layer [l]. *)
Definition sibling_of (l : list (list byte)) (idx : nat) : nat :=
  if Nat.even idx then (if (S idx <? length l)%nat then S idx else idx) else Nat.pred idx.

(** The sibling path of the node [idx] of the first layer. *)
Fixpoint path (ls : list (list (list byte))) (idx : nat) : list (list byte) :=
  match ls with
  | [] => []
  | l :: ls' =>
      match ls' with
      | [] => []
      | _ :: _ =>
          nth (sibling_of l idx) l [] :: path ls' (Nat.div2 idx)
      end
  end.

(** What a path computes from a leaf hash. *)
Fixpoint climb_all (hash : list byte) (idx : nat) (sibs : list (list byte)) : list byte :=
  match sibs with
  | [] => hash
  | s :: sibs =>
      climb_all (if Nat.even idx then parent_hash hash s else parent_hash s hash) (Nat.div2 idx) sibs
  end.

(** The strings hashed while climbing, and in a whole verification. *)
Fixpoint climb_inputs (hash : list byte) (idx : nat) (sibs : list (list byte)) : list (list byte) :=
  match sibs with
  | [] => []
  | s :: sibs =>
      let input := if Nat.even idx then hash ++ s else s ++ hash in
      input :: climb_inputs (sha256_digest input) (Nat.div2 idx) sibs
  end.

Definition verify_inputs (data : list byte) (idx : nat) (sibs : list (list byte)) : list (list byte) :=
  data :: climb_inputs (leaf_hash data) idx sibs.

(** Two of the strings hashed by two verifications collide. *)
Definition collide (xs ys : list (list byte)) : Prop :=
  exists x y, x ∈ xs /\ y ∈ ys /\ collision x y.

Definition proof_of (sibs : list (list byte)) : MerkleProof :=
  {| steps := map Build_ProofStep sibs |}.

(** The height of the tree over [n] leaves: the least [d] with [n <= 2 ^ d]. *)
Definition height (n : nat) : nat := Nat.log2_up n.

End model.

(** ** Parity of indices *)

Lemma is_multiple_of_even n : is_multiple_of (Z.of_nat n) 2 = Nat.even n.
Proof.
  unfold is_multiple_of.
  destruct (Nat.even n) eqn:He.
  - apply Nat.even_spec in He as [m ->]. apply Z.eqb_eq. rewrite Nat2Z.inj_mul, Z.mul_comm.
    by apply Z.mod_mul.
  - apply Z.eqb_neq. intros Hm. apply Z.mod_divide in Hm as [k Hk]; [|done].
    assert (n = (2 * Z.to_nat k)%nat) as -> by lia.
    rewrite Nat.even_mul in He. done.
Qed.

Lemma of_nat_div2 n : Z.of_nat n / 2 = Z.of_nat (Nat.div2 n).
Proof. rewrite Nat.div2_div. by rewrite Nat2Z.inj_div. Qed.

Lemma list_ind2 {A} (P : list A -> Prop) :
  P [] -> (forall a, P [a]) -> (forall a b l, P l -> P (a :: b :: l)) -> forall l, P l.
Proof.
  intros H0 H1 H2 l. cut (P l /\ forall a, P (a :: l)); [tauto|].
  induction l as [|a l [IH1 IH2]]; split; auto.
Qed.

Section tree.
Context `{HashLaws}.
Implicit Types (l current : list (list byte)).

Lemma length_pair_up l : length (pair_up l) = Nat.div2 (S (length l)).
Proof. induction l as [|a|a b l IH] using list_ind2; [done..|]. simpl. by rewrite IH. Qed.

Lemma pair_up_shrinks l : (2 <= length l)%nat ->
  (0 < length (pair_up l) < length l /\ 2 * length (pair_up l) <= S (length l))%nat.
Proof.
  intros Hl. rewrite length_pair_up. pose proof (Nat.div2_odd (S (length l))) as Ho.
  destruct (Nat.odd (S (length l))); simpl Nat.b2n in Ho; lia.
Qed.

(** The node above [idx] is the parent of [idx] and its sibling. *)
Lemma pair_up_nth l idx : (idx < length l)%nat ->
  nth (Nat.div2 idx) (pair_up l) [] =
    if Nat.even idx
    then parent_hash (nth idx l []) (nth (if (S idx <? length l)%nat then S idx else idx) l [])
    else parent_hash (nth (Nat.pred idx) l []) (nth idx l []).
Proof.
  revert idx. induction l as [|a|a b l IH] using list_ind2; intros idx Hi; simpl in Hi.
  - lia.
  - assert (idx = 0%nat) as -> by lia. done.
  - destruct idx as [|[|idx]]; [done..|]. simpl Nat.div2. simpl Nat.even. simpl pair_up.
    simpl nth at 1. rewrite IH by lia. simpl length.
    destruct (Nat.even idx) eqn:He.
    + change (S (S (S idx)) <? S (S (length l)))%nat with (S idx <? length l)%nat.
      by destruct (S idx <? length l)%nat.
    + destruct idx; [done|]. done.
Qed.

Lemma level_loop_ok fuel observer pre rest next :
  Observer.wf observer -> (length rest < fuel)%nat ->
  Z.of_nat (length (pair_up rest)) <= Observer.budget observer ->
  exists observer', level_loop fuel observer (pre ++ rest) (zlen pre) next =
      Ok (observer', next ++ pair_up rest) /\ Observer.wf observer' /\
    Observer.budget observer' = Observer.budget observer - Z.of_nat (length (pair_up rest)).
Proof.
  revert observer pre rest next. induction fuel as [|fuel IH]; intros o pre rest next Hwf Hf Hb; [lia|].
  simpl level_loop. rewrite zlen_app. destruct rest as [|a rest].
  { rewrite zlen_nil, (proj2 (Z.ltb_ge _ _)) by lia. exists o. simpl in *. rewrite app_nil_r.
    split_and!; [done..|lia]. }
  rewrite zlen_cons. pose proof (zlen_nonneg rest). rewrite (proj2 (Z.ltb_lt _ _)) by lia.
  destruct (observer_tick_ok o) as (o1 & Ht & Hwf1 & Hb1); [done| |].
  { destruct rest; simpl in Hb; lia. }
  rewrite Ht, ok_bind, (index_skip pre (a :: rest) (zlen pre)), Z.sub_diag by lia.
  rewrite index_0, ok_bind.
  destruct rest as [|b rest].
  - rewrite zlen_nil, (proj2 (Z.ltb_ge _ _)), ok_bind by lia.
    destruct fuel as [|fuel]; [simpl in Hf; lia|]. simpl level_loop.
    rewrite zlen_app, zlen_cons, zlen_nil, (proj2 (Z.ltb_ge _ _)) by lia.
    exists o1. simpl in *. split_and!; [done..|lia].
  - rewrite zlen_cons in *. pose proof (zlen_nonneg rest). rewrite (proj2 (Z.ltb_lt _ _)) by lia.
    rewrite index_skip by lia. replace (zlen pre + 1 - zlen pre) with 1 by lia.
    change (index (a :: b :: rest) 1) with (@Ok DfimError _ b). rewrite ok_bind.
    destruct (IH o1 (pre ++ [a; b]) rest (next ++ [parent_hash a b])) as (o2 & Hl & Hwf2 & Hb2);
      [done|simpl in Hf; lia|simpl in Hb; lia|].
    rewrite <- app_assoc in Hl. rewrite zlen_app in Hl.
    change (zlen [a; b]) with 2 in Hl. exists o2. simpl app in Hl. rewrite Hl.
    split_and!; [by rewrite <- app_assoc|done|]. simpl length. lia.
Qed.

Lemma layers_loop_S fuel observer current ls :
  layers_loop (S fuel) observer current ls =
    if zlen current >? 1 then
      on ← level_loop (S (length current)) observer current 0 [];
      let '(observer, next) := on in
      layers_loop fuel observer next (ls ++ [next])
    else Ok (current, ls).
Proof. done. Qed.

Lemma layers_loop_ok fuel observer current ls :
  Observer.wf observer -> current <> [] -> (length current <= fuel)%nat ->
  2 * (Z.of_nat (length current) - 1) <= Observer.budget observer ->
  layers_loop fuel observer current (ls ++ [current]) =
    Ok ([root_of fuel current], ls ++ layers_of fuel current).
Proof.
  revert observer current ls. induction fuel as [|fuel IH]; intros o current ls Hwf Hne Hf Hb.
  { destruct current; [done|simpl in Hf; lia]. }
  rewrite layers_loop_S. unfold zlen at 1.
  destruct current as [|a [|b current]]; [done|done|]. set (l := a :: b :: current) in *.
  assert (Hl : (2 <= length l)%nat) by (simpl; lia).
  rewrite Z.gtb_ltb, (proj2 (Z.ltb_lt _ _)) by lia.
  destruct (pair_up_shrinks l Hl) as [Hs1 Hs2].
  destruct (level_loop_ok (S (length l)) o [] l []) as (o1 & Hlev & Hwf1 & Hb1); [done|lia|lia|].
  rewrite zlen_nil in Hlev. rewrite !app_nil_l in Hlev. rewrite Hlev, ok_bind.
  rewrite IH; [|done|by intros He; rewrite He in Hs1; simpl in Hs1; lia|lia|lia].
  change (layers_of (S fuel) l) with (l :: layers_of fuel (pair_up l)).
  change (root_of (S fuel) l) with (root_of fuel (pair_up l)).
  by rewrite <- app_assoc.
Qed.

Lemma build_ok (leaves : list (list byte)) : leaves <> [] -> 3 * zlen leaves <= USIZE_MAX ->
  build leaves = Ok {| root := merkle_root leaves;
                       layers := layers_of (length leaves) (map leaf_hash leaves) |}.
Proof.
  intros Hne Hlen. pose proof (zlen_pos leaves Hne) as Hpos. unfold build.
  rewrite (proj2 (Z.eqb_neq _ _)) by lia.
  unfold saturating_mul. rewrite Z.min_l by lia.
  destruct (observer_new_ok (zlen leaves * 3)) as (o & -> & Hwf & Hb); [lia|]. rewrite ok_bind.
  destruct (observed_foldM (fun current leaf => Ok (current ++ [sha256_digest leaf])) o [] leaves)
    as (o' & Hwf' & Hb' & ->); [done|lia|].
  rewrite (foldM_append _ (fun leaf => [leaf_hash leaf])) by done. rewrite !ok_bind, app_nil_l.
  rewrite concat_singletons. change [map leaf_hash leaves] with ([] ++ [map leaf_hash leaves]).
  rewrite layers_loop_ok; [|done|by destruct leaves|by rewrite length_map|].
  2: { rewrite length_map. unfold zlen in *. lia. }
  rewrite ok_bind. done.
Qed.

(** ** Paths *)

Lemma layers_of_cons fuel l : exists ls, layers_of fuel l = l :: ls.
Proof. destruct fuel; simpl; [by exists []|]. destruct l as [|a [|b l]]; eauto. Qed.

Lemma layers_of_S fuel l : (2 <= length l)%nat ->
  layers_of (S fuel) l = l :: layers_of fuel (pair_up l) /\
  root_of (S fuel) l = root_of fuel (pair_up l).
Proof. intros Hl. destruct l as [|a [|b l]]; simpl in Hl; [lia..|done]. Qed.

Lemma path_cons l fuel l' idx :
  path (l :: layers_of fuel l') idx =
    nth (sibling_of l idx) l [] :: path (layers_of fuel l') (Nat.div2 idx).
Proof. destruct (layers_of_cons fuel l') as [ls ->]. done. Qed.

Lemma div2_lt_pair_up l idx : (idx < length l)%nat -> (Nat.div2 idx < length (pair_up l))%nat.
Proof.
  intros Hi. rewrite length_pair_up.
  pose proof (Nat.div2_odd idx). pose proof (Nat.div2_odd (S (length l))).
  destruct (Nat.odd idx), (Nat.odd (S (length l))); simpl Nat.b2n in *; lia.
Qed.

Lemma climb_path fuel l idx : (length l <= fuel)%nat -> (idx < length l)%nat ->
  climb_all (nth idx l []) idx (path (layers_of fuel l) idx) = root_of fuel l.
Proof.
  revert l idx. induction fuel as [|fuel IH]; intros l idx Hf Hi; [lia|].
  destruct (decide (2 <= length l)%nat) as [Hl|Hl].
  - destruct (layers_of_S fuel l Hl) as [-> ->]. rewrite path_cons. simpl climb_all.
    pose proof (pair_up_shrinks l Hl). rewrite <- (IH (pair_up l) (Nat.div2 idx));
      [|lia|by apply div2_lt_pair_up].
    rewrite pair_up_nth by done. unfold sibling_of. by destruct (Nat.even idx).
  - destruct l as [|a [|b l]]; simpl in Hi, Hl; [lia| |lia]. by assert (idx = 0%nat) as -> by lia.
Qed.

Lemma height_step n : (2 <= n)%nat -> height n = S (height (Nat.div2 (S n))).
Proof.
  intros Hn. unfold height. pose proof (Nat.div2_odd (S n)) as Ho.
  set (m := Nat.div2 (S n)) in *.
  assert (2 * m <= S n <= 2 * m + 1)%nat by (destruct (Nat.odd (S n)); simpl Nat.b2n in Ho; lia).
  destruct (decide (m = 1%nat)) as [->|]; [by assert (n = 2%nat) as -> by lia|].
  destruct (Nat.log2_up_spec m) as [Hs1 Hs2]; [lia|].
  assert (0 < Nat.log2_up m)%nat by (apply Nat.log2_up_pos; lia).
  apply Nat.log2_up_unique; [lia|]. simpl Nat.pred.
  destruct (Nat.log2_up m) as [|k]; [lia|]. simpl in *. lia.
Qed.

Lemma length_layers_of fuel l : l <> [] -> (length l <= fuel)%nat ->
  length (layers_of fuel l) = S (height (length l)).
Proof.
  revert l. induction fuel as [|fuel IH]; intros l Hne Hf; [destruct l; [done|simpl in Hf; lia]|].
  destruct (decide (2 <= length l)%nat) as [Hl|Hl].
  - destruct (layers_of_S fuel l Hl) as [-> _]. simpl. pose proof (pair_up_shrinks l Hl).
    rewrite IH; [|intros He; rewrite He in *; simpl in *; lia|lia].
    by rewrite (height_step (length l)), length_pair_up.
  - destruct l as [|a [|b l]]; [done|done|simpl in Hl; lia].
Qed.

(** Each layer has half the nodes of the layer below, rounded up, and the last layer is
    the root alone. *)
Lemma layers_of_halve fuel l k a b : (length l <= fuel)%nat ->
  layers_of fuel l !! k = Some a -> layers_of fuel l !! S k = Some b ->
  length b = Nat.div2 (S (length a)) /\ (length b < length a)%nat.
Proof.
  revert l k. induction fuel as [|fuel IH]; intros l k Hf Ha Hb; [by destruct l|].
  destruct (decide (2 <= length l)%nat) as [Hl|Hl].
  - rewrite (proj1 (layers_of_S fuel l Hl)) in Ha, Hb. pose proof (pair_up_shrinks l Hl) as Hs.
    destruct k as [|k]; [|by apply (IH (pair_up l) k); [lia|..]].
    destruct (layers_of_cons fuel (pair_up l)) as [ls Hls]. rewrite Hls in Hb. simplify_eq/=.
    split; [apply length_pair_up|lia].
  - by destruct l as [|x [|y l]]; [..|simpl in Hl; lia].
Qed.

Lemma layers_of_last fuel l : l <> [] -> (length l <= fuel)%nat ->
  last (layers_of fuel l) = Some [root_of fuel l].
Proof.
  revert l. induction fuel as [|fuel IH]; intros l Hne Hf; [destruct l; [done|simpl in Hf; lia]|].
  destruct (decide (2 <= length l)%nat) as [Hl|Hl].
  - destruct (layers_of_S fuel l Hl) as [-> ->]. pose proof (pair_up_shrinks l Hl).
    rewrite last_cons, IH; [done| |lia]. intros He. rewrite He in *. simpl in *. lia.
  - by destruct l as [|a [|b l]]; [..|simpl in Hl; lia].
Qed.

Lemma length_path fuel l idx : l <> [] -> (length l <= fuel)%nat -> 
  length (path (layers_of fuel l) idx) = height (length l).
Proof.
  intros Hne Hf. pose proof (length_layers_of fuel l Hne Hf) as Hl.
  cut (forall (ls : list (list (list byte))) i, length (path ls i) = pred (length ls)).
  { intros Hp. rewrite Hp, Hl. done. }
  clear. induction ls as [|x ls IH]; intros i; [done|]. destruct ls as [|y ls]; [done|].
  change (S (length (path (y :: ls) (Nat.div2 i))) = S (length ls)). by rewrite IH.
Qed.

Lemma height_le n : (height n <= n)%nat.
Proof. unfold height. destruct n; [done|]. pose proof (Nat.log2_up_lt_lin (S n)). lia. Qed.

Lemma prove_step_ok l idx acc : (idx < length l)%nat ->
  prove_step (Z.of_nat idx, acc) l =
    Ok (Z.of_nat (Nat.div2 idx), acc ++ [{| sibling := nth (sibling_of l idx) l [] |}]).
Proof.
  intros Hi. unfold prove_step. rewrite is_multiple_of_even, of_nat_div2. cbv zeta.
  assert (Hsib : (if Nat.even idx
    then if Z.of_nat idx + 1 <? zlen l then Z.of_nat idx + 1 else Z.of_nat idx
    else Z.of_nat idx - 1) = Z.of_nat (sibling_of l idx) /\ (sibling_of l idx < length l)%nat).
  { unfold sibling_of, zlen. destruct (Nat.even idx) eqn:He.
    - destruct (Z.ltb_spec (Z.of_nat idx + 1) (Z.of_nat (length l))),
        (Nat.ltb_spec (S idx) (length l)); lia.
    - destruct idx; [done|]. simpl. lia. }
  destruct Hsib as [-> Hlt]. unfold index. rewrite (proj2 (Z.leb_le 0 _)), Nat2Z.id by lia.
  destruct (lookup_lt_is_Some_2 l (sibling_of l idx) Hlt) as [s Hs]. rewrite Hs. simpl. do 5 f_equal.
  symmetry. by apply nth_lookup_Some.
Qed.

(** The loop of [prove] over all layers but the last. *)
Lemma prove_loop fuel l idx acc : (length l <= fuel)%nat -> (idx < length l)%nat ->
  exists idx', foldM prove_step (Z.of_nat idx, acc)
      (take (pred (length (layers_of fuel l))) (layers_of fuel l)) =
    Ok (idx', acc ++ map Build_ProofStep (path (layers_of fuel l) idx)).
Proof.
  revert l idx acc. induction fuel as [|fuel IH]; intros l idx acc Hf Hi; [lia|].
  destruct (decide (2 <= length l)%nat) as [Hl|Hl].
  - destruct (layers_of_S fuel l Hl) as [-> _]. rewrite path_cons.
    destruct (layers_of_cons fuel (pair_up l)) as [ls Hls].
    replace (take _ (l :: _)) with
      (l :: take (pred (length (layers_of fuel (pair_up l)))) (layers_of fuel (pair_up l)))
      by (by rewrite Hls).
    cbn [foldM]. rewrite prove_step_ok, ok_bind by done. pose proof (pair_up_shrinks l Hl).
    edestruct (IH (pair_up l) (Nat.div2 idx)) as (idx' & ->); [lia|by apply div2_lt_pair_up|].
    exists idx'. by rewrite <- app_assoc.
  - exists (Z.of_nat idx). destruct l as [|a [|b l]]; simpl in Hl, Hi; [lia| |lia].
    simpl. by rewrite app_nil_r.
Qed.

Lemma prove_ok (leaves : list (list byte)) t i :
  build leaves = Ok t -> 3 * zlen leaves <= USIZE_MAX -> (i < length leaves)%nat ->
  prove t (Z.of_nat i) =
    Ok (proof_of (path (layers_of (length leaves) (map leaf_hash leaves)) i)).
Proof.
  intros Hb Hlen Hi. assert (Hne : leaves <> []) by (intros ->; simpl in Hi; lia).
  rewrite build_ok in Hb by done. injection Hb as <-. unfold prove.
  set (l := map leaf_hash leaves). assert (Hl : length l = length leaves) by apply length_map.
  assert (Hlne : l <> []) by (intros He; rewrite He in Hl; simpl in Hl; lia).
  assert (Hcount : leaf_count {| root := merkle_root leaves; layers := layers_of (length leaves) l |} =
    zlen leaves).
  { unfold leaf_count. simpl. destruct (layers_of_cons (length leaves) l) as [ls ->]. simpl.
    unfold zlen. by rewrite Hl. }
  rewrite Hcount, Z.geb_leb, (proj2 (Z.leb_gt _ _)) by (unfold zlen; lia).
  destruct (observer_new_ok (Z.max (zlen leaves) 1001)) as (o & -> & Hwf & Hbud);
    [unfold USIZE_MAX in *; lia|].
  rewrite ok_bind. cbn [layers].
  pose proof (length_layers_of (length leaves) l Hlne ltac:(lia)) as HL.
  unfold sub_usize. rewrite (proj2 (Z.leb_le 1 _)), ok_bind by (unfold zlen; lia).
  rewrite slice_take, ok_bind by (unfold zlen; lia).
  replace (Z.to_nat (zlen (layers_of (length leaves) l) - 1))
    with (pred (length (layers_of (length leaves) l))) by (unfold zlen; lia).
  destruct (prove_loop (length leaves) l i []) as (idx' & Hfold); [lia..|].
  match goal with |- context [foldM (observed _) _ ?ls] =>
    destruct (observed_foldM prove_step o (Z.of_nat i, []) ls) as (o' & _ & _ & ->); [done| |] end.
  { unfold zlen at 1. rewrite length_take, HL, Hl. pose proof (height_le (length leaves)).
    unfold zlen in Hbud. lia. }
  rewrite Hfold. done.
Qed.

(** ** Checking a path *)

Lemma climb_even hash i s :
  climb hash (Z.of_nat i) s = if Nat.even i then parent_hash hash s else parent_hash s hash.
Proof. unfold climb. by rewrite is_multiple_of_even. Qed.

Lemma verify_loop hash i sibs : exists i',
  foldM verify_step (hash, Z.of_nat i) (map Build_ProofStep sibs) = Ok (climb_all hash i sibs, i').
Proof.
  revert hash i. induction sibs as [|s sibs IH]; intros hash i; simpl foldM; [by eexists|].
  simpl. rewrite of_nat_div2, climb_even. apply IH.
Qed.

Lemma verify_proof_eq rt data i sibs : zlen sibs <= USIZE_MAX ->
  verify_proof rt data (Z.of_nat i) (proof_of sibs) =
    Ok (ct_eq (climb_all (leaf_hash data) i sibs) rt).
Proof.
  intros Hl. unfold verify_proof, proof_of. cbn [steps].
  assert (Hm : zlen (map Build_ProofStep sibs) = zlen sibs) by (unfold zlen; by rewrite length_map).
  rewrite Hm. destruct (observer_new_ok (Z.max (zlen sibs) 1001)) as (o & -> & Hwf & Hb);
    [unfold USIZE_MAX in *; lia|]. rewrite ok_bind.
  destruct (observed_foldM verify_step o (leaf_hash data, Z.of_nat i) (map Build_ProofStep sibs))
    as (o' & _ & _ & ->); [done|lia|].
  destruct (verify_loop (leaf_hash data) i sibs) as (i' & ->). done.
Qed.

(** ** Binding *)

Lemma collide_cons x y xs ys : collide xs ys -> collide (x :: xs) (y :: ys).
Proof. intros (a & b & Ha & Hb & Hc). exists a, b. split_and!; [by right..|done]. Qed.

(** Equal parents have equal children, or their inputs collide. *)
Lemma parent_inj h1 s1 h2 s2 (e : bool) : length h1 = 32%nat -> length h2 = 32%nat ->
  length s1 = 32%nat -> length s2 = 32%nat ->
  let x := if e then h1 ++ s1 else s1 ++ h1 in
  let y := if e then h2 ++ s2 else s2 ++ h2 in
  sha256 x = sha256 y -> h1 = h2 \/ collision x y.
Proof.
  intros Hh1 Hh2 Hs1 Hs2 x y Heq. destruct (sha256_inj_or_collision x y Heq) as [Hxy|]; [left|by right].
  subst x y. destruct e; apply app_inj_1 in Hxy; naive_solver congruence.
Qed.

Lemma climb_all_inj h1 h2 i sibs1 sibs2 :
  length h1 = 32%nat -> length h2 = 32%nat -> length sibs1 = length sibs2 ->
  Forall (fun s => length s = 32%nat) sibs1 -> Forall (fun s => length s = 32%nat) sibs2 ->
  climb_all h1 i sibs1 = climb_all h2 i sibs2 ->
  h1 = h2 \/ collide (climb_inputs h1 i sibs1) (climb_inputs h2 i sibs2).
Proof.
  intros H1 H2. revert h1 h2 i sibs2 H1 H2.
  induction sibs1 as [|s1 sibs1 IH]; intros h1 h2 i [|s2 sibs2] H1 H2 Hl Hf1 Hf2 Heq;
    simplify_eq/=; [by left|].
  apply Forall_cons in Hf1 as [Hs1 Hf1]. apply Forall_cons in Hf2 as [Hs2 Hf2].
  assert (Hpar : forall h s, (if Nat.even i then parent_hash h s else parent_hash s h) =
    sha256_digest (if Nat.even i then h ++ s else s ++ h)) by (intros; by destruct (Nat.even i)).
  rewrite !Hpar in Heq.
  apply IH in Heq as [Heq|Hcol]; [|right; by apply collide_cons|by apply sha256_length..|done|done|done].
  destruct (parent_inj h1 s1 h2 s2 (Nat.even i)) as [->|Hc]; [done..|by left|right].
  eexists _, _. split_and!; [by apply list_elem_of_here..|done].
Qed.

Lemma length_climb_all_path (leaves : list (list byte)) i : leaves <> [] ->
  length (path (layers_of (length leaves) (map leaf_hash leaves)) i) = height (length leaves).
Proof.
  intros Hne. rewrite length_path, length_map; [done| |by rewrite length_map].
  by destruct leaves.
Qed.

Lemma pair_up_lengths l : Forall (fun h => length h = 32%nat) (pair_up l).
Proof.
  induction l as [|a|a b l IH] using list_ind2; [done|..];
    (apply Forall_cons; split; [apply sha256_length|done]).
Qed.

Lemma leaf_hash_lengths leaves : Forall (fun h => length h = 32%nat) (map leaf_hash leaves).
Proof. apply Forall_forall. intros h (x & -> & _)%list_elem_of_fmap. apply sha256_length. Qed.

Lemma path_lengths fuel l i : (length l <= fuel)%nat -> (i < length l)%nat ->
  Forall (fun h => length h = 32%nat) l ->
  Forall (fun s => length s = 32%nat) (path (layers_of fuel l) i).
Proof.
  revert l i. induction fuel as [|fuel IH]; intros l i Hf Hi Hl; [lia|].
  destruct (decide (2 <= length l)%nat) as [H2|H2].
  - destruct (layers_of_S fuel l H2) as [-> _]. rewrite path_cons. constructor.
    + destruct (nth_in_or_default (sibling_of l i) l []) as [Hin|Hd].
      * rewrite Forall_forall in Hl. by apply Hl, list_elem_of_In.
      * exfalso. assert (Hs : (sibling_of l i < length l)%nat).
        { unfold sibling_of. destruct (Nat.even i), (Nat.ltb_spec (S i) (length l)); lia. }
        pose proof (nth_In l [] Hs) as Hin. rewrite Hd in Hin. rewrite Forall_forall in Hl.
        apply list_elem_of_In, Hl in Hin. done.
    + pose proof (pair_up_shrinks l H2). apply IH; [lia|by apply div2_lt_pair_up|apply pair_up_lengths].
  - destruct l as [|a [|b l]]; simpl in H2, Hi; [lia|constructor|lia].
Qed.

Lemma leaf_path_root (leaves : list (list byte)) i leaf : leaves !! i = Some leaf ->
  climb_all (leaf_hash leaf) i (path (layers_of (length leaves) (map leaf_hash leaves)) i) =
    merkle_root leaves.
Proof.
  intros Hi. pose proof (lookup_lt_Some _ _ _ Hi). unfold merkle_root.
  rewrite <- (climb_path (length leaves) (map leaf_hash leaves) i) by (rewrite length_map; lia).
  f_equal. symmetry. apply nth_lookup_Some. by rewrite list_lookup_fmap, Hi.
Qed.

Lemma proof_of_siblings p : p = proof_of (map sibling p.(steps)).
Proof.
  destruct p as [ss]. unfold proof_of. f_equal. simpl. induction ss as [|[s] ss IH]; simpl; congruence.
Qed.

(** One proof accepts at most one string at an index, up to a collision. *)
Lemma verify_same_proof rt d1 d2 i p :
  zlen p.(steps) <= USIZE_MAX -> Forall (fun s => zlen s.(sibling) = 32) p.(steps) ->
  verify_proof rt d1 (Z.of_nat i) p = Ok true -> verify_proof rt d2 (Z.of_nat i) p = Ok true ->
  d1 = d2 \/ collide (verify_inputs d1 i (map sibling p.(steps)))
                     (verify_inputs d2 i (map sibling p.(steps))).
Proof.
  intros Hl Hf. set (sibs := map sibling p.(steps)).
  rewrite (proof_of_siblings p), !verify_proof_eq by (unfold sibs, zlen; rewrite length_map; exact Hl).
  intros [= H1%ct_eq_spec] [= H2%ct_eq_spec]. rewrite <- H2 in H1.
  assert (Hs : Forall (fun s => length s = 32%nat) sibs).
  { apply Forall_forall. intros s (st & -> & Hin)%list_elem_of_fmap. rewrite Forall_forall in Hf.
    specialize (Hf st Hin). unfold zlen in Hf. lia. }
  apply climb_all_inj in H1; [|apply sha256_length..|done|done|done].
  destruct H1 as [H1|Hc]; [|right; by apply collide_cons].
  destruct (sha256_inj_or_collision _ _ H1) as [->|Hc]; [by left|right].
  exists d1, d2. split_and!; [by left..|done].
Qed.

Lemma verify_total rt d i p : zlen p.(steps) <= USIZE_MAX -> exists b, verify_proof rt d (Z.of_nat i) p = Ok b.
Proof.
  intros Hl. rewrite (proof_of_siblings p), verify_proof_eq by (unfold zlen; rewrite length_map; exact Hl). by eexists.
Qed.

(** ** Theorems *)

(** On every non-empty list of leaves (whose triple fits in [usize]) the tree is
    built without reaching the work cap of [3 N] iterations and its root is the
    abstract Merkle root; for every leaf, [prove] returns a proof of exactly
    [ceil (log2 N)] steps and [verify_proof] accepts that leaf at that index. *)
Theorem merkle_complete (leaves : list (list byte)) :
  leaves <> [] -> 3 * zlen leaves <= USIZE_MAX ->
  exists t, build leaves = Ok t /\ root t = merkle_root leaves /\
    forall i leaf, leaves !! i = Some leaf ->
      exists p, prove t (Z.of_nat i) = Ok p /\ length (steps p) = height (length leaves) /\
        verify_proof (root t) leaf (Z.of_nat i) p = Ok true.
Proof.
  intros Hne Hlen. pose proof (build_ok leaves Hne Hlen) as Hb. eexists. split; [exact Hb|].
  split; [done|]. intros i leaf Hi. pose proof (lookup_lt_Some _ _ _ Hi) as Hlt.
  eexists. split; [by apply (prove_ok leaves)|]. pose proof (height_le (length leaves)) as Hh.
  split; [unfold proof_of; simpl; by rewrite length_map, length_climb_all_path|].
  rewrite verify_proof_eq by (unfold zlen in *; rewrite length_climb_all_path by done; lia).
  simpl. rewrite (leaf_path_root leaves i leaf Hi). by rewrite ct_eq_refl.
Qed.

(** The two nested loops of [build] terminate on every input whose triple length fits
    in [usize]: neither runs out of the fuel of the model (which would be [Panic]) nor
    reaches the observer's cap of [3 N] iterations. The empty list is the error
    [EmptyInput]; otherwise the outer loop runs exactly [ceil (log2 N)] times, every round
    strictly shrinks the level to half of it rounded up, and the last level is the root
    alone. *)
Theorem merkle_build_terminates (leaves : list (list byte)) :
  3 * zlen leaves <= USIZE_MAX ->
  (leaves = [] /\ build leaves = Err EmptyInput) \/
  exists t, build leaves = Ok t /\ length (layers t) = S (height (length leaves)) /\
    (forall k a b, layers t !! k = Some a -> layers t !! S k = Some b ->
      length b = Nat.div2 (S (length a)) /\ (length b < length a)%nat) /\
    last (layers t) = Some [root t].
Proof.
  intros Hlen. destruct (decide (leaves = [])) as [->|Hne]; [by left|right].
  eexists. split; [by apply build_ok|]. simpl. unfold merkle_root.
  assert (Hl : length (map leaf_hash leaves) = length leaves) by apply length_map.
  assert (Hm : map leaf_hash leaves <> []) by (intros He; rewrite He in Hl; by destruct leaves).
  split_and!.
  - rewrite length_layers_of by (done || lia). by rewrite Hl.
  - intros k a b. apply layers_of_halve. lia.
  - apply layers_of_last; [done|lia].
Qed.

(** C7: an accepted proof of the tree's height binds the data: if [verify_proof]
    accepts [data] at index [i] against the root built from [leaves], then [data] is
    the leaf at [i], or two strings hashed by this verification and by the honest
    one are an explicit SHA-256 collision. *)
Theorem merkle_binding (leaves : list (list byte)) t i leaf data sibs :
  build leaves = Ok t -> 3 * zlen leaves <= USIZE_MAX -> leaves !! i = Some leaf ->
  length sibs = height (length leaves) -> Forall (fun s => length s = 32%nat) sibs ->
  verify_proof (root t) data (Z.of_nat i) (proof_of sibs) = Ok true ->
  exists honest, prove t (Z.of_nat i) = Ok (proof_of honest) /\
    (data = leaf \/ collide (verify_inputs data i sibs) (verify_inputs leaf i honest)).
Proof.
  intros Hb Hlen Hi Hl Hf Hv. pose proof (lookup_lt_Some _ _ _ Hi) as Hlt.
  assert (Hne : leaves <> []) by (intros ->; simpl in Hlt; lia).
  eexists. split; [by apply (prove_ok leaves)|].
  rewrite build_ok in Hb by done. injection Hb as <-. simpl root in Hv.
  pose proof (height_le (length leaves)) as Hh.
  rewrite verify_proof_eq in Hv by (unfold zlen in *; rewrite Hl; lia).
  assert (Heq : climb_all (leaf_hash data) i sibs = merkle_root leaves)
    by (injection Hv as Hct; by apply ct_eq_spec).
  rewrite <- (leaf_path_root leaves i leaf Hi) in Heq.
  apply climb_all_inj in Heq; [| apply sha256_length.. | | done |].
  - destruct Heq as [Heq|Hc]; [|right; by apply collide_cons].
    destruct (sha256_inj_or_collision _ _ Heq) as [->|Hc]; [by left|right].
    exists data, leaf. split_and!; [by left..|done].
  - by rewrite Hl, length_climb_all_path.
  - apply path_lengths; [rewrite length_map; lia..|].
    apply leaf_hash_lengths.
Qed.

Lemma root_of_fuel f1 f2 l : (length l <= f1)%nat -> (length l <= f2)%nat ->
  root_of f1 l = root_of f2 l.
Proof.
  revert f2 l. induction f1 as [|f1 IH]; intros f2 l H1 H2.
  { destruct l; [by destruct f2|simpl in H1; lia]. }
  destruct (decide (2 <= length l)%nat) as [Hl|Hl].
  - destruct f2 as [|f2]; [lia|]. rewrite (proj2 (layers_of_S f1 l Hl)), (proj2 (layers_of_S f2 l Hl)).
    pose proof (pair_up_shrinks l Hl). apply IH; lia.
  - destruct l as [|a [|b l]]; [by destruct f2|by destruct f2|simpl in Hl; lia].
Qed.

Lemma pair_up_dup (l : list (list byte)) x : Nat.even (length l) = true ->
  pair_up (l ++ [x; x]) = pair_up (l ++ [x]).
Proof.
  induction l as [|a|a b l IH] using list_ind2; intros He; [done|done|].
  simpl. f_equal. by apply IH.
Qed.

(** The root does not bind the number of leaves: repeating the last leaf of an
    odd number (at least three) of leaves gives the same root, because an odd last
    node is paired with itself. *)
Theorem merkle_duplicate_last_leaf (leaves : list (list byte)) x :
  leaves <> [] -> Nat.even (length leaves) = true -> 3 * (zlen leaves + 2) <= USIZE_MAX ->
  exists t1 t2, build (leaves ++ [x]) = Ok t1 /\ build (leaves ++ [x; x]) = Ok t2 /\
    root t1 = root t2.
Proof.
  intros Hne He Hlen. eexists _, _. rewrite !build_ok by
    (zlia || (intros ?%app_eq_nil; naive_solver)).
  split_and!; [done..|]. simpl. unfold merkle_root. rewrite !length_app, !map_app. simpl.
  set (l := map leaf_hash leaves). assert (Hl : length l = length leaves) by apply length_map.
  rewrite <- Hl in *. assert (0 < length l)%nat by (rewrite Hl; destruct leaves; [done|simpl; lia]).
  clearbody l. replace (length l + 1)%nat with (S (length l)) by lia.
  replace (length l + 2)%nat with (S (S (length l))) by lia.
  rewrite (proj2 (layers_of_S _ (l ++ [leaf_hash x]) ltac:(rewrite length_app; simpl; lia))).
  rewrite (proj2 (layers_of_S _ (l ++ [leaf_hash x; leaf_hash x]) ltac:(rewrite length_app; simpl; lia))).
  rewrite pair_up_dup by done.
  pose proof (pair_up_shrinks (l ++ [leaf_hash x])) as Hs. rewrite length_app in Hs. simpl in Hs.
  apply root_of_fuel; lia.
Qed.

Lemma interior_path n l i : (2 * i + 1 < length l)%nat ->
  path (layers_of (S n) l) (2 * i) = nth (S (2 * i)) l [] :: path (layers_of n (pair_up l)) i.
Proof.
  intros Hi. rewrite (proj1 (layers_of_S n l ltac:(lia))), path_cons, Nat.div2_double.
  unfold sibling_of. rewrite (proj2 (Nat.even_spec (2 * i))) by (by exists i).
  by rewrite (proj2 (Nat.ltb_lt (S (2 * i)) _)) by lia.
Qed.

(** Leaves and interior nodes are hashed alike, so the proof of a leaf, without
    its first step, proves the 64-byte concatenation of the leaf's hash and its
    sibling's as a leaf of the same root: a verifier must fix the leaf size or the
    proof length. *)
Theorem merkle_interior_node_accepted (leaves : list (list byte)) t i leaf leaf' :
  build leaves = Ok t -> 3 * zlen leaves <= USIZE_MAX ->
  leaves !! (2 * i)%nat = Some leaf -> leaves !! (2 * i + 1)%nat = Some leaf' ->
  exists p, prove t (Z.of_nat (2 * i)) = Ok p /\
    verify_proof (root t) (leaf_hash leaf ++ leaf_hash leaf') (Z.of_nat i)
      {| steps := List.tl (steps p) |} = Ok true.
Proof.
  intros Hb Hlen Hi Hi'. pose proof (lookup_lt_Some _ _ _ Hi') as Hlt.
  assert (Hne : leaves <> []) by (intros ->; simpl in Hlt; lia).
  eexists. split; [apply (prove_ok leaves); [done..|lia]|].
  rewrite build_ok in Hb by done. injection Hb as <-. simpl root.
  pose proof (leaf_path_root leaves (2 * i) leaf Hi) as Hroot.
  pose proof (length_climb_all_path leaves (2 * i) Hne) as Hpl. pose proof (height_le (length leaves)) as Hh.
  assert (Hn : exists n, length leaves = S n) by (exists (pred (length leaves)); lia).
  destruct Hn as [n Hn]. unfold zlen in Hlen. rewrite Hn in Hroot, Hpl, Hh, Hlen |- *.
  rewrite interior_path in Hroot, Hpl |- * by (rewrite length_map; lia).
  unfold proof_of. simpl steps. simpl List.tl.
  match goal with |- verify_proof _ _ _ {| steps := map _ ?sibs |} = _ =>
    change {| steps := map Build_ProofStep sibs |} with (proof_of sibs) end.
  rewrite verify_proof_eq by (simpl in Hpl; unfold zlen; lia).
  cbn [climb_all] in Hroot. rewrite Nat.div2_double in Hroot.
  rewrite (proj2 (Nat.even_spec (2 * i))) in Hroot by (by exists i).
  assert (Hs : nth (S (2 * i)) (map leaf_hash leaves) [] = leaf_hash leaf').
  { apply nth_lookup_Some. rewrite list_lookup_fmap. replace (S (2 * i)) with (2 * i + 1)%nat by lia.
    by rewrite Hi'. }
  rewrite Hs in Hroot. change (leaf_hash (_ ++ _)) with (parent_hash (leaf_hash leaf) (leaf_hash leaf')).
  rewrite Hroot. by rewrite ct_eq_refl.
Qed.
End tree.

(** ** Concrete trees *)

Module MerkleWitness.
#[local] Existing Instance Toy.hash.
#[local] Existing Instance toy_hash_laws.

Definition three : list (list byte) := [[x41]; [x42; x42]; [x43]].

Lemma merkle_complete_witness :
  three <> [] /\ exists t, build three = Ok t /\ root t = merkle_root three /\
    forall i leaf, three !! i = Some leaf ->
      exists p, prove t (Z.of_nat i) = Ok p /\ length (steps p) = height (length three) /\
        verify_proof (root t) leaf (Z.of_nat i) p = Ok true.
Proof. split; [done|]. apply merkle_complete; by vm_compute. Defined.

Lemma merkle_build_terminates_witness :
  exists t, build three = Ok t /\ length (layers t) = 3%nat /\ last (layers t) = Some [root t].
Proof.
  destruct (merkle_build_terminates three) as [[? _]|(t & Hb & Hl & _ & Hr)]; [by vm_compute|done|].
  exists t. by split_and!.
Defined.

Lemma merkle_binding_witness :
  exists t honest, build three = Ok t /\ prove t (Z.of_nat 2) = Ok (proof_of honest) /\
    ([x43] = [x43] \/ collide (verify_inputs [x43] 2 honest) (verify_inputs [x43] 2 honest)).
Proof.
  pose (t := {| root := merkle_root three; layers := layers_of 3 (map leaf_hash three) |}).
  pose (sibs := path (layers_of 3 (map leaf_hash three)) 2).
  destruct (merkle_binding three t 2 [x43] [x43] sibs) as (honest & Hp & Hc);
    [by vm_compute|by vm_compute|done|by vm_compute|repeat constructor; by vm_compute|by vm_compute|].
  exists t, honest. split_and!; [by vm_compute|done|by left].
Defined.

Lemma merkle_duplicate_last_leaf_witness :
  exists t1 t2, build ([[x41]; [x42; x42]] ++ [[x43]]) = Ok t1 /\
    build ([[x41]; [x42; x42]] ++ [[x43]; [x43]]) = Ok t2 /\ root t1 = root t2.
Proof. apply merkle_duplicate_last_leaf; by vm_compute. Defined.

Lemma merkle_interior_node_accepted_witness :
  exists t p, build three = Ok t /\ prove t (Z.of_nat (2 * 0)) = Ok p /\
    verify_proof (root t) (leaf_hash [x41] ++ leaf_hash [x42; x42]) (Z.of_nat 0)
      {| steps := List.tl (steps p) |} = Ok true.
Proof.
  pose (t := {| root := merkle_root three; layers := layers_of 3 (map leaf_hash three) |}).
  destruct (merkle_interior_node_accepted three t 0 [x41] [x42; x42]) as (p & Hp & Hv);
    [by vm_compute|by vm_compute|done..|].
  exists t, p. split_and!; [by vm_compute|done..].
Defined.
End MerkleWitness.
