(* ===== verification/BlockStream.v ===== *)
(** * BlockStream: the [DFIMBOOT] v1 sidecar format

    Models [dfim_core_engine/src/parser.rs] and the serializer of
    [dfim_windows_uefi/src/manifest.rs].

    The two functions are written independently in the source (one crate parses,
    the other serializes).  The theorems show that they are inverse to each other
    on well-formed manifests, so that a manifest has exactly one encoding, and
    that the parser, fed with arbitrary bytes, never panics or overflows. *)

From stdpp Require Import base list numbers option strings.
From Stdlib Require Import ZArith Lia Strings.Byte.
From S2P Require Import Prelude Crypto Core Merkle.

Definition BLOCK_STREAM_MAGIC : list byte := bytes_of_string "DFIMBOOT".
Definition BLOCK_STREAM_VERSION : Z := 1.
Definition HEADER_PREFIX_LEN : Z := 56.

Record BlockStreamManifest := {
  merkle_root : list byte;
  block_size : Z;
  block_count : Z;
  fec_backup : list byte;
  proofs : list MerkleProof
}.

(** One iteration of the loop over the sibling hashes of a proof *)
Definition parse_step (data : list byte) (offset : Z) (steps : list ProofStep) (step_idx : Z) :
    DfimResult (list ProofStep) :=
  rel ← ok_or (checked_mul step_idx SHA256_LEN) ParameterOverflow;
  start ← ok_or (checked_add offset rel) ParameterOverflow;
  end_ ← ok_or (checked_add start SHA256_LEN) ParameterOverflow;
  sibling ← slice data start end_;
  Ok (steps ++ [{| sibling := sibling |}]).

(** One iteration of the loop over the proofs *)
Definition parse_proof (data : list byte) (st : Z * list MerkleProof) (_ : Z) :
    DfimResult (Z * list MerkleProof) :=
  let '(offset, proofs) := st in
  if offset >=? zlen data then Err BufferTooShort
  else
    b ← index data offset;
    let step_count := b2z b in
    offset ← ok_or (checked_add offset 1) ParameterOverflow;
    if step_count >? MAX_PROOF_STEPS then Err InvalidParameter
    else
      proof_bytes ← ok_or (checked_mul step_count SHA256_LEN) ParameterOverflow;
      proof_end ← ok_or (checked_add offset proof_bytes) ParameterOverflow;
      if zlen data <? proof_end then Err BufferTooShort
      else
        steps ← foldM (parse_step data offset) [] (range 0 step_count);
        Ok (proof_end, proofs ++ [{| steps := steps |}]).

Definition parse_block_stream (data : list byte) : DfimResult BlockStreamManifest :=
  if zlen data <? HEADER_PREFIX_LEN then Err BufferTooShort
  else
    magic ← slice data 0 8;
    if negb (bytes_eqb magic BLOCK_STREAM_MAGIC) then Err IntegrityFailure
    else
      version ← (b ← slice data 8 12; read_u32 b);
      if negb (version =? BLOCK_STREAM_VERSION) then Err InvalidParameter
      else
        block_size ← (b ← slice data 12 16; read_u32 b);
        block_count ← (b ← slice data 16 20; read_u32 b);
        if negb (block_size =? DFIM_BLOCK_SIZE) || (block_count =? 0) then Err InvalidParameter
        else
          validate_block_count block_count ;;
          merkle_root ← slice data 20 52;
          fec_len ← (b ← slice data 52 56; read_u32 b);
          fec_end ← ok_or (checked_add HEADER_PREFIX_LEN fec_len) ParameterOverflow;
          if zlen data <? fec_end then Err BufferTooShort
          else
            fec_backup ← slice data HEADER_PREFIX_LEN fec_end;
            if (zlen fec_backup =? 0) || negb (is_multiple_of (zlen fec_backup) 2)
            then Err InvalidParameter
            else
              op ← foldM (parse_proof data) (fec_end, []) (range 0 block_count);
              let '(offset, proofs) := op in
              if negb (offset =? zlen data) then Err IntegrityFailure
              else Ok {| merkle_root := merkle_root; block_size := block_size;
                         block_count := block_count; fec_backup := fec_backup; proofs := proofs |}.

(** ** Serialization *)

Definition MANIFEST_MAGIC : list byte := bytes_of_string "DFIMBOOT".
Definition MANIFEST_VERSION : Z := 1.

(** The body of the loop over the proofs *)
Definition serialize_proof (blob : list byte) (proof : MerkleProof) : DfimResult (list byte) :=
  if zlen proof.(steps) >? MAX_PROOF_STEPS then Err InvalidParameter
  else Ok (blob ++ [z2b (as_u8 (zlen proof.(steps)))] ++ concat (map sibling proof.(steps))).

Definition serialize_boot_sidecar (merkle_root : list byte) (block_size block_count : Z)
    (fec_backup : list byte) (proofs : list MerkleProof) : DfimResult (list byte) :=
  if negb (block_size =? DFIM_BLOCK_SIZE) || (block_count =? 0) then Err InvalidParameter
  else
    validate_block_count block_count ;;
    if negb (zlen proofs =? block_count) then Err InvalidParameter
    else if (zlen fec_backup =? 0) || negb (is_multiple_of (zlen fec_backup) 2)
    then Err InvalidParameter
    else
      let blob := MANIFEST_MAGIC ++ le_encode 4 MANIFEST_VERSION ++ le_encode 4 block_size ++
        le_encode 4 block_count ++ merkle_root ++ le_encode 4 (as_u32 (zlen fec_backup)) ++
        fec_backup in
      foldM serialize_proof blob proofs.

(** ** Well-formed manifests *)

Definition proof_wf (p : MerkleProof) : Prop :=
  zlen p.(steps) <= MAX_PROOF_STEPS /\ Forall (fun s => zlen s.(sibling) = SHA256_LEN) p.(steps).

(** What the types of the fields say, and the bounds both sides check. *)
Definition manifest_wf (m : BlockStreamManifest) : Prop :=
  zlen m.(merkle_root) = SHA256_LEN /\ m.(block_size) = DFIM_BLOCK_SIZE /\
  1 <= m.(block_count) <= MAX_BOOT_BLOCKS /\ zlen m.(proofs) = m.(block_count) /\
  0 < zlen m.(fec_backup) < 2 ^ 32 /\ zlen m.(fec_backup) mod 2 = 0 /\
  Forall proof_wf m.(proofs).

(** The bytes of a proof and of a manifest. *)
Definition proof_bytes (p : MerkleProof) : list byte :=
  z2b (zlen p.(steps)) :: concat (map sibling p.(steps)).

Definition header_bytes (m : BlockStreamManifest) : list byte :=
  MANIFEST_MAGIC ++ le_encode 4 MANIFEST_VERSION ++ le_encode 4 m.(block_size) ++
  le_encode 4 m.(block_count) ++ m.(merkle_root) ++ le_encode 4 (zlen m.(fec_backup)) ++ m.(fec_backup).

Definition manifest_bytes (m : BlockStreamManifest) : list byte :=
  header_bytes m ++ concat (map proof_bytes m.(proofs)).

(** ** Proof records *)

Lemma zlen_siblings (ss : list ProofStep) :
  Forall (fun s => zlen s.(sibling) = SHA256_LEN) ss ->
  zlen (concat (map sibling ss)) = 32 * zlen ss.
Proof.
  induction 1 as [|s ss Hs _ IH]; [done|]. simpl. rewrite zlen_app, zlen_cons, IH, Hs.
  unfold SHA256_LEN. lia.
Qed.

(** One sibling read from the middle of the data. *)
Lemma parse_step_ok (pre post : list byte) (ss : list ProofStep) s acc :
  Forall (fun s => zlen s.(sibling) = SHA256_LEN) (ss ++ [s]) ->
  zlen (pre ++ concat (map sibling (ss ++ [s])) ++ post) <= USIZE_MAX ->
  parse_step (pre ++ concat (map sibling (ss ++ [s])) ++ post) (zlen pre) acc (zlen ss) =
    Ok (acc ++ [s]).
Proof.
  intros Hf Hlen. pose proof (zlen_nonneg post). pose proof (zlen_nonneg pre). pose proof (zlen_nonneg ss).
  apply Forall_app in Hf as [Hf Hs]. rewrite Forall_singleton in Hs.
  rewrite map_app, concat_app in *. simpl in *. rewrite app_nil_r in *.
  pose proof (zlen_siblings ss Hf) as Hl. rewrite !zlen_app, Hl, Hs in Hlen.
  unfold parse_step, checked_mul, checked_add, SHA256_LEN in *.
  rewrite (proj2 (Z.leb_le (zlen ss * 32) _)) by lia. simpl.
  rewrite (proj2 (Z.leb_le (zlen pre + _) _)) by lia. simpl.
  rewrite (proj2 (Z.leb_le (zlen pre + _ + 32) _)) by lia. simpl.
  rewrite slice_skip by lia. rewrite <- app_assoc, slice_skip by lia.
  rewrite Hl. replace (zlen pre + zlen ss * 32 - zlen pre - 32 * zlen ss) with 0 by lia.
  rewrite slice_head by lia. simpl. by destruct s.
Qed.

Lemma parse_steps_ok (pre post : list byte) (ss : list ProofStep) :
  Forall (fun s => zlen s.(sibling) = SHA256_LEN) ss ->
  zlen (pre ++ concat (map sibling ss) ++ post) <= USIZE_MAX ->
  foldM (parse_step (pre ++ concat (map sibling ss) ++ post) (zlen pre)) [] (range 0 (zlen ss)) = Ok ss.
Proof.
  intros Hf Hlen.
  loop_inv (fun i acc => acc = take (Z.to_nat i) ss).
  - apply zlen_nonneg.
  - done.
  - intros i acc Hi ->. unfold zlen in Hi.
    destruct (lookup_lt_is_Some_2 ss (Z.to_nat i)) as [s Hs]; [lia|].
    pose proof (take_drop_middle _ _ _ Hs) as Hsplit.
    eexists; split; [|by replace (Z.to_nat (i + 1)) with (S (Z.to_nat i)) by lia].
    rewrite (take_S_r _ _ _ Hs).
    set (ss1 := take (Z.to_nat i) ss) in *. set (ss2 := drop (S (Z.to_nat i)) ss) in *.
    assert (Hc : concat (map sibling ss) ++ post =
      concat (map sibling (ss1 ++ [s])) ++ concat (map sibling ss2) ++ post).
    { rewrite <- Hsplit. rewrite cons_middle, app_assoc, map_app, concat_app. by rewrite <- app_assoc. }
    rewrite Hc in *. replace i with (zlen ss1) at 1.
    2: { unfold zlen, ss1. rewrite length_take. lia. }
    apply parse_step_ok; [|done]. rewrite <- Hsplit, cons_middle, app_assoc in Hf.
    by apply Forall_app in Hf as [? _].
  - subst. f_equal. apply take_ge. unfold zlen. lia.
Qed.

Lemma zlen_proof_bytes p : proof_wf p -> zlen (proof_bytes p) = 1 + 32 * zlen p.(steps).
Proof.
  intros [_ Hf]. unfold proof_bytes. by rewrite zlen_cons, zlen_siblings.
Qed.

Lemma step_count_byte p : proof_wf p -> b2z (z2b (zlen p.(steps))) = zlen p.(steps).
Proof.
  intros [Hl _]. unfold MAX_PROOF_STEPS in Hl. pose proof (zlen_nonneg p.(steps)).
  rewrite b2z_z2b. apply Z.mod_small. lia.
Qed.

Lemma parse_proof_ok pre p post acc i : proof_wf p ->
  zlen (pre ++ proof_bytes p ++ post) <= USIZE_MAX ->
  parse_proof (pre ++ proof_bytes p ++ post) (zlen pre, acc) i =
    Ok (zlen (pre ++ proof_bytes p), acc ++ [p]).
Proof.
  intros Hwf Hlen. pose proof (zlen_proof_bytes p Hwf) as Hpl. pose proof (step_count_byte p Hwf) as Hsc.
  pose proof Hwf as [Hmax Hf]. pose proof (zlen_nonneg pre). pose proof (zlen_nonneg post).
  pose proof (zlen_nonneg p.(steps)). unfold parse_proof.
  rewrite !zlen_app, Hpl in Hlen |- *. rewrite Z.geb_leb, (proj2 (Z.leb_gt _ _)) by lia.
  assert (Hidx : @index DfimError _ (pre ++ proof_bytes p ++ post) (zlen pre) = Ok (z2b (zlen p.(steps))))
    by (rewrite index_skip by lia; by rewrite Z.sub_diag).
  rewrite Hidx, ok_bind, Hsc. unfold checked_add, checked_mul, MAX_PROOF_STEPS, SHA256_LEN in *.
  rewrite (proj2 (Z.leb_le (zlen pre + 1) _)) by lia. simpl ok_or. rewrite ok_bind.
  rewrite Z.gtb_ltb, (proj2 (Z.ltb_ge _ _)) by lia.
  rewrite (proj2 (Z.leb_le (zlen (steps p) * 32) _)) by lia. simpl ok_or. rewrite ok_bind.
  rewrite (proj2 (Z.leb_le (zlen pre + 1 + _) _)) by lia. simpl ok_or. rewrite ok_bind.
  rewrite (proj2 (Z.ltb_ge _ _)) by lia.
  replace (pre ++ proof_bytes p ++ post) with
    ((pre ++ [z2b (zlen p.(steps))]) ++ concat (map sibling p.(steps)) ++ post)
    by (unfold proof_bytes; by rewrite <- app_assoc).
  replace (zlen pre + 1) with (zlen (pre ++ [z2b (zlen p.(steps))])) by zlia.
  rewrite parse_steps_ok; [|done|rewrite !zlen_app, zlen_siblings by done; zlia].
  rewrite ok_bind. destruct p as [ss]. simpl steps in *. do 2 f_equal. zlia.
Qed.

Lemma parse_proofs_ok pre ps acc a :
  Forall proof_wf ps -> zlen (pre ++ concat (map proof_bytes ps)) <= USIZE_MAX ->
  foldM (parse_proof (pre ++ concat (map proof_bytes ps))) (zlen pre, acc) (range a (a + zlen ps)) =
    Ok (zlen (pre ++ concat (map proof_bytes ps)), acc ++ ps).
Proof.
  revert pre acc a. induction ps as [|p ps IH]; intros pre acc a Hwf Hlen.
  { rewrite zlen_nil, range_nil by lia. simpl. by rewrite !app_nil_r. }
  apply Forall_cons in Hwf as [Hp Hwf]. rewrite zlen_cons. pose proof (zlen_nonneg ps).
  rewrite range_cons by lia. cbn [foldM map concat] in Hlen |- *.
  rewrite parse_proof_ok by done. rewrite ok_bind.
  rewrite (app_assoc pre) in Hlen |- *. replace (a + (1 + zlen ps)) with (a + 1 + zlen ps) by lia.
  rewrite IH by done. by rewrite <- (app_assoc acc).
Qed.

(** ** Serialization *)

Lemma serialize_ok m : manifest_wf m ->
  serialize_boot_sidecar m.(merkle_root) m.(block_size) m.(block_count) m.(fec_backup) m.(proofs) =
    Ok (manifest_bytes m).
Proof.
  intros (Hroot & Hbs & Hbc & Hps & Hfec & Heven & Hwf). unfold serialize_boot_sidecar.
  rewrite Hbs, Z.eqb_refl, (proj2 (Z.eqb_neq (block_count m) 0)) by lia. simpl orb.
  rewrite (proj2 (validate_block_count_Ok (block_count m) ltac:(lia)) Hbc), ok_bind, Hps, Z.eqb_refl. simpl negb.
  unfold is_multiple_of. rewrite (proj2 (Z.eqb_neq (zlen (fec_backup m)) 0)), Heven by lia. simpl orb.
  rewrite (foldM_append _ proof_bytes).
  - unfold manifest_bytes, header_bytes, as_u32. by rewrite Hbs, Z.mod_small by lia.
  - intros out p Hin. rewrite Forall_forall in Hwf. destruct (Hwf p Hin) as [Hl _].
    unfold serialize_proof. rewrite Z.gtb_ltb, (proj2 (Z.ltb_ge _ _)) by lia.
    unfold proof_bytes, as_u8, MAX_PROOF_STEPS in *. pose proof (zlen_nonneg (steps p)).
    by rewrite Z.mod_small by lia.
Qed.

(** ** Parsing *)

Lemma zlen_MANIFEST_MAGIC : zlen MANIFEST_MAGIC = 8.
Proof. done. Qed.
#[local] Hint Rewrite zlen_MANIFEST_MAGIC : zlen.

(** The header fields, read back from their offsets. *)
Lemma header_fields m tail : manifest_wf m ->
  let data := header_bytes m ++ tail in
  zlen (header_bytes m) = 56 + zlen m.(fec_backup) /\
  slice data 0 8 = @Ok DfimError _ MANIFEST_MAGIC /\
  slice data 8 12 = @Ok DfimError _ (le_encode 4 MANIFEST_VERSION) /\
  slice data 12 16 = @Ok DfimError _ (le_encode 4 m.(block_size)) /\
  slice data 16 20 = @Ok DfimError _ (le_encode 4 m.(block_count)) /\
  slice data 20 52 = @Ok DfimError _ m.(merkle_root) /\
  slice data 52 56 = @Ok DfimError _ (le_encode 4 (zlen m.(fec_backup))) /\
  slice data 56 (56 + zlen m.(fec_backup)) = @Ok DfimError _ m.(fec_backup).
Proof.
  intros (Hroot & _ & _ & _ & Hfec & _). unfold SHA256_LEN in Hroot. cbv zeta.
  unfold header_bytes. rewrite <- !app_assoc. split; [zlia|].
  split_and!; slice_app.
Qed.

(** After a well-formed header only the proofs are left to parse. *)
Lemma parse_header m tail : manifest_wf m -> let data := header_bytes m ++ tail in zlen data <= USIZE_MAX ->
  parse_block_stream data =
    (op ← foldM (parse_proof data) (zlen (header_bytes m), []) (range 0 m.(block_count));
     let '(offset, ps) := op in
     if negb (offset =? zlen data) then Err IntegrityFailure
     else Ok {| merkle_root := m.(merkle_root); block_size := m.(block_size); block_count := m.(block_count);
                fec_backup := m.(fec_backup); proofs := ps |}).
Proof.
  intros Hwf data Hlen. pose proof Hwf as (Hroot & Hbs & Hbc & Hps & Hfec & Heven & Hpwf).
  destruct (header_fields m tail Hwf) as (Hhl & H0 & H8 & H12 & H16 & H20 & H52 & H56).
  fold data in H0, H8, H12, H16, H20, H52, H56.
  assert (Hdl : 56 + zlen m.(fec_backup) <= zlen data)
    by (unfold data; rewrite zlen_app, Hhl; pose proof (zlen_nonneg tail); lia).
  unfold parse_block_stream, HEADER_PREFIX_LEN. rewrite (proj2 (Z.ltb_ge (zlen data) 56)) by lia.
  rewrite H0, H8, H12, H16, H20, H52, !ok_bind.
  rewrite !read_u32_encode by (unfold DFIM_BLOCK_SIZE, MAX_BOOT_BLOCKS, MANIFEST_VERSION in *; lia).
  rewrite !ok_bind. change (negb (bytes_eqb MANIFEST_MAGIC BLOCK_STREAM_MAGIC)) with false.
  change (negb (MANIFEST_VERSION =? BLOCK_STREAM_VERSION)) with false. cbv iota.
  rewrite Hbs, Z.eqb_refl, (proj2 (Z.eqb_neq (block_count m) 0)) by lia. cbn [orb negb].
  rewrite (proj2 (validate_block_count_Ok (block_count m) ltac:(lia)) Hbc), ok_bind.
  unfold checked_add. rewrite (proj2 (Z.leb_le (56 + _) _)) by lia. cbn [ok_or]. rewrite ok_bind.
  rewrite (proj2 (Z.ltb_ge (zlen data) _)), H56, ok_bind by lia.
  unfold is_multiple_of. rewrite (proj2 (Z.eqb_neq (zlen (fec_backup m)) 0)), Heven by lia.
  cbn [orb negb]. change (0 =? 0) with true. cbv iota. by rewrite Hhl.
Qed.

Lemma parse_ok m : manifest_wf m -> zlen (manifest_bytes m) <= USIZE_MAX ->
  parse_block_stream (manifest_bytes m) = Ok m.
Proof.
  intros Hwf Hlen. pose proof Hwf as (_ & _ & _ & Hps & _ & _ & Hpwf).
  pose proof (parse_proofs_ok (header_bytes m) m.(proofs) [] 0 Hpwf Hlen) as Hparse.
  unfold manifest_bytes in *. rewrite parse_header by done. rewrite Z.add_0_l, Hps in Hparse.
  rewrite Hparse, ok_bind, Z.eqb_refl. by destruct m.
Qed.

(** ** Arbitrary input *)

Lemma parse_steps_safe data offset n : 0 <= offset -> 0 <= n -> offset + 32 * n <= zlen data ->
  safe (foldM (parse_step data offset) [] (range 0 n)) (fun ss =>
    zlen ss = n /\ Forall (fun s => zlen s.(sibling) = SHA256_LEN) ss /\
    slice data offset (offset + 32 * n) = @Ok DfimError _ (concat (map sibling ss))).
Proof.
  intros Ho Hn Hlen.
  apply (safe_foldM_range _ (fun i ss => zlen ss = i /\
    Forall (fun s => zlen s.(sibling) = SHA256_LEN) ss /\
    slice data offset (offset + 32 * i) = @Ok DfimError _ (concat (map sibling ss)))); [done|..].
  - split_and!; [done..|]. rewrite Z.mul_0_r, Z.add_0_r. unfold slice.
    rewrite (proj2 (Z.leb_le 0 offset)), Z.leb_refl, (proj2 (Z.leb_le offset _)) by lia.
    simpl. by rewrite Z.sub_diag.
  - intros i ss Hi (Hl & Hf & Hs). unfold parse_step, SHA256_LEN.
    apply safe_checked_mul, safe_checked_add, safe_checked_add.
    apply safe_slice_bind; [lia..|]. intros x Hx Hxl. simpl. split_and!.
    + zlia.
    + apply Forall_app. split; [done|]. apply Forall_singleton. simpl. unfold SHA256_LEN. lia.
    + rewrite map_app, concat_app. simpl. rewrite app_nil_r. eapply slice_join; [done|].
      replace (offset + 32 * i) with (offset + i * 32) by lia.
      by replace (offset + 32 * (i + 1)) with (offset + i * 32 + 32) by lia.
Qed.

Lemma parse_proof_safe data fec_end offset ps i :
  0 <= fec_end <= offset -> offset <= zlen data -> Forall proof_wf ps ->
  slice data fec_end offset = @Ok DfimError _ (concat (map proof_bytes ps)) ->
  safe (parse_proof data (offset, ps) i) (fun '(offset', ps') =>
    exists p, ps' = ps ++ [p] /\ fec_end <= offset' <= zlen data /\ Forall proof_wf ps' /\
      slice data fec_end offset' = @Ok DfimError _ (concat (map proof_bytes ps'))).
Proof.
  intros Hfe Ho Hwf Hs. unfold parse_proof. apply safe_if_err. rewrite Z.geb_leb, Z.leb_gt. intros Hlt.
  apply safe_bind, index_safe; [lia|]. intros b Hb. pose proof (b2z_range b) as Hbr.
  apply safe_checked_add, safe_if_err. rewrite Z.gtb_ltb, Z.ltb_ge. unfold MAX_PROOF_STEPS. intros Hmax.
  apply safe_checked_mul, safe_checked_add, safe_if_err. rewrite Z.ltb_ge. unfold SHA256_LEN. intros Hend.
  apply safe_bind. eapply safe_mono; [apply parse_steps_safe; lia|].
  intros ss (Hl & Hf & Hss). simpl. exists {| steps := ss |}.
  assert (Hpwf : proof_wf {| steps := ss |}) by (split; simpl; [unfold MAX_PROOF_STEPS; lia|done]).
  split_and!; [done|lia|lia|by apply Forall_app; split; [|apply Forall_singleton]|].
  rewrite map_app, concat_app. simpl. rewrite app_nil_r. eapply slice_join; [done|].
  unfold proof_bytes. simpl. rewrite Hl, z2b_b2z.
  replace (offset + 1 + b2z b * 32) with (offset + 1 + 32 * b2z b) by lia.
  eapply (slice_join _ _ (offset + 1) _ [b]); [by apply slice_one|done].
Qed.

Lemma parse_safe data : safe (parse_block_stream data) (fun m => manifest_wf m /\ data = manifest_bytes m).
Proof.
  unfold parse_block_stream, HEADER_PREFIX_LEN. apply safe_if_err. rewrite Z.ltb_ge. intros Hlen.
  apply safe_slice_bind; [lia..|]. intros magic Hmagic _. apply safe_if_err.
  rewrite negb_false_iff, bytes_eqb_eq. intros ->.
  apply safe_read_u32; [lia..|]. intros version Hv Hversion. apply safe_if_err.
  rewrite negb_false_iff, Z.eqb_eq. intros ->.
  apply safe_read_u32; [lia..|]. intros bs Hbsr Hbs.
  apply safe_read_u32; [lia..|]. intros bc Hbcr Hbc. apply safe_if_err.
  rewrite orb_false_iff, negb_false_iff, Z.eqb_eq, Z.eqb_neq. intros [-> Hbc0].
  destruct (validate_block_count bc) as [[]| |] eqn:Hvc; [|done|].
  2: { unfold validate_block_count in Hvc. by repeat case_match. }
  apply validate_block_count_Ok in Hvc; [|lia]. rewrite ok_bind.
  apply safe_slice_bind; [lia..|]. intros rt Hrt Hrtl.
  apply safe_read_u32; [lia..|]. intros fl Hflr Hfl. apply safe_checked_add, safe_if_err.
  rewrite Z.ltb_ge. intros Hfe. apply safe_slice_bind; [lia..|]. intros fec Hfec Hfecl.
  apply safe_if_err. unfold is_multiple_of. rewrite orb_false_iff, negb_false_iff, Z.eqb_eq, Z.eqb_neq.
  intros [Hf0 Hf2]. apply safe_bind. eapply safe_mono.
  { apply (safe_foldM_range _ (fun i '(offset, ps) => zlen ps = i /\
      56 + fl <= offset <= zlen data /\ Forall proof_wf ps /\
      slice data (56 + fl) offset = @Ok DfimError _ (concat (map proof_bytes ps)))); [lia|..].
    - split_and!; [done|lia|lia|done|]. unfold slice.
      rewrite (proj2 (Z.leb_le 0 _)), Z.leb_refl, (proj2 (Z.leb_le _ (zlen data))) by lia.
      simpl. by rewrite Z.sub_diag.
    - intros i [offset ps] Hi (Hl & Ho & Hwf & Hs).
      eapply safe_mono; [apply (parse_proof_safe data (56 + fl)); (done || lia)|].
      intros [offset' ps'] (p & -> & Ho' & Hwf' & Hs'). split_and!; [zlia|lia|lia|done|done]. }
  intros [offset ps] (Hl & Ho & Hwf & Hs). apply safe_if_err.
  rewrite negb_false_iff, Z.eqb_eq. intros ->. simpl. split.
  { unfold manifest_wf. simpl. unfold SHA256_LEN. split_and!; (done || lia). }
  pose proof (slice_join _ _ _ _ _ _ Hmagic Hversion) as H1.
  pose proof (slice_join _ _ _ _ _ _ H1 Hbs) as H2.
  pose proof (slice_join _ _ _ _ _ _ H2 Hbc) as H3.
  pose proof (slice_join _ _ _ _ _ _ H3 Hrt) as H4.
  pose proof (slice_join _ _ _ _ _ _ H4 Hfl) as H5.
  pose proof (slice_join _ _ _ _ _ _ H5 Hfec) as H6.
  pose proof (slice_join _ _ _ _ _ _ H6 Hs) as H7.
  rewrite slice_all in H7 by done. injection H7 as H7. rewrite H7 at 1.
  unfold manifest_bytes, header_bytes. cbn [merkle_root block_size block_count fec_backup proofs].
  replace (zlen fec) with fl by lia. by rewrite <- !app_assoc.
Qed.

(** ** Theorems *)

(** C38: parser and serializer are inverse to each other.  [parse_block_stream]
    accepts a byte string, as the manifest [m], exactly when [m] is well formed and
    the string is what [serialize_boot_sidecar] produces for it: every manifest
    round trips and no manifest has a second encoding. *)
Theorem block_stream_bijection data m : zlen data <= USIZE_MAX ->
  parse_block_stream data = Ok m <->
  manifest_wf m /\
  serialize_boot_sidecar m.(merkle_root) m.(block_size) m.(block_count) m.(fec_backup) m.(proofs) =
    Ok data.
Proof.
  intros Hlen. split.
  - intros Hp. destruct (safe_Ok _ _ _ (parse_safe data) Hp) as [Hwf ->].
    split; [done|by apply serialize_ok].
  - intros [Hwf Hs]. rewrite serialize_ok in Hs by done. injection Hs as <-. by apply parse_ok.
Qed.

(** [parse_block_stream] never panics: on every byte string of any length no
    slice or index is out of range and no arithmetic overflows. *)
Theorem parse_block_stream_total data : parse_block_stream data <> Panic.
Proof. eapply safe_no_panic, parse_safe. Qed.

Definition tiny_manifest : BlockStreamManifest :=
  {| merkle_root := array xab 32; block_size := 4096; block_count := 1;
     fec_backup := [x01; x02]; proofs := [{| steps := [{| sibling := array x07 32 |}] |}] |}.

Lemma block_stream_bijection_witness :
  zlen (manifest_bytes tiny_manifest) <= USIZE_MAX /\
  (parse_block_stream (manifest_bytes tiny_manifest) = Ok tiny_manifest <->
   manifest_wf tiny_manifest /\
   serialize_boot_sidecar (array xab 32) 4096 1 [x01; x02] (proofs tiny_manifest) =
     Ok (manifest_bytes tiny_manifest)).
Proof.
  split; [by vm_compute|].
  apply (block_stream_bijection (manifest_bytes tiny_manifest) tiny_manifest). by vm_compute.
Defined.
