(* ===== verification/StateDb.v ===== *)
(** * StateDb: the state-database envelope around a sidecar

    Models [dfim_core_engine/src/state_db.rs] and [parse_uefi_variable] of
    [parser.rs]: the [DFIMSTAT] envelope (header, payload, SHA-256 checksum), the
    bare [DFIMBOOT] form, and the rejection of legacy plaintext.

    The theorems characterise exactly which byte strings are accepted and with
    which payload, and that arbitrary input does not panic. *)

From stdpp Require Import base list numbers option strings.
From Stdlib Require Import ZArith Lia Strings.Byte.
From S2P Require Import Prelude Crypto Core.

Definition BOOT_SIDECAR_MAGIC : list byte := bytes_of_string "DFIMBOOT".
Definition WRAPPED_STATE_MAGIC : list byte := bytes_of_string "DFIMSTAT".
Definition BOOT_SIDECAR_VERSION : Z := 1.
Definition WRAPPED_STATE_VERSION : Z := 1.
Definition BOOT_HEADER_PREFIX_LEN : Z := 56.
Definition WRAPPED_HEADER_LEN : Z := 16.
Definition WRAPPED_CHECKSUM_LEN : Z := 32.
Definition LEGACY_LICENSE_LEN : Z := 16.
Definition MIN_WRAPPED_STATE_LEN : Z := WRAPPED_HEADER_LEN + WRAPPED_CHECKSUM_LEN.

(** [u8::is_ascii_graphic], [u8::is_ascii_whitespace] *)
Definition is_ascii_graphic (b : byte) : bool := (0x21 <=? b2z b) && (b2z b <=? 0x7e).
Definition is_ascii_whitespace (b : byte) : bool :=
  bool_decide (b2z b ∈ [0x20; 0x09; 0x0a; 0x0c; 0x0d]).

Definition reject_plaintext_injection (raw : list byte) : DfimResult unit :=
  if zlen raw =? 0 then Err EmptyInput
  else if zlen raw =? LEGACY_LICENSE_LEN then Err CorruptMetadata
  else if starts_with raw (bytes_of_string "STATE_") || starts_with raw (bytes_of_string "STATE_HASH")
  then Err CorruptMetadata
  else if (zlen raw <? 8) && forallb (fun b => is_ascii_graphic b || is_ascii_whitespace b) raw
  then Err CorruptMetadata
  else Ok tt.

Definition validate_boot_sidecar_header (data : list byte) : DfimResult unit :=
  if zlen data <? BOOT_HEADER_PREFIX_LEN then Err BufferTooShort
  else
    magic ← slice data 0 8;
    if negb (bytes_eqb magic BOOT_SIDECAR_MAGIC) then Err IntegrityFailure
    else
      version ← (b ← slice data 8 12; read_u32 b);
      if negb (version =? BOOT_SIDECAR_VERSION) then Err InvalidParameter
      else
        block_size ← (b ← slice data 12 16; read_u32 b);
        block_count ← (b ← slice data 16 20; read_u32 b);
        if negb (block_size =? DFIM_BLOCK_SIZE) || (block_count =? 0) then Err InvalidParameter
        else validate_block_count block_count ;; Ok tt.

Section model.
Context `{HashOps}.

Definition compute_wrapped_checksum (header_and_payload : list byte) : list byte :=
  sha256_digest header_and_payload.

Definition unwrap_authenticated_envelope (raw : list byte) : DfimResult (list byte) :=
  if zlen raw <? MIN_WRAPPED_STATE_LEN then Err BufferTooShort
  else
    version ← (b ← slice raw 8 12; read_u32 b);
    if negb (version =? WRAPPED_STATE_VERSION) then Err InvalidParameter
    else
      payload_len ← (b ← slice raw 12 16; read_u32 b);
      payload_end ← ok_or (checked_add WRAPPED_HEADER_LEN payload_len) ParameterOverflow;
      total ← add_usize payload_end WRAPPED_CHECKSUM_LEN;
      if negb (zlen raw =? total) then Err CorruptMetadata
      else
        signed ← slice raw 0 payload_end;
        let expected_checksum := compute_wrapped_checksum signed in
        stored ← slice raw payload_end total;
        if negb (constant_time_hash_eq expected_checksum stored) then Err IntegrityFailure
        else
          payload ← slice raw WRAPPED_HEADER_LEN payload_end;
          validate_boot_sidecar_header payload ;;
          Ok payload.

Definition parse_authenticated_state_db (raw : list byte) : DfimResult (list byte) :=
  reject_plaintext_injection raw ;;
  wrapped ← (if 8 <=? zlen raw then m ← slice raw 0 8; Ok (bytes_eqb m WRAPPED_STATE_MAGIC)
             else Ok false);
  if wrapped : bool then unwrap_authenticated_envelope raw
  else
    bare ← (if 8 <=? zlen raw then m ← slice raw 0 8; Ok (bytes_eqb m BOOT_SIDECAR_MAGIC)
            else Ok false);
    if bare : bool then validate_boot_sidecar_header raw ;; Ok raw
    else Err CorruptMetadata.

Definition wrap_authenticated_state_db (sidecar_payload : list byte) : DfimResult (list byte) :=
  validate_boot_sidecar_header sidecar_payload ;;
  let payload_len := zlen sidecar_payload in
  if payload_len >? U32_MAX then Err ParameterOverflow
  else
    let out := WRAPPED_STATE_MAGIC ++ le_encode 4 WRAPPED_STATE_VERSION ++
               le_encode 4 (as_u32 payload_len) ++ sidecar_payload in
    let checksum := compute_wrapped_checksum out in
    Ok (out ++ checksum).

Definition parse_uefi_variable (raw : list byte) : DfimResult (list byte) :=
  parse_authenticated_state_db raw.

(** The header and payload of an envelope, before its checksum. *)
Definition envelope (payload : list byte) : list byte :=
  WRAPPED_STATE_MAGIC ++ le_encode 4 WRAPPED_STATE_VERSION ++ le_encode 4 (zlen payload) ++ payload.
End model.

(** ** The sidecar header *)

Lemma validate_header_safe data :
  safe (validate_boot_sidecar_header data)
    (fun _ => 56 <= zlen data /\ slice data 0 8 = @Ok DfimError _ BOOT_SIDECAR_MAGIC).
Proof.
  unfold validate_boot_sidecar_header, BOOT_HEADER_PREFIX_LEN.
  apply safe_if_err. rewrite Z.ltb_ge. intros Hlen.
  apply safe_slice_bind; [lia..|]. intros magic Hmagic _. apply safe_if_err.
  rewrite negb_false_iff, bytes_eqb_eq. intros ->.
  apply safe_read_u32; [lia..|]. intros version _ _. apply safe_if_err. intros _.
  apply safe_read_u32; [lia..|]. intros bs _ _. apply safe_read_u32; [lia..|]. intros bc Hr _.
  apply safe_if_err. intros _. unfold validate_block_count. by repeat case_match.
Qed.

Section envelope.
Context `{HashLaws}.

Lemma wrap_Ok payload raw : wrap_authenticated_state_db payload = Ok raw <->
  validate_boot_sidecar_header payload = Ok tt /\ zlen payload < 2 ^ 32 /\
  raw = envelope payload ++ sha256 (envelope payload).
Proof.
  unfold wrap_authenticated_state_db. pose proof (zlen_nonneg payload).
  destruct (validate_boot_sidecar_header payload) as [[]| |]; simpl; [|naive_solver..].
  rewrite Z.gtb_ltb. unfold U32_MAX. destruct (Z.ltb_spec (2 ^ 32 - 1) (zlen payload)).
  - split; [done|]. intros (_ & ? & _). lia.
  - unfold as_u32. rewrite Z.mod_small by lia. fold (envelope payload). 
    unfold compute_wrapped_checksum, sha256_digest. split; [intros [= <-]|intros (_ & _ & ->)]; [|done].
    split_and!; (done || lia).
Qed.

Lemma zlen_STATE_MAGIC : zlen WRAPPED_STATE_MAGIC = 8.
Proof. done. Qed.
#[local] Hint Rewrite zlen_STATE_MAGIC : zlen.

Lemma zlen_envelope payload : zlen (envelope payload) = 16 + zlen payload.
Proof. unfold envelope. zlia. Qed.

(** Neither form looks like legacy plaintext. *)
Lemma not_plaintext raw m : 48 <= zlen raw -> slice raw 0 8 = @Ok DfimError _ m ->
  m = WRAPPED_STATE_MAGIC \/ m = BOOT_SIDECAR_MAGIC -> reject_plaintext_injection raw = Ok tt.
Proof.
  intros Hlen Hs Hm. unfold reject_plaintext_injection, LEGACY_LICENSE_LEN.
  rewrite (proj2 (Z.eqb_neq _ 0)), (proj2 (Z.eqb_neq _ 16)), (proj2 (Z.ltb_ge _ 8)) by lia.
  apply slice_inv in Hs as (_ & _ & _ & _ & Hm8).
  change (m = take 8 (drop 0 raw)) in Hm8. rewrite drop_0 in Hm8.
  rewrite <- (take_drop 8 raw), <- Hm8. by destruct Hm as [-> | ->].
Qed.

Lemma unwrap_envelope payload : validate_boot_sidecar_header payload = Ok tt -> zlen payload < 2 ^ 32 ->
  unwrap_authenticated_envelope (envelope payload ++ sha256 (envelope payload)) = Ok payload.
Proof.
  intros Hh Hl. pose proof (zlen_nonneg payload). pose proof (zlen_envelope payload) as He.
  set (raw := envelope payload ++ sha256 (envelope payload)).
  assert (Hraw : zlen raw = 48 + zlen payload) by (unfold raw; rewrite zlen_app, zlen_sha256; lia).
  assert (Hcut : raw = WRAPPED_STATE_MAGIC ++ le_encode 4 WRAPPED_STATE_VERSION ++
    le_encode 4 (zlen payload) ++ payload ++ sha256 (envelope payload))
    by (unfold raw, envelope; by rewrite <- !app_assoc).
  assert (H8 : slice raw 8 12 = @Ok DfimError _ (le_encode 4 WRAPPED_STATE_VERSION)) by (rewrite Hcut; slice_app).
  assert (H12 : slice raw 12 16 = @Ok DfimError _ (le_encode 4 (zlen payload))) by (rewrite Hcut; slice_app).
  assert (H16 : slice raw 16 (16 + zlen payload) = @Ok DfimError _ payload) by (rewrite Hcut; slice_app).
  assert (Hse : slice raw 0 (16 + zlen payload) = @Ok DfimError _ (envelope payload))
    by (unfold raw; apply slice_here; lia).
  assert (Hc : slice raw (16 + zlen payload) (16 + zlen payload + 32) =
    @Ok DfimError _ (sha256 (envelope payload))) by (unfold raw; slice_app).
  unfold unwrap_authenticated_envelope, MIN_WRAPPED_STATE_LEN, WRAPPED_HEADER_LEN, WRAPPED_CHECKSUM_LEN.
  rewrite (proj2 (Z.ltb_ge (zlen raw) _)), H8, H12, !ok_bind by lia.
  rewrite !read_u32_encode, !ok_bind by (unfold WRAPPED_STATE_VERSION; lia).
  change (negb (WRAPPED_STATE_VERSION =? WRAPPED_STATE_VERSION)) with false. cbv iota.
  unfold checked_add, add_usize, USIZE_MAX. rewrite (proj2 (Z.leb_le (16 + _) _)) by lia.
  cbn [ok_or]. rewrite ok_bind, (proj2 (Z.leb_le (16 + _ + 32) _)), ok_bind by lia.
  rewrite (proj2 (Z.eqb_eq (zlen raw) _)), Hse, Hc, H16, !ok_bind by lia.
  unfold constant_time_hash_eq, compute_wrapped_checksum, sha256_digest. rewrite ct_eq_refl.
  cbn [negb]. by rewrite Hh.
Qed.

Lemma unwrap_safe raw : slice raw 0 8 = @Ok DfimError _ WRAPPED_STATE_MAGIC ->
  safe (unwrap_authenticated_envelope raw) (fun payload =>
    validate_boot_sidecar_header payload = Ok tt /\ zlen payload < 2 ^ 32 /\
    raw = envelope payload ++ sha256 (envelope payload)).
Proof.
  intros Hmagic. unfold unwrap_authenticated_envelope, MIN_WRAPPED_STATE_LEN, WRAPPED_HEADER_LEN,
    WRAPPED_CHECKSUM_LEN. apply safe_if_err. rewrite Z.ltb_ge. intros Hlen.
  apply safe_read_u32; [lia..|]. intros version _ Hversion. apply safe_if_err.
  rewrite negb_false_iff, Z.eqb_eq. intros ->.
  apply safe_read_u32; [lia..|]. intros pl Hplr Hpl. apply safe_checked_add.
  unfold add_usize, USIZE_MAX. rewrite (proj2 (Z.leb_le _ _)), ok_bind by lia.
  apply safe_if_err. rewrite negb_false_iff, Z.eqb_eq. intros Htot.
  apply safe_slice_bind; [lia..|]. intros signed Hsigned Hsl.
  apply safe_slice_bind; [lia..|]. intros stored Hstored _. apply safe_if_err.
  unfold constant_time_hash_eq, compute_wrapped_checksum, sha256_digest.
  rewrite negb_false_iff, ct_eq_spec. intros <-.
  apply safe_slice_bind; [lia..|]. intros payload Hpayload Hpayl.
  pose proof (validate_header_safe payload) as Hsafe.
  destruct (validate_boot_sidecar_header payload) as [[]| |] eqn:Hh; [|done|done].
  rewrite ok_bind. cbn [safe]. split_and!; [done|lia|].
  assert (Hse : signed = envelope payload).
  { pose proof (slice_join _ _ _ _ _ _ Hmagic Hversion) as H1.
    pose proof (slice_join _ _ _ _ _ _ H1 Hpl) as H2.
    pose proof (slice_join _ _ _ _ _ _ H2 Hpayload) as H3. rewrite Hsigned in H3. apply Ok_inj in H3 as ->.
    unfold envelope. replace (zlen payload) with pl by lia. by rewrite <- !app_assoc. }
  pose proof (slice_join _ _ _ _ _ _ Hsigned Hstored) as H4. rewrite <- Htot, slice_all in H4 by done.
  apply Ok_inj in H4. rewrite <- Hse. exact H4.
Qed.

(** ** Theorems *)

(** [parse_authenticated_state_db] accepts exactly two kinds of input: the output
    of [wrap_authenticated_state_db] on a payload, which it returns, and a bare
    sidecar with a valid header, returned unchanged and without any checksum.  In
    particular wrapping round trips, and every altered envelope that is still
    accepted is the envelope of its own payload. *)
Theorem state_db_accepts raw payload :
  parse_authenticated_state_db raw = Ok payload <->
  wrap_authenticated_state_db payload = Ok raw \/
  (raw = payload /\ validate_boot_sidecar_header payload = Ok tt).
Proof.
  rewrite wrap_Ok. split.
  - unfold parse_authenticated_state_db. destruct (reject_plaintext_injection raw) as [[]| |]; [|done..].
    rewrite ok_bind. destruct (Z.leb_spec 8 (zlen raw)) as [Hlen|]; [|done].
    destruct (@slice_ok DfimError _ raw 0 8) as (m & Hm & _); [lia..|]. rewrite Hm, !ok_bind.
    destruct (bytes_eqb m WRAPPED_STATE_MAGIC) eqn:Hw.
    + apply bytes_eqb_eq in Hw as ->. intros Hp. left. by apply (safe_Ok _ _ _ (unwrap_safe raw Hm) Hp).
    + destruct (bytes_eqb m BOOT_SIDECAR_MAGIC) eqn:Hb; [|done].
      destruct (validate_boot_sidecar_header raw) as [[]| |] eqn:Hh; [|done..].
      intros [= ->]. by right.
  - intros [(Hh & Hl & ->)|[<- Hh]].
    + pose proof (zlen_envelope payload) as He. pose proof (zlen_nonneg payload).
      assert (Hs : slice (envelope payload ++ sha256 (envelope payload)) 0 8 = @Ok DfimError _ WRAPPED_STATE_MAGIC)
        by (unfold envelope; rewrite <- !app_assoc; by apply slice_here).
      assert (Hl48 : 48 <= zlen (envelope payload ++ sha256 (envelope payload)))
        by (rewrite zlen_app, zlen_sha256; lia).
      unfold parse_authenticated_state_db. rewrite (not_plaintext _ _ Hl48 Hs) by (by left).
      rewrite ok_bind, (proj2 (Z.leb_le 8 _)), Hs, !ok_bind by lia.
      rewrite bytes_eqb_refl. by apply unwrap_envelope.
    + destruct (safe_Ok _ _ _ (validate_header_safe raw) Hh) as [Hlen Hs].
      unfold parse_authenticated_state_db. rewrite (not_plaintext raw _ ltac:(lia) Hs) by (by right).
      rewrite ok_bind, (proj2 (Z.leb_le 8 _)), Hs, !ok_bind by lia.
      change (bytes_eqb BOOT_SIDECAR_MAGIC WRAPPED_STATE_MAGIC) with false. cbv iota.
      by rewrite bytes_eqb_refl, Hh.
Qed.

(** Parsing a state database never panics, on any byte string. *)
Theorem state_db_total raw : parse_authenticated_state_db raw <> Panic.
Proof.
  unfold parse_authenticated_state_db.
  destruct (reject_plaintext_injection raw) as [[]| |] eqn:Hr; [|done|].
  2: { unfold reject_plaintext_injection in Hr. by repeat case_match. }
  rewrite ok_bind. destruct (Z.leb_spec 8 (zlen raw)) as [Hlen|]; [|done].
  destruct (@slice_ok DfimError _ raw 0 8) as (m & Hm & _); [lia..|]. rewrite Hm, !ok_bind.
  destruct (bytes_eqb m WRAPPED_STATE_MAGIC) eqn:Hw.
  - apply bytes_eqb_eq in Hw as ->. eapply safe_no_panic, unwrap_safe, Hm.
  - destruct (bytes_eqb m BOOT_SIDECAR_MAGIC); [|done].
    pose proof (validate_header_safe raw). by destruct (validate_boot_sidecar_header raw) as [[]| |].
Qed.
End envelope.

Module StateDbWitness.
#[local] Existing Instance Toy.hash.
#[local] Existing Instance toy_hash_laws.

(** A minimal sidecar header, and its envelope. *)
Definition sidecar : list byte :=
  BOOT_SIDECAR_MAGIC ++ le_encode 4 1 ++ le_encode 4 4096 ++ le_encode 4 1 ++ array xab 36.

Lemma state_db_accepts_witness :
  exists raw, wrap_authenticated_state_db sidecar = Ok raw /\ zlen raw = 104 /\
    parse_authenticated_state_db raw = Ok sidecar.
Proof.
  exists (envelope sidecar ++ sha256 (envelope sidecar)). split_and!; [by vm_compute..|].
  apply state_db_accepts. left. by vm_compute.
Defined.

Lemma state_db_total_witness : parse_authenticated_state_db sidecar <> Panic.
Proof. apply state_db_total. Defined.
End StateDbWitness.
