(* ===== verification/Pipeline.v ===== *)
(** * Pipeline: building a sidecar and validating an image against it

    Models the rest of [dfim_windows_uefi/src/manifest.rs] (segmentation,
    [build_boot_sidecar]) and [dfim_windows_uefi/src/pipeline.rs].

    The theorems show that every image within the size cap gets a sidecar that
    parses and validates it, that two images accepted by one manifest are equal up
    to the zero padding of their last block unless their hashing exhibits a
    collision, and what a successful validation returns. *)

From stdpp Require Import base list numbers option strings.
From Stdlib Require Import ZArith Lia Strings.Byte.
From S2P Require Import Prelude Crypto Core Hamming Merkle BlockStream.

(** [BootManifest], field by field the manifest of the parser *)
Record BootManifest := {
  bm_merkle_root : list byte;
  bm_block_size : Z;
  bm_block_count : Z;
  bm_fec_backup : list byte;
  bm_proofs : list MerkleProof
}.

Definition parse_boot_manifest (data : list byte) : DfimResult BootManifest :=
  parsed ← parse_block_stream data;
  Ok {| bm_merkle_root := parsed.(merkle_root); bm_block_size := parsed.(block_size);
        bm_block_count := parsed.(block_count); bm_fec_backup := parsed.(fec_backup);
        bm_proofs := parsed.(proofs) |}.

(** The body of the loop that cuts block [idx] out of the image *)
Definition cut_block (image : list byte) (block_size : Z) (blocks : list (list byte)) (idx : Z) :
    DfimResult (list (list byte)) :=
  start ← mul_usize idx block_size;
  stop ← add_usize start block_size;
  let end_ := Z.min stop (zlen image) in
  let block := array x00 block_size in
  n ← sub_usize end_ start;
  part ← slice image start end_;
  block ← copy_into block 0 n part;
  Ok (blocks ++ [block]).

Definition partition_image_blocks (image : list byte) (block_size : Z) : DfimResult (list (list byte)) :=
  validate_image_byte_len (zlen image) ;;
  if negb (block_size =? DFIM_BLOCK_SIZE) then Err InvalidParameter
  else
    let block_count := div_ceil (zlen image) block_size in
    validate_block_count (as_u32 block_count) ;;
    foldM (cut_block image block_size) [] (range 0 block_count).

(** [pipeline.rs] has its own copy, [partition_blocks]. *)
Definition partition_blocks (image : list byte) (block_size : Z) : DfimResult (list (list byte)) :=
  validate_image_byte_len (zlen image) ;;
  if negb (block_size =? DFIM_BLOCK_SIZE) then Err InvalidParameter
  else
    let block_count := div_ceil (zlen image) block_size in
    validate_block_count (as_u32 block_count) ;;
    foldM (cut_block image block_size) [] (range 0 block_count).

(** The 40-byte metadata record protected by the FEC backup *)
Definition build_metadata (root : list byte) (block_count : Z) : DfimResult (list byte) :=
  let meta := array x00 40 in
  meta ← copy_into meta 0 SHA256_LEN root;
  meta ← copy_into meta 32 36 (le_encode 4 DFIM_BLOCK_SIZE);
  copy_into meta 36 40 (le_encode 4 block_count).

Definition fec_recover_metadata (fec_backup : list byte) : DfimResult (list byte * Z * Z) :=
  decoded ← decode_block fec_backup;
  if zlen decoded <? 40 then Err BufferTooShort
  else
    root ← slice decoded 0 SHA256_LEN;
    bs ← slice decoded 32 36;
    bc ← slice decoded 36 40;
    Ok (root, le_decode bs, le_decode bc).

(** The result of a validation *)
Record ValidatedBootImage := {
  payload : list byte;
  vb_merkle_root : list byte;
  fec_corrected : bool;
  blocks_verified : Z
}.

Section model.
Context `{HashOps}.

Definition build_boot_sidecar (image : list byte) : DfimResult (list byte) :=
  validate_image_byte_len (zlen image) ;;
  blocks ← partition_image_blocks image DFIM_BLOCK_SIZE;
  let block_count := as_u32 (zlen blocks) in
  tree ← build blocks;
  let root := Merkle.root tree in
  meta ← build_metadata root block_count;
  fec_backup ← encode_block meta;
  proofs ← foldM (fun proofs i => p ← prove tree i; Ok (proofs ++ [p])) [] (range 0 (zlen blocks));
  serialize_boot_sidecar root DFIM_BLOCK_SIZE block_count fec_backup proofs.

Definition resolve_metadata (manifest : BootManifest) : DfimResult (list byte * Z * Z * bool) :=
  rbc ← fec_recover_metadata manifest.(bm_fec_backup);
  let '(fec_root, fec_block_size, fec_block_count) := rbc in
  if negb (fec_block_size =? DFIM_BLOCK_SIZE) then Err InvalidParameter
  else if fec_block_count =? 0 then Err InvalidParameter
  else
    validate_block_count fec_block_count ;;
    let header_matches := constant_time_hash_eq manifest.(bm_merkle_root) fec_root &&
      (manifest.(bm_block_size) =? fec_block_size) && (manifest.(bm_block_count) =? fec_block_count) in
    if header_matches then Ok (fec_root, fec_block_size, fec_block_count, false)
    else Err CorruptMetadata.

(** The loop over the blocks: [manifest.proofs[index]], then the proof check *)
Definition check_block (root : list byte) (proofs : list MerkleProof) (idx : Z) (block : list byte) :
    DfimResult Z :=
  proof ← index proofs idx;
  ok ← verify_proof root block idx proof;
  if negb ok then Err IntegrityFailure else Ok (idx + 1).

Definition validate_boot_image (image : list byte) (manifest : BootManifest) :
    DfimResult ValidatedBootImage :=
  validate_image_byte_len (zlen image) ;;
  meta ← resolve_metadata manifest;
  let '(merkle_root, block_size, block_count, fec_corrected) := meta in
  if negb (zlen manifest.(bm_proofs) =? block_count) then Err IntegrityFailure
  else
    blocks ← partition_blocks image block_size;
    if negb (as_u32 (zlen blocks) =? block_count) then Err IntegrityFailure
    else
      foldM (check_block merkle_root manifest.(bm_proofs)) 0 blocks ;;
      Ok {| payload := image; vb_merkle_root := merkle_root; fec_corrected := fec_corrected;
            blocks_verified := block_count |}.
End model.

(** ** Segmentation *)

(** An image padded with zeros to a whole number of blocks. *)
Definition padded (image : list byte) : list byte :=
  image ++ array x00 (div_ceil (zlen image) DFIM_BLOCK_SIZE * DFIM_BLOCK_SIZE - zlen image).

(** Block [i] of an image. *)
Definition block_at (image : list byte) (i : Z) : list byte :=
  take (Z.to_nat DFIM_BLOCK_SIZE) (drop (Z.to_nat (i * DFIM_BLOCK_SIZE)) (padded image)).

Definition blocks_of (image : list byte) : list (list byte) :=
  block_at image <$> range 0 (div_ceil (zlen image) DFIM_BLOCK_SIZE).

(** The strings hashed while validating an image. *)
Definition validate_inputs `{HashOps} (image : list byte) (proofs : list MerkleProof) : list (list byte) :=
  concat (imap (fun i b => match proofs !! i with
    | Some p => verify_inputs b i (map sibling p.(steps))
    | None => []
    end) (blocks_of image)).

Lemma div_ceil_bounds n : 1 <= n <= MAX_IMAGE_BYTES ->
  1 <= div_ceil n DFIM_BLOCK_SIZE <= MAX_BOOT_BLOCKS /\
  n <= div_ceil n DFIM_BLOCK_SIZE * DFIM_BLOCK_SIZE < n + DFIM_BLOCK_SIZE.
Proof.
  unfold div_ceil, MAX_IMAGE_BYTES, MAX_BOOT_BLOCKS, DFIM_BLOCK_SIZE. intros Hn.
  Z.to_euclidean_division_equations; lia.
Qed.

Lemma zlen_padded image : 1 <= zlen image <= MAX_IMAGE_BYTES ->
  zlen (padded image) = div_ceil (zlen image) DFIM_BLOCK_SIZE * DFIM_BLOCK_SIZE.
Proof. intros Hn. destruct (div_ceil_bounds _ Hn). unfold padded. rewrite zlen_app, zlen_array by lia. lia. Qed.

Lemma zlen_blocks_of image : 1 <= zlen image <= MAX_IMAGE_BYTES ->
  zlen (blocks_of image) = div_ceil (zlen image) DFIM_BLOCK_SIZE.
Proof.
  intros Hn. destruct (div_ceil_bounds _ Hn). unfold blocks_of, zlen.
  rewrite length_fmap, zlen_range_nat. fold (zlen image). lia.
Qed.

Lemma cut_block_ok image acc i : 1 <= zlen image <= MAX_IMAGE_BYTES ->
  0 <= i < div_ceil (zlen image) DFIM_BLOCK_SIZE ->
  cut_block image DFIM_BLOCK_SIZE acc i = Ok (acc ++ [block_at image i]).
Proof.
  intros Hn Hi. destruct (div_ceil_bounds _ Hn) as [Hc1 Hc2].
  assert (Hlt : i * DFIM_BLOCK_SIZE < zlen image) by (unfold DFIM_BLOCK_SIZE in *; lia).
  unfold MAX_IMAGE_BYTES, MAX_BOOT_BLOCKS, cut_block, mul_usize, add_usize, sub_usize, USIZE_MAX in *.
  rewrite (proj2 (Z.leb_le (i * _) _)), ok_bind by (unfold DFIM_BLOCK_SIZE in *; lia).
  rewrite (proj2 (Z.leb_le (i * _ + _) _)), ok_bind by (unfold DFIM_BLOCK_SIZE in *; lia).
  rewrite (proj2 (Z.leb_le (i * _) _)), ok_bind by (unfold DFIM_BLOCK_SIZE in *; lia).
  set (a := i * DFIM_BLOCK_SIZE) in *. set (e := Z.min (a + DFIM_BLOCK_SIZE) (zlen image)).
  destruct (@slice_ok DfimError _ image a e) as (part & Hp & Hpl);
    [unfold a, e, DFIM_BLOCK_SIZE in *; lia..|].
  rewrite Hp, ok_bind, copy_into_ok by
    (rewrite ?zlen_array; unfold a, e, DFIM_BLOCK_SIZE in *; lia).
  rewrite ok_bind. do 3 f_equal. apply slice_inv in Hp as (_ & _ & _ & _ & ->).
  change (Z.to_nat 0) with 0%nat. rewrite splice_0. unfold array. rewrite drop_replicate.
  unfold block_at, padded. fold a. rewrite drop_app_le by (unfold zlen in *; unfold DFIM_BLOCK_SIZE in *; lia).
  unfold zlen in *. set (m := Z.to_nat DFIM_BLOCK_SIZE).
  replace (take (Z.to_nat (e - a)) (drop (Z.to_nat a) image)) with (take m (drop (Z.to_nat a) image)).
  2: { unfold e, m. destruct (decide (a + DFIM_BLOCK_SIZE <= Z.of_nat (length image))).
       - f_equal. unfold DFIM_BLOCK_SIZE in *. lia.
       - rewrite !take_ge; [done|rewrite length_drop; unfold DFIM_BLOCK_SIZE in *; lia..]. }
  rewrite take_app. f_equal. unfold array. rewrite take_replicate, length_take, length_drop. f_equal.
  unfold m, DFIM_BLOCK_SIZE in *. lia.
Qed.

Lemma partition_ok image : 1 <= zlen image <= MAX_IMAGE_BYTES ->
  partition_image_blocks image DFIM_BLOCK_SIZE = Ok (blocks_of image) /\
  partition_blocks image DFIM_BLOCK_SIZE = Ok (blocks_of image).
Proof.
  intros Hn. destruct (div_ceil_bounds _ Hn) as [Hc1 Hc2].
  unfold partition_image_blocks, partition_blocks.
  rewrite (proj2 (validate_image_byte_len_Ok (zlen image) ltac:(lia)) Hn), ok_bind, Z.eqb_refl.
  cbn [negb]. set (n := div_ceil (zlen image) DFIM_BLOCK_SIZE) in *.
  replace (as_u32 n) with n by (unfold as_u32, MAX_BOOT_BLOCKS in *; rewrite Z.mod_small; lia).
  rewrite (proj2 (validate_block_count_Ok n ltac:(lia)) Hc1), ok_bind.
  assert (Hfold : foldM (cut_block image DFIM_BLOCK_SIZE) [] (range 0 n) = Ok (blocks_of image)); [|done].
  rewrite (foldM_append _ (fun i => [block_at image i])).
  - by rewrite app_nil_l, concat_singletons.
  - intros out i Hi%elem_of_range. by apply cut_block_ok.
Qed.

(** ** Metadata *)

Definition metadata (root : list byte) (block_count : Z) : list byte :=
  root ++ le_encode 4 DFIM_BLOCK_SIZE ++ le_encode 4 block_count.

Lemma zlen_metadata root bc : zlen root = 32 -> zlen (metadata root bc) = 40.
Proof. intros Hr. unfold metadata. zlia. Qed.

Lemma build_metadata_ok root bc : zlen root = 32 -> build_metadata root bc = Ok (metadata root bc).
Proof.
  intros Hr. unfold build_metadata, SHA256_LEN. set (z := array x00 40).
  assert (Hz : length z = 40%nat) by apply length_replicate. assert (Hrn : length root = 32%nat) by (unfold zlen in Hr; lia).
  set (bs := le_encode 4 DFIM_BLOCK_SIZE). set (bcb := le_encode 4 bc).
  assert (Hbs : length bs = 4%nat) by apply length_le_encode.
  assert (Hbc : length bcb = 4%nat) by apply length_le_encode.
  rewrite copy_into_ok by (unfold zlen; lia). rewrite ok_bind.
  rewrite copy_into_ok by (unfold zlen; rewrite ?length_splice; lia). rewrite ok_bind.
  change (Z.to_nat 0) with 0%nat. replace (Z.to_nat 32) with (0 + length root)%nat by lia.
  rewrite splice_splice by lia.
  rewrite copy_into_ok by (unfold zlen; rewrite ?length_splice; rewrite ?length_app; lia).
  replace (Z.to_nat 36) with (0 + length (root ++ bs))%nat by (rewrite length_app; lia).
  rewrite splice_splice by (rewrite length_app; lia). f_equal.
  rewrite splice_all by (rewrite !length_app; lia). unfold metadata. by rewrite <- app_assoc.
Qed.

Definition fec_of (root : list byte) (block_count : Z) : list byte :=
  concat (map enc_byte (metadata root block_count)).

Lemma zlen_fec_of root bc : zlen root = 32 -> zlen (fec_of root bc) = 80.
Proof.
  intros Hr. unfold fec_of. destruct (dec_enc (metadata root bc) (concat (map enc_byte (metadata root bc)))) as [_ ->].
  - apply Forall_Forall2_diag, Forall_true. by left.
  - rewrite zlen_metadata by done. lia.
Qed.

Lemma fec_of_encodes root bc : zlen root = 32 ->
  encode_block (metadata root bc) = Ok (fec_of root bc) /\
  decode_block (fec_of root bc) = Ok (metadata root bc).
Proof.
  intros Hr. pose proof (zlen_metadata root bc Hr) as Hm. pose proof (zlen_fec_of root bc Hr) as Hf.
  assert (metadata root bc <> []) by (intros He; rewrite He in Hm; done).
  split; [apply encode_block_ok; [done|unfold USIZE_MAX; lia]|].
  rewrite decode_block_ok; [|intros He; rewrite He in Hf; done|by rewrite Hf|unfold USIZE_MAX; lia].
  f_equal. apply dec_enc, Forall_Forall2_diag, Forall_true. by left.
Qed.

(** What the FEC backup of arbitrary metadata yields. *)
Lemma fec_recover_ok root bc : zlen root = 32 -> 0 <= bc < 2 ^ 32 ->
  fec_recover_metadata (fec_of root bc) = Ok (root, DFIM_BLOCK_SIZE, bc).
Proof.
  intros Hr Hbc. unfold fec_recover_metadata. rewrite (proj2 (fec_of_encodes root bc Hr)), ok_bind.
  rewrite zlen_metadata, (proj2 (Z.ltb_ge 40 40)) by (done || lia). unfold metadata, SHA256_LEN.
  rewrite (slice_here root _ 0 32) by lia. rewrite ok_bind.
  replace (slice (root ++ le_encode 4 DFIM_BLOCK_SIZE ++ le_encode 4 bc) 32 36)
    with (@Ok DfimError _ (le_encode 4 DFIM_BLOCK_SIZE)) by (symmetry; slice_app).
  replace (slice (root ++ le_encode 4 DFIM_BLOCK_SIZE ++ le_encode 4 bc) 36 40)
    with (@Ok DfimError _ (le_encode 4 bc)) by (symmetry; slice_app).
  rewrite !ok_bind, !le_decode_encode_small by (unfold DFIM_BLOCK_SIZE; lia). done.
Qed.

Section pipeline.
Context `{HashLaws}.

Lemma length_root_of fuel (l : list (list byte)) : l <> [] -> Forall (fun h => length h = 32%nat) l ->
  length (root_of fuel l) = 32%nat.
Proof.
  revert l. induction fuel as [|fuel IH]; intros l Hne Hf.
  { destruct l; [done|]. by apply Forall_cons in Hf as [? _]. }
  destruct l as [|a [|b l]]; [done|by apply Forall_cons in Hf as [? _]|].
  simpl. apply IH; [done|]. apply pair_up_lengths with (l := a :: b :: l).
Qed.

(** The manifest that [build_boot_sidecar] serializes. *)
Definition honest_proofs (leaves : list (list byte)) : list MerkleProof :=
  (fun i => proof_of (path (layers_of (length leaves) (map leaf_hash leaves)) i)) <$>
    seq 0 (length leaves).

Definition honest_manifest (image : list byte) : BlockStreamManifest :=
  let leaves := blocks_of image in
  {| merkle_root := Merkle.merkle_root leaves; block_size := DFIM_BLOCK_SIZE;
     block_count := zlen leaves; fec_backup := fec_of (Merkle.merkle_root leaves) (zlen leaves);
     proofs := honest_proofs leaves |}.

Lemma zlen_merkle_root leaves : leaves <> [] -> zlen (Merkle.merkle_root leaves) = 32.
Proof.
  intros Hne. unfold zlen, Merkle.merkle_root. rewrite length_root_of; [done|by destruct leaves|].
  apply leaf_hash_lengths.
Qed.

Lemma blocks_of_ne image : 1 <= zlen image <= MAX_IMAGE_BYTES -> blocks_of image <> [].
Proof.
  intros Hn He. pose proof (zlen_blocks_of image Hn) as Hl. rewrite He, zlen_nil in Hl.
  destruct (div_ceil_bounds _ Hn). lia.
Qed.

Lemma height_le_6 n : (n <= 64)%nat -> (height n <= 6)%nat.
Proof. intros Hn. unfold height. change 6%nat with (Nat.log2_up 64). by apply Nat.log2_up_le_mono. Qed.

Lemma honest_wf image : 1 <= zlen image <= MAX_IMAGE_BYTES -> manifest_wf (honest_manifest image).
Proof.
  intros Hn. destruct (div_ceil_bounds _ Hn) as [Hc _]. pose proof (zlen_blocks_of image Hn) as Hl.
  pose proof (blocks_of_ne image Hn) as Hne. pose proof (zlen_merkle_root _ Hne) as Hr.
  unfold manifest_wf, honest_manifest. cbn [merkle_root block_size block_count fec_backup proofs].
  rewrite zlen_fec_of by done. split_and!; try (done || lia).
  - unfold honest_proofs, zlen. by rewrite length_fmap, length_seq.
  - apply Forall_forall. intros p (i & -> & Hi%elem_of_seq)%list_elem_of_fmap. split; cbn [steps proof_of].
    + unfold zlen, MAX_PROOF_STEPS. rewrite length_map, length_climb_all_path by done.
      unfold MAX_BOOT_BLOCKS, zlen in *. pose proof (height_le_6 (length (blocks_of image))). lia.
    + apply Forall_forall. intros s (sib & -> & Hs)%list_elem_of_fmap. cbn [sibling].
      unfold zlen, SHA256_LEN. apply (f_equal Z.of_nat (y := 32%nat)).
      eapply (proj1 (Forall_forall (fun s => length s = 32%nat) _)); [|exact Hs].
      apply path_lengths; [rewrite length_map; lia..|apply leaf_hash_lengths].
Qed.

(** The manifest as the boot guard's parser returns it. *)
Definition to_boot (m : BlockStreamManifest) : BootManifest :=
  {| bm_merkle_root := m.(merkle_root); bm_block_size := m.(block_size);
     bm_block_count := m.(block_count); bm_fec_backup := m.(fec_backup); bm_proofs := m.(proofs) |}.

Lemma zlen_proofs_bound ps : Forall proof_wf ps -> zlen (concat (map proof_bytes ps)) <= 513 * zlen ps.
Proof.
  induction 1 as [|p ps Hp _ IH]; [done|]. cbn [map concat]. rewrite zlen_app, zlen_cons.
  rewrite zlen_proof_bytes by done. destruct Hp as [Hp _]. unfold MAX_PROOF_STEPS in Hp. lia.
Qed.

Lemma zlen_manifest_bound m : manifest_wf m -> zlen (manifest_bytes m) <= USIZE_MAX.
Proof.
  intros Hwf. destruct (header_fields m [] Hwf) as (Hhl & _).
  destruct Hwf as (_ & _ & Hbc & Hps & Hfec & _ & Hpwf).
  pose proof (zlen_proofs_bound _ Hpwf) as Hb.
  unfold manifest_bytes, MAX_BOOT_BLOCKS, USIZE_MAX in *. rewrite zlen_app, Hhl. lia.
Qed.

Lemma prove_all_ok leaves t : build leaves = Ok t -> 3 * zlen leaves <= USIZE_MAX ->
  foldM (fun ps i => p ← prove t i; Ok (ps ++ [p])) [] (range 0 (zlen leaves)) =
    Ok (honest_proofs leaves).
Proof.
  intros Hb Hl. rewrite (foldM_append _ (fun i =>
    [proof_of (path (layers_of (length leaves) (map leaf_hash leaves)) (Z.to_nat i))])).
  - rewrite app_nil_l, (concat_singletons (fun i => proof_of _)). f_equal.
    unfold honest_proofs, range, zlen. rewrite Z.sub_0_r, Nat2Z.id.
    change (map ?f ?l) with (f <$> l). rewrite <- list_fmap_compose. apply list_fmap_ext.
    intros _ i _. simpl. do 2 f_equal. lia.
  - intros out i Hi%elem_of_range. unfold zlen in Hi.
    replace i with (Z.of_nat (Z.to_nat i)) at 1 by lia.
    by rewrite (prove_ok leaves) by (done || lia).
Qed.

Lemma build_boot_sidecar_ok image : 1 <= zlen image <= MAX_IMAGE_BYTES ->
  build_boot_sidecar image = Ok (manifest_bytes (honest_manifest image)).
Proof.
  intros Hn. pose proof (zlen_blocks_of image Hn) as Hl. destruct (div_ceil_bounds _ Hn) as [Hc _].
  pose proof (blocks_of_ne image Hn) as Hne. pose proof (zlen_merkle_root _ Hne) as Hr.
  assert (Hbound : 3 * zlen (blocks_of image) <= USIZE_MAX) by (unfold MAX_BOOT_BLOCKS, USIZE_MAX in *; lia).
  unfold build_boot_sidecar.
  rewrite (proj2 (validate_image_byte_len_Ok (zlen image) ltac:(lia)) Hn), ok_bind.
  rewrite (proj1 (partition_ok image Hn)), ok_bind.
  replace (as_u32 (zlen (blocks_of image))) with (zlen (blocks_of image))
    by (unfold as_u32, MAX_BOOT_BLOCKS in *; rewrite Z.mod_small; lia).
  pose proof (build_ok _ Hne Hbound) as Hb. rewrite Hb, ok_bind. cbn [Merkle.root].
  rewrite build_metadata_ok, ok_bind by done.
  rewrite (proj1 (fec_of_encodes _ _ Hr)), ok_bind.
  rewrite (prove_all_ok _ _ Hb Hbound), ok_bind.
  apply (serialize_ok (honest_manifest image)), honest_wf, Hn.
Qed.

Lemma parse_honest image : 1 <= zlen image <= MAX_IMAGE_BYTES ->
  parse_boot_manifest (manifest_bytes (honest_manifest image)) = Ok (to_boot (honest_manifest image)).
Proof.
  intros Hn. unfold parse_boot_manifest. pose proof (honest_wf image Hn) as Hwf.
  rewrite parse_ok by (done || by apply zlen_manifest_bound). done.
Qed.

(** ** Validation *)

Lemma check_blocks_Ok root ps k blocks z :
  foldM (check_block root ps) (Z.of_nat k) blocks = Ok z <->
  z = Z.of_nat k + zlen blocks /\
  forall i b, blocks !! i = Some b -> exists p, ps !! (k + i)%nat = Some p /\
    verify_proof root b (Z.of_nat (k + i)) p = Ok true.
Proof.
  revert k. induction blocks as [|b blocks IH]; intros k; simpl foldM.
  { rewrite zlen_nil, Z.add_0_r. split; [intros [= <-]|intros [-> _]]; [|done]. split; [done|].
    intros i b Hi. by rewrite lookup_nil in Hi. }
  rewrite zlen_cons, bind_Ok. unfold check_block at 1, index.
  rewrite (proj2 (Z.leb_le 0 _)), Nat2Z.id by lia. split.
  - intros (a & Ha & Hf). destruct (ps !! k) as [p|] eqn:Hp; [|done]. simpl unwrap in Ha.
    rewrite ok_bind in Ha. destruct (verify_proof root b (Z.of_nat k) p) as [[]| |] eqn:Hv; [|done..].
    rewrite ok_bind in Ha. injection Ha as <-. replace (Z.of_nat k + 1) with (Z.of_nat (S k)) in Hf by lia.
    apply IH in Hf as [-> Hrest]. split; [lia|]. intros [|i] b' Hi; simpl in Hi.
    + injection Hi as <-. exists p. by rewrite Nat.add_0_r.
    + replace (k + S i)%nat with (S k + i)%nat by lia. by apply Hrest.
  - intros [-> Hall]. exists (Z.of_nat (S k)). destruct (Hall 0%nat b eq_refl) as (p & Hp & Hv).
    rewrite Nat.add_0_r in Hp, Hv. rewrite Hp. simpl unwrap. rewrite ok_bind, Hv, ok_bind.
    split; [f_equal; lia|]. apply IH. split; [lia|]. intros i b' Hi.
    replace (S k + i)%nat with (k + S i)%nat by lia. by apply Hall.
Qed.

(** Everything a successful validation has checked. *)
Lemma validate_inv image m v : validate_boot_image image m = Ok v ->
  1 <= zlen image <= MAX_IMAGE_BYTES /\
  v = {| payload := image; vb_merkle_root := m.(bm_merkle_root); fec_corrected := false;
         blocks_verified := m.(bm_block_count) |} /\
  m.(bm_block_size) = DFIM_BLOCK_SIZE /\
  zlen m.(bm_proofs) = m.(bm_block_count) /\ zlen (blocks_of image) = m.(bm_block_count) /\
  forall i b, blocks_of image !! i = Some b -> exists p, m.(bm_proofs) !! i = Some p /\
    verify_proof m.(bm_merkle_root) b (Z.of_nat i) p = Ok true.
Proof.
  unfold validate_boot_image. intros Hv. inv_Ok Hv. destruct a.
  apply validate_image_byte_len_Ok in Ha; [|apply zlen_nonneg].
  destruct a0 as [[[root bs] bc] fc]. unfold resolve_metadata in Ha0.
  apply bind_Ok in Ha0 as ([[fr fbs] fbc] & _ & Hres). inv_Ok Hres. injection Hres as <- <- <- <-.
  rewrite negb_false_iff, Z.eqb_eq in Hg. subst fbs.
  rewrite !andb_true_iff, !Z.eqb_eq in Hg1. destruct Hg1 as [[Hct Hbs] Hbc].
  apply ct_eq_spec in Hct. subst fr fbc.
  destruct (Z.eqb_spec (zlen (bm_proofs m)) (bm_block_count m)) as [Hps|]; [|done]. cbn [negb] in Hv.
  rewrite (proj2 (partition_ok image Ha)), ok_bind in Hv.
  pose proof (zlen_blocks_of image Ha) as Hl. destruct (div_ceil_bounds _ Ha) as [Hc _].
  unfold as_u32 in Hv. rewrite Z.mod_small in Hv by (unfold MAX_BOOT_BLOCKS in *; lia).
  destruct (Z.eqb_spec (zlen (blocks_of image)) (bm_block_count m)) as [Hbl|]; [|done].
  cbn [negb] in Hv. apply bind_Ok in Hv as (z & Hfold & Hv). injection Hv as <-.
  apply (check_blocks_Ok _ _ 0) in Hfold as [_ Hall]. split_and!; (done || lia).
Qed.

Lemma resolve_honest image : 1 <= zlen image <= MAX_IMAGE_BYTES ->
  resolve_metadata (to_boot (honest_manifest image)) =
    Ok (Merkle.merkle_root (blocks_of image), DFIM_BLOCK_SIZE, zlen (blocks_of image), false).
Proof.
  intros Hn. destruct (div_ceil_bounds _ Hn) as [Hc _]. pose proof (zlen_blocks_of image Hn) as Hl.
  pose proof (zlen_merkle_root _ (blocks_of_ne image Hn)) as Hr.
  unfold resolve_metadata, to_boot, honest_manifest.
  cbn [bm_fec_backup bm_merkle_root bm_block_size bm_block_count fec_backup merkle_root block_size block_count].
  rewrite fec_recover_ok, ok_bind by (done || unfold MAX_BOOT_BLOCKS in *; lia).
  rewrite !Z.eqb_refl, (proj2 (Z.eqb_neq _ 0)) by lia. cbn [negb].
  rewrite (proj2 (validate_block_count_Ok (zlen (blocks_of image)) ltac:(lia))), ok_bind by lia.
  unfold constant_time_hash_eq. by rewrite ct_eq_refl.
Qed.

Lemma validate_honest image : 1 <= zlen image <= MAX_IMAGE_BYTES ->
  validate_boot_image image (to_boot (honest_manifest image)) =
    Ok {| payload := image; vb_merkle_root := Merkle.merkle_root (blocks_of image);
          fec_corrected := false; blocks_verified := zlen (blocks_of image) |}.
Proof.
  intros Hn. destruct (div_ceil_bounds _ Hn) as [Hc _]. pose proof (zlen_blocks_of image Hn) as Hl.
  pose proof (blocks_of_ne image Hn) as Hne. unfold validate_boot_image.
  rewrite (proj2 (validate_image_byte_len_Ok (zlen image) ltac:(lia)) Hn), ok_bind.
  rewrite resolve_honest, ok_bind by done. cbn [to_boot bm_proofs honest_manifest proofs].
  replace (zlen (honest_proofs (blocks_of image))) with (zlen (blocks_of image))
    by (unfold honest_proofs, zlen; by rewrite length_fmap, length_seq).
  rewrite Z.eqb_refl. cbn [negb]. rewrite (proj2 (partition_ok image Hn)), ok_bind.
  unfold as_u32. rewrite Z.mod_small by (unfold MAX_BOOT_BLOCKS in *; lia).
  rewrite Z.eqb_refl. cbn [negb].
  rewrite (proj2 (check_blocks_Ok _ _ 0 _ (0 + zlen (blocks_of image)))); [done|].
  split; [done|]. intros i b Hi. pose proof (lookup_lt_Some _ _ _ Hi) as Hlt. simpl.
  exists (proof_of (path (layers_of (length (blocks_of image)) (map leaf_hash (blocks_of image))) i)).
  split.
  - unfold honest_proofs. rewrite list_lookup_fmap, lookup_seq_lt by done. done.
  - rewrite verify_proof_eq.
    + rewrite (leaf_path_root _ _ _ Hi). by rewrite ct_eq_refl.
    + unfold zlen. rewrite length_climb_all_path by done.
      pose proof (height_le (length (blocks_of image))). unfold zlen, MAX_BOOT_BLOCKS, USIZE_MAX in *. lia.
Qed.

(** ** Blocks determine the padded image *)

Lemma concat_blocks image : 1 <= zlen image <= MAX_IMAGE_BYTES -> concat (blocks_of image) = padded image.
Proof.
  intros Hn. pose proof (zlen_padded image Hn) as Hp. destruct (div_ceil_bounds _ Hn) as [Hc _].
  set (n := div_ceil (zlen image) DFIM_BLOCK_SIZE) in *. unfold blocks_of. fold n.
  cut (forall k, 0 <= k -> concat (block_at image <$> range 0 k) =
    take (Z.to_nat (k * DFIM_BLOCK_SIZE)) (padded image)).
  { intros Hcut. rewrite Hcut by lia. apply take_ge. unfold zlen in Hp. lia. }
  apply Zlt_lower_bound_ind. intros k IH Hk. destruct (decide (k = 0)) as [->|]; [done|].
  replace k with (k - 1 + 1) at 1 by lia. rewrite range_snoc, fmap_app, concat_app, IH by lia.
  simpl. rewrite app_nil_r. unfold block_at. rewrite take_take_drop. f_equal. unfold DFIM_BLOCK_SIZE. lia.
Qed.

Lemma lists_differ {A} `{EqDecision A} (l1 l2 : list A) : length l1 = length l2 -> l1 <> l2 ->
  exists i x y, l1 !! i = Some x /\ l2 !! i = Some y /\ x <> y.
Proof.
  revert l2. induction l1 as [|a l1 IH]; intros [|b l2] Hl Hne; simpl in Hl; try done.
  destruct (decide (a = b)) as [->|Hab]; [|by exists 0%nat, a, b].
  destruct (IH l2) as (i & x & y & ?); [lia|congruence|]. by exists (S i), x, y.
Qed.

Lemma validate_inputs_at image ps i b p : blocks_of image !! i = Some b -> ps !! i = Some p ->
  verify_inputs b i (map sibling p.(steps)) ⊆ validate_inputs image ps.
Proof.
  intros Hb Hp x Hx. unfold validate_inputs. apply list_elem_of_In, in_concat.
  exists (verify_inputs b i (map sibling (steps p))). split; [|by apply list_elem_of_In].
  apply list_elem_of_In, list_elem_of_lookup. exists i.
  rewrite list_lookup_imap, Hb. simpl. by rewrite Hp.
Qed.

(** Validation does not panic. *)
Lemma check_blocks_safe root ps k blocks : Forall proof_wf ps -> Z.of_nat k + zlen blocks <= zlen ps ->
  safe (foldM (check_block root ps) (Z.of_nat k) blocks) (fun _ => True).
Proof.
  intros Hwf. revert k. induction blocks as [|b blocks IH]; intros k Hl; [done|].
  rewrite zlen_cons in Hl. pose proof (zlen_nonneg blocks). cbn [foldM].
  destruct (lookup_lt_is_Some_2 ps k) as [p Hp]; [unfold zlen in *; lia|].
  rewrite Forall_forall in Hwf. destruct (Hwf p) as [Hmax _]; [by eapply list_elem_of_lookup_2|].
  destruct (verify_total root b k p) as [ok Hok]; [unfold MAX_PROOF_STEPS, USIZE_MAX in *; lia|].
  unfold check_block at 2, index. rewrite (proj2 (Z.leb_le 0 _)), Nat2Z.id, Hp by lia. cbn [unwrap].
  rewrite ok_bind, Hok, ok_bind. destruct ok; [|done]. cbn [negb]. rewrite ok_bind.
  replace (Z.of_nat k + 1) with (Z.of_nat (S k)) by lia. apply IH. lia.
Qed.

Lemma validate_total image m : Forall proof_wf m.(bm_proofs) -> zlen m.(bm_fec_backup) <= USIZE_MAX ->
  validate_boot_image image m <> Panic.
Proof.
  intros Hwf Hfec. apply (safe_no_panic _ (fun _ => True)). unfold validate_boot_image.
  pose proof (zlen_nonneg image) as Hnn.
  destruct (validate_image_byte_len (zlen image)) as [[]| |] eqn:Hv; [|done|].
  2: { unfold validate_image_byte_len in Hv. by repeat case_match. }
  apply validate_image_byte_len_Ok in Hv; [|done]. rewrite ok_bind.
  apply safe_bind. apply (safe_mono _ (fun '(_, bs, _, _) => bs = DFIM_BLOCK_SIZE)).
  - unfold resolve_metadata. apply safe_bind. apply (safe_mono _ (fun _ => True)).
    + unfold fec_recover_metadata. destruct (decode_block (bm_fec_backup m)) as [d| |] eqn:Hd; [|done|].
      * rewrite ok_bind. apply safe_if_err. intros Hl%Z.ltb_ge. unfold SHA256_LEN.
        repeat (apply safe_slice_bind; [lia..|]; intros ? _ _). done.
      * destruct (decide (bm_fec_backup m = [])) as [He|]; [by rewrite He in Hd|].
        destruct (decide (zlen (bm_fec_backup m) mod 2 = 0)) as [|Ho]; [by rewrite decode_block_ok in Hd|].
        unfold decode_block, is_multiple_of in Hd. rewrite (proj2 (Z.eqb_neq _ _) Ho) in Hd.
        by rewrite orb_true_r in Hd.
    + intros [[root bs] bc] _. apply safe_if_err. rewrite negb_false_iff, Z.eqb_eq. intros ->.
      apply safe_if_err. intros _. unfold validate_block_count. by repeat case_match.
  - intros [[[root bs] bc] fc] ->. apply safe_if_err. rewrite negb_false_iff, Z.eqb_eq. intros Hps.
    rewrite (proj2 (partition_ok image Hv)), ok_bind. apply safe_if_err. rewrite negb_false_iff, Z.eqb_eq.
    pose proof (zlen_blocks_of image Hv) as Hl. destruct (div_ceil_bounds _ Hv) as [Hc _].
    unfold as_u32. rewrite Z.mod_small by (unfold MAX_BOOT_BLOCKS in *; lia). intros Hbl.
    apply safe_bind. eapply safe_mono; [apply (check_blocks_safe _ _ 0); [done|lia]|done].
Qed.

(** Proofs of a parsed manifest are well formed. *)
Lemma parsed_proofs blob m : parse_boot_manifest blob = Ok m -> Forall proof_wf m.(bm_proofs).
Proof.
  unfold parse_boot_manifest. intros Hp. apply bind_Ok in Hp as (bs & Hp & [= <-]).
  destruct (safe_Ok _ _ _ (parse_safe blob) Hp) as [(_ & _ & _ & _ & _ & _ & Hf) _]. done.
Qed.

(** Two images accepted under the same well-formed proofs. *)
Lemma validate_binding m image1 image2 v1 v2 : Forall proof_wf m.(bm_proofs) ->
  validate_boot_image image1 m = Ok v1 -> validate_boot_image image2 m = Ok v2 ->
  padded image1 = padded image2 \/
  collide (validate_inputs image1 m.(bm_proofs)) (validate_inputs image2 m.(bm_proofs)).
Proof.
  intros Hwf (Hn1 & _ & _ & _ & Hl1 & Hall1)%validate_inv (Hn2 & _ & _ & _ & Hl2 & Hall2)%validate_inv.
  rewrite <- (concat_blocks image1 Hn1), <- (concat_blocks image2 Hn2).
  destruct (decide (blocks_of image1 = blocks_of image2)) as [->|Hne]; [by left|right].
  destruct (lists_differ (blocks_of image1) (blocks_of image2) ltac:(unfold zlen in *; lia) Hne) as (i & b1 & b2 & Hb1 & Hb2 & Hneq).
  destruct (Hall1 i b1 Hb1) as (p & Hp & Hv1). destruct (Hall2 i b2 Hb2) as (p' & Hp' & Hv2).
  assert (p' = p) as -> by congruence.
  rewrite Forall_forall in Hwf. destruct (Hwf p) as [Hmax Hf]; [by eapply list_elem_of_lookup_2|].
  assert (Hlen : zlen (steps p) <= USIZE_MAX) by (unfold MAX_PROOF_STEPS, USIZE_MAX in *; lia).
  destruct (verify_same_proof _ b1 b2 i p Hlen Hf Hv1 Hv2) as [->|(x & y & Hx & Hy & Hc)]; [done|].
  exists x, y. split_and!; [by eapply validate_inputs_at|by eapply validate_inputs_at|done].
Qed.

(** ** Theorems *)

(** Every image of 1 to 262144 bytes gets a sidecar; the sidecar parses, and the
    boot pipeline accepts the image with it, returning the image itself as the
    payload and the number of 4096-byte blocks it spans. *)
Theorem sidecar_complete image : 1 <= zlen image <= MAX_IMAGE_BYTES ->
  exists blob m v, build_boot_sidecar image = Ok blob /\ parse_boot_manifest blob = Ok m /\
    validate_boot_image image m = Ok v /\ v.(payload) = image /\
    v.(blocks_verified) = div_ceil (zlen image) DFIM_BLOCK_SIZE.
Proof.
  intros Hn. eexists _, _, _. split_and!; [by apply build_boot_sidecar_ok|by apply parse_honest|
    by apply validate_honest|done|by apply zlen_blocks_of].
Qed.

(** C6: a sidecar binds the image: if one parsed manifest validates two images, they
    are equal after zero padding to a whole number of blocks, or two strings hashed
    by the two validations are a SHA-256 collision. *)
Theorem sidecar_binding blob m image1 image2 v1 v2 :
  parse_boot_manifest blob = Ok m ->
  validate_boot_image image1 m = Ok v1 -> validate_boot_image image2 m = Ok v2 ->
  padded image1 = padded image2 \/
  collide (validate_inputs image1 m.(bm_proofs)) (validate_inputs image2 m.(bm_proofs)).
Proof.
  intros Hparse. apply validate_binding. by eapply parsed_proofs.
Qed.

(** Metadata correction never happens: [resolve_metadata] succeeds only when the
    FEC backup decodes to exactly the cleartext header, its flag is always false, and
    so is [fec_corrected] of every validated image (the header comment promises that a
    header with bit rot is repaired from the backup). *)
Theorem fec_never_repairs m root bs bc flag : resolve_metadata m = Ok (root, bs, bc, flag) ->
  flag = false /\ root = m.(bm_merkle_root) /\ bs = m.(bm_block_size) /\ bc = m.(bm_block_count) /\
  forall image v, validate_boot_image image m = Ok v -> v.(fec_corrected) = false.
Proof.
  unfold resolve_metadata. intros Hr. apply bind_Ok in Hr as ([[fr fbs] fbc] & _ & Hres).
  inv_Ok Hres. injection Hres as <- <- <- <-. rewrite !andb_true_iff, !Z.eqb_eq in Hg1.
  destruct Hg1 as [[Hct Hbs] Hbc]. apply ct_eq_spec in Hct. split_and!; [done..|].
  intros image v (_ & -> & _)%validate_inv. done.
Qed.
End pipeline.

Module PipelineWitness.
#[local] Existing Instance Toy.hash.
#[local] Existing Instance toy_hash_laws.

Definition image : list byte := bytes_of_string "MZ bootmgfw".
Definition manifest : BootManifest := to_boot (honest_manifest image).

Lemma sidecar_complete_witness :
  exists blob m v, build_boot_sidecar image = Ok blob /\ parse_boot_manifest blob = Ok m /\
    validate_boot_image image m = Ok v /\ v.(payload) = image /\
    v.(blocks_verified) = div_ceil (zlen image) DFIM_BLOCK_SIZE.
Proof. apply sidecar_complete. by vm_compute. Defined.

(** The padding is not bound: the image with its zero byte appended validates too. *)
Lemma sidecar_binding_witness :
  image <> image ++ [x00] /\
  (padded image = padded (image ++ [x00]) \/
   collide (validate_inputs image manifest.(bm_proofs))
           (validate_inputs (image ++ [x00]) manifest.(bm_proofs))).
Proof.
  split; [done|].
  eapply (sidecar_binding (manifest_bytes (honest_manifest image)) manifest); by vm_compute.
Defined.

Lemma fec_never_repairs_witness :
  exists root bs bc flag, resolve_metadata manifest = Ok (root, bs, bc, flag) /\ flag = false /\
    root = manifest.(bm_merkle_root).
Proof.
  destruct (fec_never_repairs manifest (Merkle.merkle_root (blocks_of image)) 4096 1 false)
    as (H1 & H2 & _); [by vm_compute|].
  exists (Merkle.merkle_root (blocks_of image)), 4096, 1, false. split_and!; [by vm_compute|done|done].
Defined.
End PipelineWitness.
