(* ===== verification/SignedManifest.v ===== *)
(** * SignedManifest: the signed [DFIMBOOT] v2 sidecar and its trust policy

    Models [dfim_windows_uefi/src/signed_manifest.rs].  ECDSA is the interface
    [SigOps].

    The theorems show that a sidecar built with a key validates its image under the
    policy of that key for every release floor up to its counter, that whatever is
    accepted was signed, with the expected key identifier and a release at or above
    the floor, over exactly the bytes the returned manifest encodes to, and that
    arbitrary sidecar bytes do not make the parser panic. *)

From stdpp Require Import base list numbers option strings.
From Stdlib Require Import ZArith Lia Strings.Byte.
From S2P Require Import Prelude Crypto Core Hamming Merkle BlockStream Pipeline.

Definition SIGNED_MANIFEST_VERSION : Z := 2.
Definition V2_SIGNATURE_LEN : Z := 64.
Definition V2_PUBLIC_KEY_LEN : Z := 33.
Definition V2_KEY_ID_LEN : Z := 16.
Definition V2_SIGNATURE_ALGORITHM : Z := 1.
Definition V2_HEADER_LEN : Z := 92.
Definition V2_MERKLE_ROOT_OFFSET : Z := 56.
Definition V2_RELEASE_OFFSET : Z := 24.
Definition V2_KEY_ID_OFFSET : Z := 32.
Definition V2_ALGORITHM_OFFSET : Z := 48.
Definition V2_SIGNATURE_LEN_OFFSET : Z := 52.
Definition V2_FEC_LEN_OFFSET : Z := 88.

Record TrustedManifestPolicy := {
  public_key_sec1 : list byte;
  expected_key_id : list byte;
  minimum_release : Z
}.

Record VerifiedBootManifest := {
  vm_manifest : BootManifest;
  vm_release_counter : Z;
  vm_key_id : list byte
}.

Record ValidatedSignedBootImage := {
  vs_boot : ValidatedBootImage;
  vs_release_counter : Z;
  vs_key_id : list byte
}.

Definition read_u64 (bytes : list byte) : DfimResult Z :=
  if zlen bytes <? 8 then Err BufferTooShort
  else b ← slice bytes 0 8; Ok (le_decode b).

Definition constant_time_key_id_eq (left right : list byte) : DfimResult bool :=
  difference ← xor_difference left 0 right V2_KEY_ID_LEN;
  Ok (difference =? 0).

(** One sibling of the v2 parser: bounds are checked per step *)
Definition parse_step_v2 (data : list byte) (signed_end : Z) (st : Z * list ProofStep) (_ : Z) :
    DfimResult (Z * list ProofStep) :=
  let '(offset, steps) := st in
  end_ ← ok_or (checked_add offset SHA256_LEN) ParameterOverflow;
  if end_ >? signed_end then Err BufferTooShort
  else
    sibling ← slice data offset end_;
    Ok (end_, steps ++ [{| sibling := sibling |}]).

Definition parse_proof_v2 (data : list byte) (signed_end : Z) (st : Z * list MerkleProof) (_ : Z) :
    DfimResult (Z * list MerkleProof) :=
  let '(offset, proofs) := st in
  if offset >=? signed_end then Err BufferTooShort
  else
    b ← index data offset;
    let step_count := b2z b in
    offset ← ok_or (checked_add offset 1) ParameterOverflow;
    if step_count >? MAX_PROOF_STEPS then Err InvalidParameter
    else
      os ← foldM (parse_step_v2 data signed_end) (offset, []) (range 0 step_count);
      let '(offset, steps) := os in
      Ok (offset, proofs ++ [{| steps := steps |}]).

Section model.
Context `{HashOps, SigOps}.

Definition public_key_sec1_from_private (private_key : list byte) : DfimResult (list byte) :=
  if negb (sk_valid private_key) then Err InvalidParameter
  else
    let bytes := pk_of private_key in
    if negb (zlen bytes =? V2_PUBLIC_KEY_LEN) then Err IntegrityFailure
    else Ok bytes.

Definition build_signed_boot_sidecar_v2 (image private_key key_id : list byte) (release_counter : Z) :
    DfimResult (list byte) :=
  validate_image_byte_len (zlen image) ;;
  if release_counter =? 0 then Err InvalidParameter
  else
    blocks ← partition_image_blocks image DFIM_BLOCK_SIZE;
    let block_count := as_u32 (zlen blocks) in
    tree ← build blocks;
    let root := Merkle.root tree in
    metadata ← build_metadata root block_count;
    fec_backup ← encode_block metadata;
    let blob := MANIFEST_MAGIC ++ le_encode 4 SIGNED_MANIFEST_VERSION ++ le_encode 4 V2_HEADER_LEN ++
      le_encode 4 DFIM_BLOCK_SIZE ++ le_encode 4 block_count ++ le_encode 8 release_counter ++ key_id ++
      le_encode 4 V2_SIGNATURE_ALGORITHM ++ le_encode 4 V2_SIGNATURE_LEN ++ root ++
      le_encode 4 (as_u32 (zlen fec_backup)) ++ fec_backup in
    blob ← foldM (fun blob i => p ← prove tree i; serialize_proof blob p) blob (range 0 (zlen blocks));
    if negb (sk_valid private_key) then Err InvalidParameter
    else
      let signature := sign private_key blob in
      Ok (blob ++ signature).

Definition parse_and_verify_boot_sidecar_v2 (data : list byte) (policy : TrustedManifestPolicy) :
    DfimResult VerifiedBootManifest :=
  minimum_len ← ok_or (checked_add V2_HEADER_LEN V2_SIGNATURE_LEN) ParameterOverflow;
  if zlen data <? minimum_len then Err BufferTooShort
  else
    magic ← slice data 0 8;
    if negb (bytes_eqb magic MANIFEST_MAGIC) then Err IntegrityFailure
    else
      version ← (b ← slice data 8 12; read_u32 b);
      bad ← (if negb (version =? SIGNED_MANIFEST_VERSION) then Ok true
             else header_len ← (b ← slice data 12 16; read_u32 b);
                  Ok (negb (header_len =? V2_HEADER_LEN)));
      if (bad : bool) then Err InvalidParameter
      else
        block_size ← (b ← slice data 16 20; read_u32 b);
        block_count ← (b ← slice data 20 24; read_u32 b);
        if negb (block_size =? DFIM_BLOCK_SIZE) || (block_count =? 0) then Err InvalidParameter
        else
          validate_block_count block_count ;;
          release_counter ← (b ← slice data V2_RELEASE_OFFSET V2_KEY_ID_OFFSET; read_u64 b);
          if (release_counter <? policy.(minimum_release)) || (release_counter =? 0)
          then Err IntegrityFailure
          else
            key_id ← slice data V2_KEY_ID_OFFSET V2_ALGORITHM_OFFSET;
            same ← constant_time_key_id_eq key_id policy.(expected_key_id);
            if negb same then Err IntegrityFailure
            else
              algorithm ← (b ← slice data V2_ALGORITHM_OFFSET V2_SIGNATURE_LEN_OFFSET; read_u32 b);
              bad ← (if negb (algorithm =? V2_SIGNATURE_ALGORITHM) then Ok true
                     else sig_len ← (b ← slice data V2_SIGNATURE_LEN_OFFSET V2_MERKLE_ROOT_OFFSET; read_u32 b);
                          Ok (negb (sig_len =? V2_SIGNATURE_LEN)));
              if (bad : bool) then Err InvalidParameter
              else
                signed_end ← ok_or (checked_sub (zlen data) V2_SIGNATURE_LEN) BufferTooShort;
                if negb (pk_valid policy.(public_key_sec1)) then Err InvalidParameter
                else
                  signature ← slice data signed_end (zlen data);
                  if negb (sig_valid signature) then Err IntegrityFailure
                  else
                    signed ← slice data 0 signed_end;
                    if negb (sig_verify policy.(public_key_sec1) signed signature) then Err IntegrityFailure
                    else
                      merkle_root ← slice data V2_MERKLE_ROOT_OFFSET V2_FEC_LEN_OFFSET;
                      fec_len ← (b ← slice data V2_FEC_LEN_OFFSET V2_HEADER_LEN; read_u32 b);
                      fec_end ← ok_or (checked_add V2_HEADER_LEN fec_len) ParameterOverflow;
                      if (fec_end >? signed_end) || (fec_len =? 0) || negb (is_multiple_of fec_len 2)
                      then Err BufferTooShort
                      else
                        fec_backup ← slice data V2_HEADER_LEN fec_end;
                        op ← foldM (parse_proof_v2 data signed_end) (fec_end, []) (range 0 block_count);
                        let '(offset, proofs) := op in
                        if negb (offset =? signed_end) then Err IntegrityFailure
                        else
                          let manifest := {| bm_merkle_root := merkle_root; bm_block_size := block_size;
                            bm_block_count := block_count; bm_fec_backup := fec_backup;
                            bm_proofs := proofs |} in
                          decoded ← decode_block manifest.(bm_fec_backup);
                          if zlen decoded <? 40 then Err CorruptMetadata
                          else
                            decoded_root ← slice decoded 0 SHA256_LEN;
                            if negb (constant_time_hash_eq manifest.(bm_merkle_root) decoded_root)
                            then Err CorruptMetadata
                            else Ok {| vm_manifest := manifest; vm_release_counter := release_counter;
                                       vm_key_id := key_id |}.

Definition validate_signed_boot_image_v2 (image sidecar : list byte) (policy : TrustedManifestPolicy) :
    DfimResult ValidatedSignedBootImage :=
  verified ← parse_and_verify_boot_sidecar_v2 sidecar policy;
  boot ← validate_boot_image image verified.(vm_manifest);
  Ok {| vs_boot := boot; vs_release_counter := verified.(vm_release_counter);
        vs_key_id := verified.(vm_key_id) |}.

(** What a policy's types say. *)
Definition policy_wf (policy : TrustedManifestPolicy) : Prop :=
  zlen policy.(expected_key_id) = V2_KEY_ID_LEN.
End model.

(** The bytes a v2 manifest signs. *)
Definition v2_header (m : BootManifest) (release : Z) (key_id : list byte) : list byte :=
  MANIFEST_MAGIC ++ le_encode 4 SIGNED_MANIFEST_VERSION ++ le_encode 4 V2_HEADER_LEN ++
  le_encode 4 m.(bm_block_size) ++ le_encode 4 m.(bm_block_count) ++ le_encode 8 release ++ key_id ++
  le_encode 4 V2_SIGNATURE_ALGORITHM ++ le_encode 4 V2_SIGNATURE_LEN ++ m.(bm_merkle_root) ++
  le_encode 4 (zlen m.(bm_fec_backup)) ++ m.(bm_fec_backup).

Definition v2_body (m : BootManifest) (release : Z) (key_id : list byte) : list byte :=
  v2_header m release key_id ++ concat (map proof_bytes m.(bm_proofs)).

Lemma constant_time_key_id_eq_ok left right : zlen left = 16 -> zlen right = 16 ->
  constant_time_key_id_eq left right = Ok (bytes_eqb left right).
Proof.
  intros Hl Hr. unfold constant_time_key_id_eq, V2_KEY_ID_LEN.
  destruct (xor_difference_ok left 0 right 16 left) as (d & -> & Hd); [lia|by apply slice_all|done|].
  rewrite ok_bind. f_equal. apply eq_true_iff_eq. by rewrite Z.eqb_eq, bytes_eqb_eq.
Qed.

Lemma safe_read_u64 {B} data a b (f : Z -> DfimResult B) Q :
  0 <= a -> b = a + 8 -> b <= zlen data ->
  (forall z, 0 <= z < 2 ^ 64 -> slice data a b = @Ok DfimError _ (le_encode 8 z) -> safe (f z) Q) ->
  safe ((x ← slice data a b; read_u64 x) ≫= f) Q.
Proof.
  intros Ha -> Hl Hf. destruct (@slice_ok DfimError _ data a (a + 8)) as (x & Hx & Hz); [lia..|].
  rewrite Hx in *. rewrite ok_bind. unfold read_u64.
  rewrite (proj2 (Z.ltb_ge _ _)), slice_all, !ok_bind by lia. apply Hf.
  - pose proof (le_decode_range x) as Hr. by replace (8 * zlen x) with 64 in Hr by lia.
  - by rewrite (le_encode_decode_n 8) by lia.
Qed.

(** ** The proofs of a v2 sidecar *)

Lemma parse_steps_v2_safe data signed_end offset n : 0 <= offset -> 0 <= n -> signed_end <= zlen data ->
  offset <= signed_end ->
  safe (foldM (parse_step_v2 data signed_end) (offset, []) (range 0 n)) (fun '(end_, ss) =>
    zlen ss = n /\ Forall (fun s => zlen s.(sibling) = SHA256_LEN) ss /\
    offset <= end_ <= signed_end /\
    slice data offset end_ = @Ok DfimError _ (concat (map sibling ss))).
Proof.
  intros Ho Hn Hse Hoe.
  apply (safe_foldM_range _ (fun i '(end_, ss) => zlen ss = i /\
    Forall (fun s => zlen s.(sibling) = SHA256_LEN) ss /\ offset <= end_ <= signed_end /\
    slice data offset end_ = @Ok DfimError _ (concat (map sibling ss)))); [done|..].
  - split_and!; [done..|lia|lia|]. unfold slice.
    rewrite (proj2 (Z.leb_le 0 offset)), Z.leb_refl, (proj2 (Z.leb_le offset _)) by lia.
    simpl. by rewrite Z.sub_diag.
  - intros i [end_ ss] Hi (Hl & Hf & He & Hs). unfold parse_step_v2, SHA256_LEN.
    apply safe_checked_add, safe_if_err. rewrite Z.gtb_ltb, Z.ltb_ge. intros Hend.
    apply safe_slice_bind; [lia..|]. intros x Hx Hxl. cbn [safe]. split_and!; [zlia| |lia|lia|].
    + apply Forall_app. split; [done|]. apply Forall_singleton. simpl. unfold SHA256_LEN. lia.
    + rewrite map_app, concat_app. simpl. rewrite app_nil_r. by eapply slice_join.
Qed.

Lemma parse_proof_v2_safe data signed_end fec_end offset ps i :
  0 <= fec_end <= offset -> offset <= signed_end -> signed_end <= zlen data -> Forall proof_wf ps ->
  slice data fec_end offset = @Ok DfimError _ (concat (map proof_bytes ps)) ->
  safe (parse_proof_v2 data signed_end (offset, ps) i) (fun '(offset', ps') =>
    exists p, ps' = ps ++ [p] /\ fec_end <= offset' <= signed_end /\ Forall proof_wf ps' /\
      slice data fec_end offset' = @Ok DfimError _ (concat (map proof_bytes ps'))).
Proof.
  intros Hfe Ho Hse Hwf Hs. unfold parse_proof_v2. apply safe_if_err. rewrite Z.geb_leb, Z.leb_gt. intros Hlt.
  apply safe_bind, index_safe; [lia|]. intros b Hb. pose proof (b2z_range b) as Hbr.
  apply safe_checked_add, safe_if_err. rewrite Z.gtb_ltb, Z.ltb_ge. unfold MAX_PROOF_STEPS. intros Hmax.
  apply safe_bind. eapply safe_mono; [apply parse_steps_v2_safe; lia|].
  intros [end_ ss] (Hl & Hf & He & Hss). cbn [safe]. exists {| steps := ss |}.
  assert (Hpwf : proof_wf {| steps := ss |}) by (split; simpl; [unfold MAX_PROOF_STEPS; lia|done]).
  split_and!; [done|lia|lia|by apply Forall_app; split; [|apply Forall_singleton]|].
  rewrite map_app, concat_app. cbn [map concat]. rewrite app_nil_r. eapply slice_join; [done|].
  unfold proof_bytes. cbn [steps]. rewrite Hl, z2b_b2z.
  eapply (slice_join _ _ (offset + 1) _ [b]); [by apply slice_one|done].
Qed.

Lemma parse_step_v2_ok pre s post signed_end acc i :
  zlen s.(sibling) = 32 -> zlen pre + 32 <= signed_end <= USIZE_MAX ->
  parse_step_v2 (pre ++ s.(sibling) ++ post) signed_end (zlen pre, acc) i =
    Ok (zlen (pre ++ s.(sibling)), acc ++ [s]).
Proof.
  intros Hs Hse. unfold parse_step_v2, checked_add, SHA256_LEN.
  rewrite (proj2 (Z.leb_le _ _)) by lia. cbn [ok_or]. rewrite ok_bind.
  rewrite Z.gtb_ltb, (proj2 (Z.ltb_ge _ _)) by lia.
  replace (slice (pre ++ sibling s ++ post) (zlen pre) (zlen pre + 32)) with (@Ok DfimError _ (sibling s)).
  2: { symmetry. rewrite slice_skip by lia. apply slice_here; lia. }
  rewrite ok_bind, zlen_app, Hs. by destruct s.
Qed.

Lemma parse_steps_v2_ok pre (ss : list ProofStep) post signed_end acc a :
  Forall (fun s => zlen s.(sibling) = SHA256_LEN) ss ->
  zlen pre + 32 * zlen ss <= signed_end <= USIZE_MAX ->
  signed_end <= zlen (pre ++ concat (map sibling ss) ++ post) ->
  foldM (parse_step_v2 (pre ++ concat (map sibling ss) ++ post) signed_end) (zlen pre, acc)
    (range a (a + zlen ss)) = Ok (zlen pre + 32 * zlen ss, acc ++ ss).
Proof.
  revert pre acc a. induction ss as [|s ss IH]; intros pre acc a Hf Hse Hlen.
  { rewrite zlen_nil, range_nil by lia. cbn [foldM]. by rewrite app_nil_r, Z.mul_0_r, Z.add_0_r. }
  apply Forall_cons in Hf as [Hs Hf]. rewrite zlen_cons in Hse |- *. pose proof (zlen_nonneg ss).
  pose proof (zlen_nonneg pre). rewrite range_cons by lia. cbn [foldM map concat] in Hlen |- *.
  unfold SHA256_LEN in Hs. rewrite <- !app_assoc in Hlen |- *.
  rewrite parse_step_v2_ok, ok_bind by lia. rewrite (app_assoc pre) in Hlen |- *.
  replace (a + (1 + zlen ss)) with (a + 1 + zlen ss) by lia.
  rewrite IH by (assumption || (rewrite zlen_app; lia)). rewrite zlen_app, <- app_assoc.
  do 2 f_equal. lia.
Qed.

Lemma parse_proof_v2_ok pre p post signed_end acc i : proof_wf p ->
  zlen (pre ++ proof_bytes p) <= signed_end <= USIZE_MAX ->
  signed_end <= zlen (pre ++ proof_bytes p ++ post) ->
  parse_proof_v2 (pre ++ proof_bytes p ++ post) signed_end (zlen pre, acc) i =
    Ok (zlen (pre ++ proof_bytes p), acc ++ [p]).
Proof.
  intros Hwf Hse Hlen. pose proof (zlen_proof_bytes p Hwf) as Hpl. pose proof (step_count_byte p Hwf) as Hsc.
  pose proof Hwf as [Hmax Hf]. pose proof (zlen_nonneg pre). pose proof (zlen_nonneg p.(steps)).
  rewrite zlen_app, Hpl in Hse. unfold parse_proof_v2. rewrite zlen_app, Hpl.
  rewrite Z.geb_leb, (proj2 (Z.leb_gt _ _)) by lia.
  assert (Hidx : @index DfimError _ (pre ++ proof_bytes p ++ post) (zlen pre) = Ok (z2b (zlen p.(steps))))
    by (rewrite index_skip by lia; by rewrite Z.sub_diag).
  rewrite Hidx, ok_bind, Hsc. unfold checked_add, MAX_PROOF_STEPS in *.
  rewrite (proj2 (Z.leb_le (zlen pre + 1) _)) by lia. cbn [ok_or]. rewrite ok_bind.
  rewrite Z.gtb_ltb, (proj2 (Z.ltb_ge _ _)) by lia.
  replace (pre ++ proof_bytes p ++ post) with
    ((pre ++ [z2b (zlen p.(steps))]) ++ concat (map sibling p.(steps)) ++ post) in Hlen |- *
    by (unfold proof_bytes; by rewrite <- app_assoc).
  replace (zlen pre + 1) with (zlen (pre ++ [z2b (zlen p.(steps))])) by zlia.
  rewrite <- (Z.add_0_l (zlen (steps p))) at 2.
  rewrite parse_steps_v2_ok by (done || zlia). rewrite ok_bind. destruct p as [ss].
  cbn [steps] in *. do 2 f_equal. zlia.
Qed.

Lemma parse_proofs_v2_ok pre ps post signed_end acc a : Forall proof_wf ps ->
  signed_end = zlen (pre ++ concat (map proof_bytes ps)) -> signed_end <= USIZE_MAX ->
  foldM (parse_proof_v2 (pre ++ concat (map proof_bytes ps) ++ post) signed_end) (zlen pre, acc)
    (range a (a + zlen ps)) = Ok (signed_end, acc ++ ps).
Proof.
  revert pre acc a. induction ps as [|p ps IH]; intros pre acc a Hwf Hse Hlen.
  { rewrite zlen_nil, range_nil by lia. cbn [foldM map concat] in *. rewrite !app_nil_r in *. by rewrite Hse. }
  apply Forall_cons in Hwf as [Hp Hwf]. rewrite zlen_cons. pose proof (zlen_nonneg ps).
  rewrite range_cons by lia. cbn [foldM map concat] in Hse |- *.
  pose proof (zlen_nonneg (concat (map proof_bytes ps))). pose proof (zlen_nonneg post).
  rewrite <- app_assoc. rewrite parse_proof_v2_ok by (done || rewrite ?zlen_app in *; lia).
  rewrite ok_bind. rewrite (app_assoc pre) in Hse |- *.
  replace (a + (1 + zlen ps)) with (a + 1 + zlen ps) by lia.
  rewrite IH by done. by rewrite <- (app_assoc acc).
Qed.

(** The header fields of a v2 sidecar, read back from their offsets. *)
#[local] Hint Rewrite zlen_MANIFEST_MAGIC : zlen.

Lemma v2_fields m release key_id tail : zlen m.(bm_merkle_root) = 32 -> zlen key_id = 16 ->
  let data := v2_header m release key_id ++ tail in
  zlen (v2_header m release key_id) = 92 + zlen m.(bm_fec_backup) /\
  slice data 0 8 = @Ok DfimError _ MANIFEST_MAGIC /\
  slice data 8 12 = @Ok DfimError _ (le_encode 4 SIGNED_MANIFEST_VERSION) /\
  slice data 12 16 = @Ok DfimError _ (le_encode 4 V2_HEADER_LEN) /\
  slice data 16 20 = @Ok DfimError _ (le_encode 4 m.(bm_block_size)) /\
  slice data 20 24 = @Ok DfimError _ (le_encode 4 m.(bm_block_count)) /\
  slice data 24 32 = @Ok DfimError _ (le_encode 8 release) /\
  slice data 32 48 = @Ok DfimError _ key_id /\
  slice data 48 52 = @Ok DfimError _ (le_encode 4 V2_SIGNATURE_ALGORITHM) /\
  slice data 52 56 = @Ok DfimError _ (le_encode 4 V2_SIGNATURE_LEN) /\
  slice data 56 88 = @Ok DfimError _ m.(bm_merkle_root) /\
  slice data 88 92 = @Ok DfimError _ (le_encode 4 (zlen m.(bm_fec_backup))) /\
  slice data 92 (92 + zlen m.(bm_fec_backup)) = @Ok DfimError _ m.(bm_fec_backup).
Proof.
  intros Hroot Hkid. cbv zeta. unfold v2_header. rewrite <- !app_assoc. split; [zlia|].
  split_and!; slice_app.
Qed.

(** ** Arbitrary sidecars *)

(** What acceptance under a policy means. *)
Definition trusted `{SigOps} (data : list byte) (policy : TrustedManifestPolicy) (v : VerifiedBootManifest) : Prop :=
  let m := v.(vm_manifest) in
  exists signature,
    data = v2_body m v.(vm_release_counter) v.(vm_key_id) ++ signature /\
    zlen signature = V2_SIGNATURE_LEN /\
    sig_verify policy.(public_key_sec1) (v2_body m v.(vm_release_counter) v.(vm_key_id)) signature = true /\
    policy.(minimum_release) <= v.(vm_release_counter) /\ 0 < v.(vm_release_counter) < 2 ^ 64 /\
    v.(vm_key_id) = policy.(expected_key_id) /\
    manifest_wf {| merkle_root := m.(bm_merkle_root); block_size := m.(bm_block_size);
                   block_count := m.(bm_block_count); fec_backup := m.(bm_fec_backup);
                   proofs := m.(bm_proofs) |}.

(** The loop over the proofs reads their bytes back to back. *)
Lemma parse_proofs_v2_safe data signed_end fec_end bc : 0 <= fec_end <= signed_end -> signed_end <= zlen data -> 0 <= bc ->
  safe (foldM (parse_proof_v2 data signed_end) (fec_end, []) (range 0 bc)) (fun '(offset, ps) =>
    zlen ps = bc /\ fec_end <= offset <= signed_end /\ Forall proof_wf ps /\
    slice data fec_end offset = @Ok DfimError _ (concat (map proof_bytes ps))).
Proof.
  intros Hfe Hse Hbc. apply (safe_foldM_range _ (fun i '(offset, ps) => zlen ps = i /\
    fec_end <= offset <= signed_end /\ Forall proof_wf ps /\
    slice data fec_end offset = @Ok DfimError _ (concat (map proof_bytes ps)))); [lia|..].
  - split_and!; [done|lia|lia|done|]. unfold slice.
    rewrite (proj2 (Z.leb_le 0 _)), Z.leb_refl, (proj2 (Z.leb_le _ (zlen data))) by lia. simpl. by rewrite Z.sub_diag.
  - intros i [offset ps] Hi (Hl & Ho & Hwf & Hs).
    eapply safe_mono; [apply (parse_proof_v2_safe data signed_end fec_end); (done || lia)|].
    intros [offset' ps'] (p & -> & Ho' & Hwf' & Hs'). split_and!; [zlia|lia|lia|done|done].
Qed.

(** The fields, one after the other, are the body. *)
Lemma joined_body data m rel kid signed_end signed :
  slice data 0 8 = @Ok DfimError _ MANIFEST_MAGIC -> slice data 8 12 = @Ok DfimError _ (le_encode 4 SIGNED_MANIFEST_VERSION) ->
  slice data 12 16 = @Ok DfimError _ (le_encode 4 V2_HEADER_LEN) -> slice data 16 20 = @Ok DfimError _ (le_encode 4 m.(bm_block_size)) ->
  slice data 20 24 = @Ok DfimError _ (le_encode 4 m.(bm_block_count)) -> slice data 24 32 = @Ok DfimError _ (le_encode 8 rel) ->
  slice data 32 48 = @Ok DfimError _ kid -> slice data 48 52 = @Ok DfimError _ (le_encode 4 V2_SIGNATURE_ALGORITHM) ->
  slice data 52 56 = @Ok DfimError _ (le_encode 4 V2_SIGNATURE_LEN) -> slice data 56 88 = @Ok DfimError _ m.(bm_merkle_root) ->
  slice data 88 92 = @Ok DfimError _ (le_encode 4 (zlen m.(bm_fec_backup))) ->
  slice data 92 (92 + zlen m.(bm_fec_backup)) = @Ok DfimError _ m.(bm_fec_backup) ->
  slice data (92 + zlen m.(bm_fec_backup)) signed_end = @Ok DfimError _ (concat (map proof_bytes m.(bm_proofs))) ->
  slice data 0 signed_end = @Ok DfimError _ signed -> signed = v2_body m rel kid.
Proof.
  intros H1 H2 H3 H4 H5 H6 H7 H8 H9 H10 H11 H12 H13 Hs.
  pose proof (slice_join _ _ _ _ _ _ (slice_join _ _ _ _ _ _ (slice_join _ _ _ _ _ _ (slice_join _ _ _ _ _ _ (slice_join _ _ _ _ _ _
    (slice_join _ _ _ _ _ _ (slice_join _ _ _ _ _ _ (slice_join _ _ _ _ _ _ (slice_join _ _ _ _ _ _ (slice_join _ _ _ _ _ _
    (slice_join _ _ _ _ _ _ (slice_join _ _ _ _ _ _ H1 H2) H3) H4) H5) H6) H7) H8) H9) H10) H11) H12) H13) as Hall.
  rewrite Hs in Hall. apply Ok_inj in Hall as ->. unfold v2_body, v2_header. by rewrite <- !app_assoc.
Qed.

Section signed.
Context `{HashLaws, SigLaws}.

Lemma parse_v2_safe data policy : policy_wf policy ->
  safe (parse_and_verify_boot_sidecar_v2 data policy) (trusted data policy).
Proof.
  intros Hpol. unfold policy_wf, V2_KEY_ID_LEN in Hpol.
  unfold parse_and_verify_boot_sidecar_v2, V2_HEADER_LEN, V2_SIGNATURE_LEN, V2_RELEASE_OFFSET,
    V2_KEY_ID_OFFSET, V2_ALGORITHM_OFFSET, V2_SIGNATURE_LEN_OFFSET, V2_MERKLE_ROOT_OFFSET, V2_FEC_LEN_OFFSET.
  apply safe_checked_add, safe_if_err. rewrite Z.ltb_ge. intros Hlen.
  apply safe_slice_bind; [lia..|]. intros magic Hmagic _. apply safe_if_err.
  rewrite negb_false_iff, bytes_eqb_eq. intros ->.
  apply safe_read_u32; [lia..|]. intros version _ Hversion.
  destruct (Z.eqb_spec version SIGNED_MANIFEST_VERSION) as [->|]; [|done]. cbn [negb].
  destruct (@slice_ok DfimError _ data 12 16) as (hl & Hhl & Hhll); [lia..|].
  rewrite Hhl, ok_bind, read_u32_four, !ok_bind by lia.
  apply safe_if_err. rewrite negb_false_iff, Z.eqb_eq. intros Hhl92.
  apply safe_read_u32; [lia..|]. intros bs Hbsr Hbs.
  apply safe_read_u32; [lia..|]. intros bc Hbcr Hbc. apply safe_if_err.
  rewrite orb_false_iff, negb_false_iff, Z.eqb_eq, Z.eqb_neq. intros [-> Hbc0].
  destruct (validate_block_count bc) as [[]| |] eqn:Hvc; [|done|].
  2: { unfold validate_block_count in Hvc. by repeat case_match. }
  apply validate_block_count_Ok in Hvc; [|lia]. rewrite ok_bind.
  apply safe_read_u64; [lia..|]. intros rel Hrelr Hrel. apply safe_if_err.
  rewrite orb_false_iff, Z.ltb_ge, Z.eqb_neq. intros [Hmin Hrel0].
  apply safe_slice_bind; [lia..|]. intros kid Hkid Hkidl.
  rewrite constant_time_key_id_eq_ok, ok_bind by lia. apply safe_if_err.
  rewrite negb_false_iff, bytes_eqb_eq. intros ->.
  apply safe_read_u32; [lia..|]. intros alg _ Halg.
  destruct (Z.eqb_spec alg V2_SIGNATURE_ALGORITHM) as [->|]; [|done]. cbn [negb].
  destruct (@slice_ok DfimError _ data 52 56) as (sl & Hsl & Hsll); [lia..|].
  rewrite Hsl, ok_bind, read_u32_four, !ok_bind by lia.
  apply safe_if_err. rewrite negb_false_iff, Z.eqb_eq. intros Hsl64.
  unfold checked_sub. rewrite (proj2 (Z.leb_le 64 _)) by lia. cbn [ok_or]. rewrite ok_bind.
  set (signed_end := zlen data - 64). apply safe_if_err. intros Hpk.
  apply safe_slice_bind; [unfold signed_end; lia..|]. intros signature Hsig Hsigl.
  apply safe_if_err. intros Hsv. apply safe_slice_bind; [unfold signed_end; lia..|]. intros signed Hsigned _.
  apply safe_if_err. rewrite negb_false_iff. intros Hverify.
  apply safe_slice_bind; [lia..|]. intros rt Hrt Hrtl.
  apply safe_read_u32; [lia..|]. intros fl Hflr Hfl. apply safe_checked_add, safe_if_err.
  unfold is_multiple_of. rewrite !orb_false_iff, negb_false_iff, Z.eqb_eq, Z.eqb_neq, Z.gtb_ltb, Z.ltb_ge.
  intros [[Hfe Hf0] Hf2]. apply safe_slice_bind; [unfold signed_end in *; lia..|]. intros fec Hfec Hfecl.
  apply safe_bind. eapply safe_mono; [apply parse_proofs_v2_safe; unfold signed_end in *; lia|].
  intros [offset ps] (Hl & Ho & Hwf & Hs). apply safe_if_err.
  rewrite negb_false_iff, Z.eqb_eq. intros ->. cbv zeta. cbn [bm_fec_backup bm_merkle_root].
  assert (Hfne : fec <> []) by (intros ->; rewrite zlen_nil in Hfecl; lia).
  assert (Hfl' : zlen fec = fl) by lia.
  rewrite decode_block_ok, ok_bind by (done || (rewrite Hfl'; done) || (unfold USIZE_MAX; lia)).
  apply safe_if_err. intros Hdl%Z.ltb_ge. apply safe_slice_bind; [unfold SHA256_LEN; lia..|].
  intros droot _ _. apply safe_if_err. intros _. cbn [safe]. unfold trusted.
  cbn [vm_manifest vm_release_counter vm_key_id bm_merkle_root bm_block_size bm_block_count bm_fec_backup bm_proofs].
  set (m := {| bm_merkle_root := rt; bm_block_size := DFIM_BLOCK_SIZE; bm_block_count := bc;
               bm_fec_backup := fec; bm_proofs := ps |}).
  assert (Hbody : signed = v2_body m rel (expected_key_id policy)).
  { eapply (joined_body data m rel); try done; cbn; rewrite ?Hfl'; try done; [rewrite Hhl|rewrite Hsl]; f_equal.
    - unfold V2_HEADER_LEN. rewrite <- Hhl92. symmetry. apply (le_encode_decode_n 4). lia.
    - unfold V2_SIGNATURE_LEN. rewrite <- Hsl64. symmetry. apply (le_encode_decode_n 4). lia. }
  exists signature. rewrite <- Hbody. split_and!; try (done || lia).
  - pose proof (slice_join _ _ _ _ _ _ Hsigned Hsig) as Hall. rewrite slice_all in Hall by done.
    by apply Ok_inj in Hall.
  - unfold V2_SIGNATURE_LEN, signed_end in *. lia.
  - unfold manifest_wf, m, SHA256_LEN. cbn. rewrite Hfl'. split_and!; (done || lia).
Qed.

(** ** Well-formed sidecars *)

(** Every check in order, on the encoding of a well-formed manifest and any signature *)
Lemma parse_v2_exact m release key_id signature policy :
  manifest_wf {| merkle_root := m.(bm_merkle_root); block_size := m.(bm_block_size);
                 block_count := m.(bm_block_count); fec_backup := m.(bm_fec_backup);
                 proofs := m.(bm_proofs) |} ->
  0 < release < 2 ^ 64 -> zlen key_id = 16 -> zlen policy.(expected_key_id) = 16 ->
  zlen signature = 64 -> zlen (v2_body m release key_id) + 64 <= USIZE_MAX ->
  parse_and_verify_boot_sidecar_v2 (v2_body m release key_id ++ signature) policy =
    if release <? policy.(minimum_release) then Err IntegrityFailure
    else if negb (bytes_eqb key_id policy.(expected_key_id)) then Err IntegrityFailure
    else if negb (pk_valid policy.(public_key_sec1)) then Err InvalidParameter
    else if negb (sig_valid signature) then Err IntegrityFailure
    else if negb (sig_verify policy.(public_key_sec1) (v2_body m release key_id) signature) then Err IntegrityFailure
    else
      decoded ← decode_block m.(bm_fec_backup);
      if zlen decoded <? 40 then Err CorruptMetadata
      else
        decoded_root ← slice decoded 0 SHA256_LEN;
        if negb (constant_time_hash_eq m.(bm_merkle_root) decoded_root) then Err CorruptMetadata
        else Ok {| vm_manifest := m; vm_release_counter := release; vm_key_id := key_id |}.
Proof.
  intros (Hroot & Hbs & Hbc & Hps & Hfec & Heven & Hpwf) Hrel Hkid Hexp Hsl Hlen. cbn in Hroot, Hbs, Hbc, Hps, Hfec, Heven, Hpwf. unfold SHA256_LEN in Hroot.
  destruct (v2_fields m release key_id (concat (map proof_bytes m.(bm_proofs)) ++ signature) Hroot Hkid)
    as (Hhl & H0' & H8 & H12 & H16 & H20 & H24 & H32 & H48 & H52 & H56 & H88 & H92).
  pose proof (parse_proofs_v2_ok (v2_header m release key_id) m.(bm_proofs) signature
    (zlen (v2_body m release key_id)) [] 0 Hpwf eq_refl ltac:(lia)) as Hparse.
  rewrite app_assoc in *. change (v2_header m release key_id ++ concat (map proof_bytes (bm_proofs m)))
    with (v2_body m release key_id) in *.
  assert (Hbl : 92 + zlen m.(bm_fec_backup) <= zlen (v2_body m release key_id)).
  { unfold v2_body. rewrite zlen_app, Hhl. pose proof (zlen_nonneg (concat (map proof_bytes (bm_proofs m)))). lia. }
  assert (Hsig : slice (v2_body m release key_id ++ signature) (zlen (v2_body m release key_id))
    (zlen (v2_body m release key_id ++ signature)) = @Ok DfimError _ signature) by slice_app.
  assert (Hsigned : slice (v2_body m release key_id ++ signature) 0 (zlen (v2_body m release key_id)) =
    @Ok DfimError _ (v2_body m release key_id)) by (by apply slice_here).
  assert (Hdl : zlen (v2_body m release key_id ++ signature) = zlen (v2_body m release key_id) + 64)
    by (rewrite zlen_app; lia).
  set (data := v2_body m release key_id ++ signature) in *.
  set (body := v2_body m release key_id) in *. clearbody data body.
  unfold parse_and_verify_boot_sidecar_v2, V2_HEADER_LEN, V2_SIGNATURE_LEN, V2_RELEASE_OFFSET,
    V2_KEY_ID_OFFSET, V2_ALGORITHM_OFFSET, V2_SIGNATURE_LEN_OFFSET, V2_MERKLE_ROOT_OFFSET, V2_FEC_LEN_OFFSET in *.
  unfold checked_add. change (92 + 64 <=? USIZE_MAX) with true. cbn [ok_or]. rewrite ok_bind.
  rewrite (proj2 (Z.ltb_ge (zlen data) _)), H0', H8, H12, H16, H20, H24, H32, H48, H52, H56, H88, !ok_bind by lia.
  rewrite bytes_eqb_refl. cbn [negb].
  rewrite !read_u32_encode, !ok_bind by
    (unfold SIGNED_MANIFEST_VERSION, DFIM_BLOCK_SIZE, MAX_BOOT_BLOCKS, V2_SIGNATURE_ALGORITHM in *; lia).
  change (negb (SIGNED_MANIFEST_VERSION =? SIGNED_MANIFEST_VERSION)) with false. cbv iota.
  rewrite ok_bind. change (negb (92 =? 92)) with false. cbv iota.
  rewrite Hbs, Z.eqb_refl, (proj2 (Z.eqb_neq (bm_block_count m) 0)) by lia. cbn [negb orb].
  rewrite (proj2 (validate_block_count_Ok (bm_block_count m) ltac:(lia)) Hbc), ok_bind.
  unfold read_u64 at 1. rewrite zlen_le_encode. change (Z.of_nat 8 <? 8) with false. cbv iota.
  rewrite slice_all, !ok_bind, le_decode_encode_small by (zlia || lia).
  rewrite (proj2 (Z.eqb_neq release 0)), orb_false_r by lia. destruct (release <? _); [done|].
  rewrite constant_time_key_id_eq_ok, ok_bind by lia. destruct (bytes_eqb key_id _); [|done]. cbn [negb].
  change (negb (V2_SIGNATURE_ALGORITHM =? V2_SIGNATURE_ALGORITHM)) with false. cbv iota.
  rewrite ok_bind. change (negb (64 =? 64)) with false. cbv iota.
  unfold checked_sub. rewrite (proj2 (Z.leb_le 64 _)) by lia. cbn [ok_or]. rewrite ok_bind.
  replace (zlen data - 64) with (zlen body) by lia. destruct (pk_valid _); [|done]. cbn [negb].
  rewrite Hsig, ok_bind. destruct (sig_valid signature); [|done]. cbn [negb]. rewrite Hsigned, ok_bind.
  destruct (sig_verify _ body signature); [|done]. cbn [negb].
  rewrite !ok_bind, (proj2 (Z.leb_le (92 + _) _)) by lia. cbn [ok_or]. rewrite ok_bind.
  unfold is_multiple_of. rewrite Z.gtb_ltb, (proj2 (Z.ltb_ge _ _)), Heven, (proj2 (Z.eqb_neq (zlen _) 0)) by lia.
  cbn [orb negb]. change (0 =? 0) with true. cbn [negb]. rewrite H92, ok_bind.
  rewrite Hhl, Hps, Z.add_0_l in Hparse. rewrite Hparse, ok_bind, Z.eqb_refl. cbn [negb]. cbv zeta.
  cbn [bm_fec_backup bm_merkle_root]. rewrite app_nil_l, <- Hbs. by destruct m.
Qed.

Lemma parse_v2_ok m release key_id signature policy :
  manifest_wf {| merkle_root := m.(bm_merkle_root); block_size := m.(bm_block_size);
                 block_count := m.(bm_block_count); fec_backup := m.(bm_fec_backup);
                 proofs := m.(bm_proofs) |} ->
  (exists rest, decode_block m.(bm_fec_backup) = Ok (m.(bm_merkle_root) ++ rest) /\ 8 <= zlen rest) ->
  0 < release < 2 ^ 64 -> policy.(minimum_release) <= release ->
  zlen key_id = 16 -> policy.(expected_key_id) = key_id ->
  pk_valid policy.(public_key_sec1) = true -> sig_valid signature = true -> zlen signature = 64 ->
  zlen (v2_body m release key_id) + 64 <= USIZE_MAX ->
  sig_verify policy.(public_key_sec1) (v2_body m release key_id) signature = true ->
  parse_and_verify_boot_sidecar_v2 (v2_body m release key_id ++ signature) policy =
    Ok {| vm_manifest := m; vm_release_counter := release; vm_key_id := key_id |}.
Proof.
  intros Hwf (rest & Hdec & Hrest) Hrel Hmin Hkid Hexp Hpk Hsv Hsl Hlen Hverify.
  assert (Hroot : zlen m.(bm_merkle_root) = 32) by apply Hwf.
  rewrite parse_v2_exact by (done || by rewrite Hexp).
  rewrite (proj2 (Z.ltb_ge release _)), Hexp, bytes_eqb_refl, Hpk, Hsv, Hverify by lia. cbn [negb].
  rewrite Hdec, ok_bind, zlen_app, Hroot, (proj2 (Z.ltb_ge _ _)) by lia. unfold SHA256_LEN. rewrite slice_here, ok_bind by lia.
  unfold constant_time_hash_eq. by rewrite ct_eq_refl.
Qed.

(** ** Building *)

Lemma serialize_proofs_ok image t blob : 1 <= zlen image <= MAX_IMAGE_BYTES ->
  build (blocks_of image) = Ok t ->
  foldM (fun blob i => p ← prove t i; serialize_proof blob p) blob (range 0 (zlen (blocks_of image))) =
    Ok (blob ++ concat (map proof_bytes (honest_proofs (blocks_of image)))).
Proof.
  intros Hn Hb. pose proof (honest_wf image Hn) as (_ & _ & _ & _ & _ & _ & Hpwf).
  pose proof (zlen_blocks_of image Hn) as Hl. destruct (div_ceil_bounds _ Hn) as [Hc _].
  set (pf := fun i => proof_of (path (layers_of (length (blocks_of image)) (map leaf_hash (blocks_of image))) i)).
  assert (Hmap : map proof_bytes (honest_proofs (blocks_of image)) =
    map (fun i => proof_bytes (pf (Z.to_nat i))) (range 0 (zlen (blocks_of image)))).
  { unfold honest_proofs, range, zlen. rewrite Z.sub_0_r, Nat2Z.id. fold pf.
    change (map ?f ?l) with (f <$> l). rewrite <- !list_fmap_compose. apply list_fmap_ext.
    intros _ i _. simpl. do 2 f_equal. lia. }
  rewrite Hmap. apply (foldM_append _ (fun i => proof_bytes (pf (Z.to_nat i)))).
  intros out i Hi%elem_of_range. unfold zlen in Hi. replace i with (Z.of_nat (Z.to_nat i)) at 1 by lia.
  rewrite (prove_ok (blocks_of image)) by (done || unfold MAX_BOOT_BLOCKS, USIZE_MAX, zlen in *; lia).
  rewrite ok_bind. fold (pf (Z.to_nat i)).
  assert (Hpf : proof_wf (pf (Z.to_nat i))).
  { eapply (proj1 (Forall_forall proof_wf _) Hpwf). cbn [proofs honest_manifest]. unfold honest_proofs.
    apply list_elem_of_fmap. exists (Z.to_nat i). split; [done|]. apply elem_of_seq. lia. }
  destruct Hpf as [Hmax _]. unfold serialize_proof, MAX_PROOF_STEPS in *.
  rewrite Z.gtb_ltb, (proj2 (Z.ltb_ge _ _)) by lia. unfold as_u8, proof_bytes.
  pose proof (zlen_nonneg (steps (pf (Z.to_nat i)))). by rewrite Z.mod_small by lia.
Qed.

Lemma build_signed_ok image sk key_id release : 1 <= zlen image <= MAX_IMAGE_BYTES -> 0 < release ->
  sk_valid sk = true ->
  let body := v2_body (to_boot (honest_manifest image)) release key_id in
  build_signed_boot_sidecar_v2 image sk key_id release = Ok (body ++ sign sk body).
Proof.
  intros Hn Hrel Hsk body. pose proof (zlen_blocks_of image Hn) as Hl. destruct (div_ceil_bounds _ Hn) as [Hc _].
  pose proof (blocks_of_ne image Hn) as Hne. pose proof (zlen_merkle_root _ Hne) as Hr.
  assert (Hbound : 3 * zlen (blocks_of image) <= USIZE_MAX) by (unfold MAX_BOOT_BLOCKS, USIZE_MAX in *; lia).
  unfold build_signed_boot_sidecar_v2.
  rewrite (proj2 (validate_image_byte_len_Ok (zlen image) ltac:(lia)) Hn), ok_bind.
  rewrite (proj2 (Z.eqb_neq release 0)), (proj1 (partition_ok image Hn)), ok_bind by lia.
  replace (as_u32 (zlen (blocks_of image))) with (zlen (blocks_of image))
    by (unfold as_u32, MAX_BOOT_BLOCKS in *; rewrite Z.mod_small; lia).
  pose proof (build_ok _ Hne Hbound) as Hb. rewrite Hb, ok_bind. cbn [Merkle.root].
  rewrite build_metadata_ok, ok_bind by done.
  rewrite (proj1 (fec_of_encodes _ _ Hr)), ok_bind. cbv zeta.
  rewrite (serialize_proofs_ok image _ _ Hn Hb), ok_bind, Hsk. cbn [negb].
  replace (as_u32 (zlen (fec_of _ _))) with (zlen (fec_of (Merkle.merkle_root (blocks_of image)) (zlen (blocks_of image))))
    by (rewrite zlen_fec_of by done; done).
  done.
Qed.

Lemma zlen_v2_body_bound m release key_id : zlen m.(bm_merkle_root) = 32 -> zlen key_id = 16 ->
  Forall proof_wf m.(bm_proofs) -> zlen m.(bm_proofs) <= 64 -> zlen m.(bm_fec_backup) < 2 ^ 32 ->
  zlen (v2_body m release key_id) + 64 <= USIZE_MAX.
Proof.
  intros Hr Hk Hp Hn Hf. destruct (v2_fields m release key_id [] Hr Hk) as (Hhl & _).
  unfold v2_body, USIZE_MAX. rewrite zlen_app, Hhl. pose proof (zlen_proofs_bound _ Hp). lia.
Qed.

(** An honestly signed sidecar validates its image. *)
Lemma signed_honest image sk key_id release floor :
  1 <= zlen image <= MAX_IMAGE_BYTES -> sk_valid sk = true -> zlen key_id = V2_KEY_ID_LEN ->
  0 < release < 2 ^ 64 -> floor <= release ->
  let body := v2_body (to_boot (honest_manifest image)) release key_id in
  exists v, validate_signed_boot_image_v2 image (body ++ sign sk body)
      {| public_key_sec1 := pk_of sk; expected_key_id := key_id; minimum_release := floor |} = Ok v /\
    v.(vs_boot).(payload) = image /\ v.(vs_release_counter) = release /\ v.(vs_key_id) = key_id.
Proof.
  intros Hn Hsk Hkid Hrel Hfloor body. pose proof (honest_wf image Hn) as Hwf.
  pose proof (zlen_merkle_root _ (blocks_of_ne image Hn)) as Hr. unfold validate_signed_boot_image_v2, body. rewrite parse_v2_ok; try done.
  - rewrite ok_bind. cbn [vm_manifest]. rewrite validate_honest, ok_bind by done. by eexists.
  - eexists. split; [apply (proj2 (fec_of_encodes _ _ Hr))|]. by rewrite zlen_app, !zlen_le_encode.
  - cbn. by apply pk_of_valid.
  - by apply sign_valid.
  - unfold zlen. by rewrite sign_length.
  - destruct Hwf as (_ & _ & Hbc & Hps & Hfec & _ & Hpwf). cbn in Hps, Hfec, Hpwf, Hbc.
    apply zlen_v2_body_bound; [done..|cbn; unfold MAX_BOOT_BLOCKS in *; lia|cbn; lia].
  - cbn. by apply sign_verifies.
Qed.

(** ** Theorems *)

(** C5: a sidecar signed with a valid key validates its own image.  For every image
    within the size cap, valid private key, 16-byte key identifier and positive 64-bit
    release, building succeeds, and under the policy of that key's public key the
    image is accepted, with its release and key identifier, for every release floor
    up to the release. *)
Theorem signed_sidecar_complete image sk key_id release floor :
  1 <= zlen image <= MAX_IMAGE_BYTES -> sk_valid sk = true -> zlen key_id = V2_KEY_ID_LEN ->
  0 < release < 2 ^ 64 -> floor <= release ->
  exists pk blob v, public_key_sec1_from_private sk = Ok pk /\
    build_signed_boot_sidecar_v2 image sk key_id release = Ok blob /\
    validate_signed_boot_image_v2 image blob
      {| public_key_sec1 := pk; expected_key_id := key_id; minimum_release := floor |} = Ok v /\
    v.(vs_boot).(payload) = image /\ v.(vs_release_counter) = release /\ v.(vs_key_id) = key_id.
Proof.
  intros Hn Hsk Hkid Hrel Hfloor.
  destruct (signed_honest image sk key_id release floor) as (v & Hv); [done..|].
  eexists (pk_of sk), _, v. split; [|split; [|exact Hv]].
  - unfold public_key_sec1_from_private. rewrite Hsk. cbn [negb].
    unfold zlen, V2_PUBLIC_KEY_LEN. by rewrite pk_of_length.
  - by apply build_signed_ok; [|lia|].
Qed.

(** C4: soundness of the trusted parser.  A sidecar accepted under a policy is a body
    followed by a 64-byte signature that the policy's public key verifies over that
    body; the body is the canonical encoding of exactly the manifest, release and key
    identifier returned; the release is positive and not below the policy's floor;
    and the key identifier is the policy's.  Nothing unsigned is believed, and no
    rolled-back release passes. *)
Theorem signed_sidecar_sound data policy v : policy_wf policy ->
  parse_and_verify_boot_sidecar_v2 data policy = Ok v -> trusted data policy v.
Proof. intros Hpol Hp. exact (safe_Ok _ _ _ (parse_v2_safe data policy Hpol) Hp). Qed.

(** Arbitrary images and sidecars do not make the validator panic. *)
Lemma validate_signed_total image sidecar policy : policy_wf policy ->
  validate_signed_boot_image_v2 image sidecar policy <> Panic.
Proof.
  intros Hpol. apply (safe_no_panic _ (fun _ => True)). unfold validate_signed_boot_image_v2.
  eapply safe_bind, safe_mono; [by apply parse_v2_safe|]. intros vm (sg & _ & _ & _ & _ & _ & _ & Hwf).
  destruct Hwf as (_ & _ & _ & _ & Hfec & _ & Hpwf). cbn in Hfec, Hpwf.
  pose proof (validate_total image (vm_manifest vm) Hpwf ltac:(unfold USIZE_MAX; lia)).
  by destruct (validate_boot_image image (vm_manifest vm)).
Qed.
End signed.

Module SignedWitness.
#[local] Existing Instance Toy.hash.
#[local] Existing Instance toy_hash_laws.
#[local] Existing Instance Toy.sig.
#[local] Existing Instance toy_sig_laws.

Definition image : list byte := bytes_of_string "MZ bootmgfw".
Definition key_id : list byte := bytes_of_string "DFIM-TEST-KEY-01".
Definition sk : list byte := array x11 32.
Definition policy : TrustedManifestPolicy :=
  {| public_key_sec1 := pk_of sk; expected_key_id := key_id; minimum_release := 7 |}.
Definition body : list byte := v2_body (to_boot (honest_manifest image)) 9 key_id.

Lemma signed_sidecar_complete_witness :
  exists pk blob v, public_key_sec1_from_private sk = Ok pk /\
    build_signed_boot_sidecar_v2 image sk key_id 9 = Ok blob /\
    validate_signed_boot_image_v2 image blob
      {| public_key_sec1 := pk; expected_key_id := key_id; minimum_release := 7 |} = Ok v /\
    v.(vs_boot).(payload) = image /\ v.(vs_release_counter) = 9 /\ v.(vs_key_id) = key_id.
Proof. apply signed_sidecar_complete; by vm_compute. Defined.

Lemma signed_sidecar_sound_witness :
  exists v, parse_and_verify_boot_sidecar_v2 (body ++ sign sk body) policy = Ok v /\
    trusted (body ++ sign sk body) policy v.
Proof.
  exists {| vm_manifest := to_boot (honest_manifest image); vm_release_counter := 9; vm_key_id := key_id |}.
  split; [by vm_compute|]. apply signed_sidecar_sound; by vm_compute.
Defined.
End SignedWitness.
