(* ===== verification/Rollback.v ===== *)
(** * Rollback: the persisted release floor

    Models [dfim_windows_uefi/src/rollback.rs]: the 36-byte payload of the
    authenticated UEFI variable that holds the minimum release, and its combination
    with the compiled-in floor. *)

From stdpp Require Import base list numbers option strings.
From Stdlib Require Import ZArith Lia Strings.Byte.
From S2P Require Import Prelude Crypto Core.

Definition ROLLBACK_BASELINE_MAGIC : list byte := bytes_of_string "DFIMROLL".
Definition ROLLBACK_BASELINE_VERSION : Z := 1.
Definition ROLLBACK_BASELINE_LEN : Z := 36.

Definition build_rollback_baseline (key_id : list byte) (minimum_release : Z) : DfimResult (list byte) :=
  if minimum_release =? 0 then Err InvalidParameter
  else
    let payload := array x00 ROLLBACK_BASELINE_LEN in
    payload ← copy_into payload 0 8 ROLLBACK_BASELINE_MAGIC;
    payload ← copy_into payload 8 12 (le_encode 4 ROLLBACK_BASELINE_VERSION);
    payload ← copy_into payload 12 20 (le_encode 8 minimum_release);
    copy_into payload 20 (zlen payload) key_id.

Definition parse_rollback_baseline (data expected_key_id : list byte) : DfimResult Z :=
  if negb (zlen data =? ROLLBACK_BASELINE_LEN) then Err InvalidParameter
  else
    magic ← slice data 0 8;
    if negb (bytes_eqb magic ROLLBACK_BASELINE_MAGIC) then Err IntegrityFailure
    else
      version ← (b ← slice data 8 12; Ok (le_decode b));
      if negb (version =? ROLLBACK_BASELINE_VERSION) then Err InvalidParameter
      else
        minimum_release ← (b ← slice data 12 20; Ok (le_decode b));
        if minimum_release =? 0 then Err IntegrityFailure
        else
          difference ← xor_difference data 20 expected_key_id 16;
          if negb (difference =? 0) then Err IntegrityFailure
          else Ok minimum_release.

Definition effective_minimum_release (compiled persisted : Z) : DfimResult Z :=
  if (compiled =? 0) || (persisted =? 0) then Err InvalidParameter
  else Ok (Z.max compiled persisted).

(** The payload for a key and a floor. *)
Definition baseline_bytes (key_id : list byte) (minimum_release : Z) : list byte :=
  ROLLBACK_BASELINE_MAGIC ++ le_encode 4 ROLLBACK_BASELINE_VERSION ++ le_encode 8 minimum_release ++ key_id.

Lemma build_rollback_baseline_ok key_id r : zlen key_id = 16 -> r <> 0 ->
  build_rollback_baseline key_id r = Ok (baseline_bytes key_id r).
Proof.
  intros Hk Hr. unfold build_rollback_baseline, ROLLBACK_BASELINE_LEN.
  rewrite (proj2 (Z.eqb_neq r 0)) by done. cbv zeta. set (z := array x00 36).
  assert (Hz : length z = 36%nat) by apply length_replicate.
  set (v := le_encode 4 ROLLBACK_BASELINE_VERSION). set (rb := le_encode 8 r). set (mg := ROLLBACK_BASELINE_MAGIC).
  assert (Hm : length mg = 8%nat) by done. assert (Hv : length v = 4%nat) by apply length_le_encode.
  assert (Hrb : length rb = 8%nat) by apply length_le_encode.
  assert (Hkn : length key_id = 16%nat) by (unfold zlen in Hk; lia).
  rewrite copy_into_ok by (unfold zlen; lia). rewrite ok_bind. change (Z.to_nat 0) with 0%nat.
  rewrite copy_into_ok by (unfold zlen; rewrite ?length_splice; lia). rewrite ok_bind.
  replace (Z.to_nat 8) with (0 + length mg)%nat by lia. rewrite splice_splice by lia.
  rewrite copy_into_ok by (unfold zlen; rewrite ?length_splice; rewrite ?length_app; lia). rewrite ok_bind.
  replace (Z.to_nat 12) with (0 + length (mg ++ v))%nat by (rewrite length_app; lia).
  rewrite splice_splice by (rewrite length_app; lia).
  assert (Hl : length (splice z 0 ((mg ++ v) ++ rb)) = 36%nat) by (rewrite length_splice; rewrite ?length_app; lia).
  rewrite copy_into_ok by (unfold zlen; lia). f_equal.
  replace (Z.to_nat 20) with (0 + length ((mg ++ v) ++ rb))%nat by (rewrite !length_app; lia).
  rewrite splice_splice by (rewrite !length_app; lia).
  rewrite splice_all by (rewrite !length_app; lia). unfold baseline_bytes. by rewrite <- !app_assoc.
Qed.

Lemma parse_rollback_safe data key_id : zlen key_id = 16 ->
  safe (parse_rollback_baseline data key_id) (fun r => 0 < r < 2 ^ 64 /\ data = baseline_bytes key_id r).
Proof.
  intros Hk. unfold parse_rollback_baseline, ROLLBACK_BASELINE_LEN. apply safe_if_err.
  rewrite negb_false_iff, Z.eqb_eq. intros Hlen.
  apply safe_slice_bind; [lia..|]. intros magic Hmagic _. apply safe_if_err.
  rewrite negb_false_iff, bytes_eqb_eq. intros ->.
  destruct (@slice_ok DfimError _ data 8 12) as (v & Hv & Hvl); [lia..|]. rewrite Hv, !ok_bind.
  apply safe_if_err. rewrite negb_false_iff, Z.eqb_eq. intros Hver.
  destruct (@slice_ok DfimError _ data 12 20) as (rb & Hrb & Hrbl); [lia..|]. rewrite Hrb, !ok_bind.
  apply safe_if_err. intros Hr0%Z.eqb_neq.
  destruct (@slice_ok DfimError _ data 20 36) as (kid & Hkid & Hkidl); [lia..|].
  destruct (xor_difference_ok data 20 key_id 16 kid) as (d & -> & Hd); [lia|done..|].
  rewrite ok_bind. apply safe_if_err. rewrite negb_false_iff, Z.eqb_eq, Hd. intros ->. cbn [safe].
  pose proof (le_decode_range rb) as Hrr. replace (8 * zlen rb) with 64 in Hrr by lia. split; [lia|].
  apply (slice_join _ _ _ _ _ _ Hmagic) in Hv. apply (slice_join _ _ _ _ _ _ Hv) in Hrb.
  apply (slice_join _ _ _ _ _ _ Hrb) in Hkid. rewrite <- Hlen, slice_all in Hkid by done.
  apply Ok_inj in Hkid. rewrite Hkid at 1. unfold baseline_bytes.
  rewrite (le_encode_decode_n 8 rb), <- Hver, (le_encode_decode_n 4 v) by lia. by rewrite <- !app_assoc.
Qed.

Lemma parse_rollback_ok key_id r : zlen key_id = 16 -> 0 < r < 2 ^ 64 ->
  parse_rollback_baseline (baseline_bytes key_id r) key_id = Ok r.
Proof.
  intros Hk Hr. unfold parse_rollback_baseline, ROLLBACK_BASELINE_LEN.
  assert (Hm : zlen ROLLBACK_BASELINE_MAGIC = 8) by done.
  assert (Hl : zlen (baseline_bytes key_id r) = 36) by (unfold baseline_bytes; zlia).
  rewrite (proj2 (Z.eqb_eq _ _) Hl). cbn [negb]. unfold baseline_bytes in *.
  rewrite (slice_here ROLLBACK_BASELINE_MAGIC _ 0 8), ok_bind, bytes_eqb_refl by (done || lia). cbn [negb].
  set (data := ROLLBACK_BASELINE_MAGIC ++ _) in *.
  replace (slice data 8 12) with (@Ok DfimError _ (le_encode 4 ROLLBACK_BASELINE_VERSION))
    by (symmetry; unfold data; slice_app).
  replace (slice data 12 20) with (@Ok DfimError _ (le_encode 8 r)) by (symmetry; unfold data; slice_app).
  rewrite !ok_bind, !le_decode_encode_small by (unfold ROLLBACK_BASELINE_VERSION; lia).
  rewrite Z.eqb_refl, (proj2 (Z.eqb_neq r 0)) by lia. cbn [negb].
  destruct (xor_difference_ok data 20 key_id 16 key_id) as (d & -> & Hd);
    [lia|unfold data; slice_app|done|].
  rewrite ok_bind. by rewrite (proj2 Hd eq_refl).
Qed.

(** The persisted floor round trips and is bound to its key: for a 16-byte key
    identifier, parsing returns the floor [r] exactly when the data is what
    [build_rollback_baseline] produces for that key and [r]. *)
Theorem rollback_baseline_bijection data key_id r : zlen key_id = 16 -> 0 <= r < 2 ^ 64 ->
  parse_rollback_baseline data key_id = Ok r <-> build_rollback_baseline key_id r = Ok data.
Proof.
  intros Hk Hr. split.
  - intros Hp. destruct (safe_Ok _ _ _ (parse_rollback_safe data key_id Hk) Hp) as [Hpos ->].
    apply build_rollback_baseline_ok; [done|lia].
  - intros Hb. destruct (decide (r = 0)) as [->|Hr0]; [done|].
    rewrite build_rollback_baseline_ok in Hb by done. apply Ok_inj in Hb as <-.
    apply parse_rollback_ok; [done|lia].
Qed.

Lemma rollback_baseline_bijection_witness :
  let key := bytes_of_string "DFIM-ROLLBACK-01" in
  parse_rollback_baseline (baseline_bytes key 42) key = Ok 42 <->
  build_rollback_baseline key 42 = Ok (baseline_bytes key 42).
Proof. apply rollback_baseline_bijection; by vm_compute. Defined.
