(* ===== verification/Harness.v ===== *)
(** * Harness: the bounded proofs and the fuzz targets, for every input

    The harnesses of [dfim_kani_proofs/src/proofs.rs] run the gates and the parsers on symbolic
    inputs of at most 256 bytes, the targets under [fuzz/fuzz_targets/] on random inputs of
    at most 64 KiB, and [fuzz/examples/generate_seed_corpus.rs] writes the inputs the
    fuzzer starts from.  A harness is here the computation it runs; it fails when the
    computation panics.

    [harnesses_hold]: no harness and no target fails, on inputs of any length.
    [seeds_accepted]: the generator succeeds, and each seed is accepted by the parser of
    its target, so the fuzzer starts behind the first checks. *)

From stdpp Require Import base list numbers option strings.
From Stdlib Require Import ZArith Lia Strings.Byte.
From S2P Require Import Prelude Crypto Core Merkle BlockStream StateDb Pipeline Rollback.

(** [let _ = ...]: the result is dropped, a panic is not. *)
Definition dropped {E A} (m : outcome E A) : outcome Empty_set unit := match m with Panic => Panic | _ => Ok tt end.

(** ** [proofs.rs] *)

Definition MAX_PARSER_BYTES : Z := 262144.
Definition KANI_SYMBOLIC_CAP : Z := 256.

(** [kani::assume]: inputs outside are not run. *)
Definition assume (b : bool) (m : outcome Empty_set unit) : outcome Empty_set unit := if b then m else Ok tt.

Definition proof_integrity_gates_memory_safe (image_len index block_count path_len : Z) : outcome Empty_set unit :=
  dropped (assert_image_bounds image_len) ;; dropped (assert_block_index index block_count) ;; dropped (assert_target_path path_len).

Definition proof_parse_block_stream_memory_safe (slice : list byte) : outcome Empty_set unit :=
  assume (zlen slice <=? KANI_SYMBOLIC_CAP) (assume (zlen slice <? 56) (dropped (parse_block_stream slice))).

Definition proof_parse_uefi_variable_memory_safe `{HashOps} (slice : list byte) : outcome Empty_set unit :=
  assume (zlen slice <=? KANI_SYMBOLIC_CAP)
    (assume (zlen slice <=? MAX_PARSER_BYTES) (assume (zlen slice <=? 128) (dropped (parse_uefi_variable slice)))).

(** [kani::assert] fails with a panic *)
Definition proof_image_bounds_rejects_above_64k (len : Z) : outcome Empty_set unit :=
  assume (len >? MAX_PARSER_BYTES) (match assert_image_bounds len with Err _ => Ok tt | _ => Panic end).

(** ** The fuzz targets, with their limits on the input *)

Definition MAX_INPUT_BYTES : Z := 64 * 1024.
Definition EXPECTED_KEY_ID : list byte := bytes_of_string "DFIM-ROLLBACK-01".
Definition ROLLBACK_INPUT_BYTES : Z := 64.

Definition limited (limit : Z) (data : list byte) (m : outcome Empty_set unit) : outcome Empty_set unit :=
  if zlen data <=? limit then m else Ok tt.

Definition fuzz_block_stream (data : list byte) : outcome Empty_set unit :=
  limited MAX_INPUT_BYTES data (dropped (parse_block_stream data)).
Definition fuzz_state_db `{HashOps} (data : list byte) : outcome Empty_set unit :=
  limited MAX_INPUT_BYTES data (dropped (parse_authenticated_state_db data)).
Definition fuzz_boot_manifest (data : list byte) : outcome Empty_set unit :=
  limited MAX_INPUT_BYTES data (dropped (parse_boot_manifest data)).
Definition fuzz_rollback_baseline (data : list byte) : outcome Empty_set unit :=
  limited ROLLBACK_INPUT_BYTES data (dropped (parse_rollback_baseline data EXPECTED_KEY_ID)).

(** ** [generate_seed_corpus.rs] *)

Definition KEY_ID : list byte := bytes_of_string "DFIM-ROLLBACK-01".

(** The four files of [write_seed], by target *)
Record Corpus := {
  seed_block_stream : list byte;
  seed_state_db : list byte;
  seed_boot_manifest : list byte;
  seed_rollback : list byte
}.

Definition seed_corpus `{HashOps} : DfimResult Corpus :=
  let image := array xa5 4096 in
  sidecar ← build_boot_sidecar image;
  authenticated ← wrap_authenticated_state_db sidecar;
  rollback ← build_rollback_baseline KEY_ID 1;
  Ok {| seed_block_stream := sidecar; seed_state_db := authenticated; seed_boot_manifest := sidecar; seed_rollback := rollback |}.

(** ** Every input *)

Lemma dropped_ok {E A} (m : outcome E A) : m <> Panic -> dropped m = Ok tt.
Proof. by destruct m. Qed.

Lemma image_bounds_total n : assert_image_bounds n <> Panic.
Proof. unfold assert_image_bounds, validate_image_byte_len. by repeat case_match. Qed.

Lemma block_index_total i n : assert_block_index i n <> Panic.
Proof. unfold assert_block_index, validate_block_count. by repeat case_match. Qed.

Lemma target_path_total n : assert_target_path n <> Panic.
Proof. unfold assert_target_path. by repeat case_match. Qed.

Lemma boot_manifest_total data : parse_boot_manifest data <> Panic.
Proof. unfold parse_boot_manifest. pose proof (parse_block_stream_total data). by destruct (parse_block_stream data). Qed.

Lemma rollback_total data key_id : zlen key_id = 16 -> parse_rollback_baseline data key_id <> Panic.
Proof. intros Hk. eapply safe_no_panic, parse_rollback_safe, Hk. Qed.

(** The header of every well-formed manifest *)
Lemma manifest_header_ok m : manifest_wf m -> validate_boot_sidecar_header (manifest_bytes m) = Ok tt.
Proof.
  intros Hwf. pose proof Hwf as (_ & Hbs & Hbc & _ & Hfec & _).
  destruct (header_fields m (concat (map proof_bytes m.(proofs))) Hwf) as (Hhl & H0 & H8 & H12 & H16 & _).
  fold (manifest_bytes m) in *. assert (Hdl : 56 <= zlen (manifest_bytes m)).
  { unfold manifest_bytes. rewrite zlen_app, Hhl. pose proof (zlen_nonneg (concat (map proof_bytes (proofs m)))). lia. }
  unfold validate_boot_sidecar_header, BOOT_HEADER_PREFIX_LEN. rewrite (proj2 (Z.ltb_ge _ _)) by lia.
  rewrite H0, H8, H12, H16, !ok_bind.
  rewrite !read_u32_encode by (unfold DFIM_BLOCK_SIZE, MAX_BOOT_BLOCKS, MANIFEST_VERSION in *; lia). rewrite !ok_bind.
  change (negb (bytes_eqb MANIFEST_MAGIC BOOT_SIDECAR_MAGIC)) with false.
  change (negb (MANIFEST_VERSION =? BOOT_SIDECAR_VERSION)) with false. cbv iota.
  rewrite Hbs, Z.eqb_refl, (proj2 (Z.eqb_neq (block_count m) 0)) by lia. cbn [orb negb].
  by rewrite (proj2 (validate_block_count_Ok (block_count m) ltac:(lia)) Hbc).
Qed.

Section theorems.
Context `{HashLaws}.

Lemma seed_sidecar_small image : zlen image = 4096 -> zlen (manifest_bytes (honest_manifest image)) <= 649.
Proof.
  intros Hi. assert (Hn : 1 <= zlen image <= MAX_IMAGE_BYTES) by (rewrite Hi; by vm_compute).
  pose proof (honest_wf image Hn) as Hwf. destruct (header_fields _ [] Hwf) as (Hhl & _).
  pose proof Hwf as (Hr & _ & _ & Hps & _ & _ & Hpwf). pose proof (zlen_proofs_bound _ Hpwf) as Hb.
  rewrite Hps in Hb. unfold manifest_bytes. rewrite zlen_app, Hhl. cbn [honest_manifest fec_backup block_count proofs merkle_root] in *.
  rewrite zlen_fec_of by done. rewrite (zlen_blocks_of image Hn), Hi in Hb. change (div_ceil 4096 DFIM_BLOCK_SIZE) with 1 in Hb. lia.
Qed.

(** C39: The harnesses and the fuzz targets hold on every input, without the bounds that make
    them tractable: no gate panics on any number, the parsers of the block stream, the
    state database, the boot manifest and the rollback baseline panic on no byte string of
    any length, and the image gate refuses every length above 256 KiB. *)
Theorem harnesses_hold :
  (forall image_len index block_count path_len,
     proof_integrity_gates_memory_safe image_len index block_count path_len = Ok tt) /\
  (forall data, dropped (parse_block_stream data) = Ok tt /\ dropped (parse_uefi_variable data) = Ok tt /\
     dropped (parse_boot_manifest data) = Ok tt /\ dropped (parse_rollback_baseline data EXPECTED_KEY_ID) = Ok tt /\
     proof_parse_block_stream_memory_safe data = Ok tt /\ proof_parse_uefi_variable_memory_safe data = Ok tt /\
     fuzz_block_stream data = Ok tt /\ fuzz_state_db data = Ok tt /\ fuzz_boot_manifest data = Ok tt /\
     fuzz_rollback_baseline data = Ok tt) /\
  (forall len, MAX_PARSER_BYTES < len -> exists e, assert_image_bounds len = Err e) /\
  (forall len, proof_image_bounds_rejects_above_64k len = Ok tt).
Proof.
  assert (Hlen : forall len, MAX_PARSER_BYTES < len -> exists e, assert_image_bounds len = Err e).
  { intros len Hl. unfold assert_image_bounds. pose proof (image_bounds_total len) as Ht. unfold assert_image_bounds in Ht.
    destruct (validate_image_byte_len len) as [[]|e|] eqn:Hv; [|by eexists|done].
    apply validate_image_byte_len_Ok in Hv; unfold MAX_IMAGE_BYTES, MAX_BOOT_BLOCKS, DFIM_BLOCK_SIZE, MAX_PARSER_BYTES in *; lia. }
  split; [|split; [|split; [done|]]].
  - intros. unfold proof_integrity_gates_memory_safe.
    rewrite !dropped_ok by auto using image_bounds_total, block_index_total, target_path_total. done.
  - intros data. unfold proof_parse_block_stream_memory_safe, proof_parse_uefi_variable_memory_safe, fuzz_block_stream, fuzz_state_db,
      fuzz_boot_manifest, fuzz_rollback_baseline, assume, limited, parse_uefi_variable.
    rewrite !dropped_ok by (auto using parse_block_stream_total, state_db_total, boot_manifest_total, rollback_total).
    split_and!; try done; by repeat case_match.
  - intros len. unfold proof_image_bounds_rejects_above_64k, assume. destruct (Z.gtb_spec len MAX_PARSER_BYTES) as [Hl|]; [|done].
    by destruct (Hlen len Hl) as [e ->].
Qed.

(** The seeds of the fuzzer: the generator succeeds, and every seed is accepted by the parser of its target:
    the sidecar as block stream and as boot manifest of the image, the envelope as state database that
    holds the sidecar, the baseline with release 1; all of them within the size limits of the targets. *)
Theorem seeds_accepted : exists c m,
  seed_corpus = Ok c /\
  parse_block_stream c.(seed_block_stream) = Ok m /\ parse_boot_manifest c.(seed_boot_manifest) = Ok (to_boot m) /\
  parse_authenticated_state_db c.(seed_state_db) = Ok c.(seed_block_stream) /\
  parse_rollback_baseline c.(seed_rollback) EXPECTED_KEY_ID = Ok 1 /\
  zlen c.(seed_block_stream) <= MAX_INPUT_BYTES /\ zlen c.(seed_state_db) <= MAX_INPUT_BYTES /\
  zlen c.(seed_boot_manifest) <= MAX_INPUT_BYTES /\ zlen c.(seed_rollback) <= ROLLBACK_INPUT_BYTES.
Proof.
  set (image := array xa5 4096). assert (Hn : 1 <= zlen image <= MAX_IMAGE_BYTES) by (by vm_compute).
  set (sidecar := manifest_bytes (honest_manifest image)).
  pose proof (honest_wf image Hn) as Hwf. pose proof (zlen_manifest_bound _ Hwf) as Hb. pose proof (seed_sidecar_small image eq_refl) as Hs.
  fold sidecar in Hs, Hb.
  assert (Hw : wrap_authenticated_state_db sidecar = Ok (envelope sidecar ++ sha256 (envelope sidecar))).
  { apply wrap_Ok. split; [by apply manifest_header_ok|]. split; [lia|done]. }
  pose proof (sha256_length (envelope sidecar)) as Hd.
  eexists {| seed_block_stream := sidecar; seed_state_db := envelope sidecar ++ sha256 (envelope sidecar);
    seed_boot_manifest := sidecar; seed_rollback := baseline_bytes KEY_ID 1 |}, (honest_manifest image).
  cbn [seed_block_stream seed_state_db seed_boot_manifest seed_rollback]. unfold MAX_INPUT_BYTES. split_and!.
  - unfold seed_corpus. fold image. rewrite build_boot_sidecar_ok, ok_bind by done. fold sidecar. rewrite Hw, ok_bind.
    by rewrite build_rollback_baseline_ok.
  - by apply parse_ok.
  - by apply parse_honest.
  - apply state_db_accepts. by left.
  - by apply parse_rollback_ok.
  - lia.
  - rewrite zlen_app, zlen_envelope. unfold zlen at 2. lia.
  - lia.
  - by vm_compute.
Qed.
End theorems.

Module HarnessWitness.
#[local] Existing Instance Toy.hash.
#[local] Existing Instance toy_hash_laws.

(** The harnesses on a truncated header, and a number above the limit *)
Lemma harnesses_hold_witness :
  proof_integrity_gates_memory_safe 262145 64 64 0 = Ok tt /\ fuzz_block_stream (bytes_of_string "DFIMBOOT") = Ok tt /\
  exists e, assert_image_bounds 262145 = Err e.
Proof.
  destruct harnesses_hold as (Hg & Hd & Hl & _). split; [apply Hg|]. split; [apply Hd|]. by apply Hl.
Defined.

Lemma seeds_accepted_witness : exists c m,
  seed_corpus = Ok c /\
  parse_block_stream c.(seed_block_stream) = Ok m /\ parse_boot_manifest c.(seed_boot_manifest) = Ok (to_boot m) /\
  parse_authenticated_state_db c.(seed_state_db) = Ok c.(seed_block_stream) /\
  parse_rollback_baseline c.(seed_rollback) EXPECTED_KEY_ID = Ok 1 /\
  zlen c.(seed_block_stream) <= MAX_INPUT_BYTES /\ zlen c.(seed_state_db) <= MAX_INPUT_BYTES /\
  zlen c.(seed_boot_manifest) <= MAX_INPUT_BYTES /\ zlen c.(seed_rollback) <= ROLLBACK_INPUT_BYTES.
Proof. apply seeds_accepted. Defined.
End HarnessWitness.
