(* ===== verification/BootGuard.v ===== *)
(** * BootGuard: the UEFI application that decides whether Windows boots

    Models [dfim_windows_uefi/src/main.rs].  The firmware (file system, variable
    store, image loader) is the record [Firmware]: what each call of the [uefi] crate
    returns.  The constants that [build.rs] compiles in are the record
    [DeploymentTrust].  A run produces the trace of its externally visible actions
    and ends by returning a status or by resetting the machine; the functions of type
    [!] end the run.

    The theorems show that the boot manager is started only after its exact bytes were
    validated against a signed sidecar at or above both release floors, that every
    failure ends in a reset without starting anything, and that a correctly provisioned
    machine boots. *)

From stdpp Require Import base list numbers option strings sets.
From Stdlib Require Import ZArith Lia Strings.Byte.
From S2P Require Import Prelude Crypto Core Hamming Merkle BlockStream Pipeline SignedManifest Rollback.

Inductive Status := SUCCESS | ABORTED | SECURITY_VIOLATION | LOAD_ERROR.

(** The phase labels of [secrets.rs] used here *)
Inductive Phase :=
| phase_bootmgfw_read | phase_manifest_read | phase_manifest_parse
| phase_integrity_pipeline | phase_load_image | phase_start_image.

Inductive VolumePath := BOOTMGFW_PATH | BOOTMGFW_MANIFEST_PATH.

(** A node of the volume: what [into_type], [get_info] and [read] return.  A read of
    [n] bytes fills the front of the buffer and returns how many it filled. *)
Record RegularFile := {
  file_size : option Z;
  file_read : Z -> option (list byte)
}.
Inductive FileType := Regular (f : RegularFile) | Dir.

Record Firmware := {
  helpers_init : bool;
  open_volume : bool;
  open_file : VolumePath -> option (option FileType);
  get_variable : option (list byte * Z);
  load_image : list byte -> bool;
  start_image : bool
}.

Record DeploymentTrust := {
  BOOT_PUBLIC_KEY : list byte;
  BOOT_KEY_ID : list byte;
  BOOT_MIN_RELEASE : Z
}.

(** [uefi::runtime::VariableAttributes] *)
Definition NON_VOLATILE : Z := 0x1.
Definition BOOTSERVICE_ACCESS : Z := 0x2.
Definition TIME_BASED_AUTHENTICATED_WRITE_ACCESS : Z := 0x20.

Inductive Event :=
| HardwareLog (phase : Phase) (err : DfimError)
| LoadImage (buffer : list byte)
| StartImage
| UnloadImage
| ColdReset (status : Status).

(** How a run ends: [main] returns a status, or the machine is reset. *)
Inductive Ending := Returned (status : Status) | Reset (status : Status).

Definition read_volume_file (fw : Firmware) (path : VolumePath) : DfimResult (list byte) :=
  if negb fw.(open_volume) then Err IntegrityFailure
  else
    file ← ok_or (fw.(open_file) path) IntegrityFailure;
    ftype ← ok_or file IntegrityFailure;
    match ftype with
    | Regular regular =>
        size ← ok_or regular.(file_size) IntegrityFailure;
        if size =? 0 then Err EmptyInput
        else if size >? USIZE_MAX then Err ParameterOverflow
        else if size >? MAX_IMAGE_BYTES then Err BufferTooLong
        else
          let buffer := array x00 size in
          bytes ← ok_or (regular.(file_read) size) IntegrityFailure;
          buffer ← copy_into buffer 0 (zlen bytes) bytes;
          if negb (zlen bytes =? size) then Err BufferTooShort else Ok buffer
    | Dir => Err InvalidParameter
    end.

Definition read_authenticated_rollback_floor (fw : Firmware) (trust : DeploymentTrust) : DfimResult Z :=
  da ← ok_or fw.(get_variable) IntegrityFailure;
  let '(data, attributes) := da in
  let required := Z.lor (Z.lor NON_VOLATILE BOOTSERVICE_ACCESS) TIME_BASED_AUTHENTICATED_WRITE_ACCESS in
  if negb (Z.land attributes required =? required) then Err IntegrityFailure
  else parse_rollback_baseline data trust.(BOOT_KEY_ID).

(** [fatal_halt] and [halt_system] *)
Definition halt_system (status : Status) : list Event * Ending := ([ColdReset status], Reset status).

Definition fatal_halt (phase : Phase) (err : DfimError) : list Event * Ending :=
  let '(evs, e) := halt_system SECURITY_VIOLATION in (HardwareLog phase err :: evs, e).

(** A [match] whose error arm is [fatal_halt]; [Panic] would abort the application. *)
Definition or_halt {A} (phase : Phase) (m : DfimResult A) (k : A -> option (list Event * Ending)) :
    option (list Event * Ending) :=
  match m with
  | Ok a => k a
  | Err e => Some (fatal_halt phase e)
  | Panic => None
  end.

Section model.
Context `{HashOps, SigOps}.

Definition run_boot_guard (fw : Firmware) (trust : DeploymentTrust) : option (list Event * Ending) :=
  if negb fw.(helpers_init) then Some ([], Returned ABORTED)
  else
    or_halt phase_bootmgfw_read (read_volume_file fw BOOTMGFW_PATH) (fun boot_image =>
    or_halt phase_manifest_read (read_volume_file fw BOOTMGFW_MANIFEST_PATH) (fun manifest_bytes =>
    or_halt phase_manifest_parse (read_authenticated_rollback_floor fw trust) (fun persisted_floor =>
    or_halt phase_manifest_parse
      (effective_minimum_release trust.(BOOT_MIN_RELEASE) persisted_floor) (fun minimum_release =>
    let trust_policy := {| public_key_sec1 := trust.(BOOT_PUBLIC_KEY);
                           expected_key_id := trust.(BOOT_KEY_ID);
                           minimum_release := minimum_release |} in
    or_halt phase_integrity_pipeline
      (validate_signed_boot_image_v2 boot_image manifest_bytes trust_policy) (fun validated =>
    let payload := validated.(vs_boot).(payload) in
    if negb (fw.(load_image) payload) then
      let '(evs, e) := halt_system LOAD_ERROR in
      Some (LoadImage payload :: HardwareLog phase_load_image IntegrityFailure :: evs, e)
    else if negb fw.(start_image) then
      let '(evs, e) := halt_system LOAD_ERROR in
      Some ([LoadImage payload; StartImage; HardwareLog phase_start_image IntegrityFailure; UnloadImage]
              ++ evs, e)
    else Some ([LoadImage payload; StartImage], Returned SUCCESS)))))).

(** The types of the compiled-in constants. *)
Definition trust_wf (trust : DeploymentTrust) : Prop := zlen trust.(BOOT_KEY_ID) = V2_KEY_ID_LEN.

(** The firmware honours the contract of its calls: a size is a [u64], and a read fills
    at most the buffer. *)
Definition firmware_wf (fw : Firmware) : Prop :=
  forall path f, fw.(open_file) path = Some (Some (Regular f)) ->
    (forall size, f.(file_size) = Some size -> 0 <= size < 2 ^ 64) /\
    (forall n bytes, 0 <= n -> f.(file_read) n = Some bytes -> zlen bytes <= n).

(** What the volume holds at a path. *)
Definition on_volume (fw : Firmware) (path : VolumePath) (bytes : list byte) : Prop :=
  fw.(open_volume) = true /\
  exists f, fw.(open_file) path = Some (Some (Regular f)) /\ f.(file_size) = Some (zlen bytes) /\
    f.(file_read) (zlen bytes) = Some bytes.
End model.

(** ** Reading the inputs *)

Lemma read_volume_file_Ok fw path bytes : read_volume_file fw path = Ok bytes <->
  on_volume fw path bytes /\ 1 <= zlen bytes <= MAX_IMAGE_BYTES.
Proof.
  unfold read_volume_file, on_volume. pose proof (zlen_nonneg bytes) as Hnn. split.
  - destruct (open_volume fw); [|done]. cbn [negb].
    destruct (open_file fw path) as [[[f|]|]|];
      do 2 (cbn [ok_or]; rewrite ?ok_bind); [|done..].
    destruct (file_size f) as [size|] eqn:Hs; [|done]. cbn [ok_or]. rewrite ok_bind.
    destruct (Z.eqb_spec size 0); [done|]. rewrite !Z.gtb_ltb.
    destruct (Z.ltb_spec USIZE_MAX size); [done|]. destruct (Z.ltb_spec MAX_IMAGE_BYTES size); [done|].
    destruct (file_read f size) as [data|] eqn:Hr; [|done]. cbn [ok_or]. rewrite ok_bind.
    intros Hc. apply bind_Ok in Hc as (buf & Hbuf & Hif).
    destruct (Z.eqb_spec (zlen data) size) as [Hsz|]; [|done]. cbn [negb] in Hif. apply Ok_inj in Hif as ->.
    unfold copy_into in Hbuf. pose proof (zlen_nonneg data).
    destruct (_ && _); [|done]. apply Ok_inj in Hbuf.
    assert (Hd : bytes = data).
    { subst bytes. simpl. rewrite drop_ge, app_nil_r; [done|]. unfold array, zlen in *.
      rewrite length_replicate. lia. }
    clear Hbuf. subst bytes size. split; [split; [done|by exists f]|lia].
  - intros [(-> & f & -> & Hs & Hr) Hb]. cbn [negb]. do 2 (cbn [ok_or]; rewrite ok_bind).
    rewrite Hs. cbn [ok_or]. rewrite ok_bind.
    rewrite (proj2 (Z.eqb_neq _ 0)), !Z.gtb_ltb by lia.
    rewrite (proj2 (Z.ltb_ge USIZE_MAX _)), (proj2 (Z.ltb_ge MAX_IMAGE_BYTES _)), Hr
      by (unfold MAX_IMAGE_BYTES, MAX_BOOT_BLOCKS, DFIM_BLOCK_SIZE, USIZE_MAX in *; lia).
    cbn [ok_or]. rewrite ok_bind, copy_into_ok by (rewrite ?zlen_array; lia).
    rewrite ok_bind, Z.eqb_refl. cbn [negb]. f_equal. apply splice_all. unfold array, zlen.
    rewrite length_replicate. lia.
Qed.

Lemma read_volume_file_total fw path : firmware_wf fw -> read_volume_file fw path <> Panic.
Proof.
  intros Hfw. apply (safe_no_panic _ (fun _ => True)). unfold read_volume_file.
  destruct (open_volume fw); [|done]. cbn [negb].
  destruct (open_file fw path) as [[[f|]|]|] eqn:Ho;
      do 2 (cbn [ok_or]; rewrite ?ok_bind); [|done..].
  destruct (Hfw path f Ho) as [Hsize Hread].
  destruct (file_size f) as [size|]; [|done]. cbn [ok_or]. rewrite ok_bind.
  destruct (size =? 0); [done|]. destruct (size >? USIZE_MAX); [done|]. destruct (size >? MAX_IMAGE_BYTES); [done|].
  destruct (file_read f size) as [data|] eqn:Hr; [|done]. cbn [ok_or]. rewrite ok_bind.
  destruct (Hsize size eq_refl) as [Hnn _]. specialize (Hread size data Hnn Hr). pose proof (zlen_nonneg data).
  rewrite copy_into_ok by (rewrite ?zlen_array; lia). rewrite ok_bind. by destruct (zlen data =? size).
Qed.

Section guard.
Context `{HashLaws, SigLaws}.

Definition policy_of (trust : DeploymentTrust) (floor : Z) : TrustedManifestPolicy :=
  {| public_key_sec1 := trust.(BOOT_PUBLIC_KEY); expected_key_id := trust.(BOOT_KEY_ID);
     minimum_release := Z.max trust.(BOOT_MIN_RELEASE) floor |}.

(** The inputs of a run that passed every check. *)
Definition passed (fw : Firmware) (trust : DeploymentTrust) (image sidecar : list byte) (floor : Z)
    (v : ValidatedSignedBootImage) : Prop :=
  read_volume_file fw BOOTMGFW_PATH = Ok image /\
  read_volume_file fw BOOTMGFW_MANIFEST_PATH = Ok sidecar /\
  read_authenticated_rollback_floor fw trust = Ok floor /\
  trust.(BOOT_MIN_RELEASE) <> 0 /\ floor <> 0 /\
  validate_signed_boot_image_v2 image sidecar (policy_of trust floor) = Ok v.

(** What a run does once every check passed. *)
Definition handoff (fw : Firmware) (payload : list byte) : list Event * Ending :=
  if negb (fw.(load_image) payload) then
    ([LoadImage payload; HardwareLog phase_load_image IntegrityFailure; ColdReset LOAD_ERROR], Reset LOAD_ERROR)
  else if negb fw.(start_image) then
    ([LoadImage payload; StartImage; HardwareLog phase_start_image IntegrityFailure; UnloadImage;
      ColdReset LOAD_ERROR], Reset LOAD_ERROR)
  else ([LoadImage payload; StartImage], Returned SUCCESS).

Lemma run_passed fw trust image sidecar floor v : fw.(helpers_init) = true ->
  passed fw trust image sidecar floor v ->
  run_boot_guard fw trust = Some (handoff fw v.(vs_boot).(payload)).
Proof.
  intros Hi (Hr1 & Hr2 & Hr3 & Hc & Hf & Hr4). unfold run_boot_guard. rewrite Hi, Hr1. cbn [negb or_halt].
  rewrite Hr2. cbn [or_halt]. rewrite Hr3. cbn [or_halt]. unfold effective_minimum_release.
  rewrite (proj2 (Z.eqb_neq _ _) Hc), (proj2 (Z.eqb_neq _ _) Hf). cbn [orb or_halt].
  fold (policy_of trust floor). rewrite Hr4. cbn [or_halt]. unfold handoff.
  by destruct (load_image fw _), (start_image fw).
Qed.

(** A run ends before any check, in a fatal halt, or after passing every check. *)
Lemma run_cases fw trust r : run_boot_guard fw trust = Some r ->
  (fw.(helpers_init) = false /\ r = ([], Returned ABORTED)) \/
  (exists phase err, r = fatal_halt phase err) \/
  (exists image sidecar floor v, passed fw trust image sidecar floor v /\
     r = handoff fw v.(vs_boot).(payload)).
Proof.
  intros Hr. pose proof Hr as Hrun. unfold run_boot_guard in Hr.
  destruct (helpers_init fw) eqn:Hi; cbn [negb] in Hr; [|by left; injection Hr as <-].
  destruct (read_volume_file fw BOOTMGFW_PATH) as [image|err|] eqn:Hr1; cbn [or_halt] in Hr;
    [|right; left; injection Hr as <-; eauto|done].
  destruct (read_volume_file fw BOOTMGFW_MANIFEST_PATH) as [sidecar|err|] eqn:Hr2; cbn [or_halt] in Hr;
    [|right; left; injection Hr as <-; eauto|done].
  destruct (read_authenticated_rollback_floor fw trust) as [floor|err|] eqn:Hr3; cbn [or_halt] in Hr;
    [|right; left; injection Hr as <-; eauto|done].
  unfold effective_minimum_release in Hr.
  destruct (_ || _) eqn:Hz; cbn [or_halt] in Hr; [right; left; injection Hr as <-; eauto|].
  apply orb_false_iff in Hz as [Hc%Z.eqb_neq Hf%Z.eqb_neq]. fold (policy_of trust floor) in Hr.
  destruct (validate_signed_boot_image_v2 image sidecar (policy_of trust floor)) as [v|err|] eqn:Hr4;
    cbn [or_halt] in Hr; [|right; left; injection Hr as <-; eauto|done].
  right; right. exists image, sidecar, floor, v. assert (Hp : passed fw trust image sidecar floor v) by done.
  split; [done|]. rewrite (run_passed _ _ _ _ _ _ Hi Hp) in Hrun. by injection Hrun as <-.
Qed.

Lemma passed_payload fw trust image sidecar floor v : passed fw trust image sidecar floor v ->
  v.(vs_boot).(payload) = image.
Proof.
  intros (_ & _ & _ & _ & _ & Hv). unfold validate_signed_boot_image_v2 in Hv.
  apply bind_Ok in Hv as (vm & _ & Hv). apply bind_Ok in Hv as (boot & Hb & [= <-]).
  by destruct (validate_inv _ _ _ Hb) as (_ & -> & _).
Qed.

(** C1: an image is started only if it was validated.  If a run starts an image, then
    the first thing it did was to load exactly the bytes of the boot manager on the
    volume, and those bytes were validated against the sidecar on the volume, which is
    signed by the compiled-in key and carries a release not below the compiled-in
    floor nor the floor of the authenticated variable. *)
Theorem boot_only_validated fw trust evs e : trust_wf trust ->
  run_boot_guard fw trust = Some (evs, e) -> StartImage ∈ evs ->
  exists image sidecar floor vm boot rest,
    evs = LoadImage image :: StartImage :: rest /\
    on_volume fw BOOTMGFW_PATH image /\ on_volume fw BOOTMGFW_MANIFEST_PATH sidecar /\
    read_authenticated_rollback_floor fw trust = Ok floor /\
    trusted sidecar (policy_of trust floor) vm /\
    trust.(BOOT_MIN_RELEASE) <= vm.(vm_release_counter) /\ floor <= vm.(vm_release_counter) /\
    validate_boot_image image vm.(vm_manifest) = Ok boot.
Proof.
  intros Ht Hrun Hin. apply run_cases in Hrun as [[_ [= -> ->]]|[(ph & err & [= -> ->])|Hp]].
  - by apply not_elem_of_nil in Hin.
  - exfalso. set_solver.
  - destruct Hp as (image & sidecar & floor & v & Hp & Hr). pose proof (passed_payload _ _ _ _ _ _ Hp) as Hpay.
    rewrite Hpay in Hr. pose proof Hp as (Hr1%read_volume_file_Ok & Hr2%read_volume_file_Ok & Hr3 & _ & _ & Hv).
    unfold validate_signed_boot_image_v2 in Hv. apply bind_Ok in Hv as (vm & Hvm & Hv).
    apply bind_Ok in Hv as (boot & Hb & _).
    assert (Htr : trusted sidecar (policy_of trust floor) vm)
      by exact (safe_Ok _ _ _ (parse_v2_safe sidecar (policy_of trust floor) Ht) Hvm).
    assert (Hst : exists rest, evs = LoadImage image :: StartImage :: rest).
    { unfold handoff in Hr. destruct (load_image fw image); cbn [negb] in Hr.
      - destruct (start_image fw); injection Hr as -> _; eauto.
      - injection Hr as -> _. exfalso. set_solver. }
    destruct Hst as [rest ->]. exists image, sidecar, floor, vm, boot, rest.
    destruct Htr as (sg & Hd & Hsl & Hsv & Hmin & Hrest). cbn in Hmin.
    split_and!; try (done || tauto || lia). by exists sg.
Qed.

Lemma read_floor_total fw trust : trust_wf trust -> read_authenticated_rollback_floor fw trust <> Panic.
Proof.
  intros Ht. unfold read_authenticated_rollback_floor.
  destruct (get_variable fw) as [[data attributes]|]; [|done]. cbn [ok_or]. rewrite ok_bind. cbv zeta.
  destruct (negb _); [done|]. by eapply safe_no_panic, parse_rollback_safe.
Qed.

Lemma or_halt_total {A} phase (m : DfimResult A) k : m <> Panic ->
  (forall a, m = Ok a -> is_Some (k a)) -> is_Some (or_halt phase m k).
Proof. intros Hm Hk. destruct m; cbn [or_halt]; [by apply Hk|by eauto|done]. Qed.

Lemma run_total fw trust : firmware_wf fw -> trust_wf trust -> is_Some (run_boot_guard fw trust).
Proof.
  intros Hfw Ht. unfold run_boot_guard. destruct (helpers_init fw); cbn [negb]; [|eauto].
  apply or_halt_total; [by apply read_volume_file_total|]. intros image _.
  apply or_halt_total; [by apply read_volume_file_total|]. intros sidecar _.
  apply or_halt_total; [by apply read_floor_total|]. intros floor _.
  apply or_halt_total; [unfold effective_minimum_release; by destruct (_ || _)|]. intros minimum _. cbv zeta.
  apply or_halt_total; [by apply validate_signed_total|]. intros v _.
  destruct (load_image fw _); cbn [negb]; [|eauto]. destruct (start_image fw); cbn [negb]; eauto.
Qed.

(** C2: the guard fails closed and never aborts half way.  On firmware that honours
    the contract of a read, every run ends in one of three ways: it returns success,
    having loaded and started an image; it returns [ABORTED] before doing anything
    because the UEFI helpers did not initialise; or its last action is a cold reset,
    and if it had started an image, starting was refused and the image was unloaded. *)
Theorem guard_fails_closed fw trust : firmware_wf fw -> trust_wf trust ->
  exists evs e, run_boot_guard fw trust = Some (evs, e) /\
    ((e = Returned SUCCESS /\ exists image, evs = [LoadImage image; StartImage]) \/
     (e = Returned ABORTED /\ evs = [] /\ fw.(helpers_init) = false) \/
     (exists status, e = Reset status /\ last evs = Some (ColdReset status) /\
        (StartImage ∈ evs -> fw.(start_image) = false /\ UnloadImage ∈ evs))).
Proof.
  intros Hfw Ht. destruct (run_total fw trust Hfw Ht) as [[evs e] Hrun]. exists evs, e. split; [done|].
  apply run_cases in Hrun as [[Hi [= -> ->]]|[(ph & err & [= -> ->])|(im & sc & fl & v & _ & Hr)]].
  - right; left. done.
  - right; right. eexists. split_and!; [done..|]. set_solver.
  - unfold handoff in Hr. destruct (load_image fw _); cbn [negb] in Hr.
    + destruct (start_image fw) eqn:Hs; injection Hr as -> ->; [by eauto|].
      right; right. eexists. split_and!; [done..|]. set_solver.
    + injection Hr as -> ->. right; right. eexists. split_and!; [done..|]. set_solver.
Qed.

(** A machine with everything in place *)
Lemma honest_boot fw trust image sk release floor blob payload attrs :
  fw.(helpers_init) = true ->
  1 <= zlen image <= MAX_IMAGE_BYTES -> on_volume fw BOOTMGFW_PATH image ->
  sk_valid sk = true -> trust.(BOOT_PUBLIC_KEY) = pk_of sk -> trust_wf trust ->
  build_signed_boot_sidecar_v2 image sk trust.(BOOT_KEY_ID) release = Ok blob ->
  zlen blob <= MAX_IMAGE_BYTES -> on_volume fw BOOTMGFW_MANIFEST_PATH blob ->
  build_rollback_baseline trust.(BOOT_KEY_ID) floor = Ok payload ->
  fw.(get_variable) = Some (payload, attrs) -> Z.land attrs 0x23 = 0x23 ->
  0 < trust.(BOOT_MIN_RELEASE) <= release -> 0 < floor <= release -> release < 2 ^ 64 ->
  fw.(load_image) image = true -> fw.(start_image) = true ->
  run_boot_guard fw trust = Some ([LoadImage image; StartImage], Returned SUCCESS).
Proof.
  intros Hi Hn Himg Hsk Hpk Ht Hb Hbn Hsc Hbase Hvar Hattr Hc Hf Hrel Hload Hstart.
  rewrite build_signed_ok in Hb by (done || lia). apply Ok_inj in Hb.
  rewrite build_rollback_baseline_ok in Hbase by (done || lia). apply Ok_inj in Hbase.
  destruct (signed_honest image sk (BOOT_KEY_ID trust) release (Z.max (BOOT_MIN_RELEASE trust) floor))
    as (v & Hv & Hp & _); [done|done|done|lia|lia|]. cbv zeta in Hv. rewrite Hb, <- Hpk in Hv.
  rewrite (run_passed fw trust image blob floor v Hi).
  - unfold handoff. by rewrite Hp, Hload, Hstart.
  - split_and!; [by apply read_volume_file_Ok|apply read_volume_file_Ok|..|lia|lia|done].
    + split; [done|]. split; [|done]. rewrite <- Hb, zlen_app. unfold zlen at 2. rewrite sign_length by done.
      pose proof (zlen_nonneg (v2_body (to_boot (honest_manifest image)) release (BOOT_KEY_ID trust))). lia.
    + unfold read_authenticated_rollback_floor. rewrite Hvar. cbn [ok_or]. rewrite ok_bind. cbv zeta.
      change (Z.lor _ _) with 0x23. rewrite Hattr, Z.eqb_refl. cbn [negb]. subst payload.
      apply parse_rollback_ok; [done|lia].
Qed.

(** C3: a correctly provisioned machine boots.  If the volume holds an image and the
    sidecar that the signing tool produced for it, the compiled-in trust is that
    signer's public key and key identifier, the authenticated variable holds the
    payload the provisioning tool produced for that key, and neither floor is above
    the signed release, then the guard loads exactly that image, starts it and
    returns success, provided that the firmware loads and starts it. *)
Theorem provisioned_machine_boots fw trust image sk release floor blob payload attrs :
  fw.(helpers_init) = true ->
  1 <= zlen image <= MAX_IMAGE_BYTES -> on_volume fw BOOTMGFW_PATH image ->
  sk_valid sk = true -> trust.(BOOT_PUBLIC_KEY) = pk_of sk -> trust_wf trust ->
  build_signed_boot_sidecar_v2 image sk trust.(BOOT_KEY_ID) release = Ok blob ->
  zlen blob <= MAX_IMAGE_BYTES -> on_volume fw BOOTMGFW_MANIFEST_PATH blob ->
  build_rollback_baseline trust.(BOOT_KEY_ID) floor = Ok payload ->
  fw.(get_variable) = Some (payload, attrs) -> Z.land attrs 0x23 = 0x23 ->
  0 < trust.(BOOT_MIN_RELEASE) <= release -> 0 < floor <= release -> release < 2 ^ 64 ->
  fw.(load_image) image = true -> fw.(start_image) = true ->
  run_boot_guard fw trust = Some ([LoadImage image; StartImage], Returned SUCCESS).
Proof. apply honest_boot. Qed.
End guard.

Module GuardWitness.
#[local] Existing Instance Toy.hash.
#[local] Existing Instance toy_hash_laws.
#[local] Existing Instance Toy.sig.
#[local] Existing Instance toy_sig_laws.

Definition image : list byte := bytes_of_string "MZ bootmgfw".
Definition key_id : list byte := bytes_of_string "DFIM-TEST-KEY-01".
Definition sk : list byte := array x11 32.
Definition trust : DeploymentTrust :=
  {| BOOT_PUBLIC_KEY := pk_of sk; BOOT_KEY_ID := key_id; BOOT_MIN_RELEASE := 3 |}.
Definition body : list byte := v2_body (to_boot (honest_manifest image)) 9 key_id.
Definition blob : list byte := body ++ sign sk body.

(** A volume whose reads return at most the bytes asked for. *)
Definition node (bytes : list byte) : FileType :=
  Regular {| file_size := Some (zlen bytes); file_read n := Some (take (Z.to_nat n) bytes) |}.
#[local] Instance Regular_inj : Inj (=) (=) Regular.
Proof. by intros ? ? [=]. Qed.

Definition firmware (floor : Z) (starts : bool) : Firmware := {|
  helpers_init := true;
  open_volume := true;
  open_file p := Some (Some (node (match p with BOOTMGFW_PATH => image | BOOTMGFW_MANIFEST_PATH => blob end)));
  get_variable := Some (baseline_bytes key_id floor, 0x27);
  load_image _ := true;
  start_image := starts
|}.

Lemma firmware_honest floor starts : firmware_wf (firmware floor starts).
Proof.
  intros path f Hf. unfold firmware, node in Hf. cbn [open_file] in Hf.
  do 2 apply (inj Some) in Hf. apply (inj Regular) in Hf as <-. cbn [file_size file_read]. split.
  - intros size Hs. apply (inj Some) in Hs as <-. unfold zlen.
    assert (Hl : Nat.leb (length (match path with BOOTMGFW_PATH => image | _ => blob end)) 1000 = true)
      by (destruct path; by vm_compute).
    apply Nat.leb_le in Hl. lia.
  - intros n bytes Hn Hs. apply (inj Some) in Hs as <-. unfold zlen. rewrite length_take. lia.
Qed.

Lemma boot_only_validated_witness :
  let evs := [LoadImage image; StartImage] in
  exists image' sidecar floor vm boot rest,
    evs = LoadImage image' :: StartImage :: rest /\
    on_volume (firmware 7 true) BOOTMGFW_PATH image' /\
    on_volume (firmware 7 true) BOOTMGFW_MANIFEST_PATH sidecar /\
    read_authenticated_rollback_floor (firmware 7 true) trust = Ok floor /\
    trusted sidecar (policy_of trust floor) vm /\
    trust.(BOOT_MIN_RELEASE) <= vm.(vm_release_counter) /\ floor <= vm.(vm_release_counter) /\
    validate_boot_image image' vm.(vm_manifest) = Ok boot.
Proof.
  apply (boot_only_validated (firmware 7 true) trust _ (Returned SUCCESS)); [done|by vm_compute|].
  right. left.
Defined.

(** A floor above the signed release: the machine resets. *)
Lemma guard_fails_closed_witness :
  run_boot_guard (firmware 10 true) trust =
    Some ([HardwareLog phase_integrity_pipeline IntegrityFailure; ColdReset SECURITY_VIOLATION],
          Reset SECURITY_VIOLATION) /\
  exists evs e, run_boot_guard (firmware 10 true) trust = Some (evs, e) /\
    ((e = Returned SUCCESS /\ exists image, evs = [LoadImage image; StartImage]) \/
     (e = Returned ABORTED /\ evs = [] /\ (firmware 10 true).(helpers_init) = false) \/
     (exists status, e = Reset status /\ last evs = Some (ColdReset status) /\
        (StartImage ∈ evs -> (firmware 10 true).(start_image) = false /\ UnloadImage ∈ evs))).
Proof.
  split; [by vm_compute|]. apply guard_fails_closed; [apply firmware_honest|done].
Defined.

Lemma provisioned_machine_boots_witness :
  run_boot_guard (firmware 7 true) trust = Some ([LoadImage image; StartImage], Returned SUCCESS).
Proof.
  apply (provisioned_machine_boots (firmware 7 true) trust image sk 9 7 blob (baseline_bytes key_id 7) 0x27);
    try (by vm_compute); split; try done; eexists; by vm_compute.
Defined.
End GuardWitness.
