(* ===== verification/BootValidate.v ===== *)
(** * BootValidate: the fixed-buffer validator of the kernel side

    Models [dfim_core_engine/src/boot_validate.rs]: the compact manifest and proofs of
    the eBPF maps, the allocation-free validator and its BPF variant, which works in
    place on one scratch record.  (The size gates of that file are in [Core].)

    The theorems show that the compact validator accepts and rejects exactly like the
    UEFI pipeline on the same manifest, with the same error, and that the BPF variant
    computes what the compact validator computes with the SHA-256 of [Sha256Bpf],
    whatever the scratch record held before. *)

From stdpp Require Import base list numbers option strings.
From Stdlib Require Import ZArith Lia Strings.Byte.
From S2P Require Import Prelude Crypto Core Hamming Sha256Bpf Merkle BlockStream Pipeline.

Record CompactProof := {
  step_count : Z;
  siblings : list (list byte)
}.

Record CompactManifest := {
  cm_merkle_root : list byte;
  cm_block_size : Z;
  cm_block_count : Z;
  cm_fec_len : Z;
  cm_fec_backup : list byte
}.

(** [CompactManifest::fec_slice] *)
Definition fec_slice (self : CompactManifest) : DfimResult (list byte) :=
  let len := self.(cm_fec_len) in
  if len >? MAX_FEC_BACKUP then Ok [] else slice self.(cm_fec_backup) 0 len.

(** [u32::from_le_bytes] of four bytes of the decode buffer *)
Definition le_word (decoded : list byte) (at_ : Z) : DfimResult Z :=
  b ← slice decoded at_ (at_ + 4); Ok (le_decode b).

(** The scratch record of one CPU *)
Record BpfValidateScratch := {
  s_block : list byte;
  s_sha256 : BpfSha.Sha256Workspace;
  s_fec_decoded : list byte;
  s_fec_len : Z;
  s_root : list byte;
  s_index : Z;
  s_block_count : Z;
  s_proof : CompactProof
}.

Definition set_fec (s : BpfValidateScratch) (dl : list byte * Z) : BpfValidateScratch :=
  {| s_block := s.(s_block); s_sha256 := s.(s_sha256); s_fec_decoded := fst dl; s_fec_len := snd dl;
     s_root := s.(s_root); s_index := s.(s_index); s_block_count := s.(s_block_count); s_proof := s.(s_proof) |}.

Definition set_root (r : list byte) (s : BpfValidateScratch) : BpfValidateScratch :=
  {| s_block := s.(s_block); s_sha256 := s.(s_sha256); s_fec_decoded := s.(s_fec_decoded);
     s_fec_len := s.(s_fec_len); s_root := r; s_index := s.(s_index);
     s_block_count := s.(s_block_count); s_proof := s.(s_proof) |}.

Definition set_block_count (n : Z) (s : BpfValidateScratch) : BpfValidateScratch :=
  {| s_block := s.(s_block); s_sha256 := s.(s_sha256); s_fec_decoded := s.(s_fec_decoded);
     s_fec_len := s.(s_fec_len); s_root := s.(s_root); s_index := s.(s_index);
     s_block_count := n; s_proof := s.(s_proof) |}.

Definition set_sha256 (ws : BpfSha.Sha256Workspace) (s : BpfValidateScratch) : BpfValidateScratch :=
  {| s_block := s.(s_block); s_sha256 := ws; s_fec_decoded := s.(s_fec_decoded);
     s_fec_len := s.(s_fec_len); s_root := s.(s_root); s_index := s.(s_index);
     s_block_count := s.(s_block_count); s_proof := s.(s_proof) |}.

(** A call that borrows the two decode fields, and one that borrows the workspace *)
Definition with_fec {A} (m : stm (list byte * Z) DfimError A) : stm BpfValidateScratch DfimError A :=
  fun s => let '(r, dl) := m (s.(s_fec_decoded), s.(s_fec_len)) in (r, set_fec s dl).

Definition with_sha256 {A} (f : BpfSha.Sha256Workspace -> DfimResult (A * BpfSha.Sha256Workspace)) :
    stm BpfValidateScratch DfimError A :=
  fun s => match f s.(s_sha256) with
           | Ok (a, ws) => (Ok a, set_sha256 ws s)
           | Err e => (Err e, s)
           | Panic => (Panic, s)
           end.

Section model.
Context `{HashOps}.

(** One level of [verify_block]: the state is the running hash and index. *)
Definition compact_step : list byte * Z -> list byte -> DfimResult (list byte * Z) :=
  fun '(hash, idx) sibling => Ok (climb hash idx sibling, idx / 2).

(** [CompactProof::verify_block] *)
Definition verify_block (self : CompactProof) (root block : list byte) (index : Z) : DfimResult bool :=
  let steps := self.(step_count) in
  if steps >? MAX_PROOF_STEPS then Err InvalidParameter
  else
    sibs ← slice self.(siblings) 0 steps;
    hi ← foldM compact_step (sha256_digest block, index) sibs;
    Ok (constant_time_hash_eq (fst hi) root).

Definition resolve_metadata_into (manifest : CompactManifest) :
    stm (list byte * Z) DfimError (list byte * Z * Z) :=
  fec ← lift (fec_slice manifest);
  if (zlen fec =? 0) || negb (is_multiple_of (zlen fec) 2) then lift (Err InvalidParameter)
  else
    modify (fun '(decoded, _) => (decoded, 0)) ;;
    decode_block_into_strict fec ;;
    dl ← get;
    let '(decoded, decoded_len) := dl in
    if decoded_len <? 40 then lift (Err BufferTooShort)
    else
      fec_root ← lift (slice decoded 0 SHA256_LEN);
      block_size ← lift (le_word decoded 32);
      block_count ← lift (le_word decoded 36);
      if negb (block_size =? DFIM_BLOCK_SIZE) || (block_count =? 0) then lift (Err InvalidParameter)
      else
        lift (validate_block_count block_count) ;;
        if constant_time_hash_eq manifest.(cm_merkle_root) fec_root &&
           (manifest.(cm_block_size) =? block_size) && (manifest.(cm_block_count) =? block_count)
        then mret (fec_root, block_size, block_count)
        else lift (Err CorruptMetadata).

Definition resolve_metadata_compact (manifest : CompactManifest) : DfimResult (list byte * Z * Z) :=
  fst (resolve_metadata_into manifest (array x00 64, 0)).

Definition resolve_metadata_from_scratch (manifest : CompactManifest) :
    stm BpfValidateScratch DfimError unit :=
  fec ← lift (fec_slice manifest);
  if (zlen fec =? 0) || negb (is_multiple_of (zlen fec) 2) then lift (Err InvalidParameter)
  else
    modify (fun s => set_fec s (s.(s_fec_decoded), 0)) ;;
    with_fec (decode_block_into_strict fec) ;;
    s ← get;
    if s.(s_fec_len) <? 40 then lift (Err BufferTooShort)
    else
      r ← lift (slice s.(s_fec_decoded) 0 SHA256_LEN);
      modify (set_root r) ;;
      block_size ← lift (le_word s.(s_fec_decoded) 32);
      n ← lift (le_word s.(s_fec_decoded) 36);
      modify (set_block_count n) ;;
      s ← get;
      if negb (block_size =? DFIM_BLOCK_SIZE) || (s.(s_block_count) =? 0) then lift (Err InvalidParameter)
      else
        lift (validate_block_count s.(s_block_count)) ;;
        if constant_time_hash_eq manifest.(cm_merkle_root) s.(s_root) &&
           (manifest.(cm_block_size) =? block_size) && (manifest.(cm_block_count) =? s.(s_block_count))
        then mret tt
        else lift (Err CorruptMetadata).

(** The loop of [validate_block_from_scratch] *)
Fixpoint scratch_climb (hash : list byte) (idx : Z) (sibs : list (list byte)) :
    stm BpfValidateScratch DfimError (list byte) :=
  match sibs with
  | [] => mret hash
  | sibling :: sibs =>
      hash ← (if is_multiple_of idx 2 then with_sha256 (BpfSha.parent_hash_ws hash sibling)
              else with_sha256 (BpfSha.parent_hash_ws sibling hash));
      scratch_climb hash (idx / 2) sibs
  end.

Definition validate_block_from_scratch : stm BpfValidateScratch DfimError unit :=
  s ← get;
  let steps := s.(s_proof).(step_count) in
  if steps >? MAX_PROOF_STEPS then lift (Err InvalidParameter)
  else
    hash ← with_sha256 (BpfSha.sha256_digest_ws s.(s_block));
    sibs ← lift (slice s.(s_proof).(siblings) 0 steps);
    hash ← scratch_climb hash s.(s_index) sibs;
    if constant_time_hash_eq hash s.(s_root) then mret tt else lift (Err IntegrityFailure).

Definition validate_block_compact (root block : list byte) (index : Z) (proof : CompactProof) :
    DfimResult unit :=
  if negb (zlen block =? DFIM_BLOCK_SIZE) then Err InvalidParameter
  else
    ok ← verify_block proof root block index;
    if (ok : bool) then Ok tt else Err IntegrityFailure.

(** The block that the loop of [validate_boot_image_compact] copies out *)
Definition load_block (image : list byte) (index : Z) : DfimResult (list byte) :=
  start ← mul_usize index DFIM_BLOCK_SIZE;
  stop ← add_usize start DFIM_BLOCK_SIZE;
  let end_ := Z.min stop (zlen image) in
  let block := array x00 DFIM_BLOCK_SIZE in
  n ← sub_usize end_ start;
  part ← slice image start end_;
  copy_into block 0 n part.

(** The body of that loop; the state is the enumeration index. *)
Definition check_compact (image root : list byte) (block_count : Z) (index : Z) (proof : CompactProof) :
    DfimResult Z :=
  assert_block_index index block_count ;;
  block ← load_block image index;
  validate_block_compact root block index proof ;;
  Ok (index + 1).

Definition validate_boot_image_compact (image : list byte) (manifest : CompactManifest)
    (proofs : list CompactProof) : DfimResult unit :=
  validate_image_byte_len (zlen image) ;;
  rbc ← resolve_metadata_compact manifest;
  let '(root, block_size, block_count) := rbc in
  if negb (block_size =? DFIM_BLOCK_SIZE) then Err InvalidParameter
  else if negb (zlen proofs =? block_count) then Err IntegrityFailure
  else
    validate_block_count block_count ;;
    let expected_blocks := div_ceil (zlen image) DFIM_BLOCK_SIZE in
    if negb (as_u32 expected_blocks =? block_count) then Err IntegrityFailure
    else
      foldM (check_compact image root block_count) 0 (take (Z.to_nat block_count) proofs) ;;
      Ok tt.
End model.

(** ** Correspondence of the data *)

(** A manifest and a proof in the layout of the maps. *)
Definition compact_manifest (m : BootManifest) : CompactManifest :=
  {| cm_merkle_root := m.(bm_merkle_root); cm_block_size := m.(bm_block_size);
     cm_block_count := m.(bm_block_count); cm_fec_len := zlen m.(bm_fec_backup);
     cm_fec_backup := m.(bm_fec_backup) ++ array x00 (MAX_FEC_BACKUP - zlen m.(bm_fec_backup)) |}.

Definition compact_proof (p : MerkleProof) : CompactProof :=
  {| step_count := zlen p.(steps);
     siblings := map sibling p.(steps) ++ array (array x00 SHA256_LEN) (MAX_PROOF_STEPS - zlen p.(steps)) |}.

(** The array types of the compact records. *)
Definition compact_wf (m : CompactManifest) : Prop :=
  zlen m.(cm_fec_backup) = MAX_FEC_BACKUP /\ 0 <= m.(cm_fec_len).

Definition scratch_wf (s : BpfValidateScratch) : Prop :=
  zlen s.(s_block) = DFIM_BLOCK_SIZE /\ BpfSha.wf s.(s_sha256) /\ zlen s.(s_fec_decoded) = 64 /\
  0 <= s.(s_index) /\ 0 <= s.(s_proof).(step_count) /\ zlen s.(s_proof).(siblings) = MAX_PROOF_STEPS /\
  Forall (fun b => length b = 32%nat) s.(s_proof).(siblings).

(** ** Resolving the metadata *)

(** The checks that follow the decoding, on the decoded bytes. *)
Definition checked_meta `{HashOps} (root : list byte) (bs bc : Z) (decoded : list byte) :
    DfimResult (list byte * Z * Z) :=
  if zlen decoded <? 40 then Err BufferTooShort
  else
    fec_root ← slice decoded 0 SHA256_LEN;
    block_size ← le_word decoded 32;
    block_count ← le_word decoded 36;
    if negb (block_size =? DFIM_BLOCK_SIZE) || (block_count =? 0) then Err InvalidParameter
    else
      validate_block_count block_count ;;
      if constant_time_hash_eq root fec_root && (bs =? block_size) && (bc =? block_count)
      then Ok (fec_root, block_size, block_count)
      else Err CorruptMetadata.

(** What the strict decoder makes of a backup. *)
Definition decoded_fec (fec : list byte) : list byte := map dec_pair (chunks_exact2 fec).

Lemma zlen_decoded_fec fec : zlen (decoded_fec fec) = zlen fec / 2.
Proof. unfold decoded_fec. rewrite <- zlen_chunks_exact2. unfold zlen. by rewrite length_map. Qed.

Lemma slice_prefix {E A} (l r : list A) (a b : Z) : b <= zlen l -> @slice E A (l ++ r) a b = slice l a b.
Proof.
  intros Hb. unfold slice. rewrite zlen_app. pose proof (zlen_nonneg r).
  rewrite (proj2 (Z.leb_le b (zlen l))), (proj2 (Z.leb_le b (zlen l + zlen r))) by lia.
  destruct ((0 <=? a) && (a <=? b)) eqn:Hab; [|done]. cbn [andb].
  apply andb_true_iff in Hab as [Ha%Z.leb_le Hab%Z.leb_le]. f_equal.
  unfold zlen in *. rewrite drop_app_le, take_app_le by (rewrite ?length_drop; lia). done.
Qed.

Lemma le_word_ok l a : 0 <= a -> a + 4 <= zlen l -> exists z, le_word l a = Ok z.
Proof. intros Ha Hl. unfold le_word. destruct (@slice_ok DfimError _ l a (a + 4)) as (x & -> & _); [lia..|]. by eexists. Qed.

(** The guard on the backup, as both validators write it. *)
Lemma fec_guard_false (fec : list byte) : fec <> [] -> zlen fec mod 2 = 0 ->
  (zlen fec =? 0) || negb (is_multiple_of (zlen fec) 2) = false.
Proof.
  intros Hne Heven. pose proof (zlen_pos fec Hne). unfold is_multiple_of.
  by rewrite Heven, (proj2 (Z.eqb_neq _ _)) by lia.
Qed.

Lemma fec_guard_dec (fec : list byte) :
  (zlen fec =? 0) || negb (is_multiple_of (zlen fec) 2) = true \/ (fec <> [] /\ zlen fec mod 2 = 0).
Proof.
  unfold is_multiple_of. destruct (Z.eqb_spec (zlen fec) 0) as [|Hne]; [by left|].
  destruct (Z.eqb_spec (zlen fec mod 2) 0) as [|]; [right; split; [|done]; by intros ->|by left].
Qed.

Lemma strict_decode fec out written : fec <> [] -> zlen fec mod 2 = 0 -> zlen fec <= 128 -> zlen out = 64 ->
  decode_block_into_strict fec (out, written) =
    (Ok tt, (decoded_fec fec ++ drop (Z.to_nat (zlen fec / 2)) out, zlen (decoded_fec fec))).
Proof.
  intros Hne Heven Hl Hout. rewrite zlen_decoded_fec.
  apply (decode_into_ok _ _ _ _ (fun c => proj1 (dec_nibble_ok c))); try done.
  - unfold USIZE_MAX. lia.
  - rewrite Hout. Z.to_euclidean_division_equations; lia.
Qed.

Section resolve.
Context `{HashOps}.

Lemma resolve_into_eq m fec out len : fec_slice m = Ok fec -> fec <> [] -> zlen fec mod 2 = 0 ->
  zlen fec <= 128 -> zlen out = 64 ->
  fst (resolve_metadata_into m (out, len)) =
    checked_meta m.(cm_merkle_root) m.(cm_block_size) m.(cm_block_count) (decoded_fec fec).
Proof.
  intros Hf Hne Heven Hl Hout. unfold resolve_metadata_into, checked_meta.
  rewrite stm_lift, Hf. cbv beta iota. rewrite fec_guard_false by done.
  rewrite stm_modify. rewrite (stm_step _ _ _ _ _ (strict_decode fec out 0 Hne Heven Hl Hout)).
  rewrite stm_get. set (d := decoded_fec fec). set (r := drop _ out).
  destruct (Z.ltb_spec (zlen d) 40); [done|].
  rewrite stm_lift, slice_prefix by (unfold SHA256_LEN; lia).
  destruct (@slice_ok DfimError _ d 0 SHA256_LEN) as (root & -> & _); [unfold SHA256_LEN; lia..|].
  rewrite ok_bind, stm_lift. unfold le_word at 1 2. rewrite !slice_prefix by lia.
  fold (le_word d 32) (le_word d 36).
  destruct (le_word_ok d 32) as (bs & ->); [lia..|]. rewrite ok_bind, stm_lift.
  destruct (le_word_ok d 36) as (bc & ->); [lia..|]. rewrite ok_bind.
  destruct (_ || _); [done|]. rewrite stm_lift.
  destruct (validate_block_count bc); [rewrite ok_bind; by destruct (_ && _)|done..].
Qed.

Lemma resolve_pipeline_eq m : m.(bm_fec_backup) <> [] -> zlen m.(bm_fec_backup) mod 2 = 0 ->
  zlen m.(bm_fec_backup) <= USIZE_MAX ->
  resolve_metadata m = (fun '(r, s, c) => (r, s, c, false)) <$>
    checked_meta m.(bm_merkle_root) m.(bm_block_size) m.(bm_block_count) (decoded_fec m.(bm_fec_backup)).
Proof.
  intros Hne Heven Hl. unfold resolve_metadata, fec_recover_metadata, checked_meta, le_word.
  rewrite decode_block_ok by done. fold (decoded_fec (bm_fec_backup m)). set (d := decoded_fec _).
  rewrite ok_bind. destruct (Z.ltb_spec (zlen d) 40); [done|].
  destruct (@slice_ok DfimError _ d 0 SHA256_LEN) as (root & -> & _); [unfold SHA256_LEN; lia..|].
  destruct (@slice_ok DfimError _ d 32 36) as (bs & Hbs & _); [lia..|]. change (32 + 4) with 36.
  destruct (@slice_ok DfimError _ d 36 40) as (bc & Hbc & _); [lia..|]. change (36 + 4) with 40.
  rewrite Hbs, Hbc, !ok_bind. destruct (_ =? DFIM_BLOCK_SIZE); [|done]. cbn [negb orb].
  destruct (le_decode bc =? 0); [done|].
  destruct (validate_block_count _); [rewrite !ok_bind; by destruct (_ && _)|done..].
Qed.
End resolve.

(** ** Validating blocks *)

Section blocks.
Context `{HashLaws}.

Lemma load_block_ok image i : 1 <= zlen image <= MAX_IMAGE_BYTES ->
  0 <= i < div_ceil (zlen image) DFIM_BLOCK_SIZE -> load_block image i = Ok (block_at image i).
Proof.
  intros Hn Hi. generalize (cut_block_ok image [] i Hn Hi). unfold cut_block, load_block.
  destruct (mul_usize i _) as [start| |]; [|done..]. rewrite !ok_bind.
  destruct (add_usize start _) as [stop| |]; [|done..]. rewrite !ok_bind. cbv zeta.
  destruct (sub_usize _ _) as [n| |]; [|done..]. rewrite !ok_bind.
  destruct (slice image _ _) as [part| |]; [|done..]. rewrite !ok_bind.
  destruct (copy_into _ _ _ _) as [b| |]; [|done..]. by intros [= ->].
Qed.

Lemma zlen_block_at image i : 1 <= zlen image <= MAX_IMAGE_BYTES ->
  0 <= i < div_ceil (zlen image) DFIM_BLOCK_SIZE -> zlen (block_at image i) = DFIM_BLOCK_SIZE.
Proof.
  intros Hn Hi. pose proof (zlen_padded image Hn) as Hp. unfold block_at, zlen in *.
  rewrite length_take, length_drop. unfold DFIM_BLOCK_SIZE in *. lia.
Qed.

Lemma compact_loop hash i sibs : exists i',
  foldM compact_step (hash, Z.of_nat i) sibs = Ok (climb_all hash i sibs, i').
Proof.
  revert hash i. induction sibs as [|s sibs IH]; intros hash i; cbn [foldM climb_all compact_step]; [by eexists|].
  rewrite ok_bind, of_nat_div2, climb_even. apply IH.
Qed.

(** A compact proof that uses the first [n] of its siblings. *)
Lemma verify_block_eq p root block i sibs : slice p.(siblings) 0 p.(step_count) = @Ok DfimError _ sibs ->
  p.(step_count) <= MAX_PROOF_STEPS ->
  verify_block p root block (Z.of_nat i) = Ok (ct_eq (climb_all (sha256 block) i sibs) root).
Proof.
  intros Hs Hm. unfold verify_block. rewrite Z.gtb_ltb, (proj2 (Z.ltb_ge _ _)), Hs, ok_bind by lia.
  destruct (compact_loop (sha256_digest block) i sibs) as (i' & ->). done.
Qed.

Lemma verify_compact p root block i : proof_wf p ->
  verify_block (compact_proof p) root block (Z.of_nat i) = verify_proof root block (Z.of_nat i) p.
Proof.
  intros [Hmax Hsib]. rewrite (proof_of_siblings p) at 2. rewrite verify_proof_eq.
  - apply verify_block_eq; [|done]. unfold compact_proof. cbn [siblings step_count].
    apply slice_head. unfold zlen. by rewrite length_map.
  - unfold zlen in *. rewrite length_map. unfold MAX_PROOF_STEPS, USIZE_MAX in *. lia.
Qed.

(** Both loops, from block [k] on. *)
Lemma loops_agree image root ps k n : 1 <= zlen image <= MAX_IMAGE_BYTES -> Forall proof_wf ps ->
  length ps = length (blocks_of image) -> (k + n = length ps)%nat ->
  foldM (check_compact image root (zlen ps)) (Z.of_nat k) (map compact_proof (drop k ps)) =
  foldM (check_block root ps) (Z.of_nat k) (drop k (blocks_of image)).
Proof.
  intros Hn Hwf Hl. pose proof (zlen_blocks_of image Hn) as Hb. destruct (div_ceil_bounds _ Hn) as [Hc _].
  revert k. induction n as [|n IH]; intros k Hk.
  { by rewrite !drop_ge by lia. }
  destruct (lookup_lt_is_Some_2 ps k) as [p Hp]; [lia|].
  destruct (lookup_lt_is_Some_2 (blocks_of image) k) as [b Hbk]; [lia|].
  rewrite (drop_S _ _ _ Hp), (drop_S _ _ _ Hbk). cbn [map foldM].
  assert (Hblk : b = block_at image (Z.of_nat k)).
  { unfold blocks_of in Hbk. apply list_lookup_fmap_Some in Hbk as (z & -> & Hz).
    apply range_lookup in Hz as [-> _]. done. }
  assert (Hlt : 0 <= Z.of_nat k < div_ceil (zlen image) DFIM_BLOCK_SIZE) by (unfold zlen in *; lia).
  unfold check_compact at 2. unfold check_block at 2. unfold index.
  rewrite (proj2 (assert_block_index_Ok (Z.of_nat k) (zlen ps) (zlen_nonneg _))) by (unfold zlen in *; lia).
  rewrite ok_bind, load_block_ok, ok_bind by done. unfold validate_block_compact.
  rewrite zlen_block_at, Z.eqb_refl, verify_compact by (done || by eapply Forall_lookup_1). cbn [negb].
  rewrite (proj2 (Z.leb_le 0 _)), Nat2Z.id, Hp by lia. cbn [unwrap]. rewrite ok_bind, Hblk.
  destruct (verify_proof _ _ _ _) as [[]| |]; try done. rewrite !ok_bind. cbn [negb]. rewrite !ok_bind.
  replace (Z.of_nat k + 1) with (Z.of_nat (S k)) by lia. apply IH. lia.
Qed.
End blocks.

Section theorems.
Context `{HashLaws}.

Lemma validators_agree image m :
  Forall proof_wf m.(bm_proofs) -> 0 < zlen m.(bm_fec_backup) <= MAX_FEC_BACKUP ->
  zlen m.(bm_fec_backup) mod 2 = 0 ->
  validate_boot_image_compact image (compact_manifest m) (map compact_proof m.(bm_proofs)) =
    (fun _ => tt) <$> validate_boot_image image m.
Proof.
  intros Hwf Hfl Heven. unfold MAX_FEC_BACKUP in Hfl.
  assert (Hne : (bm_fec_backup m) <> []) by (intros He%(f_equal zlen); rewrite zlen_nil in He; lia).
  assert (Hsl : fec_slice (compact_manifest m) = Ok (bm_fec_backup m)).
  { unfold fec_slice, compact_manifest. cbn [cm_fec_len cm_fec_backup].
    rewrite Z.gtb_ltb, (proj2 (Z.ltb_ge _ _)) by (unfold MAX_FEC_BACKUP; lia). by apply slice_head. }
  unfold validate_boot_image_compact, validate_boot_image, resolve_metadata_compact.
  rewrite (resolve_into_eq _ (bm_fec_backup m) _ _ Hsl), resolve_pipeline_eq by (done || (unfold USIZE_MAX; lia)).
  destruct (validate_image_byte_len (zlen image)) as [[]| |] eqn:Hv; [|done..]. rewrite !ok_bind.
  apply validate_image_byte_len_Ok in Hv; [|apply zlen_nonneg].
  destruct (checked_meta _ _ _ _) as [[[root bs] bc]| |] eqn:Hc; [|done..].
  rewrite ok_bind. cbn [fmap outcome_fmap]. rewrite ok_bind.
  assert (Hbs : bs = DFIM_BLOCK_SIZE /\ validate_block_count bc = Ok tt).
  { unfold checked_meta in Hc. inv_Ok Hc. injection Hc as <- <- <-. destruct a2.
    apply orb_false_iff in Hg0 as [Hb _]. by rewrite negb_false_iff, Z.eqb_eq in Hb. }
  destruct Hbs as [-> Hbc]. rewrite Z.eqb_refl. cbn [negb].
  replace (zlen (map compact_proof (bm_proofs m))) with (zlen (bm_proofs m)) by (unfold zlen; by rewrite length_map).
  destruct (Z.eqb_spec (zlen (bm_proofs m)) bc) as [Hps|]; [|done]. cbn [negb].
  rewrite Hbc, ok_bind, (proj2 (partition_ok image Hv)), ok_bind, zlen_blocks_of by done. cbv zeta.
  destruct (Z.eqb_spec (as_u32 (div_ceil (zlen image) DFIM_BLOCK_SIZE)) bc) as [Heq|]; [|done]. cbn [negb].
  pose proof (zlen_blocks_of image Hv) as Hb. destruct (div_ceil_bounds _ Hv) as [Hd _].
  unfold as_u32 in Heq. rewrite Z.mod_small in Heq by (unfold MAX_BOOT_BLOCKS in *; lia).
  rewrite firstn_all2 by (rewrite length_map; unfold zlen in *; lia).
  rewrite <- Hps. rewrite (loops_agree image root (bm_proofs m) 0 (length (bm_proofs m)))
    by (done || unfold zlen in *; lia).
  rewrite drop_0. change (Z.of_nat 0) with 0. by destruct (foldM _ _ _).
Qed.

(** C27: the kernel-side validator is the UEFI pipeline.  For every image and every
    manifest whose proofs are well formed and whose FEC backup has a non-zero even
    length of at most 128 bytes, the fixed-buffer validator run on the compact form of
    the manifest returns success exactly when the pipeline does, and otherwise the
    same error. *)
Theorem compact_validator_refines_pipeline image m :
  Forall proof_wf m.(bm_proofs) -> 0 < zlen m.(bm_fec_backup) <= MAX_FEC_BACKUP ->
  zlen m.(bm_fec_backup) mod 2 = 0 ->
  validate_boot_image_compact image (compact_manifest m) (map compact_proof m.(bm_proofs)) =
    (fun _ => tt) <$> validate_boot_image image m.
Proof. apply validators_agree. Qed.
End theorems.

(** Resolving metadata in the scratch record.  Whatever the decode buffer held
    before, [resolve_metadata_from_scratch] succeeds, or fails with an error, exactly
    when [resolve_metadata_compact] does; on success the record's root and block count
    are the resolved ones, and in every case the block, the workspace, the index and
    the proof are untouched. *)
Theorem scratch_resolve_refines_compact `{HashLaws} manifest s : compact_wf manifest -> scratch_wf s ->
  exists s', resolve_metadata_from_scratch manifest s =
      ((fun _ => tt) <$> resolve_metadata_compact manifest, s') /\
    (forall root bs bc, resolve_metadata_compact manifest = Ok (root, bs, bc) ->
       s'.(s_root) = root /\ s'.(s_block_count) = bc) /\
    s'.(s_block) = s.(s_block) /\ s'.(s_sha256) = s.(s_sha256) /\ s'.(s_index) = s.(s_index) /\
    s'.(s_proof) = s.(s_proof).
Proof.
  intros [Hbl Hfl] (_ & _ & Hdec & _). unfold resolve_metadata_compact.
  assert (Hfec : exists fec, fec_slice manifest = Ok fec /\ zlen fec <= 128).
  { unfold fec_slice, MAX_FEC_BACKUP in *. rewrite Z.gtb_ltb. destruct (Z.ltb_spec 128 (cm_fec_len manifest)).
    - by exists [].
    - destruct (@slice_ok DfimError _ (cm_fec_backup manifest) 0 (cm_fec_len manifest)) as (x & -> & Hx); [lia..|].
      exists x. split; [done|lia]. }
  destruct Hfec as (fec & Hfec & Hl). unfold resolve_metadata_from_scratch. rewrite stm_lift, Hfec.
  destruct (fec_guard_dec fec) as [Hg|[Hne Heven]].
  { rewrite Hg. exists s. unfold resolve_metadata_into. rewrite stm_lift, Hfec, Hg. done. }
  rewrite fec_guard_false by done.
  rewrite (resolve_into_eq _ fec (array x00 64) 0 Hfec Hne Heven Hl eq_refl), stm_modify.
  assert (Hw : with_fec (decode_block_into_strict fec) (set_fec s (s_fec_decoded s, 0)) =
    (Ok tt, set_fec s (decoded_fec fec ++ drop (Z.to_nat (zlen fec / 2)) (s_fec_decoded s), zlen (decoded_fec fec)))).
  { unfold with_fec. cbn [set_fec s_fec_decoded s_fec_len fst snd]. by rewrite strict_decode. }
  rewrite (stm_step _ _ _ _ _ Hw), stm_get. clear Hw. cbn [set_fec s_fec_decoded s_fec_len fst snd].
  unfold checked_meta. set (d := decoded_fec fec). set (r := drop _ _).
  destruct (Z.ltb_spec (zlen d) 40); [by eexists|].
  rewrite stm_lift, slice_prefix by (unfold SHA256_LEN; lia).
  destruct (@slice_ok DfimError _ d 0 SHA256_LEN) as (root & -> & _); [unfold SHA256_LEN; lia..|].
  rewrite ok_bind, stm_modify, stm_lift. unfold le_word at 1 2. rewrite !slice_prefix by lia.
  fold (le_word d 32) (le_word d 36).
  destruct (le_word_ok d 32) as (bs & ->); [lia..|]. rewrite ok_bind, stm_lift.
  destruct (le_word_ok d 36) as (bc & ->); [lia..|]. rewrite ok_bind, stm_modify, stm_get.
  cbn [set_root set_block_count s_root s_block_count].
  destruct (_ || _); [by eexists|]. rewrite stm_lift.
  destruct (validate_block_count bc); [|by eexists..]. rewrite ok_bind.
  destruct (_ && _); [|by eexists]. eexists. split_and!; try done. by intros ? ? ? [= <- <- <-].
Qed.

(** ** The BPF digest *)

Lemma with_sha256_parent s x y : BpfSha.wf s.(s_sha256) -> length x = 32%nat -> length y = 32%nat ->
  exists ws, with_sha256 (BpfSha.parent_hash_ws x y) s =
    (Ok (BpfSha.fips_sha256 (x ++ y)), set_sha256 ws s) /\ BpfSha.wf ws.
Proof.
  intros Hwf Hx Hy. destruct (@BpfSha.parent_hash_ws_ok DfimError x y _ Hwf Hx Hy) as (ws & Hp & Hws).
  exists ws. unfold with_sha256. by rewrite Hp.
Qed.

Lemma scratch_climb_ok sibs : forall hash i s, BpfSha.wf s.(s_sha256) -> length hash = 32%nat ->
  Forall (fun b => length b = 32%nat) sibs ->
  exists ws, scratch_climb hash (Z.of_nat i) sibs s =
    (Ok (@climb_all BpfSha.bpf_hash hash i sibs), set_sha256 ws s) /\ BpfSha.wf ws.
Proof.
  induction sibs as [|b sibs IH]; intros hash i s Hwf Hh Hf.
  { exists (s_sha256 s). by destruct s. }
  apply Forall_cons in Hf as [Hb Hf]. cbn [scratch_climb climb_all]. rewrite is_multiple_of_even.
  destruct (Nat.even i).
  - destruct (with_sha256_parent s hash b Hwf Hh Hb) as (ws & Hp & Hws).
    rewrite (stm_step _ _ _ _ _ Hp), of_nat_div2.
    destruct (IH (BpfSha.fips_sha256 (hash ++ b)) (Nat.div2 i) (set_sha256 ws s) Hws
      (@sha256_length _ BpfSha.bpf_hash_laws _) Hf) as (ws' & -> & Hws'). by exists ws'.
  - destruct (with_sha256_parent s b hash Hwf Hb Hh) as (ws & Hp & Hws).
    rewrite (stm_step _ _ _ _ _ Hp), of_nat_div2.
    destruct (IH (BpfSha.fips_sha256 (b ++ hash)) (Nat.div2 i) (set_sha256 ws s) Hws
      (@sha256_length _ BpfSha.bpf_hash_laws _) Hf) as (ws' & -> & Hws'). by exists ws'.
Qed.

(** Checking a block in the scratch record.  The BPF variant returns exactly what
    [validate_block_compact] returns on the record's root, block, index and proof when
    that validator hashes with FIPS 180-4 SHA-256; it changes nothing but the hash
    workspace, which stays well formed for the next call. *)
Theorem scratch_block_refines_compact s : scratch_wf s ->
  exists ws, @validate_block_from_scratch BpfSha.bpf_hash s =
      (@validate_block_compact BpfSha.bpf_hash s.(s_root) s.(s_block) s.(s_index) s.(s_proof),
       set_sha256 ws s) /\
    BpfSha.wf ws.
Proof.
  intros (Hb & Hwf & _ & Hi & Hsc & Hsl & Hsib). unfold validate_block_from_scratch, validate_block_compact.
  rewrite stm_get, Hb, Z.eqb_refl. cbn [negb]. rewrite Z.gtb_ltb.
  destruct (Z.ltb_spec MAX_PROOF_STEPS (step_count (s_proof s))) as [Hgt|Hle].
  { exists (s_sha256 s). unfold verify_block. rewrite Z.gtb_ltb, (proj2 (Z.ltb_lt _ _) Hgt). by destruct s. }
  destruct (@BpfSha.sha256_digest_ws_ok DfimError (s_block s) _ Hwf) as (ws & Hd & Hws).
  assert (Hw : with_sha256 (BpfSha.sha256_digest_ws (s_block s)) s =
    (Ok (BpfSha.fips_sha256 (s_block s)), set_sha256 ws s)) by (unfold with_sha256; by rewrite Hd).
  rewrite (stm_step _ _ _ _ _ Hw). clear Hw.
  destruct (@slice_ok DfimError _ (siblings (s_proof s)) 0 (step_count (s_proof s))) as (sibs & Hs & _); [lia..|].
  rewrite stm_lift, Hs. pose proof (Z2Nat.id (s_index s) Hi) as Hidx. rewrite <- Hidx.
  rewrite (@verify_block_eq BpfSha.bpf_hash _ _ _ _ sibs Hs Hle), ok_bind.
  destruct (scratch_climb_ok sibs (BpfSha.fips_sha256 (s_block s)) (Z.to_nat (s_index s)) (set_sha256 ws s))
    as (ws' & Hc & Hws'); [done|apply (@sha256_length _ BpfSha.bpf_hash_laws)| |].
  { apply slice_inv in Hs as (_ & _ & _ & _ & ->). by apply Forall_take, Forall_drop. }
  rewrite (stm_step _ _ _ _ _ Hc). exists ws'. split; [|done].
  unfold constant_time_hash_eq. change (sha256 (s_block s)) with (BpfSha.fips_sha256 (s_block s)).
  by destruct (ct_eq _ _).
Qed.

Module BootValidateWitness.
#[local] Existing Instance Toy.hash.
#[local] Existing Instance toy_hash_laws.

Definition image : list byte := bytes_of_string "MZ bootmgfw".
Definition manifest : BootManifest := to_boot (honest_manifest image).

(** A scratch record left over from another run. *)
Definition scratch : BpfValidateScratch := {|
  s_block := array x41 DFIM_BLOCK_SIZE;
  s_sha256 := BpfSha.new_workspace;
  s_fec_decoded := array xaa 64;
  s_fec_len := 17;
  s_root := array x55 32;
  s_index := 5;
  s_block_count := 9;
  s_proof := {| step_count := 2; siblings := array (array x07 32) MAX_PROOF_STEPS |}
|}.

Lemma scratch_ok : scratch_wf scratch.
Proof.
  unfold scratch_wf, scratch. cbn [s_block s_sha256 s_fec_decoded s_index s_proof step_count siblings].
  split_and!; try done; by repeat constructor.
Qed.

Lemma compact_validator_refines_pipeline_witness :
  validate_boot_image_compact image (compact_manifest manifest) (map compact_proof manifest.(bm_proofs)) = Ok tt /\
  validate_boot_image_compact (image ++ [x01]) (compact_manifest manifest) (map compact_proof manifest.(bm_proofs)) =
    (fun _ => tt) <$> validate_boot_image (image ++ [x01]) manifest.
Proof.
  split; [by vm_compute|].
  apply compact_validator_refines_pipeline; [|by vm_compute..].
  apply (honest_wf image). by vm_compute.
Defined.

Lemma scratch_resolve_refines_compact_witness :
  exists s', resolve_metadata_from_scratch (compact_manifest manifest) scratch =
      ((fun _ => tt) <$> resolve_metadata_compact (compact_manifest manifest), s') /\
    (forall root bs bc, resolve_metadata_compact (compact_manifest manifest) = Ok (root, bs, bc) ->
       s'.(s_root) = root /\ s'.(s_block_count) = bc) /\
    s'.(s_block) = scratch.(s_block) /\ s'.(s_sha256) = scratch.(s_sha256) /\ s'.(s_index) = scratch.(s_index) /\
    s'.(s_proof) = scratch.(s_proof).
Proof. apply scratch_resolve_refines_compact; [by vm_compute|apply scratch_ok]. Defined.

Lemma scratch_block_refines_compact_witness :
  exists ws, @validate_block_from_scratch BpfSha.bpf_hash scratch =
      (@validate_block_compact BpfSha.bpf_hash scratch.(s_root) scratch.(s_block) scratch.(s_index) scratch.(s_proof),
       set_sha256 ws scratch) /\
    BpfSha.wf ws.
Proof. apply scratch_block_refines_compact, scratch_ok. Defined.
End BootValidateWitness.
