(* ===== verification/Enforcement.v ===== *)
(** * Enforcement: the protected-scope policy and the LSM probe

    Models [dfim_core_engine/src/enforcement_policy.rs] (the map ABI and the decision
    function), [dfim_linux_kernel/dfim-ebpf/src/vmlinux.rs] (from a kernel object to a
    scope key) and [dfim_linux_kernel/dfim-ebpf/src/main.rs] (the two LSM hooks).

    Kernel memory ([bpf_probe_read_kernel]), the field offsets that the build script
    generates, and whether the ring buffer has room are parameters.

    The theorem shows when a hook lets an execution through, that it refuses every
    other one, and what it reports. *)

From stdpp Require Import base list numbers option strings gmap.
From Stdlib Require Import ZArith Lia Strings.Byte.
From S2P Require Import Prelude Core.

(** ** The map ABI *)

Definition DFIM_CONFIG_MAGIC : Z := le_decode (bytes_of_string "DFIM").
Definition DFIM_CONFIG_SCHEMA_V1 : Z := 1.
Definition DFIM_PROFILE_PROTECTED_SCOPE : Z := 1.
Definition DFIM_CONFIG_FLAG_ENFORCEMENT_READY : Z := 1.
Definition DFIM_SCOPE_PENDING : Z := 0.
Definition DFIM_SCOPE_ACTIVE : Z := 1.

Record DfimConfigV1 := {
  magic : Z;
  schema_version : Z;
  struct_size : Z;
  deployment_profile : Z;
  c_policy_generation : Z;
  flags : Z;
  c_reserved : Z
}.

(** [core::mem::size_of::<DfimConfigV1>()]: six [u32] and one aligned [u64] *)
Definition DfimConfigV1_size : Z := 4 * 4 + 8 + 4 + 4.

Module DfimConfig.
Definition production (policy_generation : Z) : DfimConfigV1 := {|
  magic := DFIM_CONFIG_MAGIC;
  schema_version := DFIM_CONFIG_SCHEMA_V1;
  struct_size := as_u32 DfimConfigV1_size;
  deployment_profile := DFIM_PROFILE_PROTECTED_SCOPE;
  c_policy_generation := policy_generation;
  flags := DFIM_CONFIG_FLAG_ENFORCEMENT_READY;
  c_reserved := 0
|}.

Definition is_production_ready (self : DfimConfigV1) : bool :=
  (self.(magic) =? DFIM_CONFIG_MAGIC)
  && (self.(schema_version) =? DFIM_CONFIG_SCHEMA_V1)
  && (self.(struct_size) =? as_u32 DfimConfigV1_size)
  && (self.(deployment_profile) =? DFIM_PROFILE_PROTECTED_SCOPE)
  && negb (self.(c_policy_generation) =? 0)
  && negb (Z.land self.(flags) DFIM_CONFIG_FLAG_ENFORCEMENT_READY =? 0)
  && (self.(c_reserved) =? 0).
End DfimConfig.

Record ScopeKey := { device_id : Z; inode : Z }.

#[export] Instance ScopeKey_eq_dec : EqDecision ScopeKey.
Proof. solve_decision. Defined.

#[export] Instance ScopeKey_countable : Countable ScopeKey.
Proof.
  refine (inj_countable' (fun k => (k.(device_id), k.(inode)))
                         (fun '(d, i) => {| device_id := d; inode := i |}) _).
  by intros [].
Defined.

Record ScopeEntryV1 := {
  s_policy_generation : Z;
  state : Z;
  s_reserved : Z;
  expected_merkle_root : list byte
}.

Module ScopeEntry.
Definition pending (policy_generation : Z) (root : list byte) : ScopeEntryV1 :=
  {| s_policy_generation := policy_generation; state := DFIM_SCOPE_PENDING; s_reserved := 0;
     expected_merkle_root := root |}.

Definition active (policy_generation : Z) (root : list byte) : ScopeEntryV1 :=
  {| s_policy_generation := policy_generation; state := DFIM_SCOPE_ACTIVE; s_reserved := 0;
     expected_merkle_root := root |}.
End ScopeEntry.

Inductive EnforcementDecision :=
| AllowUnprotected | AllowPendingEnrollment | AllowProtectedToIma
| DenyInvalidScope | DenyInvalidConfig | DenyStaleGeneration.

#[export] Instance EnforcementDecision_eq_dec : EqDecision EnforcementDecision.
Proof. solve_decision. Defined.

(** [decision as u32] *)
Definition decision_code (d : EnforcementDecision) : Z :=
  match d with
  | AllowUnprotected => 0
  | AllowPendingEnrollment => 1
  | AllowProtectedToIma => 2
  | DenyInvalidScope => 3
  | DenyInvalidConfig => 4
  | DenyStaleGeneration => 5
  end.

Record DenyEventV1 := {
  e_device_id : Z;
  e_inode : Z;
  reason : Z;
  e_policy_generation : Z
}.

(** [DenyEventV1::from_decision] *)
Definition from_decision (device inode : Z) (decision : EnforcementDecision) (policy_generation : Z) : DenyEventV1 :=
  {| e_device_id := device; e_inode := inode; reason := decision_code decision;
     e_policy_generation := policy_generation |}.

Definition evaluate_enforcement (scope : option ScopeEntryV1) (config : option DfimConfigV1) :
    EnforcementDecision :=
  match scope with
  | None => AllowUnprotected
  | Some scope =>
      if negb (scope.(s_reserved) =? 0) || (scope.(s_policy_generation) =? 0) then DenyInvalidScope
      else if scope.(state) =? DFIM_SCOPE_PENDING then AllowPendingEnrollment
      else if negb (scope.(state) =? DFIM_SCOPE_ACTIVE) then DenyInvalidScope
      else match config with
           | None => DenyInvalidConfig
           | Some config =>
               if negb (DfimConfig.is_production_ready config) then DenyInvalidConfig
               else if negb (config.(c_policy_generation) =? scope.(s_policy_generation))
               then DenyStaleGeneration
               else AllowProtectedToIma
           end
  end.

(** ** The probe *)

(** [bpf_probe_read_kernel] at the three types it is used at, and the offsets of
    [vmlinux_offsets.rs]. *)
Record KernelMemory := {
  read_ptr : Z -> option Z;
  read_u64 : Z -> option Z;
  read_u32 : Z -> option Z
}.

Record Offsets := {
  LINUX_BINPRM_FILE : Z;
  FILE_F_INODE : Z;
  INODE_I_INO : Z;
  INODE_I_SB : Z;
  SUPER_BLOCK_S_DEV : Z
}.

(** The macro [bpf_core_read_at!] *)
Definition bpf_core_read_at (read : Z -> option Z) (base offset : Z) : option Z :=
  if base =? 0 then None else read (base + offset).

Definition scope_key_from_file (mem : KernelMemory) (off : Offsets) (file : Z) : option ScopeKey :=
  inode_ptr ← bpf_core_read_at mem.(read_ptr) file off.(FILE_F_INODE);
  if inode_ptr =? 0 then None
  else
    inode_number ← bpf_core_read_at mem.(read_u64) inode_ptr off.(INODE_I_INO);
    super_block ← bpf_core_read_at mem.(read_ptr) inode_ptr off.(INODE_I_SB);
    if super_block =? 0 then None
    else
      device ← bpf_core_read_at mem.(read_u32) super_block off.(SUPER_BLOCK_S_DEV);
      Some {| device_id := device; inode := inode_number |}.

Definition scope_key_from_bprm (mem : KernelMemory) (off : Offsets) (bprm : Z) : option ScopeKey :=
  file ← bpf_core_read_at mem.(read_ptr) bprm off.(LINUX_BINPRM_FILE);
  scope_key_from_file mem off file.

Definition DFIM_DENY : Z := -1.

(** The three maps.  [DFIM_CONFIG] is an array of one slot, which exists, zeroed, from
    the start. *)
Record Maps := {
  DFIM_SCOPE : gmap ScopeKey ScopeEntryV1;
  DFIM_CONFIG : list DfimConfigV1;
  DFIM_DENY_EVENTS : list DenyEventV1
}.

Definition set_events (m : Maps) (evs : list DenyEventV1) : Maps :=
  {| DFIM_SCOPE := m.(DFIM_SCOPE); DFIM_CONFIG := m.(DFIM_CONFIG); DFIM_DENY_EVENTS := evs |}.

Section probe.
(** Whether [RingBuf::reserve] finds room. *)
Context (reserve : list DenyEventV1 -> bool).

Definition record_deny_event (key : ScopeKey) (scope : option ScopeEntryV1) (config : option DfimConfigV1)
    (decision : EnforcementDecision) (maps : Maps) : Maps :=
  let generation := default 0 (match s_policy_generation <$> scope with
                               | Some g => Some g
                               | None => c_policy_generation <$> config
                               end) in
  let event := from_decision key.(device_id) key.(inode) decision generation in
  if reserve maps.(DFIM_DENY_EVENTS) then set_events maps (maps.(DFIM_DENY_EVENTS) ++ [event]) else maps.

(** [Result<i32, i32>] and the maps after the call *)
Definition enforce_dfim_policy (key : ScopeKey) (maps : Maps) : (Z + Z) * Maps :=
  let scope := maps.(DFIM_SCOPE) !! key in
  let config := maps.(DFIM_CONFIG) !! 0%nat in
  match evaluate_enforcement scope config with
  | AllowUnprotected | AllowPendingEnrollment | AllowProtectedToIma => (inl 0, maps)
  | decision => (inr DFIM_DENY, record_deny_event key scope config decision maps)
  end.

Definition try_bprm_check_security (mem : KernelMemory) (off : Offsets) (bprm : Z) (maps : Maps) : (Z + Z) * Maps :=
  match scope_key_from_bprm mem off bprm with
  | Some key => enforce_dfim_policy key maps
  | None => (inl 0, maps)
  end.

Definition try_kernel_module_from_file (mem : KernelMemory) (off : Offsets) (file : Z) (maps : Maps) : (Z + Z) * Maps :=
  match scope_key_from_file mem off file with
  | Some key => enforce_dfim_policy key maps
  | None => (inl 0, maps)
  end.

(** [match ... { Ok(code) => code, Err(code) => code }] *)
Definition code_of (r : (Z + Z) * Maps) : Z * Maps :=
  match r with (inl code, maps) | (inr code, maps) => (code, maps) end.

Definition bprm_check_security (mem : KernelMemory) (off : Offsets) (bprm : Z) (maps : Maps) : Z * Maps :=
  code_of (try_bprm_check_security mem off bprm maps).

Definition kernel_module_from_file (mem : KernelMemory) (off : Offsets) (file : Z) (maps : Maps) : Z * Maps :=
  code_of (try_kernel_module_from_file mem off file maps).

(** ** The policy, declaratively *)

(** A configuration the probe trusts for generation [g]: the production one, with any
    further flags. *)
Definition ready_for (g : Z) (c : DfimConfigV1) : Prop :=
  exists fl, Z.testbit fl 0 = true /\
    c = {| magic := DFIM_CONFIG_MAGIC; schema_version := 1; struct_size := 32; deployment_profile := 1;
           c_policy_generation := g; flags := fl; c_reserved := 0 |}.

(** Who passes: unregistered objects, pending ones, and committed ones whose
    configuration is ready for their own generation. *)
Inductive admitted (maps : Maps) (key : ScopeKey) : Prop :=
| admit_unprotected : maps.(DFIM_SCOPE) !! key = None -> admitted maps key
| admit_pending e : maps.(DFIM_SCOPE) !! key = Some e -> e.(s_reserved) = 0 -> e.(s_policy_generation) <> 0 ->
    e.(state) = DFIM_SCOPE_PENDING -> admitted maps key
| admit_active e c : maps.(DFIM_SCOPE) !! key = Some e -> e.(s_reserved) = 0 -> e.(s_policy_generation) <> 0 ->
    e.(state) = DFIM_SCOPE_ACTIVE -> maps.(DFIM_CONFIG) !! 0%nat = Some c ->
    ready_for e.(s_policy_generation) c -> admitted maps key.

Lemma land_1_testbit z : (Z.land z 1 =? 0) = negb (Z.testbit z 0).
Proof.
  change 1 with (Z.ones 1). rewrite Z.land_ones, Z.bit0_odd, Zmod_odd by lia. by destruct (Z.odd z).
Qed.

Lemma ready_spec c g : g <> 0 ->
  DfimConfig.is_production_ready c = true /\ c.(c_policy_generation) = g <-> ready_for g c.
Proof.
  intros Hg. unfold DfimConfig.is_production_ready, ready_for, DFIM_CONFIG_FLAG_ENFORCEMENT_READY.
  rewrite !andb_true_iff, !Z.eqb_eq, !negb_true_iff, Z.eqb_neq, land_1_testbit, negb_false_iff.
  split.
  - intros [((((((H1 & H2) & H3) & H4) & H5) & H6) & H7) Hgen]. exists (flags c). split; [done|].
    destruct c; cbn in *. by subst.
  - intros (fl & Hfl & ->). cbn. by split_and!.
Qed.

Lemma production_ready g : g <> 0 -> DfimConfig.is_production_ready (DfimConfig.production g) = true.
Proof. intros Hg. apply (ready_spec (DfimConfig.production g) g Hg). by exists 1. Qed.

Lemma evaluate_cases maps key :
  let scope := maps.(DFIM_SCOPE) !! key in
  let config := maps.(DFIM_CONFIG) !! 0%nat in
  let d := evaluate_enforcement scope config in
  (admitted maps key /\ decision_code d <= 2) \/ (~ admitted maps key /\ 3 <= decision_code d <= 5).
Proof.
  cbv zeta. unfold evaluate_enforcement. destruct (DFIM_SCOPE maps !! key) as [e|] eqn:He.
  2: { left. split; [by apply admit_unprotected|done]. }
  assert (Hdeny : (forall c, state e = DFIM_SCOPE_ACTIVE -> DFIM_CONFIG maps !! 0%nat = Some c ->
      ready_for (s_policy_generation e) c -> False) ->
    (s_reserved e = 0 -> s_policy_generation e <> 0 -> state e = DFIM_SCOPE_PENDING -> False) -> ~ admitted maps key).
  { intros Hact Hpend [Hn|e' He' Hr' Hg' Hs'|e' c He' Hr' Hg' Hs' Hc' Hrd]; [congruence|..];
      rewrite He in He'; injection He' as <-; eauto. }
  destruct (Z.eqb_spec (s_reserved e) 0) as [Hr|Hr].
  2: { right. split; [|done]. intros [Hn|e' He' Hr'|e' c He' Hr']; congruence. }
  destruct (Z.eqb_spec (s_policy_generation e) 0) as [Hg|Hg].
  { right. split; [|done]. intros [Hn|e' He' _ Hg'|e' c He' _ Hg']; congruence. }
  cbn [negb orb]. destruct (Z.eqb_spec (state e) DFIM_SCOPE_PENDING) as [Hs|Hs].
  { left. split; [by eapply admit_pending|done]. }
  destruct (Z.eqb_spec (state e) DFIM_SCOPE_ACTIVE) as [Ha|Ha]; cbn [negb].
  2: { right. split; [|done]. apply Hdeny; by intros. }
  destruct (DFIM_CONFIG maps !! 0%nat) as [c|] eqn:Hc.
  2: { right. split; [|done]. apply Hdeny; by intros. }
  pose proof (ready_spec c _ Hg) as Hrd. destruct (DfimConfig.is_production_ready c); cbn [negb].
  2: { right. split; [|done]. apply Hdeny; [|by intros]. intros c' _ [= <-] Hc'. by apply Hrd in Hc' as [? _]. }
  destruct (Z.eqb_spec (c_policy_generation c) (s_policy_generation e)) as [Hcg|Hcg]; cbn [negb].
  - left. split; [|done]. eapply admit_active; eauto. by apply Hrd.
  - right. split; [|done]. apply Hdeny; [|by intros]. intros c' _ [= <-] Hc'. by apply Hrd in Hc' as [_ ?].
Qed.

(** The report of a refusal. *)
Definition denial (maps : Maps) (key : ScopeKey) (ev : DenyEventV1) : Prop :=
  ev.(e_device_id) = key.(device_id) /\ ev.(e_inode) = key.(inode) /\
  3 <= ev.(reason) <= 5 /\
  exists e, maps.(DFIM_SCOPE) !! key = Some e /\ ev.(e_policy_generation) = e.(s_policy_generation).

Lemma enforce_spec maps key code maps' : code_of (enforce_dfim_policy key maps) = (code, maps') ->
  maps'.(DFIM_SCOPE) = maps.(DFIM_SCOPE) /\ maps'.(DFIM_CONFIG) = maps.(DFIM_CONFIG) /\
  ((admitted maps key /\ code = 0 /\ maps' = maps) \/
   (~ admitted maps key /\ code = DFIM_DENY /\
    exists ev, denial maps key ev /\
      maps' = if reserve maps.(DFIM_DENY_EVENTS) then set_events maps (maps.(DFIM_DENY_EVENTS) ++ [ev]) else maps)).
Proof.
  unfold enforce_dfim_policy. pose proof (evaluate_cases maps key) as Hev. cbv zeta in Hev. intros Heq.
  set (d := evaluate_enforcement _ _) in *.
  destruct Hev as [[Ha Hd]|[Hn Hd]].
  - assert (Heq' : (0, maps) = (code, maps')) by (destruct d; cbn in Hd; try lia; exact Heq).
    injection Heq' as <- <-. split_and!; [done|done|by left].
  - assert (Heq' : (DFIM_DENY, record_deny_event key (DFIM_SCOPE maps !! key) (DFIM_CONFIG maps !! 0%nat) d maps) =
      (code, maps')) by (destruct d; cbn in Hd; try lia; exact Heq).
    injection Heq' as <- <-. destruct (DFIM_SCOPE maps !! key) as [e|] eqn:He.
    2: { destruct Hn. by apply admit_unprotected. }
    unfold record_deny_event. cbn [fmap option_fmap option_map default].
    split_and!; [by destruct (reserve _)|by destruct (reserve _)|]. right. split_and!; [done|done|].
    exists (from_decision (device_id key) (inode key) d (s_policy_generation e)). split; [|done].
    unfold denial, from_decision. cbn [e_device_id e_inode reason e_policy_generation]. split_and!; [done|done|lia|lia|by exists e].
Qed.

(** The object a hook is asked about: [None] where kernel memory does not yield a
    device and an inode. *)
Inductive Hook := BprmCheck (bprm : Z) | ModuleFromFile (file : Z).

Definition hook_key (mem : KernelMemory) (off : Offsets) (h : Hook) : option ScopeKey :=
  match h with
  | BprmCheck bprm => scope_key_from_bprm mem off bprm
  | ModuleFromFile file => scope_key_from_file mem off file
  end.

Definition run_hook (mem : KernelMemory) (off : Offsets) (h : Hook) (maps : Maps) : Z * Maps :=
  match h with
  | BprmCheck bprm => bprm_check_security mem off bprm maps
  | ModuleFromFile file => kernel_module_from_file mem off file maps
  end.

(** C9: the LSM hooks enforce the policy exactly.  A hook never changes the scope or
    the configuration map.  It returns 0 and changes nothing when the object has no
    readable key or is admitted (not enrolled, pending, or committed under a production
    configuration of the same generation); in every other case it returns -1, and if
    the ring buffer has room appends one event that carries the object's device and
    inode, a denial reason and the entry's generation. *)
Theorem hooks_enforce_policy mem off h maps code maps' : run_hook mem off h maps = (code, maps') ->
  maps'.(DFIM_SCOPE) = maps.(DFIM_SCOPE) /\ maps'.(DFIM_CONFIG) = maps.(DFIM_CONFIG) /\
  match hook_key mem off h with
  | None => code = 0 /\ maps' = maps
  | Some key =>
      (admitted maps key /\ code = 0 /\ maps' = maps) \/
      (~ admitted maps key /\ code = DFIM_DENY /\
       exists ev, denial maps key ev /\
         maps' = if reserve maps.(DFIM_DENY_EVENTS) then set_events maps (maps.(DFIM_DENY_EVENTS) ++ [ev]) else maps)
  end.
Proof.
  destruct h as [bprm|file]; cbn [run_hook hook_key].
  - unfold bprm_check_security, try_bprm_check_security.
    destruct (scope_key_from_bprm mem off bprm) as [key|]; [apply enforce_spec|by intros [= <- <-]].
  - unfold kernel_module_from_file, try_kernel_module_from_file.
    destruct (scope_key_from_file mem off file) as [key|]; [apply enforce_spec|by intros [= <- <-]].
Qed.
End probe.

Module EnforcementWitness.
(** A kernel object graph: binprm at 0x1000, file at 0x2000, inode at 0x3000, super
    block at 0x4000. *)
Definition off : Offsets := {| LINUX_BINPRM_FILE := 0x40; FILE_F_INODE := 0x20; INODE_I_INO := 0x40;
                               INODE_I_SB := 0x28; SUPER_BLOCK_S_DEV := 0x10 |}.
Definition mem : KernelMemory := {|
  read_ptr a := if a =? 0x1040 then Some 0x2000 else if a =? 0x2020 then Some 0x3000
                else if a =? 0x3028 then Some 0x4000 else None;
  read_u64 a := if a =? 0x3040 then Some 131 else None;
  read_u32 a := if a =? 0x4010 then Some 0x800001 else None
|}.
Definition key : ScopeKey := {| device_id := 0x800001; inode := 131 |}.
Definition maps : Maps := {|
  DFIM_SCOPE := {[ key := ScopeEntry.active 8 (array xab 32) ]};
  DFIM_CONFIG := [DfimConfig.production 7];
  DFIM_DENY_EVENTS := []
|}.

(** A stale configuration: the execution is refused and reported. *)
Lemma hooks_enforce_policy_witness :
  let maps' := set_events maps [from_decision 0x800001 131 DenyStaleGeneration 8] in
  hook_key mem off (BprmCheck 0x1000) = Some key /\
  maps'.(DFIM_SCOPE) = maps.(DFIM_SCOPE) /\ maps'.(DFIM_CONFIG) = maps.(DFIM_CONFIG) /\
  match hook_key mem off (BprmCheck 0x1000) with
  | None => DFIM_DENY = 0 /\ maps' = maps
  | Some key =>
      (admitted maps key /\ DFIM_DENY = 0 /\ maps' = maps) \/
      (~ admitted maps key /\ DFIM_DENY = DFIM_DENY /\
       exists ev, denial maps key ev /\ maps' = set_events maps (maps.(DFIM_DENY_EVENTS) ++ [ev]))
  end.
Proof. split; [done|]. apply (hooks_enforce_policy (fun _ => true) mem off (BprmCheck 0x1000)). by vm_compute. Defined.
End EnforcementWitness.
