(* ===== verification/Json.v ===== *)
(** * Json: text building blocks and a reference reader

    The three JSON writers of the program ([telemetry_sink.rs], [cli_output.rs] and
    [siem_sink.rs]) build one-line objects by pushing text.  This file models the
    pieces they share (hexadecimal, decimal, escaping) and defines a reader for flat
    JSON objects as the specification of their output.  Text is the list of its UTF-8
    bytes: the characters that the escapers treat specially are ASCII, and the bytes of
    every other character pass through unchanged. *)

From stdpp Require Import base list numbers option strings.
From Stdlib Require Import ZArith Lia Strings.Byte.
From S2P Require Import Prelude Core.

(** A text literal. *)
Abbreviation txt := bytes_of_string.

(** The double quote, which string literals here cannot hold. *)
Definition QUOTE : byte := x22.
Definition BACKSLASH : byte := x5c.

(** [HEX[n]] for a nibble *)
Definition hex_digit (n : Z) : byte := nth (Z.to_nat n) HEX x00.

(** The local [hex_encode] that each of the three writers defines *)
Definition hex_encode (bytes : list byte) : list byte :=
  concat (map (fun b => [hex_digit (Z.shiftr (b2z b) 4); hex_digit (Z.land (b2z b) 0x0f)]) bytes).

(** [to_string] of an unsigned integer: decimal digits, no leading zero.  39 digits
    hold every [u128]. *)
Fixpoint dec_loop (fuel : nat) (n : Z) : list byte :=
  match fuel with
  | O => []
  | S fuel =>
      if n <? 10 then [z2b (0x30 + n)]
      else dec_loop fuel (n / 10) ++ [z2b (0x30 + n mod 10)]
  end.

Definition to_string (n : Z) : list byte := dec_loop 39 n.

(** The control-character arm of the escapers: [\u00] and two digits *)
Definition escape_control (c : byte) : list byte :=
  [BACKSLASH; x75; x30; x30; hex_digit (Z.shiftr (b2z c) 4); hex_digit (Z.land (b2z c) 0x0f)].

(** [json_escape] of [cli_output.rs] and [siem_sink.rs], one character *)
Definition escape_char (c : byte) : list byte :=
  match c with
  | x22 => [BACKSLASH; QUOTE]
  | x5c => [BACKSLASH; BACKSLASH]
  | x0a => [BACKSLASH; x6e]
  | x0d => [BACKSLASH; x72]
  | x09 => [BACKSLASH; x74]
  | _ => if b2z c <=? 0x1f then escape_control c else [c]
  end.

Definition json_escape (value : list byte) : list byte := concat (map escape_char value).

(** [json_escape] of [telemetry_sink.rs] knows two more short forms. *)
Definition escape_char_bf (c : byte) : list byte :=
  match c with
  | x08 => [BACKSLASH; x62]
  | x0c => [BACKSLASH; x66]
  | _ => escape_char c
  end.

Definition json_escape_bf (value : list byte) : list byte := concat (map escape_char_bf value).

(** ** The reference reader *)

Inductive Json := JStr (s : list byte) | JNum (n : Z) | JBool (b : bool).

Definition is_digit (c : byte) : bool := (0x30 <=? b2z c) && (b2z c <=? 0x39).

Definition hex_value (c : byte) : option Z :=
  let v := b2z c in
  if (0x30 <=? v) && (v <=? 0x39) then Some (v - 0x30)
  else if (0x61 <=? v) && (v <=? 0x66) then Some (v - 0x57)
  else if (0x41 <=? v) && (v <=? 0x46) then Some (v - 0x37)
  else None.

(** Escapes of one letter. *)
Definition short_escape (c : byte) : option byte :=
  match c with
  | x22 => Some x22 | x5c => Some x5c | x2f => Some x2f
  | x62 => Some x08 | x66 => Some x0c | x6e => Some x0a | x72 => Some x0d | x74 => Some x09
  | _ => None
  end.

Definition push_front {A B} (a : A) (r : option (list A * B)) : option (list A * B) :=
  match r with Some (l, b) => Some (a :: l, b) | None => None end.

(** The text of a string up to its closing quote, and what follows.  [\u] escapes are
    read up to U+007F, the code points of one byte. *)
Fixpoint read_string (l : list byte) : option (list byte * list byte) :=
  match l with
  | [] => None
  | x22 :: l => Some ([], l)
  | x5c :: x75 :: a :: b :: c :: d :: l =>
      match hex_value a, hex_value b, hex_value c, hex_value d with
      | Some 0, Some 0, Some c, Some d =>
          if c <? 8 then push_front (z2b (16 * c + d)) (read_string l) else None
      | _, _, _, _ => None
      end
  | x5c :: e :: l =>
      match short_escape e with
      | Some c => push_front c (read_string l)
      | None => None
      end
  | c :: l => if b2z c <=? 0x1f then None else push_front c (read_string l)
  end.

Fixpoint read_digits (acc : Z) (l : list byte) : Z * list byte :=
  match l with
  | c :: l' => if is_digit c then read_digits (10 * acc + (b2z c - 0x30)) l' else (acc, l)
  | [] => (acc, [])
  end.

Definition read_value (l : list byte) : option (Json * list byte) :=
  match l with
  | x22 :: l => '(s, r) ← read_string l; Some (JStr s, r)
  | x74 :: x72 :: x75 :: x65 :: l => Some (JBool true, l)
  | x66 :: x61 :: x6c :: x73 :: x65 :: l => Some (JBool false, l)
  | c :: _ => if is_digit c then let '(n, r) := read_digits 0 l in Some (JNum n, r) else None
  | [] => None
  end.

(** The members of an object, after the opening brace or a comma. *)
Fixpoint read_members (fuel : nat) (l : list byte) : option (list (list byte * Json) * list byte) :=
  match fuel with
  | O => None
  | S fuel =>
      match l with
      | x22 :: l =>
          '(k, l) ← read_string l;
          match l with
          | x3a :: l =>
              '(v, l) ← read_value l;
              match l with
              | x2c :: l => push_front (k, v) (read_members fuel l)
              | x7d :: l => Some ([(k, v)], l)
              | _ => None
              end
          | _ => None
          end
      | _ => None
      end
  end.

(** A line that holds exactly one object. *)
Definition read_line (l : list byte) : option (list (list byte * Json)) :=
  match l with
  | x7b :: l' =>
      match read_members (length l) l' with
      | Some (ms, [x0a]) => Some ms
      | _ => None
      end
  | _ => None
  end.

(** ** Printing a field list, as the writers do *)

(** Text that needs no escaping. *)
Definition plain (s : list byte) : bool := forallb (fun c => bytes_eqb (escape_char c) [c]) s.

Section printing.
(** The escaping function of the writer. *)
Context (esc : list byte -> list byte).

Definition print_value (v : Json) : list byte :=
  match v with
  | JStr s => QUOTE :: esc s ++ [QUOTE]
  | JNum n => to_string n
  | JBool true => txt "true"
  | JBool false => txt "false"
  end.

Definition print_member (m : list byte * Json) : list byte :=
  QUOTE :: fst m ++ QUOTE :: x3a :: print_value (snd m).

Fixpoint print_members (ms : list (list byte * Json)) : list byte :=
  match ms with
  | [] => []
  | [m] => print_member m
  | m :: ms => print_member m ++ x2c :: print_members ms
  end.

Definition print_line (ms : list (list byte * Json)) : list byte :=
  x7b :: print_members ms ++ [x7d; x0a].
End printing.

(** What a writer can print: plain keys, numbers of at most 39 digits. *)
Definition member_wf (m : list byte * Json) : Prop :=
  plain (fst m) = true /\ match snd m with JNum n => 0 <= n < 10 ^ 39 | _ => True end.

(** ** Reading back *)

Lemma read_escape_char c l : read_string (escape_char c ++ l) = push_front c (read_string l).
Proof. by destruct c. Qed.

Lemma read_escape_char_bf c l : read_string (escape_char_bf c ++ l) = push_front c (read_string l).
Proof. by destruct c. Qed.

(** Any per-character encoding that the reader inverts is inverted on whole strings. *)
Lemma read_concat (enc : byte -> list byte) s r :
  (forall c l, read_string (enc c ++ l) = push_front c (read_string l)) ->
  read_string (concat (map enc s) ++ QUOTE :: r) = Some (s, r).
Proof.
  intros Henc. induction s as [|c s IH]; [done|]. cbn [map concat].
  by rewrite <- app_assoc, Henc, IH.
Qed.

Lemma read_escape s r : read_string (json_escape s ++ QUOTE :: r) = Some (s, r).
Proof. apply (read_concat escape_char), read_escape_char. Qed.

Lemma read_escape_bf s r : read_string (json_escape_bf s ++ QUOTE :: r) = Some (s, r).
Proof. apply (read_concat escape_char_bf), read_escape_char_bf. Qed.

Lemma plain_escape s : plain s = true -> json_escape s = s.
Proof.
  unfold plain, json_escape. induction s as [|c s IH]; cbn [forallb map concat]; [done|].
  rewrite andb_true_iff, bytes_eqb_eq. intros [-> Hs]. by rewrite (IH Hs).
Qed.

Lemma read_plain s r : plain s = true -> read_string (s ++ QUOTE :: r) = Some (s, r).
Proof. intros Hs. rewrite <- (plain_escape s Hs) at 1. apply read_escape. Qed.

Lemma digit_facts n : 0 <= n < 10 -> is_digit (z2b (0x30 + n)) = true /\ b2z (z2b (0x30 + n)) - 0x30 = n.
Proof.
  intros Hn. assert (Hb : b2z (z2b (0x30 + n)) = 0x30 + n) by (rewrite b2z_z2b; apply Z.mod_small; lia).
  unfold is_digit. rewrite Hb, (proj2 (Z.leb_le 0x30 _)), (proj2 (Z.leb_le _ 0x39)) by lia. split; [done|lia].
Qed.

Lemma read_digits_app fuel : forall n acc r, 0 <= n < 10 ^ Z.of_nat fuel ->
  exists k, 0 <= k /\ read_digits acc (dec_loop fuel n ++ r) = read_digits (10 ^ k * acc + n) r.
Proof.
  induction fuel as [|fuel IH]; intros n acc r Hn.
  { exists 0. assert (n = 0) as -> by lia. cbn [dec_loop app]. split; [done|f_equal; lia]. }
  rewrite Nat2Z.inj_succ, Z.pow_succ_r in Hn by lia. cbn [dec_loop].
  destruct (Z.ltb_spec n 10).
  - exists 1. destruct (digit_facts n) as [Hd Hv]; [lia|]. cbn [app read_digits]. rewrite Hd, Hv.
    split; [done|f_equal; lia].
  - destruct (IH (n / 10) acc ([z2b (0x30 + n mod 10)] ++ r)) as (k & Hk & Hr);
      [Z.to_euclidean_division_equations; lia|].
    exists (k + 1). rewrite <- app_assoc, Hr. destruct (digit_facts (n mod 10)) as [Hd Hv];
      [Z.to_euclidean_division_equations; lia|]. cbn [app read_digits]. rewrite Hd, Hv.
    split; [lia|]. f_equal. rewrite Z.pow_add_r by lia.
    pose proof (Z.div_mod n 10 ltac:(lia)). change (10 ^ 1) with 10. lia.
Qed.

Definition stops_number (r : list byte) : bool :=
  match r with c :: _ => negb (is_digit c) | [] => true end.

Lemma read_to_string n r : 0 <= n < 10 ^ 39 -> stops_number r = true ->
  read_digits 0 (to_string n ++ r) = (n, r).
Proof.
  intros Hn Hr. unfold to_string. destruct (read_digits_app 39 n 0 r) as (k & _ & ->); [done|].
  rewrite Z.mul_0_r, Z.add_0_l. destruct r as [|c r]; [done|]. cbn [read_digits stops_number] in *.
  by destruct (is_digit c).
Qed.

(** The first byte of a decimal number is a digit. *)
Lemma dec_loop_head fuel n : 0 <= n < 10 ^ Z.of_nat fuel -> (1 <= fuel)%nat ->
  exists c l, dec_loop fuel n = c :: l /\ is_digit c = true.
Proof.
  revert n. induction fuel as [|fuel IH]; intros n Hn Hf; [lia|]. cbn [dec_loop].
  rewrite Nat2Z.inj_succ, Z.pow_succ_r in Hn by lia. destruct (Z.ltb_spec n 10).
  - destruct (digit_facts n) as [Hd _]; [lia|]. by eexists _, [].
  - destruct fuel as [|fuel]; [cbn in Hn; lia|].
    destruct (IH (n / 10)) as (c & l & -> & Hc); [Z.to_euclidean_division_equations; lia|lia|]. by eexists _, _.
Qed.

Section reading.
Context (esc : list byte -> list byte).
Context (Hesc : forall s r, read_string (esc s ++ QUOTE :: r) = Some (s, r)).

Lemma read_print_value v r : stops_number r = true -> match v with JNum n => 0 <= n < 10 ^ 39 | _ => True end ->
  read_value (print_value esc v ++ r) = Some (v, r).
Proof.
  intros Hr Hv. destruct v as [s|n|[]]; [| |done..].
  - cbn [print_value]. unfold QUOTE at 1. cbn [app read_value]. rewrite <- app_assoc. cbn [app].
    by rewrite Hesc.
  - cbn [print_value]. destruct (dec_loop_head 39 n Hv) as (c & l & Hc & Hd); [lia|].
    pose proof (read_to_string n r Hv Hr) as Hrd. unfold to_string in *. rewrite Hc in *. cbn [app] in *.
    assert (Hq : is_digit c = true -> read_value (c :: l ++ r) =
      let '(n, r0) := read_digits 0 (c :: l ++ r) in Some (JNum n, r0)) by (by destruct c).
    rewrite (Hq Hd). by rewrite Hrd.
Qed.

Lemma read_print_members ms r fuel : ms <> [] -> Forall member_wf ms -> (length ms <= fuel)%nat ->
  read_members fuel (print_members esc ms ++ x7d :: r) = Some (ms, r).
Proof.
  revert fuel. induction ms as [|m ms IH]; intros fuel Hne Hwf Hf; [done|].
  apply Forall_cons in Hwf as [[Hk Hv] Hwf]. destruct fuel as [|fuel]; [cbn in Hf; lia|].
  destruct m as [key v]. cbn [fst snd] in *. destruct ms as [|m' ms].
  - cbn [print_members]. unfold print_member. cbn [fst snd app]. unfold QUOTE at 1. cbn [read_members].
    rewrite <- app_assoc. cbn [app]. rewrite read_plain by done. cbn [mbind option_bind].
    by rewrite read_print_value.
  - change (print_members esc ((key, v) :: m' :: ms)) with (print_member esc (key, v) ++ x2c :: print_members esc (m' :: ms)).
    unfold print_member. cbn [fst snd app]. unfold QUOTE at 1. cbn [read_members].
    rewrite <- !app_assoc. cbn [app]. rewrite read_plain by done. cbn [mbind option_bind].
    rewrite read_print_value by done. cbn [mbind option_bind app].
    rewrite IH; [done..|cbn in *; lia].
Qed.

(** A printed line reads back as its fields. *)
Lemma read_print_line ms : ms <> [] -> Forall member_wf ms -> read_line (print_line esc ms) = Some ms.
Proof.
  intros Hne Hwf. unfold print_line, read_line. rewrite read_print_members; [done|done|done|].
  assert (Hl : (length ms <= length (print_members esc ms))%nat).
  { clear Hne Hwf. induction ms as [|m [|m' ms] IH]; [done|cbn; lia|].
    change (print_members esc (m :: m' :: ms)) with (print_member esc m ++ x2c :: print_members esc (m' :: ms)).
    rewrite length_app. cbn [length] in *. lia. }
  cbn [length]. rewrite length_app. lia.
Qed.

End reading.

(** Hexadecimal text is plain. *)
Lemma plain_hex bytes : plain (hex_encode bytes) = true.
Proof.
  unfold plain. induction bytes as [|b bytes IH]; [done|]. unfold hex_encode in *. cbn [map concat].
  rewrite forallb_app, IH, andb_true_r. by destruct b.
Qed.

Lemma plain_escape_bf s : plain s = true -> json_escape_bf s = s.
Proof.
  unfold plain, json_escape_bf. induction s as [|c s IH]; cbn [forallb map concat]; [done|].
  rewrite andb_true_iff, bytes_eqb_eq. intros [Hc Hs]. rewrite (IH Hs). by destruct c.
Qed.

(** ** One record per line *)

Definition no_newline (s : list byte) : bool := forallb (fun c => negb (bytes_eqb [c] [x0a])) s.

Lemma no_newline_app s t : no_newline (s ++ t) = no_newline s && no_newline t.
Proof. apply forallb_app. Qed.

Lemma no_newline_concat (enc : byte -> list byte) s :
  (forall c, no_newline (enc c) = true) -> no_newline (concat (map enc s)) = true.
Proof.
  intros Henc. induction s as [|c s IH]; [done|]. cbn [map concat]. by rewrite no_newline_app, Henc, IH.
Qed.

Lemma no_newline_escape s : no_newline (json_escape s) = true.
Proof. apply no_newline_concat. by intros []. Qed.

Lemma no_newline_escape_bf s : no_newline (json_escape_bf s) = true.
Proof. apply no_newline_concat. by intros []. Qed.

Lemma no_newline_plain s : plain s = true -> no_newline s = true.
Proof. intros Hs. rewrite <- (plain_escape s Hs). apply no_newline_escape. Qed.

Lemma no_newline_dec fuel n : 0 <= n -> no_newline (dec_loop fuel n) = true.
Proof.
  revert n. induction fuel as [|fuel IH]; intros n Hn; [done|]. cbn [dec_loop].
  assert (Hd : forall d, 0 <= d < 10 -> no_newline [z2b (0x30 + d)] = true).
  { intros d Hd. apply (range_forallb (fun d => no_newline [z2b (0x30 + d)]) 0 10); [by vm_compute|done]. }
  destruct (Z.ltb_spec n 10); [by apply Hd|].
  rewrite no_newline_app, IH, Hd by (Z.to_euclidean_division_equations; lia). done.
Qed.

Lemma no_newline_members esc ms : (forall s, no_newline (esc s) = true) -> Forall member_wf ms ->
  no_newline (print_members esc ms) = true.
Proof.
  intros Hesc. induction ms as [|[k v] ms IH]; [done|]. intros [[Hk Hv] Hwf]%Forall_cons. cbn [fst snd] in *.
  assert (Hm : no_newline (print_member esc (k, v)) = true).
  { assert (Hval : no_newline (print_value esc v) = true).
    { destruct v as [s|n|[]]; [|apply (no_newline_dec 39); lia|done..]. cbn [print_value].
      change (QUOTE :: esc s ++ ?t) with ([QUOTE] ++ esc s ++ t). by rewrite !no_newline_app, Hesc. }
    unfold print_member. cbn [fst snd]. change (QUOTE :: k ++ ?t) with ([QUOTE] ++ k ++ t).
    rewrite !no_newline_app, (no_newline_plain k Hk). change (QUOTE :: x3a :: ?t) with ([QUOTE; x3a] ++ t).
    by rewrite no_newline_app, Hval. }
  destruct ms as [|m' ms]; [done|].
  change (print_members esc ((k, v) :: m' :: ms)) with
    (print_member esc (k, v) ++ [x2c] ++ print_members esc (m' :: ms)).
  rewrite !no_newline_app, Hm. by apply IH.
Qed.

(** The lines of a file, each with its newline. *)
Fixpoint split_lines (acc l : list byte) : list (list byte) :=
  match l with
  | [] => match acc with [] => [] | _ => [acc] end
  | c :: l => if bytes_eqb [c] [x0a] then (acc ++ [c]) :: split_lines [] l else split_lines (acc ++ [c]) l
  end.

(** A log reads as the fields of its lines. *)
Definition read_log (file : list byte) : option (list (list (list byte * Json))) :=
  mapM read_line (split_lines [] file).

Lemma split_lines_app acc s l : no_newline s = true ->
  split_lines acc (s ++ x0a :: l) = (acc ++ s ++ [x0a]) :: split_lines [] l.
Proof.
  revert acc. induction s as [|c s IH]; intros acc Hs; [done|]. cbn [no_newline forallb] in Hs.
  apply andb_true_iff in Hs as [Hc Hs]. cbn [app split_lines]. apply negb_true_iff in Hc. rewrite Hc.
  rewrite IH by done. by rewrite <- !app_assoc.
Qed.

(** A log written by one writer reads back record by record. *)
Lemma read_log_lines {A} (fields : A -> list (list byte * Json)) esc es :
  (forall s, no_newline (esc s) = true) ->
  (forall s r, read_string (esc s ++ QUOTE :: r) = Some (s, r)) ->
  Forall (fun e => fields e <> [] /\ Forall member_wf (fields e)) es ->
  read_log (concat (map (fun e => print_line esc (fields e)) es)) = Some (map fields es).
Proof.
  intros Hnl Hesc. unfold read_log. induction es as [|e es IH]; [done|].
  intros [[Hne Hwf] Hes]%Forall_cons. cbn [map concat].
  assert (Hline : print_line esc (fields e) = (x7b :: print_members esc (fields e) ++ [x7d]) ++ [x0a]).
  { unfold print_line. cbn [app]. by rewrite <- app_assoc. }
  rewrite Hline, <- app_assoc. cbn [app].
  change (x7b :: ?s ++ x0a :: ?t) with ((x7b :: s) ++ x0a :: t).
  rewrite split_lines_app.
  - cbn [app]. change (x7b :: (?s ++ [x7d]) ++ [x0a]) with ((x7b :: s ++ [x7d]) ++ [x0a]).
    cbn [mapM]. rewrite <- Hline, read_print_line by done. cbn [mbind option_bind].
    specialize (IH Hes). cbn [mapM] in IH. by rewrite IH.
  - change (x7b :: ?s) with ([x7b] ++ s). rewrite !no_newline_app, no_newline_members by done. done.
Qed.
