(* ===== verification/Telemetry.v ===== *)
(** * Telemetry: the audit log, the command report and the SIEM deny log

    Models [dfim_cli_provisioner/src/telemetry_sink.rs] (Module [Audit]),
    [dfim_cli_provisioner/src/cli_output.rs] (Module [Report]) and
    [dfim_linux_kernel/dfim-ebpf-user/src/siem_sink.rs] (Module [Siem]).  The clock and
    the file system are parameters: a sink is a file with the results of opening,
    writing and synchronising it.

    The theorems show that what each writer emits is one line holding one JSON object
    with exactly the event's fields, so that a log stays readable record by record
    whatever the fields contain. *)

From stdpp Require Import base list numbers option strings.
From Stdlib Require Import ZArith Lia Strings.Byte.
From S2P Require Import Prelude Crypto Core Enforcement Json.

(** A Rust raw literal; the apostrophe stands for the double quote, as the sources'
    literals hold no apostrophe. *)
Definition raw (s : string) : list byte := map (fun c => match c with x27 => QUOTE | _ => c end) (txt s).

Definition opt_field {A} (o : option A) (f : A -> list byte) : list byte :=
  match o with Some a => f a | None => [] end.

Definition ASSET_HASH_DOMAIN : list byte := txt "dfim-asset-id-v1" ++ [x00].

(** What the operating system answers for one append: [OpenOptions::open], the bytes
    that [write_all] manages to write if it fails, and [sync_all]. *)
Record SinkResult := {
  opens : bool;
  short_write : option nat;
  syncs : bool
}.

Inductive SinkError := CannotOpen | CannotAppend | CannotSynchronize.

(** [append_event] on the bytes of the file, for a rendered line *)
Definition append_line (os : SinkResult) (line : list byte) : stm (list byte) SinkError unit := fun file =>
  if negb os.(opens) then (Err CannotOpen, file)
  else match os.(short_write) with
       | Some k => (Err CannotAppend, file ++ take k line)
       | None => if os.(syncs) then (Ok tt, file ++ line) else (Err CannotSynchronize, file ++ line)
       end.

(** [emit_configured]: nothing happens unless [DFIM_TELEMETRY_OUT] is set. *)
Definition emit_line (configured : bool) (os : SinkResult) (line : list byte) : stm (list byte) SinkError unit :=
  if configured then append_line os line else mret tt.

(** [asset_id] of the three writers, on the bytes of the path *)
Definition asset_id `{HashOps} (path : list byte) : list byte :=
  txt "sha256:" ++ hex_encode (sha256_digest_chunked [ASSET_HASH_DOMAIN; path]).

(** ** The audit log of the command line tool *)

Module Audit.
Definition SCHEMA_VERSION : Z := 1.

Inductive EventType := VerifyV1 | VerifyV2 | ProvisionV1 | ProvisionV2 | RecoveryV2.

Definition event_str (e : EventType) : list byte :=
  match e with
  | VerifyV1 => txt "verify_v1"
  | VerifyV2 => txt "verify_v2"
  | ProvisionV1 => txt "provision_v1"
  | ProvisionV2 => txt "provision_v2"
  | RecoveryV2 => txt "recovery_v2"
  end.

Inductive Outcome := Success | Failure.

Definition outcome_str (o : Outcome) : list byte :=
  match o with Success => txt "success" | Failure => txt "failure" end.

Definition severity (o : Outcome) : list byte :=
  match o with Success => txt "info" | Failure => txt "error" end.

Record TelemetryEvent := {
  event_type : EventType;
  outcome : Outcome;
  timestamp_unix_ms : Z;
  t_asset_id : list byte;
  release_counter : option Z;
  merkle_root : option (list byte);
  dry_run : bool
}.

Section events.
Context `{HashOps}.

(** [TelemetryEvent::security]; [now] is the clock, 0 before the epoch *)
Definition security (now : Z) (event_type : EventType) (outcome : Outcome) (asset_path : list byte)
    (release_counter : option Z) (merkle_root : option (list byte)) : TelemetryEvent :=
  {| event_type := event_type; outcome := outcome; timestamp_unix_ms := now;
     t_asset_id := asset_id asset_path; release_counter := release_counter; merkle_root := merkle_root;
     dry_run := false |}.

(** [TelemetryEvent::provision] *)
Definition provision (now : Z) (event_type : EventType) (outcome : Outcome) (asset_path : list byte)
    (release_counter : option Z) (merkle_root : option (list byte)) (dry_run : bool) : TelemetryEvent :=
  {| event_type := event_type; outcome := outcome; timestamp_unix_ms := now;
     t_asset_id := asset_id asset_path; release_counter := release_counter; merkle_root := merkle_root;
     dry_run := dry_run |}.
End events.

Definition to_json_line (self : TelemetryEvent) : list byte :=
  raw "{'schema_version':" ++ to_string SCHEMA_VERSION ++
  raw ",'event_type':'" ++ event_str self.(event_type) ++
  raw "','severity':'" ++ severity self.(outcome) ++
  raw "','outcome':'" ++ outcome_str self.(outcome) ++
  raw "','timestamp_unix_ms':" ++ to_string self.(timestamp_unix_ms) ++
  raw ",'asset_id':'" ++ json_escape_bf self.(t_asset_id) ++ [QUOTE] ++
  opt_field self.(release_counter) (fun r => raw ",'release_counter':" ++ to_string r) ++
  opt_field self.(merkle_root) (fun r => raw ",'merkle_root':'" ++ hex_encode r ++ [QUOTE]) ++
  (if self.(dry_run) then raw ",'dry_run':true" else []) ++
  txt "}" ++ [x0a].

Definition append_event (os : SinkResult) (event : TelemetryEvent) : stm (list byte) SinkError unit :=
  append_line os (to_json_line event).

Definition emit_configured (configured : bool) (os : SinkResult) (event : TelemetryEvent) :
    stm (list byte) SinkError unit :=
  emit_line configured os (to_json_line event).

(** The record an event stands for. *)
Definition fields (e : TelemetryEvent) : list (list byte * Json) :=
  [(txt "schema_version", JNum 1); (txt "event_type", JStr (event_str e.(event_type)));
   (txt "severity", JStr (severity e.(outcome))); (txt "outcome", JStr (outcome_str e.(outcome)));
   (txt "timestamp_unix_ms", JNum e.(timestamp_unix_ms)); (txt "asset_id", JStr e.(t_asset_id))] ++
  match e.(release_counter) with Some r => [(txt "release_counter", JNum r)] | None => [] end ++
  match e.(merkle_root) with Some r => [(txt "merkle_root", JStr (hex_encode r))] | None => [] end ++
  (if e.(dry_run) then [(txt "dry_run", JBool true)] else []).

(** The widths of the numeric fields: [u128] and [u64]. *)
Definition wf (e : TelemetryEvent) : Prop :=
  0 <= e.(timestamp_unix_ms) < 2 ^ 128 /\ default 0 e.(release_counter) < 2 ^ 64 /\
  0 <= default 0 e.(release_counter).
End Audit.

(** ** The report of a command on standard output *)

Module Report.
Inductive OutputFormat := Text | Json_.

(** [OutputFormat::parse]; the error names the token *)
Definition parse (text : list byte) : outcome (list byte) OutputFormat :=
  if bytes_eqb text (txt "text") then Ok Text
  else if bytes_eqb text (txt "json") then Ok Json_
  else Err (txt "unsupported output format: " ++ text).

Record CommandJsonReport := {
  command : list byte;
  outcome : list byte;
  r_asset_id : list byte;
  merkle_root : option (list byte);
  release_counter : option Z;
  blocks : option Z;
  bytes : option Z;
  dry_run : bool
}.

(** The line that [write_stdout] writes *)
Definition json_line (self : CommandJsonReport) : list byte :=
  raw "{'schema_version':1,'command':'" ++ self.(command) ++
  raw "','outcome':'" ++ self.(outcome) ++
  raw "','asset_id':'" ++ json_escape self.(r_asset_id) ++ [QUOTE] ++
  opt_field self.(blocks) (fun n => raw ",'blocks':" ++ to_string n) ++
  opt_field self.(bytes) (fun n => raw ",'bytes':" ++ to_string n) ++
  opt_field self.(release_counter) (fun n => raw ",'release_counter':" ++ to_string n) ++
  opt_field self.(merkle_root) (fun r => raw ",'merkle_root':'" ++ hex_encode r ++ [QUOTE]) ++
  (if self.(dry_run) then raw ",'dry_run':true" else []) ++
  txt "}" ++ [x0a].

(** [write_all] on standard output: everything, or an error after some bytes *)
Definition write_stdout (self : CommandJsonReport) (short : option nat) : stm (list byte) unit unit := fun out =>
  match short with
  | None => (Ok tt, out ++ json_line self)
  | Some k => (Err tt, out ++ take k (json_line self))
  end.

Definition fields (e : CommandJsonReport) : list (list byte * Json) :=
  [(txt "schema_version", JNum 1); (txt "command", JStr e.(command)); (txt "outcome", JStr e.(outcome));
   (txt "asset_id", JStr e.(r_asset_id))] ++
  match e.(blocks) with Some r => [(txt "blocks", JNum r)] | None => [] end ++
  match e.(bytes) with Some r => [(txt "bytes", JNum r)] | None => [] end ++
  match e.(release_counter) with Some r => [(txt "release_counter", JNum r)] | None => [] end ++
  match e.(merkle_root) with Some r => [(txt "merkle_root", JStr (hex_encode r))] | None => [] end ++
  (if e.(dry_run) then [(txt "dry_run", JBool true)] else []).

(** [command] and [outcome] are [&'static str] literals of the program (plain text), and
    the numbers are [usize] and [u64]. *)
Definition wf (e : CommandJsonReport) : Prop :=
  plain e.(command) = true /\ plain e.(outcome) = true /\
  0 <= default 0 e.(blocks) < 2 ^ 64 /\ 0 <= default 0 e.(bytes) < 2 ^ 64 /\
  0 <= default 0 e.(release_counter) < 2 ^ 64.
End Report.

(** ** The deny log of the Linux loader *)

Module Siem.
Definition SCHEMA_VERSION : list byte := txt "1.0".

Inductive SiemEventType := IntegrityFailure_ | MetadataCorrupt | PolicyDeny.

Definition event_str (e : SiemEventType) : list byte :=
  match e with
  | IntegrityFailure_ => txt "dfim.integrity.failure"
  | MetadataCorrupt => txt "dfim.metadata.corrupt"
  | PolicyDeny => txt "dfim.policy.deny"
  end.

Definition severity (e : SiemEventType) : list byte :=
  match e with
  | IntegrityFailure_ | PolicyDeny => txt "critical"
  | MetadataCorrupt => txt "high"
  end.

Record SiemDenyEvent := {
  event_type : SiemEventType;
  d_asset_id : list byte;
  enforcement_layer : list byte;
  action_taken : list byte;
  reason_code : option (list byte);
  policy_generation : option Z;
  d_device_id : option Z;
  d_inode : option Z;
  expected_root : option (list byte);
  calculated_root : option (list byte)
}.

Definition decision_reason (decision : EnforcementDecision) : list byte :=
  match decision with
  | DenyInvalidScope => txt "DenyInvalidScope"
  | DenyInvalidConfig => txt "DenyInvalidConfig"
  | DenyStaleGeneration => txt "DenyStaleGeneration"
  | _ => txt "DenyUnknown"
  end.

Section events.
Context `{HashOps}.

Definition asset_id_from_inode (device_id inode : Z) : list byte :=
  let material := le_encode 8 device_id ++ le_encode 8 inode in
  txt "sha256:" ++ hex_encode (sha256_digest_chunked [ASSET_HASH_DOMAIN; material]).

Definition integrity_mismatch (asset_path expected calculated : list byte) : SiemDenyEvent :=
  {| event_type := IntegrityFailure_; d_asset_id := asset_id asset_path;
     enforcement_layer := txt "ebpf_lsm"; action_taken := txt "deny";
     reason_code := Some (txt "live_merkle_root_mismatch"); policy_generation := None;
     d_device_id := None; d_inode := None; expected_root := Some expected; calculated_root := Some calculated |}.

Definition from_dfim_error (asset_path : list byte) (error : DfimError) : SiemDenyEvent :=
  {| event_type := match error with
                   | CorruptMetadata | UncorrectableError => MetadataCorrupt
                   | _ => IntegrityFailure_
                   end;
     d_asset_id := asset_id asset_path;
     enforcement_layer := txt "ebpf_lsm"; action_taken := txt "deny";
     reason_code := Some (txt (as_str error)); policy_generation := None;
     d_device_id := None; d_inode := None; expected_root := None; calculated_root := None |}.

Definition from_enforcement_decision (device_id inode : Z) (decision : EnforcementDecision) (generation : Z) :
    SiemDenyEvent :=
  {| event_type := PolicyDeny; d_asset_id := asset_id_from_inode device_id inode;
     enforcement_layer := txt "ebpf_lsm"; action_taken := txt "deny";
     reason_code := Some (decision_reason decision); policy_generation := Some generation;
     d_device_id := Some device_id; d_inode := Some inode; expected_root := None; calculated_root := None |}.
End events.

(** [format!("{:x}", n)]: lower-case hexadecimal, no leading zero *)
Fixpoint hex_loop (fuel : nat) (n : Z) : list byte :=
  match fuel with
  | O => []
  | S fuel => if n <? 16 then [hex_digit n] else hex_loop fuel (n / 16) ++ [hex_digit (n mod 16)]
  end.

Definition correlation_id (now : Z) : list byte := txt "dfim-" ++ hex_loop 32 now.

Definition to_json_line (now : Z) (self : SiemDenyEvent) : list byte :=
  raw "{'schema_version':'" ++ SCHEMA_VERSION ++
  raw "','event_type':'" ++ event_str self.(event_type) ++
  raw "','severity':'" ++ severity self.(event_type) ++
  raw "','timestamp_unix_ms':" ++ to_string now ++
  raw ",'asset_id':'" ++ json_escape self.(d_asset_id) ++
  raw "','enforcement_layer':'" ++ self.(enforcement_layer) ++
  raw "','action_taken':'" ++ self.(action_taken) ++ [QUOTE] ++
  opt_field self.(reason_code) (fun r => raw ",'reason_code':'" ++ json_escape r ++ [QUOTE]) ++
  opt_field self.(policy_generation) (fun n => raw ",'policy_generation':" ++ to_string n) ++
  opt_field self.(d_device_id) (fun n => raw ",'device_id':" ++ to_string n) ++
  opt_field self.(d_inode) (fun n => raw ",'inode':" ++ to_string n) ++
  opt_field self.(expected_root) (fun r => raw ",'expected_merkle_root':'" ++ hex_encode r ++ [QUOTE]) ++
  opt_field self.(calculated_root) (fun r => raw ",'calculated_merkle_root':'" ++ hex_encode r ++ [QUOTE]) ++
  raw ",'correlation_id':'" ++ json_escape (correlation_id now) ++
  raw "'}" ++ [x0a].

Definition append_event (os : SinkResult) (now : Z) (event : SiemDenyEvent) : stm (list byte) SinkError unit :=
  append_line os (to_json_line now event).

Definition emit_configured (configured : bool) (os : SinkResult) (now : Z) (event : SiemDenyEvent) :
    stm (list byte) SinkError unit :=
  emit_line configured os (to_json_line now event).

Definition fields (now : Z) (e : SiemDenyEvent) : list (list byte * Json) :=
  [(txt "schema_version", JStr SCHEMA_VERSION); (txt "event_type", JStr (event_str e.(event_type)));
   (txt "severity", JStr (severity e.(event_type))); (txt "timestamp_unix_ms", JNum now);
   (txt "asset_id", JStr e.(d_asset_id)); (txt "enforcement_layer", JStr e.(enforcement_layer));
   (txt "action_taken", JStr e.(action_taken))] ++
  match e.(reason_code) with Some r => [(txt "reason_code", JStr r)] | None => [] end ++
  match e.(policy_generation) with Some n => [(txt "policy_generation", JNum n)] | None => [] end ++
  match e.(d_device_id) with Some n => [(txt "device_id", JNum n)] | None => [] end ++
  match e.(d_inode) with Some n => [(txt "inode", JNum n)] | None => [] end ++
  match e.(expected_root) with Some r => [(txt "expected_merkle_root", JStr (hex_encode r))] | None => [] end ++
  match e.(calculated_root) with Some r => [(txt "calculated_merkle_root", JStr (hex_encode r))] | None => [] end ++
  [(txt "correlation_id", JStr (correlation_id now))].

Definition wf (now : Z) (e : SiemDenyEvent) : Prop :=
  0 <= now < 2 ^ 128 /\ plain e.(enforcement_layer) = true /\ plain e.(action_taken) = true /\
  0 <= default 0 e.(policy_generation) < 2 ^ 64 /\ 0 <= default 0 e.(d_device_id) < 2 ^ 64 /\
  0 <= default 0 e.(d_inode) < 2 ^ 64.
End Siem.

(** ** The writers print their fields *)

Definition print_tail (esc : list byte -> list byte) (ms : list (list byte * Json)) : list byte :=
  concat (map (fun m => x2c :: print_member esc m) ms).

Lemma print_members_cons esc m ms : print_members esc (m :: ms) = print_member esc m ++ print_tail esc ms.
Proof.
  revert m. induction ms as [|m' ms IH]; intros m; [by rewrite app_nil_r|].
  change (print_members esc (m :: m' :: ms)) with (print_member esc m ++ x2c :: print_members esc (m' :: ms)).
  by rewrite IH.
Qed.

Lemma print_tail_app esc ms ms' : print_tail esc (ms ++ ms') = print_tail esc ms ++ print_tail esc ms'.
Proof. unfold print_tail. by rewrite map_app, concat_app. Qed.

Lemma print_tail_num esc k n : print_tail esc [(k, JNum n)] = x2c :: QUOTE :: k ++ QUOTE :: x3a :: to_string n.
Proof. unfold print_tail. cbn [map concat]. by rewrite app_nil_r. Qed.

Lemma print_tail_str esc k s :
  print_tail esc [(k, JStr s)] = x2c :: QUOTE :: k ++ QUOTE :: x3a :: QUOTE :: esc s ++ [QUOTE].
Proof. unfold print_tail. cbn [map concat]. by rewrite app_nil_r. Qed.

(** An optional field contributes the same text on both sides. *)
Lemma opt_num esc (o : option Z) k :
  print_tail esc match o with Some n => [(k, JNum n)] | None => [] end =
  opt_field o (fun n => (x2c :: QUOTE :: k ++ [QUOTE; x3a]) ++ to_string n).
Proof. destruct o; [|done]. rewrite print_tail_num. cbn [opt_field app]. by rewrite <- app_assoc. Qed.

Lemma opt_str esc enc (o : option (list byte)) k : (forall s, esc (enc s) = enc s) ->
  print_tail esc match o with Some s => [(k, JStr (enc s))] | None => [] end =
  opt_field o (fun s => (x2c :: QUOTE :: k ++ [QUOTE; x3a; QUOTE]) ++ enc s ++ [QUOTE]).
Proof. intros He. destruct o; [|done]. rewrite print_tail_str, He. cbn [opt_field app]. by rewrite <- app_assoc. Qed.

#[global] Arguments to_string : simpl never.
#[global] Arguments hex_encode : simpl never.
#[global] Arguments json_escape : simpl never.
#[global] Arguments json_escape_bf : simpl never.
#[global] Arguments Siem.correlation_id : simpl never.

(** Two concatenations of the same literals and fields. *)
Ltac same_text := simpl; repeat (rewrite <- app_assoc; simpl); reflexivity.

Lemma audit_line e : Audit.to_json_line e = print_line json_escape_bf (Audit.fields e).
Proof.
  unfold Audit.to_json_line, print_line, Audit.fields.
  change ([?a; ?b; ?c; ?d; ?f; ?g] ++ ?t) with (a :: ([b] ++ [c] ++ [d] ++ [f] ++ [g] ++ t)).
  rewrite print_members_cons, !print_tail_app, !print_tail_str, !print_tail_num.
  rewrite opt_num, (opt_str json_escape_bf hex_encode) by (intros; apply plain_escape_bf, plain_hex).
  replace (json_escape_bf (Audit.event_str (Audit.event_type e))) with (Audit.event_str (Audit.event_type e))
    by (by destruct (Audit.event_type e)).
  replace (json_escape_bf (Audit.severity (Audit.outcome e))) with (Audit.severity (Audit.outcome e))
    by (by destruct (Audit.outcome e)).
  replace (json_escape_bf (Audit.outcome_str (Audit.outcome e))) with (Audit.outcome_str (Audit.outcome e))
    by (by destruct (Audit.outcome e)).
  replace (print_tail json_escape_bf (if Audit.dry_run e then [(txt "dry_run", JBool true)] else []))
    with (if Audit.dry_run e then raw ",'dry_run':true" else []) by (by destruct (Audit.dry_run e)).
  same_text.
Qed.

Lemma report_line e : plain e.(Report.command) = true -> plain e.(Report.outcome) = true ->
  Report.json_line e = print_line json_escape (Report.fields e).
Proof.
  intros Hc Ho. unfold Report.json_line, print_line, Report.fields.
  change ([?a; ?b; ?c; ?d] ++ ?t) with (a :: ([b] ++ [c] ++ [d] ++ t)).
  rewrite print_members_cons, !print_tail_app, !print_tail_str, !opt_num.
  rewrite (opt_str json_escape hex_encode) by (intros; apply plain_escape, plain_hex).
  rewrite (plain_escape _ Hc), (plain_escape _ Ho).
  replace (print_tail json_escape (if Report.dry_run e then [(txt "dry_run", JBool true)] else []))
    with (if Report.dry_run e then raw ",'dry_run':true" else []) by (by destruct (Report.dry_run e)).
  same_text.
Qed.

Lemma opt_str_escape (o : option (list byte)) k :
  print_tail json_escape match o with Some s => [(k, JStr s)] | None => [] end =
  opt_field o (fun s => (x2c :: QUOTE :: k ++ [QUOTE; x3a; QUOTE]) ++ json_escape s ++ [QUOTE]).
Proof. destruct o; [|done]. rewrite print_tail_str. cbn [opt_field app]. by rewrite <- app_assoc. Qed.

Lemma siem_line now e : plain e.(Siem.enforcement_layer) = true -> plain e.(Siem.action_taken) = true ->
  Siem.to_json_line now e = print_line json_escape (Siem.fields now e).
Proof.
  intros Hl Ha. unfold Siem.to_json_line, print_line, Siem.fields.
  change ([?a; ?b; ?c; ?d; ?f; ?g; ?h] ++ ?t) with (a :: ([b] ++ [c] ++ [d] ++ [f] ++ [g] ++ [h] ++ t)).
  rewrite print_members_cons, !print_tail_app, !print_tail_str, !print_tail_num, opt_str_escape, !opt_num.
  rewrite !(opt_str json_escape hex_encode) by (intros; apply plain_escape, plain_hex).
  rewrite (plain_escape _ Hl), (plain_escape _ Ha).
  replace (json_escape (Siem.event_str (Siem.event_type e))) with (Siem.event_str (Siem.event_type e))
    by (by destruct (Siem.event_type e)).
  replace (json_escape (Siem.severity (Siem.event_type e))) with (Siem.severity (Siem.event_type e))
    by (by destruct (Siem.event_type e)).
  unfold print_member at 1. cbn [fst snd print_value].
  replace (json_escape Siem.SCHEMA_VERSION) with Siem.SCHEMA_VERSION by done.
  generalize (json_escape (Siem.correlation_id now)) as correlation. intros correlation.
  generalize (to_string now) as timestamp. intros timestamp. same_text.
Qed.

Lemma small_number n : 0 <= n < 2 ^ 128 -> 0 <= n < 10 ^ 39.
Proof. intros Hn. split; [lia|]. apply (Z.lt_trans _ (2 ^ 128)); [lia|]. by vm_compute. Qed.

Ltac members_wf := repeat (apply Forall_cons; split; [split; [by vm_compute|cbn]|]); try apply Forall_nil;
  try done; try (apply small_number; lia).

Lemma audit_wf e : Audit.wf e -> Audit.fields e <> [] /\ Forall member_wf (Audit.fields e).
Proof.
  intros (Ht & Hr1 & Hr2). split; [done|]. unfold Audit.fields. rewrite !Forall_app. split_and!.
  - members_wf.
  - destruct (Audit.release_counter e); members_wf. cbn in *. apply small_number. lia.
  - destruct (Audit.merkle_root e); members_wf.
  - destruct (Audit.dry_run e); members_wf.
Qed.

Lemma report_wf e : Report.wf e -> Report.fields e <> [] /\ Forall member_wf (Report.fields e).
Proof.
  intros (_ & _ & Hb & Hby & Hr). split; [done|]. unfold Report.fields. rewrite !Forall_app. split_and!.
  - members_wf.
  - destruct (Report.blocks e); members_wf. cbn in *. apply small_number. lia.
  - destruct (Report.bytes e); members_wf. cbn in *. apply small_number. lia.
  - destruct (Report.release_counter e); members_wf. cbn in *. apply small_number. lia.
  - destruct (Report.merkle_root e); members_wf.
  - destruct (Report.dry_run e); members_wf.
Qed.

Lemma siem_wf now e : Siem.wf now e -> Siem.fields now e <> [] /\ Forall member_wf (Siem.fields now e).
Proof.
  intros (Hn & _ & _ & Hg & Hd & Hi). split; [done|]. unfold Siem.fields. rewrite !Forall_app. split_and!.
  - members_wf.
  - destruct (Siem.reason_code e); members_wf.
  - destruct (Siem.policy_generation e); members_wf. cbn in *. apply small_number. lia.
  - destruct (Siem.d_device_id e); members_wf. cbn in *. apply small_number. lia.
  - destruct (Siem.d_inode e); members_wf. cbn in *. apply small_number. lia.
  - destruct (Siem.expected_root e); members_wf.
  - destruct (Siem.calculated_root e); members_wf.
  - members_wf.
Qed.

(** ** Theorems *)

Lemma append_line_ok os line file : fst (append_line os line file) = Ok tt ->
  append_line os line file = (Ok tt, file ++ line).
Proof. unfold append_line. destruct (opens os), (short_write os), (syncs os); cbn; done. Qed.

(** A report reads back as its fields. *)
Lemma report_readable e : Report.wf e -> read_line (Report.json_line e) = Some (Report.fields e).
Proof.
  intros Hwf. destruct (report_wf e Hwf) as [Hne Hf]. destruct Hwf as (Hc & Ho & _).
  rewrite report_line by done. by apply read_print_line; [apply read_escape|..].
Qed.

Lemma audit_log es : Forall Audit.wf es ->
  read_log (concat (map Audit.to_json_line es)) = Some (map Audit.fields es).
Proof.
  intros Hwf. rewrite (map_ext _ _ audit_line es).
  apply (read_log_lines Audit.fields); [apply no_newline_escape_bf|apply read_escape_bf|].
  eapply Forall_impl; [exact Hwf|apply audit_wf].
Qed.

Lemma siem_log es : Forall (fun '(now, e) => Siem.wf now e) es ->
  read_log (concat (map (fun '(now, e) => Siem.to_json_line now e) es)) =
    Some (map (fun '(now, e) => Siem.fields now e) es).
Proof.
  intros Hwf.
  replace (map (fun '(now, e) => Siem.to_json_line now e) es)
    with (map (fun x => print_line json_escape ((fun '(now, e) => Siem.fields now e) x)) es).
  - apply (read_log_lines (fun '(now, e) => Siem.fields now e)); [apply no_newline_escape|apply read_escape|].
    eapply Forall_impl; [exact Hwf|]. intros [now e]. apply siem_wf.
  - apply map_ext_Forall. eapply Forall_impl; [exact Hwf|]. intros [now e] (_ & Hl & Ha & _).
    symmetry. by apply siem_line.
Qed.

(** The audit log never loses or confuses a record.  Whatever the fields of the
    events hold, a file written by earlier events reads back as exactly their fields,
    record by record; after an append that reports success it reads back with the new
    record added; and if the sink cannot be opened the caller gets an error and the
    file is as before. *)
Theorem audit_log_roundtrip es e os : Forall Audit.wf (es ++ [e]) ->
  let file := concat (map Audit.to_json_line es) in
  read_log file = Some (map Audit.fields es) /\
  (fst (Audit.append_event os e file) = Ok tt ->
   read_log (snd (Audit.append_event os e file)) = Some (map Audit.fields (es ++ [e]))) /\
  (os.(opens) = false -> Audit.append_event os e file = (Err CannotOpen, file)).
Proof.
  intros Hwf file. split_and!.
  - apply audit_log. by apply Forall_app in Hwf as [? _].
  - intros Hok. unfold Audit.append_event in *. rewrite (append_line_ok _ _ _ Hok). cbn [snd].
    rewrite <- audit_log by done. f_equal. unfold file. rewrite map_app, concat_app. cbn [map concat].
    by rewrite app_nil_r.
  - intros Ho. unfold Audit.append_event, append_line. by rewrite Ho.
Qed.

(** The deny log of the Linux loader has the same guarantee: every event that the
    loader can build, whatever path or kernel record it comes from, is one line that
    reads back as the event's fields, and a successful append adds exactly that
    record. *)
Theorem siem_log_roundtrip es now e os : Forall (fun '(now, e) => Siem.wf now e) (es ++ [(now, e)]) ->
  let file := concat (map (fun '(now, e) => Siem.to_json_line now e) es) in
  fst (Siem.append_event os now e file) = Ok tt ->
  read_log (snd (Siem.append_event os now e file)) =
    Some (map (fun '(now, e) => Siem.fields now e) es ++ [Siem.fields now e]).
Proof.
  intros Hwf file Hok. unfold Siem.append_event in *. rewrite (append_line_ok _ _ _ Hok). cbn [snd].
  pose proof (siem_log _ Hwf) as Hlog. rewrite !map_app, concat_app in Hlog. cbn [map concat] in Hlog.
  by rewrite app_nil_r in Hlog.
Qed.

Module TelemetryWitness.
#[local] Existing Instance Toy.hash.

(** A path with a quote and a newline, and a sink that works. *)
Definition path : list byte := txt "/boot/" ++ [QUOTE; x0a; BACKSLASH] ++ txt "x.efi".
Definition works : SinkResult := {| opens := true; short_write := None; syncs := true |}.
Definition e1 : Audit.TelemetryEvent :=
  Audit.security 1700000000123 Audit.VerifyV2 Audit.Failure path (Some 42) (Some (array xab 32)).
(** An event whose identifier is hostile text. *)
Definition e2 : Audit.TelemetryEvent :=
  {| Audit.event_type := Audit.ProvisionV2; Audit.outcome := Audit.Success; Audit.timestamp_unix_ms := 0;
     Audit.t_asset_id := path; Audit.release_counter := None; Audit.merkle_root := None; Audit.dry_run := true |}.
Definition d1 : Siem.SiemDenyEvent := Siem.from_enforcement_decision 9 42 DenyInvalidConfig 7.
Definition d2 : Siem.SiemDenyEvent := Siem.from_dfim_error path CorruptMetadata.

Lemma audit_log_roundtrip_witness :
  let file := concat (map Audit.to_json_line [e1]) in
  read_log file = Some (map Audit.fields [e1]) /\
  (fst (Audit.append_event works e2 file) = Ok tt ->
   read_log (snd (Audit.append_event works e2 file)) = Some (map Audit.fields ([e1] ++ [e2]))) /\
  (works.(opens) = false -> Audit.append_event works e2 file = (Err CannotOpen, file)).
Proof. apply (audit_log_roundtrip [e1] e2 works). repeat (apply Forall_cons; split; [by vm_compute|]). by apply Forall_nil. Defined.

Lemma siem_log_roundtrip_witness :
  let file := concat (map (fun '(now, e) => Siem.to_json_line now e) [(5, d1)]) in
  read_log (snd (Siem.append_event works 6 d2 file)) =
    Some (map (fun '(now, e) => Siem.fields now e) [(5, d1)] ++ [Siem.fields 6 d2]).
Proof. apply (siem_log_roundtrip [(5, d1)] 6 d2 works); [|done].
  repeat (apply Forall_cons; split; [by vm_compute|]). by apply Forall_nil.
Defined.
End TelemetryWitness.
