(* ===== verification/ImaPolicy.v ===== *)
(** * ImaPolicy: is the kernel's own appraisal active?

    Models [dfim_core_engine/src/ima_policy.rs]: the text scan of the kernel command
    line and of the loaded IMA policy that must succeed before the loader attaches its
    hooks, and [require_ima_appraisal] of
    [dfim_linux_kernel/dfim-ebpf-user/src/ima.rs], which reads the two files.  Text is
    the list of its bytes.

    The theorem characterises the texts that count as ready; an example shows a policy
    that passes although its rule covers one user only. *)

From stdpp Require Import base list numbers option strings.
From Stdlib Require Import ZArith Lia Strings.Byte.
From S2P Require Import Prelude Core Json.

(** [char::is_ascii_whitespace] *)
Definition is_space (c : byte) : bool :=
  match c with x20 | x09 | x0a | x0c | x0d => true | _ => false end.

(** The pieces between separators, empty ones included; [acc] is the piece so far. *)
Fixpoint pieces (sep : byte -> bool) (acc l : list byte) : list (list byte) :=
  match l with
  | [] => [acc]
  | c :: l => if sep c then acc :: pieces sep [] l else pieces sep (acc ++ [c]) l
  end.

(** [str::split_ascii_whitespace]: the non-empty pieces *)
Definition split_ascii_whitespace (s : list byte) : list (list byte) :=
  filter (fun p => p <> []) (pieces is_space [] s).

(** [str::lines]: split at newlines, drop a final empty piece, strip one carriage return *)
Definition strip_cr (l : list byte) : list byte :=
  match last l with Some x0d => removelast l | _ => l end.

Definition lines (s : list byte) : list (list byte) :=
  let ps := pieces (fun c => bytes_eqb [c] [x0a]) [] s in
  map strip_cr (match last ps with Some [] => removelast ps | _ => ps end).

Record ImaPolicyEvidence := {
  enforce_mode : bool;
  signed_exec_appraisal : bool;
  signed_module_appraisal : bool
}.

Definition is_production_ready (self : ImaPolicyEvidence) : bool :=
  self.(enforce_mode) && self.(signed_exec_appraisal) && self.(signed_module_appraisal).

(** The loop over the tokens, with its three flags; a comment ends it. *)
Fixpoint scan_rule (function : list byte) (tokens : list (list byte))
    (is_appraise has_function has_signature_type : bool) : bool :=
  match tokens with
  | [] => is_appraise && has_function && has_signature_type
  | token :: tokens =>
      if starts_with token (txt "#") then is_appraise && has_function && has_signature_type
      else if bytes_eqb token (txt "appraise") then scan_rule function tokens true has_function has_signature_type
      else if starts_with token (txt "func=") && bytes_eqb (drop 5 token) function
      then scan_rule function tokens is_appraise true has_signature_type
      else if bytes_eqb token (txt "appraise_type=imasig")
      then scan_rule function tokens is_appraise has_function true
      else scan_rule function tokens is_appraise has_function has_signature_type
  end.

Definition is_signed_appraisal_rule (line function : list byte) : bool :=
  scan_rule function (split_ascii_whitespace line) false false false.

Definition inspect_ima_policy (cmdline policy : list byte) : ImaPolicyEvidence := {|
  enforce_mode := existsb (fun token => bytes_eqb token (txt "ima_appraise=enforce")) (split_ascii_whitespace cmdline);
  signed_exec_appraisal := existsb (fun line => is_signed_appraisal_rule line (txt "BPRM_CHECK")) (lines policy);
  signed_module_appraisal := existsb (fun line => is_signed_appraisal_rule line (txt "MODULE_CHECK")) (lines policy)
|}.

(** [require_ima_appraisal]: what reading the two files returned, [None] on error *)
Inductive ImaError := ReadCmdline | ReadPolicy | NotReady (evidence : ImaPolicyEvidence).

Definition require_ima_appraisal (cmdline policy : option (list byte)) : outcome ImaError ImaPolicyEvidence :=
  cmdline ← ok_or cmdline ReadCmdline;
  policy ← ok_or policy ReadPolicy;
  let evidence := inspect_ima_policy cmdline policy in
  if negb (is_production_ready evidence) then Err (NotReady evidence) else Ok evidence.

(** ** What the scan accepts *)

(** The tokens of a line before its comment. *)
Fixpoint uncommented (tokens : list (list byte)) : list (list byte) :=
  match tokens with
  | [] => []
  | t :: ts => if starts_with t (txt "#") then [] else t :: uncommented ts
  end.

(** A rule line for signed appraisal of [function]: it holds the three tokens, in any
    order and among any others. *)
Definition signed_rule (line function : list byte) : Prop :=
  let ts := uncommented (split_ascii_whitespace line) in
  txt "appraise" ∈ ts /\ (txt "func=" ++ function) ∈ ts /\ txt "appraise_type=imasig" ∈ ts.

Lemma func_token token function :
  starts_with token (txt "func=") && bytes_eqb (drop 5 token) function = true <-> token = txt "func=" ++ function.
Proof.
  rewrite andb_true_iff, bytes_eqb_eq. split.
  - by intros [(s & ->)%starts_with_app <-].
  - intros ->. split; [|done]. apply starts_with_app. by eexists.
Qed.

Lemma elem_cons_ne {A} (x y : A) l : x <> y -> (x ∈ y :: l <-> x ∈ l).
Proof. intros Hne. rewrite elem_of_cons. naive_solver. Qed.

Lemma scan_rule_spec function tokens : forall a f s, txt "func=" ++ function <> txt "appraise" ->
  scan_rule function tokens a f s = true <->
  (a = true \/ txt "appraise" ∈ uncommented tokens) /\
  (f = true \/ (txt "func=" ++ function) ∈ uncommented tokens) /\
  (s = true \/ txt "appraise_type=imasig" ∈ uncommented tokens).
Proof.
  induction tokens as [|t ts IH]; intros a f s Hne.
  { cbn [scan_rule uncommented]. rewrite !andb_true_iff, !elem_of_nil. tauto. }
  cbn [scan_rule uncommented]. destruct (starts_with t (txt "#")).
  { rewrite !andb_true_iff, !elem_of_nil. tauto. }
  destruct (bytes_eqb t (txt "appraise")) eqn:H1.
  { apply bytes_eqb_eq in H1 as ->. rewrite IH by done.
    rewrite (elem_cons_ne (txt "func=" ++ function)) by done.
    rewrite (elem_cons_ne (txt "appraise_type=imasig")) by done. rewrite elem_of_cons. tauto. }
  assert (H1' : txt "appraise" <> t) by (intros <-; by rewrite bytes_eqb_refl in H1).
  rewrite (elem_cons_ne (txt "appraise")) by done.
  destruct (starts_with t (txt "func=") && bytes_eqb (drop 5 t) function) eqn:H2.
  { apply func_token in H2 as ->. rewrite IH by done.
    rewrite (elem_cons_ne (txt "appraise_type=imasig")) by done. rewrite elem_of_cons. tauto. }
  assert (H2' : txt "func=" ++ function <> t) by (intros <-; by rewrite (proj2 (func_token _ _) eq_refl) in H2).
  rewrite (elem_cons_ne (txt "func=" ++ function)) by done.
  destruct (bytes_eqb t (txt "appraise_type=imasig")) eqn:H3.
  { apply bytes_eqb_eq in H3 as ->. rewrite IH, elem_of_cons by done. tauto. }
  assert (H3' : txt "appraise_type=imasig" <> t) by (intros <-; by rewrite bytes_eqb_refl in H3).
  rewrite (elem_cons_ne (txt "appraise_type=imasig")) by done. by rewrite IH.
Qed.

Lemma signed_rule_spec line function : txt "func=" ++ function <> txt "appraise" ->
  is_signed_appraisal_rule line function = true <-> signed_rule line function.
Proof.
  intros Hne. unfold is_signed_appraisal_rule, signed_rule. rewrite scan_rule_spec by done. naive_solver.
Qed.

Lemma existsb_elem {A} (f : A -> bool) l : existsb f l = true <-> exists x, x ∈ l /\ f x = true.
Proof. rewrite existsb_exists. by setoid_rewrite list_elem_of_In. Qed.

(** The readiness gate is exact.  The loader's precondition holds exactly when
    both files are readable, some word of the command line is [ima_appraise=enforce],
    and the policy has a line for signed appraisal of executables and one of kernel
    modules, where words in a comment do not count. *)
Theorem ima_gate_exact cmdline policy :
  is_ok (require_ima_appraisal cmdline policy) = true <->
  exists c p, cmdline = Some c /\ policy = Some p /\
    txt "ima_appraise=enforce" ∈ split_ascii_whitespace c /\
    (exists line, line ∈ lines p /\ signed_rule line (txt "BPRM_CHECK")) /\
    (exists line, line ∈ lines p /\ signed_rule line (txt "MODULE_CHECK")).
Proof.
  unfold require_ima_appraisal. destruct cmdline as [c|]; [|split; [done|naive_solver]]. cbn [ok_or].
  rewrite ok_bind. destruct policy as [p|]; [|split; [done|naive_solver]]. cbn [ok_or]. rewrite ok_bind. cbv zeta.
  assert (Hr : is_production_ready (inspect_ima_policy c p) = true <->
    txt "ima_appraise=enforce" ∈ split_ascii_whitespace c /\
    (exists line, line ∈ lines p /\ signed_rule line (txt "BPRM_CHECK")) /\
    (exists line, line ∈ lines p /\ signed_rule line (txt "MODULE_CHECK"))).
  { unfold is_production_ready, inspect_ima_policy. cbn [enforce_mode signed_exec_appraisal signed_module_appraisal].
    rewrite !andb_true_iff, !existsb_elem. setoid_rewrite bytes_eqb_eq.
    setoid_rewrite signed_rule_spec; [|done..]. naive_solver. }
  destruct (is_production_ready (inspect_ima_policy c p)); cbn [negb is_ok].
  - split; [|done]. intros _. exists c, p. split_and!; try done; by apply Hr.
  - split; [done|]. intros (c' & p' & [= <-] & [= <-] & Hx). by apply Hr in Hx.
Qed.

(** A policy whose appraisal rules bind one user only passes the gate. *)
Example ima_gate_ignores_conditions :
  is_ok (require_ima_appraisal (Some (txt "quiet ima_appraise=enforce"))
    (Some (txt "appraise func=BPRM_CHECK appraise_type=imasig uid=1000" ++ [x0a] ++
           txt "appraise func=MODULE_CHECK appraise_type=imasig uid=1000"))) = true.
Proof. by vm_compute. Qed.
