(* ===== verification/Loader.v ===== *)
(** * Loader: provisioning a target and reporting denials

    Models [dfim_linux_kernel/dfim-ebpf-user/src/main.rs] (the loader) and
    [deny_monitor.rs] (the ring-buffer reader).  The operating system and the [aya]
    crate are the record [World]: the result of each read and of each call.  The state
    is the loaded maps, the attached hooks and the SIEM events sent.

    The theorems show that a hook is attached only after the live image, its sidecar
    and the kernel's appraisal policy were checked and the maps are complete; that the
    order of the map updates never makes the probe refuse the target on the way; that
    every refusal of the probe survives the trip through the ring buffer; and that the
    monitor, as it is started, reports nothing while the loader runs. *)

From stdpp Require Import base list numbers option strings gmap sets.
From Stdlib Require Import ZArith Lia Strings.Byte.
From S2P Require Import Prelude Crypto Core Merkle BlockStream Pipeline Enforcement Json Telemetry ImaPolicy.

Inductive HookName := bprm_check_security_hook | kernel_module_from_file_hook.

#[export] Instance HookName_eq_dec : EqDecision HookName.
Proof. solve_decision. Defined.

(** The ways a run fails; [anyhow] only carries their text. *)
Inductive LoadError :=
| GenerationZero | CannotResolve | ReadTarget | ReadSidecar | Dfim (e : DfimError) | RootMismatch
| Ima (e : ImaError) | PreflightRejected | StatFailed | LoadFailed | MapMissing | MapUpdate
| BtfMissing | ProgramFailed (h : HookName) | RingMissing.

Record World := {
  canonical_target : option (list byte);
  first_read : option (list byte);
  sidecar_read : option (list byte);
  second_read : option (list byte);
  proc_cmdline : option (list byte);
  ima_policy : option (list byte);
  preflight_read : option (list byte);
  target_stat : option (Z * Z);
  ebpf_loads : bool;
  scope_map : bool;
  config_map : bool;
  scope_insert : ScopeEntryV1 -> bool;
  config_set : bool;
  btf : bool;
  program_attaches : HookName -> bool;
  ring_map : bool
}.

Record Session := {
  maps : Maps;
  attached : list HookName;
  siem : list Siem.SiemDenyEvent
}.

Definition zero_config : DfimConfigV1 :=
  {| magic := 0; schema_version := 0; struct_size := 0; deployment_profile := 0; c_policy_generation := 0;
     flags := 0; c_reserved := 0 |}.

(** The maps of a freshly loaded object *)
Definition fresh_maps : Maps := {| DFIM_SCOPE := ∅; DFIM_CONFIG := [zero_config]; DFIM_DENY_EVENTS := [] |}.

Definition set_maps (m : Maps) (s : Session) : Session :=
  {| maps := m; attached := s.(attached); siem := s.(siem) |}.
Definition attach (h : HookName) (s : Session) : Session :=
  {| maps := s.(maps); attached := s.(attached) ++ [h]; siem := s.(siem) |}.
Definition send (e : Siem.SiemDenyEvent) (s : Session) : Session :=
  {| maps := s.(maps); attached := s.(attached); siem := s.(siem) ++ [e] |}.

(** The three map updates, on the maps *)
Definition insert_scope (key : ScopeKey) (entry : ScopeEntryV1) (m : Maps) : Maps :=
  {| DFIM_SCOPE := <[key := entry]> m.(DFIM_SCOPE); DFIM_CONFIG := m.(DFIM_CONFIG);
     DFIM_DENY_EVENTS := m.(DFIM_DENY_EVENTS) |}.
Definition set_config (c : DfimConfigV1) (m : Maps) : Maps :=
  {| DFIM_SCOPE := m.(DFIM_SCOPE); DFIM_CONFIG := <[0%nat := c]> m.(DFIM_CONFIG);
     DFIM_DENY_EVENTS := m.(DFIM_DENY_EVENTS) |}.

Section model.
Context `{HashOps}.
Context (w : World).

Abbreviation M := (stm Session LoadError).

Definition require (ok : bool) (e : LoadError) : M unit := lift (if ok then Ok tt else Err e).

(** [map_err(|error| siem_dfim_error(target, error))]: the event is sent, whether or not
    the sink accepts it. *)
Definition siem_dfim {A} (target : list byte) (m : DfimResult A) : M A := fun s =>
  match m with
  | Ok a => (Ok a, s)
  | Err e => (Err (Dfim e), send (Siem.from_dfim_error target e) s)
  | Panic => (Panic, s)
  end.

(** The sidecar is one of version 1: the checks tie the image to the file beside it, and no
    signature ties that file to a publisher. *)
Definition verify_live_image_against_sidecar (target : list byte) : M (BootManifest * BootManifest) :=
  image ← lift (ok_or w.(first_read) ReadTarget);
  sidecar_bytes ← lift (ok_or w.(sidecar_read) ReadSidecar);
  live_sidecar ← siem_dfim target (build_boot_sidecar image);
  live_manifest ← siem_dfim target (parse_boot_manifest live_sidecar);
  disk_manifest ← siem_dfim target (parse_boot_manifest sidecar_bytes);
  siem_dfim target (validate_boot_image image disk_manifest) ;;
  if negb (constant_time_hash_eq live_manifest.(bm_merkle_root) disk_manifest.(bm_merkle_root)) then
    modify (send (Siem.integrity_mismatch target disk_manifest.(bm_merkle_root) live_manifest.(bm_merkle_root))) ;;
    lift (Err RootMismatch)
  else
    image ← lift (ok_or w.(second_read) ReadTarget);
    siem_dfim target (validate_boot_image image live_manifest) ;;
    mret (live_manifest, disk_manifest).

Definition prepare_scope_entry (key : ScopeKey) (policy_generation : Z) (root : list byte) : M unit :=
  require w.(scope_map) MapMissing ;;
  require (w.(scope_insert) (ScopeEntry.pending policy_generation root)) MapUpdate ;;
  modify (fun s => set_maps (insert_scope key (ScopeEntry.pending policy_generation root) s.(maps)) s).

Definition publish_production_config (policy_generation : Z) : M unit :=
  require w.(config_map) MapMissing ;;
  require w.(config_set) MapUpdate ;;
  modify (fun s => set_maps (set_config (DfimConfig.production policy_generation) s.(maps)) s).

Definition commit_scope_entry (key : ScopeKey) (policy_generation : Z) (root : list byte) : M unit :=
  require w.(scope_map) MapMissing ;;
  require (w.(scope_insert) (ScopeEntry.active policy_generation root)) MapUpdate ;;
  modify (fun s => set_maps (insert_scope key (ScopeEntry.active policy_generation root) s.(maps)) s).

Definition attach_lsm_programs : M unit :=
  require w.(btf) BtfMissing ;;
  require (w.(program_attaches) bprm_check_security_hook) (ProgramFailed bprm_check_security_hook) ;;
  modify (attach bprm_check_security_hook) ;;
  require (w.(program_attaches) kernel_module_from_file_hook) (ProgramFailed kernel_module_from_file_hook) ;;
  modify (attach kernel_module_from_file_hook).

(** [provision_target]; the sidecar path only selects the file behind [sidecar_read].
    The result is what the final log line reports. *)
Definition provision_target (policy_generation : Z) : M (ScopeKey * BootManifest) :=
  if policy_generation =? 0 then lift (Err GenerationZero)
  else
    target ← lift (ok_or w.(canonical_target) CannotResolve);
    mm ← verify_live_image_against_sidecar target;
    let '(live_manifest, disk_manifest) := mm in
    lift (map_err Ima (require_ima_appraisal w.(proc_cmdline) w.(ima_policy))) ;;
    lift (ok_or w.(preflight_read) PreflightRejected) ;;
    st ← lift (ok_or w.(target_stat) StatFailed);
    let scope_key := {| device_id := fst st; inode := snd st |} in
    require w.(ebpf_loads) LoadFailed ;;
    modify (set_maps fresh_maps) ;;
    prepare_scope_entry scope_key policy_generation live_manifest.(bm_merkle_root) ;;
    publish_production_config policy_generation ;;
    commit_scope_entry scope_key policy_generation live_manifest.(bm_merkle_root) ;;
    attach_lsm_programs ;;
    require w.(ring_map) RingMissing ;;
    mret (scope_key, live_manifest).
End model.

(** ** The deny monitor *)

(** [core::mem::size_of::<DenyEventV1>()] *)
Definition DenyEventV1_size : Z := 32.

(** The bytes the probe writes: [repr(C)] leaves four bytes of padding after [reason]. *)
Definition deny_event_bytes (ev : DenyEventV1) (padding : list byte) : list byte :=
  le_encode 8 ev.(e_device_id) ++ le_encode 8 ev.(e_inode) ++ le_encode 4 ev.(reason) ++ padding ++
  le_encode 8 ev.(e_policy_generation).

(** [bytemuck_must_read]: the fields at their offsets *)
Definition bytemuck_must_read (bytes : list byte) : outcome LoadError DenyEventV1 :=
  d ← slice bytes 0 8;
  i ← slice bytes 8 16;
  r ← slice bytes 16 20;
  g ← slice bytes 24 32;
  Ok {| e_device_id := le_decode d; e_inode := le_decode i; reason := le_decode r;
        e_policy_generation := le_decode g |}.

Definition parse_deny_event `{HashOps} (bytes : list byte) : outcome LoadError (option Siem.SiemDenyEvent) :=
  if zlen bytes <? DenyEventV1_size then Ok None
  else
    raw ← slice bytes 0 DenyEventV1_size;
    record ← bytemuck_must_read raw;
    let event decision := Ok (Some (Siem.from_enforcement_decision record.(e_device_id) record.(e_inode)
                                      decision record.(e_policy_generation))) in
    if record.(reason) =? 3 then event DenyInvalidScope
    else if record.(reason) =? 4 then event DenyInvalidConfig
    else if record.(reason) =? 5 then event DenyStaleGeneration
    else Ok None.

(** The monitor thread.  A round is what one pass of the outer loop sees: the value of
    the flag when it is tested, and the records that the inner loop drains. *)
Fixpoint deny_monitor `{HashOps} (rounds : list (bool * list (list byte))) : outcome LoadError (list Siem.SiemDenyEvent) :=
  match rounds with
  | [] => Ok []
  | (stop, records) :: rounds =>
      if stop then Ok []
      else
        events ← foldM (fun evs r => e ← parse_deny_event r; Ok (evs ++ option_list e)) [] records;
        rest ← deny_monitor rounds;
        Ok (events ++ rest)
  end.

(** [run_until_shutdown]: [running] is true until the handler of Ctrl-C clears it.  The
    loader passes this same flag to the monitor. *)
Definition running_flag (shutdown_at : nat) (round : nat) : bool := Nat.ltb round shutdown_at.

(** ** The order of the map updates *)

Inductive LoaderOp := PrepareScope | PublishConfig | CommitScope.

Definition loader_op (key : ScopeKey) (g : Z) (root : list byte) (op : LoaderOp) : Maps -> Maps :=
  match op with
  | PrepareScope => insert_scope key (ScopeEntry.pending g root)
  | PublishConfig => set_config (DfimConfig.production g)
  | CommitScope => insert_scope key (ScopeEntry.active g root)
  end.

(** The updates in the order of [provision_target] *)
Definition provision_ops : list LoaderOp := [PrepareScope; PublishConfig; CommitScope].

(** The loader and the kernel, interleaved: the kernel may run a hook, on any object,
    between any two updates. *)
Record System := { todo : list LoaderOp; sys_maps : Maps; codes : list Z }.

Section system.
Context (reserve : list DenyEventV1 -> bool) (mem : KernelMemory) (off : Offsets).
Context (key : ScopeKey) (g : Z) (root : list byte).

Inductive step : System -> System -> Prop :=
| step_loader op ops m cs :
    step {| todo := op :: ops; sys_maps := m; codes := cs |}
         {| todo := ops; sys_maps := loader_op key g root op m; codes := cs |}
| step_hook h ops m m' cs code :
    run_hook reserve mem off h m = (code, m') ->
    step {| todo := ops; sys_maps := m; codes := cs |}
         {| todo := ops; sys_maps := m'; codes := cs ++ [code] |}.

Definition start : System := {| todo := provision_ops; sys_maps := fresh_maps; codes := [] |}.
End system.

(** ** Stages that attach nothing *)

Definition quiet {A} (m : stm Session LoadError A) : Prop := forall s, (snd (m s)).(attached) = s.(attached).

Lemma quiet_lift {A} (m : outcome LoadError A) : quiet (lift m).
Proof. done. Qed.

Lemma quiet_require ok e : quiet (require ok e).
Proof. done. Qed.

Lemma quiet_siem `{HashOps} {A} target (m : DfimResult A) : quiet (siem_dfim target m).
Proof. intros s. unfold siem_dfim. by destruct m. Qed.

Lemma quiet_bind {A B} (m : stm Session LoadError A) (f : A -> stm Session LoadError B) :
  quiet m -> (forall a, quiet (f a)) -> quiet (m ≫= f).
Proof.
  intros Hm Hf s. specialize (Hm s). unfold mbind, stm_bind. destruct (m s) as [[a|e|] s']; cbn [snd] in *; [|done..].
  by rewrite Hf.
Qed.

Lemma quiet_modify f : (forall s, (f s).(attached) = s.(attached)) -> quiet (modify f).
Proof. done. Qed.

Create HintDb quiet.
#[export] Hint Resolve quiet_lift quiet_require quiet_siem quiet_bind : quiet.

(** A run that attached something went through a quiet stage successfully. *)
Lemma through_quiet {A B} (m : stm Session LoadError A) (f : A -> stm Session LoadError B) s r s' :
  quiet m -> s.(attached) = [] -> (m ≫= f) s = (r, s') -> s'.(attached) <> [] ->
  exists a s1, m s = (Ok a, s1) /\ s1.(attached) = [] /\ f a s1 = (r, s').
Proof.
  intros Hq Hs Hb Hne. specialize (Hq s). unfold mbind, stm_bind in Hb.
  destruct (m s) as [[a|e|] s1]; cbn [snd] in Hq; [|injection Hb as _ <-; congruence..].
  exists a, s1. split_and!; [done|congruence|done].
Qed.

Lemma siem_Ok `{HashOps} {A} target (m : DfimResult A) s a s' :
  siem_dfim target m s = (Ok a, s') -> m = Ok a /\ s' = s.
Proof. unfold siem_dfim. destruct m; [by intros [= -> ->]|done..]. Qed.

Section loader.
Context `{HashLaws}.

Lemma verify_live_quiet w target : quiet (verify_live_image_against_sidecar w target).
Proof.
  unfold verify_live_image_against_sidecar. repeat (apply quiet_bind; [auto with quiet|intros]).
  destruct (negb _).
  - apply quiet_bind; [by apply quiet_modify|auto with quiet].
  - repeat (apply quiet_bind; [auto with quiet|intros]). done.
Qed.

(** What a successful comparison of the live image with its sidecar establishes. *)
Definition live_checked (w : World) (live : BootManifest) : Prop :=
  exists image1 blob image2 disk v1,
    w.(first_read) = Some image1 /\ w.(sidecar_read) = Some blob /\ w.(second_read) = Some image2 /\
    parse_boot_manifest blob = Ok disk /\ validate_boot_image image1 disk = Ok v1 /\
    live = to_boot (honest_manifest image1) /\ disk.(bm_merkle_root) = live.(bm_merkle_root) /\
    (padded image1 = padded image2 \/
     collide (validate_inputs image1 live.(bm_proofs)) (validate_inputs image2 live.(bm_proofs))).

Lemma verify_live_Ok w target s live disk s' :
  verify_live_image_against_sidecar w target s = (Ok (live, disk), s') -> live_checked w live.
Proof.
  unfold verify_live_image_against_sidecar. intros Hv.
  apply stm_bind_Ok in Hv as (image & s1 & [Hr1 ->]%stm_lift_Ok & Hv). apply ok_or_Ok in Hr1.
  apply stm_bind_Ok in Hv as (blob & s2 & [Hr2 ->]%stm_lift_Ok & Hv). apply ok_or_Ok in Hr2.
  apply stm_bind_Ok in Hv as (ls & s3 & [Hb ->]%siem_Ok & Hv).
  apply stm_bind_Ok in Hv as (lm & s4 & [Hlm ->]%siem_Ok & Hv).
  apply stm_bind_Ok in Hv as (dm & s5 & [Hdm ->]%siem_Ok & Hv).
  apply stm_bind_Ok in Hv as (v1 & s6 & [Hv1 ->]%siem_Ok & Hv).
  destruct (constant_time_hash_eq _ _) eqn:Hct; cbn [negb] in Hv; [|by apply stm_bind_Ok in Hv as (? & ? & _ & ?)].
  apply stm_bind_Ok in Hv as (image2 & s7 & [Hr3 ->]%stm_lift_Ok & Hv). apply ok_or_Ok in Hr3.
  apply stm_bind_Ok in Hv as (v2 & s8 & [Hv2 ->]%siem_Ok & Hv). injection Hv as -> -> ->.
  pose proof (validate_inv _ _ _ Hv1) as (Hn & _). rewrite build_boot_sidecar_ok in Hb by done.
  injection Hb as <-. rewrite parse_honest in Hlm by done. injection Hlm as <-.
  exists image, blob, image2, disk, v1. apply ct_eq_spec in Hct. split_and!; try done.
  eapply (validate_binding (to_boot (honest_manifest image))); [|by apply validate_honest|done].
  by apply (honest_wf image).
Qed.

(** The maps after the three updates. *)
Lemma complete_maps key g root : g <> 0 ->
  let m := insert_scope key (ScopeEntry.active g root)
             (set_config (DfimConfig.production g) (insert_scope key (ScopeEntry.pending g root) fresh_maps)) in
  evaluate_enforcement (m.(DFIM_SCOPE) !! key) (m.(DFIM_CONFIG) !! 0%nat) = AllowProtectedToIma /\
  forall k, k <> key -> m.(DFIM_SCOPE) !! k = None.
Proof.
  intros Hg. cbn [insert_scope set_config DFIM_SCOPE DFIM_CONFIG fresh_maps]. split.
  - rewrite lookup_insert_eq. unfold evaluate_enforcement. cbn. rewrite (proj2 (Z.eqb_neq g 0) Hg). cbn.
    by rewrite production_ready, Z.eqb_refl.
  - intros k Hk. by rewrite !lookup_insert_ne, lookup_empty.
Qed.

Lemma attach_maps w s r s' : attach_lsm_programs w s = (r, s') -> s'.(maps) = s.(maps).
Proof.
  unfold attach_lsm_programs, require. rewrite stm_lift. destruct (btf w); [|by intros [= <- <-]].
  rewrite stm_lift. destruct (program_attaches w bprm_check_security_hook); [|by intros [= <- <-]].
  rewrite stm_modify, stm_lift. destruct (program_attaches w kernel_module_from_file_hook); by intros [= <- <-].
Qed.

(** What a run that attached a hook went through, and the maps it left *)
Definition attached_ready (w : World) (g : Z) (m : Maps) : Prop :=
  g <> 0 /\
  (exists live, live_checked w live) /\
  is_ok (require_ima_appraisal w.(proc_cmdline) w.(ima_policy)) = true /\
  exists dev ino, w.(target_stat) = Some (dev, ino) /\
    let key := {| device_id := dev; inode := ino |} in
    evaluate_enforcement (m.(DFIM_SCOPE) !! key) (m.(DFIM_CONFIG) !! 0%nat) = AllowProtectedToIma /\
    forall k, k <> key -> m.(DFIM_SCOPE) !! k = None.

Lemma attached_only_when_ready w g m0 r s' :
  provision_target w g {| maps := m0; attached := []; siem := [] |} = (r, s') -> s'.(attached) <> [] ->
  attached_ready w g s'.(maps).
Proof.
  unfold provision_target. destruct (Z.eqb_spec g 0) as [|Hg]; [by intros [= <- <-]|]. intros Hp Hne.
  apply through_quiet in Hp as (target & s1 & _ & Ha1 & Hp); [|auto with quiet|done|done].
  apply through_quiet in Hp as ([live disk] & s2 & Hlive & Ha2 & Hp); [|apply verify_live_quiet|done|done].
  apply through_quiet in Hp as (ev & s3 & Hima & Ha3 & Hp); [|auto with quiet|done|done].
  apply through_quiet in Hp as (pre & s4 & _ & Ha4 & Hp); [|auto with quiet|done|done].
  apply through_quiet in Hp as ([dev ino] & s5 & [Hstat _]%stm_lift_Ok & Ha5 & Hp); [|auto with quiet|done|done].
  apply through_quiet in Hp as ([] & s6 & _ & Ha6 & Hp); [|auto with quiet|done|done].
  apply through_quiet in Hp as ([] & s7 & [= <-] & Ha7 & Hp); [|by apply quiet_modify|done|done].
  cbn [fst snd] in Hp. unfold prepare_scope_entry, publish_production_config, commit_scope_entry in Hp.
  split; [done|]. split; [exists live; by eapply verify_live_Ok|]. split.
  { apply stm_lift_Ok in Hima as [Hima _]. by destruct (require_ima_appraisal _ _). }
  exists dev, ino. split; [by apply ok_or_Ok in Hstat|]. cbv zeta.
  set (key := {| device_id := dev; inode := ino |}) in *. set (root := bm_merkle_root live) in *.
  pose proof (complete_maps key g root Hg) as Hc. cbv zeta in Hc.
  enough (s'.(maps) = insert_scope key (ScopeEntry.active g root)
    (set_config (DfimConfig.production g) (insert_scope key (ScopeEntry.pending g root) fresh_maps))) as ->
    by exact Hc. clear Hc.
  apply through_quiet in Hp as ([] & s8 & Hs8 & Ha8 & Hp);
    [|repeat (apply quiet_bind; [auto with quiet|intros]); by apply quiet_modify|done|done].
  apply stm_bind_Ok in Hs8 as ([] & t1 & [_ ->]%stm_lift_Ok & Hs8).
  apply stm_bind_Ok in Hs8 as ([] & t2 & [_ ->]%stm_lift_Ok & [= <-]).
  apply through_quiet in Hp as ([] & s9 & Hs9 & Ha9 & Hp);
    [|repeat (apply quiet_bind; [auto with quiet|intros]); by apply quiet_modify|done|done].
  apply stm_bind_Ok in Hs9 as ([] & t3 & [_ ->]%stm_lift_Ok & Hs9).
  apply stm_bind_Ok in Hs9 as ([] & t4 & [_ ->]%stm_lift_Ok & [= <-]).
  apply through_quiet in Hp as ([] & s10 & Hs10 & Ha10 & Hp);
    [|repeat (apply quiet_bind; [auto with quiet|intros]); by apply quiet_modify|done|done].
  apply stm_bind_Ok in Hs10 as ([] & t5 & [_ ->]%stm_lift_Ok & Hs10).
  apply stm_bind_Ok in Hs10 as ([] & t6 & [_ ->]%stm_lift_Ok & [= <-]).
  unfold mbind at 1, stm_bind at 1 in Hp. destruct (attach_lsm_programs w _) as [ra sa] eqn:Hat.
  apply attach_maps in Hat. cbn [set_maps maps] in Hat.
  destruct ra as [[]| |]; [|by injection Hp as _ <-..].
  unfold require in Hp. rewrite stm_lift in Hp. destruct (ring_map w); by injection Hp as _ <-.
Qed.

(** Nothing is attached unless everything was checked.  Whatever a provisioning run
    returns, if it attached a hook, then: the policy generation is non-zero; the live
    image was accepted by the sidecar on disk and has the same Merkle root as a freshly
    built one; the image read again later is the same up to zero padding, or hashing
    the two exhibits a collision; the kernel's appraisal policy passed the gate; and the
    maps are complete: the target's entry delegates to IMA and nothing else is
    enrolled. *)
Theorem hooks_attached_only_when_ready w g m0 r s' :
  provision_target w g {| maps := m0; attached := []; siem := [] |} = (r, s') -> s'.(attached) <> [] ->
  g <> 0 /\
  (exists live, live_checked w live) /\
  is_ok (require_ima_appraisal w.(proc_cmdline) w.(ima_policy)) = true /\
  exists dev ino, w.(target_stat) = Some (dev, ino) /\
    let key := {| device_id := dev; inode := ino |} in
    evaluate_enforcement (s'.(maps).(DFIM_SCOPE) !! key) (s'.(maps).(DFIM_CONFIG) !! 0%nat) = AllowProtectedToIma /\
    forall k, k <> key -> s'.(maps).(DFIM_SCOPE) !! k = None.
Proof. apply attached_only_when_ready. Qed.
End loader.

(** ** Interleaving with the kernel *)

Section interleaving.
Context (reserve : list DenyEventV1 -> bool) (mem : KernelMemory) (off : Offsets).
Context (key : ScopeKey) (g : Z) (root : list byte) (Hg : g <> 0).

Definition after (ops : list LoaderOp) : Maps := foldl (fun m op => loader_op key g root op m) fresh_maps ops.

Lemma after_prefix done_ ops : provision_ops = done_ ++ ops ->
  done_ = [] \/ done_ = [PrepareScope] \/ done_ = [PrepareScope; PublishConfig] \/ done_ = provision_ops /\ ops = [].
Proof.
  unfold provision_ops. destruct done_ as [|a [|b [|c [|d l]]]]; intros [=]; subst; auto.
Qed.

(** At every point of the sequence, the probe lets every object through. *)
Lemma prefix_admits done_ ops k : provision_ops = done_ ++ ops -> admitted (after done_) k.
Proof.
  intros Hp. destruct (decide (k = key)) as [->|Hk].
  - destruct (after_prefix done_ ops Hp) as [->|[->|[->|[-> _]]]].
    + by apply admit_unprotected.
    + apply (admit_pending _ _ (ScopeEntry.pending g root)); try done. cbn. by rewrite lookup_insert_eq.
    + apply (admit_pending _ _ (ScopeEntry.pending g root)); try done. cbn. by rewrite lookup_insert_eq.
    + apply (admit_active _ _ (ScopeEntry.active g root) (DfimConfig.production g)); try done.
      * cbn. by rewrite lookup_insert_eq.
      * by exists 1.
  - apply admit_unprotected. destruct (after_prefix done_ ops Hp) as [->|[->|[->|[-> _]]]]; cbn;
      by rewrite ?lookup_insert_ne by done.
Qed.

Definition sys_inv (s : System) : Prop :=
  exists done_, provision_ops = done_ ++ s.(todo) /\ s.(sys_maps) = after done_ /\ Forall (eq 0) s.(codes).

Lemma step_inv s s' : sys_inv s -> step reserve mem off key g root s s' -> sys_inv s'.
Proof.
  intros (done_ & Hops & Hm & Hc) Hst. destruct Hst as [op ops m cs|h ops m m' cs code Hrun]; cbn in *; subst m.
  - exists (done_ ++ [op]). cbn. rewrite <- app_assoc. split_and!; [done| |done].
    unfold after. by rewrite foldl_snoc.
  - exists done_. split; [done|]. cbn [sys_maps codes].
    assert (Hcode : code = 0 /\ m' = after done_).
    { unfold run_hook, bprm_check_security, kernel_module_from_file, try_bprm_check_security,
        try_kernel_module_from_file in Hrun.
      destruct h as [p|p].
      - destruct (scope_key_from_bprm mem off p) as [k|]; [|by injection Hrun as <- <-].
        destruct (enforce_spec _ _ _ _ _ Hrun) as (_ & _ & [(_ & -> & ->)|(Hn & _)]); [done|].
        destruct Hn. by eapply prefix_admits.
      - destruct (scope_key_from_file mem off p) as [k|]; [|by injection Hrun as <- <-].
        destruct (enforce_spec _ _ _ _ _ Hrun) as (_ & _ & [(_ & -> & ->)|(Hn & _)]); [done|].
        destruct Hn. by eapply prefix_admits. }
    destruct Hcode as [-> ->]. split; [done|]. apply Forall_app. split; [done|]. by repeat constructor.
Qed.

(** C11: the order of the updates never refuses the target.  However the kernel
    interleaves its hooks with the loader's three map updates, every hook run so far has
    returned 0 and no denial was recorded; once the updates are done, the target's entry
    is enforced: it is allowed only by delegation to IMA. *)
Theorem provisioning_never_denies s : rtc (step reserve mem off key g root) start s ->
  Forall (eq 0) s.(codes) /\ s.(sys_maps).(DFIM_DENY_EVENTS) = [] /\
  (s.(todo) = [] -> evaluate_enforcement (s.(sys_maps).(DFIM_SCOPE) !! key) (s.(sys_maps).(DFIM_CONFIG) !! 0%nat) =
     AllowProtectedToIma).
Proof.
  intros Hr. assert (Hinv : sys_inv s).
  { assert (Hs : sys_inv start) by (by exists []). clear -Hr Hs Hg. induction Hr as [|x y z Hxy _ IH]; [done|].
    apply IH. by eapply step_inv. }
  destruct Hinv as (done_ & Hops & Hm & Hc). split; [done|]. rewrite Hm.
  destruct (after_prefix done_ _ Hops) as [->|[->|[->|[-> Ht]]]]; cbn in Hops.
  1-3: split; [done|]; intros Ht; by rewrite Ht in Hops.
  split; [done|]. intros _. apply (complete_maps key g root Hg).
Qed.
End interleaving.

(** ** From the ring buffer to the log *)

Lemma deny_slices ev padding rest : length padding = 4%nat ->
  let raw := deny_event_bytes ev padding in
  slice (raw ++ rest) 0 32 = @Ok LoadError _ raw /\
  slice raw 0 8 = @Ok LoadError _ (le_encode 8 ev.(e_device_id)) /\
  slice raw 8 16 = @Ok LoadError _ (le_encode 8 ev.(e_inode)) /\
  slice raw 16 20 = @Ok LoadError _ (le_encode 4 ev.(reason)) /\
  slice raw 24 32 = @Ok LoadError _ (le_encode 8 ev.(e_policy_generation)).
Proof.
  intros Hp raw. assert (Hpz : zlen padding = 4) by (unfold zlen; lia).
  split_and!; unfold raw, deny_event_bytes; [apply slice_head; zlia|slice_app..].
Qed.

(** Every refusal reaches the log.  The record that a hook writes for a refused
    object, whatever its padding bytes and whatever follows it in the buffer, is parsed
    by the monitor into the deny event for the same device, inode, reason and
    generation. *)
Theorem deny_record_roundtrip `{HashOps} dev ino decision gen padding rest :
  0 <= dev < 2 ^ 64 -> 0 <= ino < 2 ^ 64 -> 0 <= gen < 2 ^ 64 -> 3 <= decision_code decision ->
  length padding = 4%nat ->
  parse_deny_event (deny_event_bytes (from_decision dev ino decision gen) padding ++ rest) =
    Ok (Some (Siem.from_enforcement_decision dev ino decision gen)).
Proof.
  intros Hd Hi Hg Hc Hp. set (ev := from_decision dev ino decision gen).
  destruct (deny_slices ev padding rest Hp) as (Hraw & H1 & H2 & H3 & H4).
  unfold parse_deny_event, DenyEventV1_size, bytemuck_must_read.
  rewrite (proj2 (Z.ltb_ge _ _)).
  2: { rewrite zlen_app. assert (zlen padding = 4) by (unfold zlen; lia). pose proof (zlen_nonneg rest).
       unfold deny_event_bytes. zlia. }
  rewrite Hraw, ok_bind, H1, ok_bind, H2, ok_bind, H3, ok_bind, H4, !ok_bind. cbv zeta.
  cbn [e_device_id e_inode reason e_policy_generation]. unfold ev, from_decision.
  cbn [e_device_id e_inode reason e_policy_generation].
  rewrite !(le_decode_encode_small 8) by lia.
  rewrite le_decode_encode_small by (destruct decision; cbn; lia).
  by destruct decision; cbn in Hc; try lia.
Qed.

(** The monitor gets the loader's [running] flag as its stop flag: while the loader
    runs, it reports nothing, whatever is in the ring buffer. *)
Theorem deny_monitor_silent `{HashOps} shutdown_at records rounds : (0 < shutdown_at)%nat ->
  deny_monitor (map (fun i => (running_flag shutdown_at i, records i)) (seq 0 (S rounds))) = Ok [].
Proof. intros Hs. cbn [seq map deny_monitor]. unfold running_flag. by rewrite (proj2 (Nat.ltb_lt 0 shutdown_at) Hs). Qed.

Module LoaderWitness.
#[local] Existing Instance Toy.hash.
#[local] Existing Instance toy_hash_laws.

Definition image : list byte := txt "ELF module".
Definition policy : list byte :=
  txt "appraise func=BPRM_CHECK appraise_type=imasig" ++ [x0a] ++
  txt "appraise func=MODULE_CHECK appraise_type=imasig" ++ [x0a].
Definition world : World := {|
  canonical_target := Some (txt "/lib/modules/x.ko");
  first_read := Some image;
  sidecar_read := Some (manifest_bytes (honest_manifest image));
  second_read := Some image;
  proc_cmdline := Some (txt "quiet ima_appraise=enforce");
  ima_policy := Some policy;
  preflight_read := Some image;
  target_stat := Some (2049, 131);
  ebpf_loads := true; scope_map := true; config_map := true; scope_insert _ := true; config_set := true;
  btf := true; program_attaches _ := true; ring_map := true
|}.
Definition key : ScopeKey := {| device_id := 2049; inode := 131 |}.
Definition session : Session := {| maps := fresh_maps; attached := []; siem := [] |}.

(** The run succeeds and attaches both hooks. *)
Lemma hooks_attached_only_when_ready_witness :
  is_ok (fst (provision_target world 7 session)) = true /\
  (snd (provision_target world 7 session)).(attached) = [bprm_check_security_hook; kernel_module_from_file_hook] /\
  7 <> 0 /\
  (exists live, live_checked world live) /\
  is_ok (require_ima_appraisal world.(proc_cmdline) world.(ima_policy)) = true /\
  exists dev ino, world.(target_stat) = Some (dev, ino) /\
    let key := {| device_id := dev; inode := ino |} in
    let s' := snd (provision_target world 7 session) in
    evaluate_enforcement (s'.(maps).(DFIM_SCOPE) !! key) (s'.(maps).(DFIM_CONFIG) !! 0%nat) = AllowProtectedToIma /\
    forall k, k <> key -> s'.(maps).(DFIM_SCOPE) !! k = None.
Proof.
  split; [by vm_compute|]. split; [by vm_compute|].
  apply (hooks_attached_only_when_ready world 7 fresh_maps (fst (provision_target world 7 session))); [|by vm_compute].
  apply surjective_pairing.
Defined.

(** The kernel runs a hook on the target between the second and the third update. *)
Lemma provisioning_never_denies_witness :
  let m := after key 7 (array xab 32) [PrepareScope; PublishConfig] in
  let s := {| todo := [CommitScope]; sys_maps := m; codes := [0] |} in
  Forall (eq 0) s.(codes) /\ s.(sys_maps).(DFIM_DENY_EVENTS) = [] /\
  (s.(todo) = [] -> evaluate_enforcement (s.(sys_maps).(DFIM_SCOPE) !! key) (s.(sys_maps).(DFIM_CONFIG) !! 0%nat) =
     AllowProtectedToIma).
Proof.
  apply (provisioning_never_denies (fun _ => true) EnforcementWitness.mem EnforcementWitness.off key 7 (array xab 32));
    [done|].
  eapply rtc_l; [apply step_loader|]. eapply rtc_l; [apply step_loader|].
  eapply rtc_l; [apply (step_hook _ _ _ _ _ _ (BprmCheck 0x1000)); by vm_compute|]. apply rtc_refl.
Defined.

Lemma deny_record_roundtrip_witness :
  parse_deny_event (deny_event_bytes (from_decision 2049 131 DenyStaleGeneration 7) [x01; x02; x03; x04] ++ [xff]) =
    Ok (Some (Siem.from_enforcement_decision 2049 131 DenyStaleGeneration 7)).
Proof. apply deny_record_roundtrip; by vm_compute. Defined.
End LoaderWitness.
