(* ===== verification/HostInit.v ===== *)
(** * HostInit: the evaluation-license gate of the host binaries

    Models [dfim_host_init/src/lib.rs]: the authenticated state file, the first-run
    anchor, the clock-rollback watermark and the 30-day window.  The file system and
    the clock are explicit: the state is the content of the state file, and each run
    gets the results of its file operations.

    The theorems show that the file round trips and what it must look like to be
    accepted, and that a sequence of runs is admitted exactly when its clock never goes
    back and never leaves the window. *)

From stdpp Require Import base list numbers option strings.
From Stdlib Require Import ZArith Lia Strings.Byte Sorted.
From S2P Require Import Prelude Crypto Core.

Definition EVAL_PERIOD_SECS : Z := 30 * 24 * 60 * 60.
Definition STATE_MAGIC : list byte := bytes_of_string "DFIMLIC" ++ [x00].
Definition STATE_VERSION : Z := 1.
Definition STATE_HEADER_LEN : Z := 28.
Definition STATE_INTEGRITY_LEN : Z := 32.
Definition STATE_FILE_LEN : Z := STATE_HEADER_LEN + STATE_INTEGRITY_LEN.
Definition INTEGRITY_DOMAIN : list byte := bytes_of_string "dfim-host-init-license-v1" ++ [x00].

Record LicenseState := {
  activation_timestamp : Z;
  last_execution_timestamp : Z
}.

Inductive EvalLicenseError := ClockTampering | Expired | StateUnreadable.

Abbreviation LicenseResult := (outcome EvalLicenseError).

(** The bytes of [STATE_DIR_ENV], if set, and of the current directory, if known *)
Definition execution_dir (env cwd : option (list byte)) : list byte :=
  match env with
  | Some ((_ :: _) as dir) => dir
  | _ => default (bytes_of_string ".") cwd
  end.

Definition encode_state_header (state : LicenseState) : LicenseResult (list byte) :=
  let header := array x00 STATE_HEADER_LEN in
  header ← copy_into header 0 8 STATE_MAGIC;
  header ← copy_into header 8 10 (le_encode 2 STATE_VERSION);
  header ← copy_into header 12 20 (le_encode 8 state.(activation_timestamp));
  copy_into header 20 28 (le_encode 8 state.(last_execution_timestamp)).

Definition decode_state_header (header : list byte) : LicenseResult LicenseState :=
  magic ← slice header 0 8;
  if negb (bytes_eqb magic STATE_MAGIC) then Err StateUnreadable
  else
    v ← slice header 8 10;
    if negb (le_decode v =? STATE_VERSION) then Err StateUnreadable
    else
      activation_bytes ← slice header 12 20;
      last_exec_bytes ← slice header 20 28;
      Ok {| activation_timestamp := le_decode activation_bytes;
            last_execution_timestamp := le_decode last_exec_bytes |}.

(** The loop of [constant_time_eq] *)
Fixpoint diff_loop (diff : Z) (a b : list byte) : Z :=
  match a, b with
  | x :: a, y :: b => diff_loop (Z.lor diff (Z.lxor (b2z x) (b2z y))) a b
  | _, _ => diff
  end.

Definition constant_time_eq (a b : list byte) : bool :=
  if negb (zlen a =? zlen b) then false else diff_loop 0 a b =? 0.

(** What the operating system answers to one run: whether reading works, and what a
    failing write leaves in the file. *)
Record FileOps := {
  readable : bool;
  write_failure : option (option (list byte))
}.

Section model.
Context `{HashOps}.

Definition compute_state_integrity (header : list byte) : list byte :=
  sha256_digest_chunked [INTEGRITY_DOMAIN; header].

(** The bytes that [write_state] builds *)
Definition state_file (state : LicenseState) : LicenseResult (list byte) :=
  header ← encode_state_header state;
  let integrity := compute_state_integrity header in
  let file := array x00 STATE_FILE_LEN in
  file ← copy_into file 0 STATE_HEADER_LEN header;
  copy_into file STATE_HEADER_LEN STATE_FILE_LEN integrity.

(** [write_state] with [map_err(|_| StateUnreadable)], as both callers use it; the state
    is the content of the file, [None] if there is none. *)
Definition write_state (ops : FileOps) (state : LicenseState) : stm (option (list byte)) EvalLicenseError unit :=
  file ← lift (state_file state);
  match ops.(write_failure) with
  | None => put (Some file)
  | Some left_over => put left_over ;; lift (Err StateUnreadable)
  end.

Definition read_state (ops : FileOps) (content : list byte) : LicenseResult LicenseState :=
  if negb ops.(readable) then Err StateUnreadable
  else if negb (zlen content =? STATE_FILE_LEN) then Err StateUnreadable
  else if starts_with content (bytes_of_string "STATE_") then Err StateUnreadable
  else
    header ← slice content 0 STATE_HEADER_LEN;
    stored ← slice content STATE_HEADER_LEN (zlen content);
    let expected := compute_state_integrity header in
    if negb (constant_time_eq expected stored) then Err StateUnreadable
    else decode_state_header header.

Definition check_eval_license (ops : FileOps) (now_secs : Z) : stm (option (list byte)) EvalLicenseError unit :=
  file ← get;
  match file with
  | Some content =>
      state ← lift (read_state ops content);
      if now_secs <? state.(last_execution_timestamp) then lift (Err ClockTampering)
      else if now_secs <? state.(activation_timestamp) then lift (Err ClockTampering)
      else if saturating_sub now_secs state.(activation_timestamp) >? EVAL_PERIOD_SECS then lift (Err Expired)
      else write_state ops {| activation_timestamp := state.(activation_timestamp);
                              last_execution_timestamp := now_secs |}
  | None =>
      write_state ops {| activation_timestamp := now_secs; last_execution_timestamp := now_secs |}
  end.

(** [current_unix_secs]: [None] for a clock before the epoch *)
Definition current_unix_secs (clock : option Z) : LicenseResult Z := ok_or clock ClockTampering.

(** How a binary continues after the gate: it runs, or it prints a message and exits
    with status 1. *)
Inductive Gate := Continues | Exits (e : EvalLicenseError).

(** The message of [CLOCK_TAMPER_MESSAGE] is printed for both causes. *)
Definition exit_with (e : EvalLicenseError) : Gate :=
  match e with
  | ClockTampering | StateUnreadable => Exits ClockTampering
  | Expired => Exits Expired
  end.

Definition enforce_eval_license (ops : FileOps) (clock : option Z) (file : option (list byte)) :
    option (Gate * option (list byte)) :=
  match current_unix_secs clock with
  | Err e => Some (exit_with e, file)
  | Panic => None
  | Ok now =>
      match check_eval_license ops now file with
      | (Ok tt, file') => Some (Continues, file')
      | (Err e, file') => Some (exit_with e, file')
      | (Panic, _) => None
      end
  end.

(** [host_gate_required]: the feature, and the value of [DFIM_PRODUCTION] *)
Definition host_gate_required (production_build : bool) (env : option (list byte)) : bool :=
  if production_build then false
  else match env with
       | Some v => negb (bytes_eqb v (bytes_of_string "1") || bytes_eqb v (bytes_of_string "true") ||
                         bytes_eqb v (bytes_of_string "TRUE"))
       | None => true
       end.

Definition enforce_host_gate (production_build : bool) (env : option (list byte)) (ops : FileOps)
    (clock : option Z) (file : option (list byte)) : option (Gate * option (list byte)) :=
  if negb (host_gate_required production_build env) then Some (Continues, file)
  else enforce_eval_license ops clock file.
End model.

(** ** The state file *)

Definition state_wf (s : LicenseState) : Prop :=
  0 <= s.(activation_timestamp) < 2 ^ 64 /\ 0 <= s.(last_execution_timestamp) < 2 ^ 64.

(** The header with its two reserved bytes. *)
Definition header_bytes (reserved : list byte) (s : LicenseState) : list byte :=
  STATE_MAGIC ++ le_encode 2 STATE_VERSION ++ reserved ++ le_encode 8 s.(activation_timestamp) ++
  le_encode 8 s.(last_execution_timestamp).

(** An authenticated file. *)
Definition file_bytes `{HashOps} (reserved : list byte) (s : LicenseState) : list byte :=
  let h := header_bytes reserved s in h ++ sha256 (INTEGRITY_DOMAIN ++ h).

Lemma diff_loop_zero diff a b : 0 <= diff -> length a = length b -> diff_loop diff a b = 0 <-> diff = 0 /\ a = b.
Proof.
  revert diff b. induction a as [|x a IH]; intros diff [|y b] Hd Hl; try done; cbn [diff_loop].
  - split; [by intros ->|by intros [-> _]].
  - rewrite IH by (rewrite ?Z.lor_nonneg, ?Z.lxor_nonneg; pose proof (b2z_range x); pose proof (b2z_range y);
      cbn in Hl; lia).
    rewrite Z.lor_eq_0_iff, Z.lxor_eq_0_iff. split.
    + intros [[-> Hxy] ->]. apply b2z_inj in Hxy. by subst.
    + by intros [-> [= -> ->]].
Qed.

Lemma constant_time_eq_spec a b : constant_time_eq a b = true <-> a = b.
Proof.
  unfold constant_time_eq. destruct (Z.eqb_spec (zlen a) (zlen b)) as [Hl|Hl]; cbn [negb].
  - rewrite Z.eqb_eq, diff_loop_zero by (unfold zlen in Hl; lia). naive_solver.
  - split; [done|]. by intros ->.
Qed.

(** A list of eight bytes, element by element. *)
Lemma eight (l : list byte) : length l = 8%nat ->
  exists a b c d e f g h, l = [a; b; c; d; e; f; g; h].
Proof.
  intros Hl. destruct l as [|a [|b [|c [|d [|e [|f [|g [|h [|]]]]]]]]]; try done. by repeat eexists.
Qed.

Lemma encode_state_header_ok s : encode_state_header s = Ok (header_bytes [x00; x00] s).
Proof.
  unfold encode_state_header, header_bytes.
  destruct (eight (le_encode 8 (activation_timestamp s))) as (a0 & a1 & a2 & a3 & a4 & a5 & a6 & a7 & ->);
    [apply length_le_encode|].
  destruct (eight (le_encode 8 (last_execution_timestamp s))) as (b0 & b1 & b2 & b3 & b4 & b5 & b6 & b7 & ->);
    [apply length_le_encode|].
  by vm_compute.
Qed.

Lemma zlen_header reserved s : zlen reserved = 2 -> zlen (header_bytes reserved s) = 28.
Proof. intros Hr. unfold header_bytes. assert (zlen STATE_MAGIC = 8) by done. zlia. Qed.

(** The header reader inverts the header layout; it ignores the reserved bytes. *)
Lemma decode_state_header_Ok l s : zlen l = 28 -> decode_state_header l = Ok s <->
  state_wf s /\ exists reserved, zlen reserved = 2 /\ l = header_bytes reserved s.
Proof.
  intros Hl. split.
  - unfold decode_state_header.
    destruct (@slice_ok EvalLicenseError _ l 0 8) as (m & Hm & Hml); [lia..|]. rewrite Hm, ok_bind.
    destruct (bytes_eqb m STATE_MAGIC) eqn:Hmg; [|done]. apply bytes_eqb_eq in Hmg as ->. cbn [negb].
    destruct (@slice_ok EvalLicenseError _ l 8 10) as (v & Hv & Hvl); [lia..|]. rewrite Hv, ok_bind.
    destruct (Z.eqb_spec (le_decode v) STATE_VERSION) as [Hver|]; [|done]. cbn [negb].
    destruct (@slice_ok EvalLicenseError _ l 10 12) as (rv & Hrv & Hrl); [lia..|].
    destruct (@slice_ok EvalLicenseError _ l 12 20) as (a & Ha & Hal); [lia..|]. rewrite Ha, ok_bind.
    destruct (@slice_ok EvalLicenseError _ l 20 28) as (b & Hb & Hbl); [lia..|]. rewrite Hb, ok_bind.
    intros [= <-]. pose proof (le_decode_range a) as Har. pose proof (le_decode_range b) as Hbr.
    replace (8 * zlen a) with 64 in Har by lia. replace (8 * zlen b) with 64 in Hbr by lia.
    split; [done|]. exists rv. split; [lia|].
    apply (slice_join _ _ _ _ _ _ Hm) in Hv. apply (slice_join _ _ _ _ _ _ Hv) in Hrv.
    apply (slice_join _ _ _ _ _ _ Hrv) in Ha. apply (slice_join _ _ _ _ _ _ Ha) in Hb.
    rewrite slice_all in Hb by done. apply Ok_inj in Hb. rewrite Hb at 1. unfold header_bytes.
    cbn [activation_timestamp last_execution_timestamp].
    rewrite (le_encode_decode_n 8 a), (le_encode_decode_n 8 b), <- Hver, (le_encode_decode_n 2 v) by lia.
    by rewrite <- !app_assoc.
  - intros [[Ha Hb] (reserved & Hr & ->)]. unfold decode_state_header.
    assert (Hmz : zlen STATE_MAGIC = 8) by done. unfold header_bytes.
    rewrite (slice_here STATE_MAGIC _ 0 8), ok_bind, bytes_eqb_refl by (done || lia). cbn [negb].
    set (d := STATE_MAGIC ++ _).
    replace (slice d 8 10) with (@Ok EvalLicenseError _ (le_encode 2 STATE_VERSION))
      by (symmetry; unfold d; slice_app).
    rewrite ok_bind, le_decode_encode_small, Z.eqb_refl by done. cbn [negb].
    replace (slice d 12 20) with (@Ok EvalLicenseError _ (le_encode 8 (activation_timestamp s)))
      by (symmetry; unfold d; slice_app).
    replace (slice d 20 28) with (@Ok EvalLicenseError _ (le_encode 8 (last_execution_timestamp s)))
      by (symmetry; unfold d; slice_app).
    rewrite !ok_bind, !le_decode_encode_small by lia. by destruct s.
Qed.

Section file.
Context `{HashLaws}.

Lemma integrity_eq header : compute_state_integrity header = sha256 (INTEGRITY_DOMAIN ++ header).
Proof. unfold compute_state_integrity, sha256_digest_chunked. cbn [concat]. by rewrite app_nil_r. Qed.

Lemma state_file_ok s : state_file s = Ok (file_bytes [x00; x00] s).
Proof.
  unfold state_file, file_bytes. rewrite encode_state_header_ok, ok_bind, integrity_eq. cbv zeta.
  set (h := header_bytes [x00; x00] s). assert (Hh : zlen h = 28) by (by apply zlen_header).
  set (t := sha256 _). assert (Ht : zlen t = 32) by apply zlen_sha256.
  unfold STATE_HEADER_LEN, STATE_FILE_LEN, STATE_INTEGRITY_LEN, STATE_HEADER_LEN. set (z := array x00 (28 + 32)).
  assert (Hz : length z = 60%nat) by apply length_replicate.
  rewrite copy_into_ok by (unfold zlen in *; lia). rewrite ok_bind.
  rewrite copy_into_ok by (unfold zlen in *; rewrite ?length_splice; lia). f_equal.
  change (Z.to_nat 0) with 0%nat. replace (Z.to_nat 28) with (0 + length h)%nat by (unfold zlen in Hh; lia).
  rewrite splice_splice by (unfold zlen in *; lia). rewrite splice_all; [done|].
  rewrite length_app. unfold zlen in *. lia.
Qed.

(** Exactly which contents the reader accepts, and what it returns. *)
Lemma read_state_Ok ops content s : read_state ops content = Ok s <->
  ops.(readable) = true /\ state_wf s /\ exists reserved, zlen reserved = 2 /\ content = file_bytes reserved s.
Proof.
  unfold read_state. destruct (readable ops); cbn [negb]; [|split; [done|by intros [? _]]].
  unfold STATE_FILE_LEN, STATE_HEADER_LEN, STATE_INTEGRITY_LEN, STATE_HEADER_LEN. change (28 + 32) with 60.
  destruct (Z.eqb_spec (zlen content) 60) as [Hlen|Hlen]; cbn [negb].
  2: { split; [done|]. intros (_ & _ & r & Hr & ->). destruct Hlen. unfold file_bytes.
       rewrite zlen_app, zlen_header, zlen_sha256 by done. done. }
  destruct (@slice_ok EvalLicenseError _ content 0 28) as (h & Hh & Hhl); [lia..|].
  destruct (@slice_ok EvalLicenseError _ content 28 60) as (t & Ht & Htl); [lia..|].
  rewrite Hlen, Hh, Ht. pose proof (slice_join _ _ _ _ _ _ Hh Ht) as Hc. rewrite slice_all in Hc by done.
  apply Ok_inj in Hc.
  assert (Hst : starts_with content (bytes_of_string "STATE_") = true -> bytes_eqb (take 8 h) STATE_MAGIC = false).
  { intros (x & Hx)%starts_with_app. rewrite Hc in Hx. destruct (bytes_eqb (take 8 h) STATE_MAGIC) eqn:Hb; [|done].
    apply bytes_eqb_eq in Hb. rewrite <- (take_drop 8 h), Hb in Hx. done. }
  destruct (starts_with content (bytes_of_string "STATE_")) eqn:Hsw.
  { split; [done|]. intros (_ & _ & r & Hr & Hf). specialize (Hst eq_refl). exfalso.
    assert (h = header_bytes r s) as ->.
    { unfold file_bytes in Hf. rewrite Hf in Hh. rewrite slice_head in Hh by (symmetry; by apply zlen_header).
      by apply Ok_inj in Hh. }
    by rewrite bytes_eqb_refl in Hst. }
  rewrite !ok_bind. cbv zeta. rewrite integrity_eq.
  destruct (constant_time_eq (sha256 (INTEGRITY_DOMAIN ++ h)) t) eqn:Hct; cbn [negb].
  - apply constant_time_eq_spec in Hct. rewrite decode_state_header_Ok by lia. split.
    + intros [Hwf (r & Hr & ->)]. split_and!; [done..|]. exists r. split; [done|]. unfold file_bytes. cbv zeta.
      by rewrite Hct.
    + intros (_ & Hwf & r & Hr & Hf). split; [done|]. exists r. split; [done|].
      unfold file_bytes in Hf. rewrite Hf in Hh. rewrite slice_head in Hh by (symmetry; by apply zlen_header).
      by apply Ok_inj in Hh.
  - split; [done|]. intros (_ & Hwf & r & Hr & Hf). exfalso.
    unfold file_bytes in Hf. cbv zeta in Hf. rewrite Hf in Hc.
    apply app_inj_1 in Hc as [<- <-]; [|pose proof (zlen_header r s Hr); unfold zlen in *; lia].
    by rewrite (proj2 (constant_time_eq_spec _ _) eq_refl) in Hct.
Qed.
End file.

(** ** Sequences of runs *)

(** A file system on which reads and writes work. *)
Definition works : FileOps := {| readable := true; write_failure := None |}.

Section runs.
Context `{HashLaws}.

(** The runs at times [ts], one after the other, all get past the gate. *)
Fixpoint all_admitted (file : option (list byte)) (ts : list Z) : bool :=
  match ts with
  | [] => true
  | t :: ts =>
      match check_eval_license works t file with
      | (Ok tt, file') => all_admitted file' ts
      | _ => false
      end
  end.

Lemma write_works s file : write_state works s file = (Ok tt, Some (file_bytes [x00; x00] s)).
Proof. unfold write_state. by rewrite stm_lift, state_file_ok. Qed.

Lemma check_first now file : file = None ->
  check_eval_license works now file =
    (Ok tt, Some (file_bytes [x00; x00] {| activation_timestamp := now; last_execution_timestamp := now |})).
Proof. intros ->. unfold check_eval_license. rewrite stm_get. apply write_works. Qed.

Lemma check_next r s now : zlen r = 2 -> state_wf s ->
  check_eval_license works now (Some (file_bytes r s)) =
    if now <? s.(last_execution_timestamp) then (Err ClockTampering, Some (file_bytes r s))
    else if now <? s.(activation_timestamp) then (Err ClockTampering, Some (file_bytes r s))
    else if saturating_sub now s.(activation_timestamp) >? EVAL_PERIOD_SECS then (Err Expired, Some (file_bytes r s))
    else (Ok tt, Some (file_bytes [x00; x00]
           {| activation_timestamp := s.(activation_timestamp); last_execution_timestamp := now |})).
Proof.
  intros Hr Hwf. unfold check_eval_license. rewrite stm_get, stm_lift.
  rewrite (proj2 (read_state_Ok works (file_bytes r s) s)) by (split_and!; try done; by exists r).
  destruct (now <? _); [done|]. destruct (now <? _); [done|]. destruct (_ >? _); [done|]. apply write_works.
Qed.

Lemma all_admitted_next act last ts r : 0 <= act <= last -> last < 2 ^ 64 -> zlen r = 2 ->
  Forall (fun t => 0 <= t < 2 ^ 64) ts ->
  all_admitted (Some (file_bytes r {| activation_timestamp := act; last_execution_timestamp := last |})) ts = true <->
  Sorted Z.le (last :: ts) /\ Forall (fun t => t - act <= EVAL_PERIOD_SECS) ts.
Proof.
  intros Ha Hlt Hr Hts. revert last r Ha Hlt Hr. induction Hts as [|t ts Ht _ IH]; intros last r Ha Hlt Hr.
  { cbn [all_admitted]. split; [intros _; split; repeat constructor|done]. }
  cbn [all_admitted]. rewrite check_next by (done || (split; cbn; lia)). cbn [activation_timestamp last_execution_timestamp].
  destruct (Z.ltb_spec t last) as [Hlt'|Hge].
  { split; [done|]. intros [Hs _]. apply Sorted_inv in Hs as [_ Hh]. apply HdRel_inv in Hh. lia. }
  rewrite (proj2 (Z.ltb_ge t act)) by lia. unfold saturating_sub. rewrite Z.gtb_ltb.
  destruct (Z.ltb_spec EVAL_PERIOD_SECS (Z.max (t - act) 0)) as [Hexp|Hin].
  { split; [done|]. intros [_ Hf]. apply Forall_cons in Hf as [Hf _]. unfold EVAL_PERIOD_SECS in *. lia. }
  rewrite IH by (done || lia). rewrite Forall_cons. split.
  - intros [Hs Hf]. split; [|split; [lia|done]]. constructor; [done|by constructor].
  - intros [Hs [_ Hf]]. split; [|done]. by apply Sorted_inv in Hs as [? _].
Qed.

(** The state file is exact.  The reader accepts a content, and returns a state,
    exactly when the file is readable and the content is the 28-byte header of that
    state (its two reserved bytes are free) followed by the domain-separated SHA-256 of
    that header; in particular what [write_state] writes reads back. *)
Theorem license_file_exact ops content s :
  (read_state ops content = Ok s <->
   ops.(readable) = true /\ state_wf s /\ exists reserved, zlen reserved = 2 /\ content = file_bytes reserved s) /\
  state_file s = Ok (file_bytes [x00; x00] s) /\
  (state_wf s -> (f ← state_file s; read_state works f) = Ok s).
Proof.
  split_and!; [apply read_state_Ok|apply state_file_ok|]. intros Hwf. rewrite state_file_ok, ok_bind.
  apply read_state_Ok. split_and!; [done..|]. by exists [x00; x00].
Qed.

(** The window.  Runs of the gate at times [t0, ts] on a machine without a state
    file, with a working file system, all get through exactly when the clock never went
    back between two of them and none is more than 30 days after the first.  A refused
    run leaves the file as it was. *)
Theorem license_window t0 ts : Forall (fun t => 0 <= t < 2 ^ 64) (t0 :: ts) ->
  (all_admitted None (t0 :: ts) = true <->
   Sorted Z.le (t0 :: ts) /\ Forall (fun t => t - t0 <= EVAL_PERIOD_SECS) ts) /\
  (forall now r s e file', zlen r = 2 -> state_wf s ->
     check_eval_license works now (Some (file_bytes r s)) = (Err e, file') -> file' = Some (file_bytes r s)).
Proof.
  intros [Ht0 Hts]%Forall_cons. split.
  - cbn [all_admitted]. rewrite check_first by done. by apply all_admitted_next; [lia..| |].
  - intros now r s e file' Hr Hwf. rewrite check_next by done.
    destruct (now <? _); [by intros [= _ <-]|]. destruct (now <? _); [by intros [= _ <-]|].
    destruct (_ >? _); by intros [= _ <-].
Qed.
End runs.

Module HostInitWitness.
#[local] Existing Instance Toy.hash.
#[local] Existing Instance toy_hash_laws.

Definition state : LicenseState := {| activation_timestamp := 3000000; last_execution_timestamp := 3003600 |}.

Lemma license_file_exact_witness :
  (read_state works (file_bytes [x01; x02] state) = Ok state <->
   works.(readable) = true /\ state_wf state /\
   exists reserved, zlen reserved = 2 /\ file_bytes [x01; x02] state = file_bytes reserved state) /\
  state_file state = Ok (file_bytes [x00; x00] state) /\
  (state_wf state -> (f ← state_file state; read_state works f) = Ok state).
Proof. apply license_file_exact. Defined.

(** The last second of the window is inside, the next one is not. *)
Lemma license_window_witness :
  all_admitted None [3000000; 3003600; 3000000 + EVAL_PERIOD_SECS] = true /\
  all_admitted None [3000000; 3000001 + EVAL_PERIOD_SECS] = false /\
  (all_admitted None (3000000 :: [3003600]) = true <->
   Sorted Z.le (3000000 :: [3003600]) /\ Forall (fun t => t - 3000000 <= EVAL_PERIOD_SECS) [3003600]) /\
  (forall now r s e file', zlen r = 2 -> state_wf s ->
     check_eval_license works now (Some (file_bytes r s)) = (Err e, file') -> file' = Some (file_bytes r s)).
Proof.
  split; [by vm_compute|]. split; [by vm_compute|]. apply license_window. by repeat constructor.
Defined.
End HostInitWitness.
