(* ===== verification/LoaderMain.v ===== *)
(** * LoaderMain: the loader as a process

    [main], [load_program], [load_ebpf], [wait_for_shutdown] and [run_until_shutdown] of
    [dfim_linux_kernel/dfim-ebpf-user/src/main.rs]: the licence gate, the command, the
    waiting loop with its Ctrl-C handler, and the end of the process, which drops the loaded
    object.  What then stays attached is up to the library [aya] and the kernel: a parameter
    of the model.  A step is one action of the process, of the
    user who sends the signal, or of the kernel that runs an attached hook; any of them may
    come next.  The start is one step; the hook calls that fall between the map updates of
    the start are the steps of [Loader].

    [loader_lifecycle]: hooks are attached, during the process or after it, only if it passed
    the licence gate and every check of the provisioning.  [shutdown_ends]: after the signal the
    process can only end, with success.  [restart_unprotects]: the code pins no link and no map,
    so where the library detaches what it drops, an ended process protects nothing, and the
    next one starts with empty maps. *)

From stdpp Require Import base list numbers option strings gmap sets.
From Stdlib Require Import ZArith Lia Strings.Byte.
From S2P Require Import Prelude Crypto Core Merkle BlockStream Pipeline Enforcement Json Telemetry ImaPolicy Loader HostInit.

(** The paths of [Provision] select the files behind the reads of [World]. *)
Inductive Commands := Load | Provision (policy_generation : Z).

(** What the process finds *)
Record Start := {
  production : bool;
  production_env : option (list byte);
  licence_ops : FileOps;
  start_clock : option Z;
  (** [Cli::parse]: [None] is a usage error, which ends the process *)
  command : option Commands;
  os : World;
  (** [ctrlc::set_handler] succeeds; its result is ignored *)
  handler_set : bool;
  (** [aya] and the kernel: which of the attached hooks stay attached when the [Ebpf] object is
      dropped or the process dies *)
  survive : list HookName -> list HookName
}.

Inductive Exit := Success | Failed (e : LoadError) | NoLicence (e : EvalLicenseError) | Usage | Killed | Crashed.

Inductive Stage := Begins | Waiting (running : bool) | Exited (x : Exit).

Record Proc := { stage : Stage; session : Session; licence : option (list byte) }.

Section model.
Context `{HashOps}.
Context (st : Start).

(** The end of the scope of [ebpf], by [drop(ebpf)], by an early return or with the process *)
Definition drop_ebpf (s : Session) : Session := {| maps := s.(maps); attached := st.(survive) s.(attached); siem := s.(siem) |}.

Definition load_ebpf : stm Session LoadError unit :=
  require st.(os).(ebpf_loads) LoadFailed ;; modify (set_maps fresh_maps).

(** [load_program], up to the waiting loop; a failure of the logger is only reported. *)
Definition load_program : stm Session LoadError unit := load_ebpf.

Definition run_command (c : Commands) : stm Session LoadError unit :=
  match c with
  | Load => load_program
  | Provision g => provision_target st.(os) g ;; mret tt
  end.

(** [main], up to the waiting loop of the command *)
Definition begin (p : Proc) : Proc :=
  match enforce_host_gate st.(production) st.(production_env) st.(licence_ops) st.(start_clock) p.(licence) with
  | None => {| stage := Exited Crashed; session := p.(session); licence := p.(licence) |}
  | Some (Exits e, file) => {| stage := Exited (NoLicence e); session := p.(session); licence := file |}
  | Some (Continues, file) =>
      match st.(command) with
      | None => {| stage := Exited Usage; session := p.(session); licence := file |}
      | Some c =>
          match run_command c p.(session) with
          | (Ok _, s) => {| stage := Waiting true; session := s; licence := file |}
          | (Err e, s) => {| stage := Exited (Failed e); session := drop_ebpf s; licence := file |}
          | (Panic, s) => {| stage := Exited Crashed; session := drop_ebpf s; licence := file |}
          end
      end
  end.

Definition hook_name (h : Hook) : HookName :=
  match h with BprmCheck _ => bprm_check_security_hook | ModuleFromFile _ => kernel_module_from_file_hook end.

Context (reserve : list DenyEventV1 -> bool) (mem : KernelMemory) (off : Offsets).

(** [run_until_shutdown]: the loop tests the flag and sleeps; the handler clears it.  A signal
    without a handler ends the process. *)
Inductive pstep : Proc -> Proc -> Prop :=
| ps_begin s f : pstep {| stage := Begins; session := s; licence := f |} (begin {| stage := Begins; session := s; licence := f |})
| ps_sleep s f : pstep {| stage := Waiting true; session := s; licence := f |} {| stage := Waiting true; session := s; licence := f |}
| ps_signal r s f : st.(handler_set) = true ->
    pstep {| stage := Waiting r; session := s; licence := f |} {| stage := Waiting false; session := s; licence := f |}
| ps_killed r s f : st.(handler_set) = false ->
    pstep {| stage := Waiting r; session := s; licence := f |} {| stage := Exited Killed; session := drop_ebpf s; licence := f |}
| ps_end s f :
    pstep {| stage := Waiting false; session := s; licence := f |} {| stage := Exited Success; session := drop_ebpf s; licence := f |}
| ps_hook g h s f code m : hook_name h ∈ s.(attached) -> run_hook reserve mem off h s.(maps) = (code, m) ->
    pstep {| stage := g; session := s; licence := f |} {| stage := g; session := set_maps m s; licence := f |}.

Definition fresh (file : option (list byte)) : Proc :=
  {| stage := Begins; session := {| maps := fresh_maps; attached := []; siem := [] |}; licence := file |}.
End model.

Section proofs.
Context `{HashLaws}.
Context (st : Start) (reserve : list DenyEventV1 -> bool) (mem : KernelMemory) (off : Offsets).

(** Dropping the object attaches nothing. *)
Context (Hsurvive : forall l, st.(survive) l ⊆ l).

Abbreviation pstep' := (pstep st reserve mem off).

(** A hook changes neither the scope nor the configuration. *)
Lemma hook_keeps h m code m' : run_hook reserve mem off h m = (code, m') -> m'.(DFIM_SCOPE) = m.(DFIM_SCOPE) /\ m'.(DFIM_CONFIG) = m.(DFIM_CONFIG).
Proof.
  assert (Hr : forall key scope config d m, (record_deny_event reserve key scope config d m).(DFIM_SCOPE) = m.(DFIM_SCOPE) /\
    (record_deny_event reserve key scope config d m).(DFIM_CONFIG) = m.(DFIM_CONFIG)).
  { intros. unfold record_deny_event. by destruct (reserve _). }
  assert (Hp : forall key, (snd (enforce_dfim_policy reserve key m)).(DFIM_SCOPE) = m.(DFIM_SCOPE) /\
    (snd (enforce_dfim_policy reserve key m)).(DFIM_CONFIG) = m.(DFIM_CONFIG)).
  { intros key. unfold enforce_dfim_policy. destruct (evaluate_enforcement _ _); cbn [snd]; done || apply Hr. }
  destruct h; cbn [run_hook]; unfold bprm_check_security, kernel_module_from_file, try_bprm_check_security, try_kernel_module_from_file;
    [destruct (scope_key_from_bprm mem off bprm) as [key|]|destruct (scope_key_from_file mem off file) as [key|]];
    try (by intros [= <- <-]); specialize (Hp key); destruct (enforce_dfim_policy reserve key m) as [[c|c] m1]; by intros [= <- <-].
Qed.

(** The licence gate let the process on, and left the file [file']. *)
Definition gate_passed (file file' : option (list byte)) : Prop :=
  enforce_host_gate st.(production) st.(production_env) st.(licence_ops) st.(start_clock) file = Some (Continues, file').

(** What the attached hooks stand on, in a process that was started with the licence file [file] *)
Definition hooks_ok (file : option (list byte)) (p : Proc) : Prop :=
  p.(session).(attached) <> [] -> gate_passed file p.(licence) /\
  exists g, st.(command) = Some (Provision g) /\ attached_ready st.(os) g p.(session).(maps).

(** The invariant of that process *)
Definition proc_ok (file : option (list byte)) (p : Proc) : Prop :=
  match p.(stage) with
  | Begins => p = fresh file
  | Exited _ => hooks_ok file p
  | Waiting _ => gate_passed file p.(licence) /\ hooks_ok file p
  end.

Lemma survive_nil l : l = [] -> st.(survive) l = [].
Proof. intros ->. destruct (survive st []) as [|h l] eqn:E; [done|]. exfalso. apply (not_elem_of_nil h), Hsurvive. rewrite E. by left. Qed.

Lemma drop_ok file g g' s f : hooks_ok file {| stage := g; session := s; licence := f |} ->
  hooks_ok file {| stage := g'; session := drop_ebpf st s; licence := f |}.
Proof.
  unfold hooks_ok. cbn [session drop_ebpf attached maps licence]. intros Hok Hne. apply Hok. intros E. by apply Hne, survive_nil.
Qed.

Lemma begin_ok file : proc_ok file (begin st (fresh file)).
Proof.
  unfold begin, fresh. cbn [licence session]. destruct (enforce_host_gate _ _ _ _ _) as [[[|e] f']|] eqn:Hg; [|by intros []..].
  destruct (command st) as [c|] eqn:Hc; [|by intros []].
  assert (Hok : forall r s, run_command st c {| maps := fresh_maps; attached := []; siem := [] |} = (r, s) ->
    hooks_ok file {| stage := Begins; session := s; licence := f' |}).
  { intros r s Hr Hne. split; [done|]. destruct c as [|g]; cbn [run_command] in Hr.
    - unfold load_program, load_ebpf, require in Hr. rewrite stm_lift in Hr. destruct (ebpf_loads (os st)); injection Hr as <- <-; done.
    - exists g. split; [done|]. unfold mbind, stm_bind in Hr. cbn [session] in *.
      destruct (provision_target (os st) g _) as [a s1] eqn:Hp.
      assert (s = s1) as -> by (by destruct a; injection Hr). by apply (attached_only_when_ready (os st) g fresh_maps a). }
  destruct (run_command st c _) as [[u|e|] s] eqn:Hr; specialize (Hok _ _ eq_refl); [by split|by eapply drop_ok..].
Qed.

Lemma hook_ok file g h s f code m : hook_name h ∈ s.(attached) -> run_hook reserve mem off h s.(maps) = (code, m) ->
  proc_ok file {| stage := g; session := s; licence := f |} -> proc_ok file {| stage := g; session := set_maps m s; licence := f |}.
Proof.
  intros Hin Hrun Hp. destruct (hook_keeps h _ _ _ Hrun) as [Hs Hc].
  assert (Hk : hooks_ok file {| stage := g; session := s; licence := f |} -> hooks_ok file {| stage := g; session := set_maps m s; licence := f |}).
  { unfold hooks_ok. cbn [session licence set_maps maps attached]. intros Hok Hne.
    destruct (Hok Hne) as (Hl & g' & Hg & H1 & H2 & H3 & dev & ino & Hst & Hrest). split; [done|]. exists g'. split; [done|].
    split_and!; [done..|]. exists dev, ino. by rewrite Hs, Hc. }
  unfold proc_ok in *. cbn [stage licence] in *. destruct g as [|r|x]; [injection Hp as -> ->; by apply elem_of_nil in Hin| |by apply Hk].
  destruct Hp as [Hl Hp]. split; [done|by apply Hk].
Qed.

Lemma pstep_ok file p p' : pstep' p p' -> proc_ok file p -> proc_ok file p'.
Proof.
  intros Hs Hp. destruct Hs as [s f|s f|r s f _|r s f _|s f|g h s f code m Hin Hrun]; [|done..| | |by eapply hook_ok].
  - unfold proc_ok in Hp. cbn [stage] in Hp. rewrite Hp. apply begin_ok.
  - destruct Hp as [_ Hp]. by eapply drop_ok.
  - destruct Hp as [_ Hp]. by eapply drop_ok.
Qed.

Lemma loader_reachable file p : rtc pstep' (fresh file) p -> proc_ok file p.
Proof.
  intros Hr. assert (Hf : proc_ok file (fresh file)) by done. revert Hf. induction Hr as [|p q r Hpq Hqr IH]; [done|].
  intros Hp. apply IH. by apply (pstep_ok file p).
Qed.

(** C10: The life of the loader.  In every reachable state of the process, under any interleaving of
    its own steps, signals and hook calls, and whatever the dropping of the loaded object leaves
    attached (only that it attaches nothing new is assumed): a process that waits passed the
    licence gate with the licence file it was started with; and if a hook is attached, in a
    process that waits or that has ended in any way, a failed start included, then the process
    passed that gate, it runs a provisioning command whose image, sidecar and appraisal policy
    were checked, and the maps still admit the target to IMA and enrol nothing else. *)
Theorem loader_lifecycle file p : rtc pstep' (fresh file) p ->
  (forall r, p.(stage) = Waiting r -> gate_passed file p.(licence)) /\
  (p.(session).(attached) <> [] -> gate_passed file p.(licence) /\
     exists g, st.(command) = Some (Provision g) /\ attached_ready st.(os) g p.(session).(maps)).
Proof.
  intros Hr%loader_reachable. unfold proc_ok in Hr. destruct p as [[|r|x] s f]; cbn [stage session licence] in *.
  - by injection Hr as -> ->.
  - by destruct Hr.
  - done.
Qed.

(** A library that detaches whatever it drops *)
Definition detaches : Prop := forall l, st.(survive) l = [].

Definition ended_bare (p : Proc) : Prop :=
  match p.(stage) with Waiting _ => True | _ => p.(session).(attached) = [] end.

Lemma pstep_ended_bare p p' : detaches -> pstep' p p' -> ended_bare p -> ended_bare p'.
Proof.
  intros Hd Hs Hp. destruct Hs as [s f| | | | |]; try done; try (apply Hd).
  unfold ended_bare in *. cbn [stage session] in Hp. unfold begin. cbn [licence session].
  destruct (enforce_host_gate _ _ _ _ _) as [[[|e] f']|]; [|done..].
  destruct (command st) as [c|]; [|done]. destruct (run_command st c s) as [[u|e|] s']; [done|apply Hd..].
Qed.

(** Where the library detaches what it drops, a process that has ended, by its signal, by a
    crash or by an error, has no hook attached and no hook call can follow: nothing denies
    access to a target that the process had enrolled.  The next process starts from maps
    that enrol nothing, whatever the maps held before. *)
Theorem restart_unprotects file p x : detaches -> rtc pstep' (fresh file) p -> p.(stage) = Exited x ->
  (forall p', ~ pstep' p p') /\
  (forall s r s', load_ebpf st s = (Ok r, s') -> s'.(maps).(DFIM_SCOPE) = ∅).
Proof.
  intros Hd Hr Hx. split.
  - assert (Hp : ended_bare p).
    { assert (Hf : ended_bare (fresh file)) by done. revert Hf. clear Hx. induction Hr as [|p q z Hpq _ IH]; [done|].
      intros Hp. by eapply IH, pstep_ended_bare. }
    intros p' Hs. unfold ended_bare in Hp. rewrite Hx in Hp.
    inversion Hs as [| | | | |g h s f code m Hin Hrun Heq]; subst; try done. cbn in Hp. rewrite Hp in Hin. by apply elem_of_nil in Hin.
  - intros s r s'. unfold load_ebpf, require. rewrite stm_lift. destruct (ebpf_loads (os st)); [|done]. by intros [= _ <-].
Qed.

(** After the signal: the process can end with success, and every step that it takes itself does. *)
Theorem shutdown_ends s f :
  let p := {| stage := Waiting false; session := s; licence := f |} in
  (exists p', pstep' p p' /\ p'.(stage) = Exited Success) /\
  (forall p', pstep' p p' -> p'.(stage) = Waiting false \/ exists x, p'.(stage) = Exited x).
Proof.
  intros p. split; [eexists; split; [apply ps_end|done]|]. intros p' Hs. inversion Hs; subst; cbn; eauto.
Qed.
End proofs.

Module LoaderMainWitness.
#[local] Existing Instance Toy.hash.
#[local] Existing Instance toy_hash_laws.

(** A production build on its first day, that provisions the kernel module *)
Definition st : Start := {|
  production := true; production_env := None; licence_ops := works; start_clock := Some 3000000;
  command := Some (Provision 7); os := LoaderWitness.world; handler_set := true; survive := fun _ => [] |}.
Definition started : Proc := begin st (fresh None).

(** After the start, a nap and a signal both hooks are still attached. *)
Lemma loader_lifecycle_witness :
  let p := {| stage := Waiting false; session := started.(session); licence := started.(licence) |} in
  p.(session).(attached) = [bprm_check_security_hook; kernel_module_from_file_hook] /\
  (forall r, p.(stage) = Waiting r -> gate_passed st None p.(licence)) /\
  (p.(session).(attached) <> [] -> gate_passed st None p.(licence) /\
     exists g, st.(command) = Some (Provision g) /\ attached_ready st.(os) g p.(session).(maps)).
Proof.
  intros p. split; [by vm_compute|].
  apply (loader_lifecycle st (fun _ => true) EnforcementWitness.mem EnforcementWitness.off (fun l => list_subseteq_nil l) None p).
  assert (Hs : started = {| stage := Waiting true; session := started.(session); licence := started.(licence) |}) by by vm_compute.
  eapply rtc_l; [apply ps_begin|]. change (begin st _) with started. rewrite Hs.
  eapply rtc_l; [apply ps_sleep|]. eapply rtc_l; [by apply ps_signal|]. apply rtc_refl.
Defined.
End LoaderMainWitness.
