(* ===== verification/Attestation.v ===== *)
(** * Attestation: the TPM quote protocol

    Models [dfim_cli_provisioner/src/attestation.rs]: the challenge, evidence and policy
    envelopes, the TPM quote parser with its cursor, and the remote verifier.  SHA-256
    and ECDSA are the parameters of [Crypto].

    The theorems show exactly when the verifier accepts, that evidence accepted for one
    challenge is not accepted for another (short of a collision), and that the three
    envelopes round trip and have no other accepted form. *)

From stdpp Require Import base list numbers option strings.
From Stdlib Require Import ZArith Lia Strings.Byte.
From S2P Require Import Prelude Crypto Core.

Definition TPM_GENERATED_VALUE : Z := 0xFF544347.
Definition TPM_ST_ATTEST_QUOTE : Z := 0x8018.
Definition TPM_ALG_SHA256 : Z := 0x000B.
Definition ATTESTED_PCRS : list Z := [0; 2; 4; 7; 14].
Definition ATTESTED_PCR_COUNT : Z := zlen ATTESTED_PCRS.
Definition PCR_SELECTION_BITMAP : list byte := [x95; x40; x00].
Definition QUALIFYING_DATA_DOMAIN : list byte := bytes_of_string "DFIM-ATTEST-V1".
Definition CHALLENGE_MAGIC : list byte := bytes_of_string "DFIMCHL1".
Definition EVIDENCE_MAGIC : list byte := bytes_of_string "DFIMATS1".
Definition POLICY_MAGIC : list byte := bytes_of_string "DFIMPOL1".
Definition WIRE_VERSION : Z := 1.
Definition CHALLENGE_WIRE_LEN : Z := 92.
Definition EVIDENCE_PREFIX_LEN : Z := 240.
Definition POLICY_WIRE_LEN : Z := 253.
Definition MAX_QUOTE_LEN : Z := 4096.

(** The error messages. *)
Inductive AttestError :=
| ChallengeLength | ChallengeEnvelope | QuoteLimit | EvidenceOverflow | EvidenceTruncated | EvidenceEnvelope
| EvidenceLength | PolicyLength | PolicyEnvelope | PolicyKey | PolicyRelease | PolicyGeneration
| BelowFloor | GenerationMismatch | RootNotEnrolled | MalformedSignature | InvalidKey | SignatureFailed
| BindingMismatch | PcrNotAllowed | PcrDigestMismatch
| QuoteMagic | NotAQuote | ExtraDataSize | ClockUnsafe | PcrBanks | PcrAlgorithm | BitmapLength | PcrSelection
| QuoteDigest | FieldLength | QuoteOverflow | QuoteTruncated.

Abbreviation AttestResult := (outcome AttestError).

Record AttestationChallenge := {
  nonce : list byte;
  ch_release_counter : Z;
  ch_policy_generation : Z;
  ch_merkle_root : list byte
}.

Record AttestationEvidence := {
  quote : list byte;
  signature : list byte;
  pcr_values : list (list byte)
}.

Record AttestationPolicy := {
  ak_public_key_sec1 : list byte;
  expected_pcr_values : list (list byte);
  minimum_release : Z;
  expected_policy_generation : Z;
  expected_merkle_root : list byte
}.

Record VerifiedAttestation := {
  va_release_counter : Z;
  va_policy_generation : Z;
  va_merkle_root : list byte
}.

Record ParsedQuote := { extra_data : list byte; pcr_digest : list byte }.

(** ** Integers of the envelopes *)

Definition read_le_u32 (bytes : list byte) : AttestResult Z :=
  if negb (zlen bytes =? 4) then Err FieldLength else b ← slice bytes 0 4; Ok (le_decode b).

Definition read_le_u64 (bytes : list byte) : AttestResult Z :=
  if negb (zlen bytes =? 8) then Err FieldLength else b ← slice bytes 0 8; Ok (le_decode b).

(** [data[..8] != MAGIC || read_le_u32(&data[8..12])? != WIRE_VERSION]: the version is
    read only if the magic matches. *)
Definition bad_envelope (data magic : list byte) : AttestResult bool :=
  m ← slice data 0 8;
  if negb (bytes_eqb m magic) then Ok true
  else v ← (b ← slice data 8 12; read_le_u32 b); Ok (negb (v =? WIRE_VERSION)).

(** The loops over the PCR values: copying five values out of [data], or into [output]. *)
Definition read_pcr (data : list byte) (st : Z * list (list byte)) (_ : Z) : AttestResult (Z * list (list byte)) :=
  let '(offset, values) := st in
  v ← slice data offset (offset + 32);
  Ok (offset + 32, values ++ [v]).

Definition write_pcr (st : list byte * Z) (value : list byte) : AttestResult (list byte * Z) :=
  let '(output, offset) := st in
  output ← copy_into output offset (offset + 32) value;
  Ok (output, offset + 32).

(** ** The envelopes *)

Definition encode_attestation_challenge (c : AttestationChallenge) : AttestResult (list byte) :=
  let output := array x00 CHALLENGE_WIRE_LEN in
  output ← copy_into output 0 8 CHALLENGE_MAGIC;
  output ← copy_into output 8 12 (le_encode 4 WIRE_VERSION);
  output ← copy_into output 12 44 c.(nonce);
  output ← copy_into output 44 52 (le_encode 8 c.(ch_release_counter));
  output ← copy_into output 52 60 (le_encode 8 c.(ch_policy_generation));
  copy_into output 60 92 c.(ch_merkle_root).

Definition parse_attestation_challenge (data : list byte) : AttestResult AttestationChallenge :=
  if negb (zlen data =? CHALLENGE_WIRE_LEN) then Err ChallengeLength
  else
    bad ← bad_envelope data CHALLENGE_MAGIC;
    if (bad : bool) then Err ChallengeEnvelope
    else
      nonce ← slice data 12 44;
      root ← slice data 60 92;
      release ← (b ← slice data 44 52; read_le_u64 b);
      generation ← (b ← slice data 52 60; read_le_u64 b);
      Ok {| nonce := nonce; ch_release_counter := release; ch_policy_generation := generation;
            ch_merkle_root := root |}.

Definition encode_attestation_evidence (e : AttestationEvidence) : AttestResult (list byte) :=
  if (zlen e.(quote) =? 0) || (zlen e.(quote) >? MAX_QUOTE_LEN) then Err QuoteLimit
  else
    ok_or (checked_add EVIDENCE_PREFIX_LEN (zlen e.(quote))) EvidenceOverflow ;;
    Ok (EVIDENCE_MAGIC ++ le_encode 4 WIRE_VERSION ++ le_encode 4 (as_u32 (zlen e.(quote))) ++
        e.(signature) ++ concat e.(pcr_values) ++ e.(quote)).

Definition parse_attestation_evidence (data : list byte) : AttestResult AttestationEvidence :=
  if zlen data <? EVIDENCE_PREFIX_LEN then Err EvidenceTruncated
  else
    bad ← bad_envelope data EVIDENCE_MAGIC;
    if (bad : bool) then Err EvidenceEnvelope
    else
      quote_len ← (b ← slice data 12 16; read_le_u32 b);
      if (quote_len =? 0) || (quote_len >? MAX_QUOTE_LEN) then Err QuoteLimit
      else
        expected_len ← ok_or (checked_add EVIDENCE_PREFIX_LEN quote_len) EvidenceOverflow;
        if negb (zlen data =? expected_len) then Err EvidenceLength
        else
          signature ← slice data 16 80;
          op ← foldM (read_pcr data) (80, []) (range 0 ATTESTED_PCR_COUNT);
          quote ← slice data EVIDENCE_PREFIX_LEN (zlen data);
          Ok {| quote := quote; signature := signature; pcr_values := snd op |}.

Definition encode_attestation_policy (p : AttestationPolicy) : AttestResult (list byte) :=
  let output := array x00 POLICY_WIRE_LEN in
  output ← copy_into output 0 8 POLICY_MAGIC;
  output ← copy_into output 8 12 (le_encode 4 WIRE_VERSION);
  output ← copy_into output 12 45 p.(ak_public_key_sec1);
  output ← copy_into output 45 53 (le_encode 8 p.(minimum_release));
  output ← copy_into output 53 61 (le_encode 8 p.(expected_policy_generation));
  output ← copy_into output 61 93 p.(expected_merkle_root);
  oo ← foldM write_pcr (output, 93) p.(expected_pcr_values);
  Ok (fst oo).

Definition parse_attestation_policy `{SigOps} (data : list byte) : AttestResult AttestationPolicy :=
  if negb (zlen data =? POLICY_WIRE_LEN) then Err PolicyLength
  else
    bad ← bad_envelope data POLICY_MAGIC;
    if (bad : bool) then Err PolicyEnvelope
    else
      ak ← slice data 12 45;
      if negb (pk_valid ak) then Err PolicyKey
      else
        release ← (b ← slice data 45 53; read_le_u64 b);
        if release =? 0 then Err PolicyRelease
        else
          generation ← (b ← slice data 53 61; read_le_u64 b);
          if generation =? 0 then Err PolicyGeneration
          else
            root ← slice data 61 93;
            op ← foldM (read_pcr data) (93, []) (range 0 ATTESTED_PCR_COUNT);
            Ok {| ak_public_key_sec1 := ak; expected_pcr_values := snd op; minimum_release := release;
                  expected_policy_generation := generation; expected_merkle_root := root |}.

(** ** The quote *)

(** [Cursor]: the state is [offset]; [bytes] does not change. *)
Module Cursor.
Section cursor.
Context (bytes : list byte).
Abbreviation C := (stm Z AttestError).

Definition take (length : Z) : C (list byte) :=
  offset ← get;
  end_ ← lift (ok_or (checked_add offset length) QuoteOverflow);
  if end_ >? zlen bytes then lift (Err QuoteTruncated)
  else
    output ← lift (slice bytes offset end_);
    put end_ ;;
    mret output.

Definition read_u8 : C Z := b ← take 1; x ← lift (index b 0); mret (b2z x).
Definition read_u16 : C Z := b ← take 2; mret (be_decode b).
Definition read_u32 : C Z := b ← take 4; mret (be_decode b).
Definition read_u64 : C Z := b ← take 8; mret (be_decode b).
Definition read_tpm2b : C (list byte) := length ← read_u16; take length.
Definition skip_tpm2b : C unit := read_tpm2b ;; mret tt.
Definition is_empty : C bool := offset ← get; mret (offset =? zlen bytes).
End cursor.
End Cursor.

(** [if read()? != v { return Err(..) }] *)
Definition expect {A} (m : stm Z AttestError A) (ok : A -> bool) (e : AttestError) : stm Z AttestError A :=
  a ← m; if ok a then mret a else lift (Err e).

Definition parse_quote_at (q : list byte) : stm Z AttestError ParsedQuote :=
  expect (Cursor.read_u32 q) (fun v => v =? TPM_GENERATED_VALUE) QuoteMagic ;;
  expect (Cursor.read_u16 q) (fun v => v =? TPM_ST_ATTEST_QUOTE) NotAQuote ;;
  Cursor.skip_tpm2b q ;;
  extra ← expect (Cursor.read_tpm2b q) (fun b => zlen b =? 32) ExtraDataSize;
  Cursor.read_u64 q ;;
  Cursor.read_u32 q ;;
  Cursor.read_u32 q ;;
  expect (Cursor.read_u8 q) (fun v => v =? 1) ClockUnsafe ;;
  Cursor.read_u64 q ;;
  expect (Cursor.read_u32 q) (fun v => v =? 1) PcrBanks ;;
  expect (Cursor.read_u16 q) (fun v => v =? TPM_ALG_SHA256) PcrAlgorithm ;;
  expect (Cursor.read_u8 q) (fun v => v =? as_u8 (zlen PCR_SELECTION_BITMAP)) BitmapLength ;;
  expect (Cursor.take q (zlen PCR_SELECTION_BITMAP)) (fun b => bytes_eqb b PCR_SELECTION_BITMAP) PcrSelection ;;
  digest ← Cursor.read_tpm2b q;
  empty ← Cursor.is_empty q;
  if negb (zlen digest =? 32) || negb empty then lift (Err QuoteDigest)
  else mret {| extra_data := extra; pcr_digest := digest |}.

Definition parse_quote (q : list byte) : AttestResult ParsedQuote := fst (parse_quote_at q 0).

Section model.
Context `{HashOps, SigOps}.

Definition attestation_qualifying_data (c : AttestationChallenge) : list byte :=
  sha256_digest_chunked [QUALIFYING_DATA_DOMAIN; c.(nonce); be_encode 8 c.(ch_release_counter);
                         be_encode 8 c.(ch_policy_generation); c.(ch_merkle_root)].

(** The loop over the zipped PCR values *)
Fixpoint pcrs_allowed (actual expected : list (list byte)) : AttestResult unit :=
  match actual, expected with
  | a :: actual, e :: expected => if negb (constant_time_hash_eq a e) then Err PcrNotAllowed else pcrs_allowed actual expected
  | _, _ => Ok tt
  end.

Definition verify_attestation (e : AttestationEvidence) (c : AttestationChallenge) (p : AttestationPolicy) :
    AttestResult VerifiedAttestation :=
  if c.(ch_release_counter) <? p.(minimum_release) then Err BelowFloor
  else if negb (c.(ch_policy_generation) =? p.(expected_policy_generation)) then Err GenerationMismatch
  else if negb (constant_time_hash_eq c.(ch_merkle_root) p.(expected_merkle_root)) then Err RootNotEnrolled
  else if negb (sig_valid e.(signature)) then Err MalformedSignature
  else if negb (pk_valid p.(ak_public_key_sec1)) then Err InvalidKey
  else if negb (sig_verify p.(ak_public_key_sec1) e.(quote) e.(signature)) then Err SignatureFailed
  else
    parsed ← parse_quote e.(quote);
    if negb (constant_time_hash_eq parsed.(extra_data) (attestation_qualifying_data c)) then Err BindingMismatch
    else
      pcrs_allowed e.(pcr_values) p.(expected_pcr_values) ;;
      if negb (constant_time_hash_eq parsed.(pcr_digest) (sha256_digest_chunked e.(pcr_values)))
      then Err PcrDigestMismatch
      else Ok {| va_release_counter := c.(ch_release_counter); va_policy_generation := c.(ch_policy_generation);
                 va_merkle_root := c.(ch_merkle_root) |}.
End model.

(** ** The types of the records *)

Definition challenge_wf (c : AttestationChallenge) : Prop :=
  zlen c.(nonce) = 32 /\ zlen c.(ch_merkle_root) = 32 /\
  0 <= c.(ch_release_counter) < 2 ^ 64 /\ 0 <= c.(ch_policy_generation) < 2 ^ 64.

Definition pcrs_wf (l : list (list byte)) : Prop := zlen l = 5 /\ Forall (fun v => zlen v = 32) l.

Definition evidence_wf (e : AttestationEvidence) : Prop :=
  zlen e.(signature) = 64 /\ pcrs_wf e.(pcr_values).

Definition policy_wf (p : AttestationPolicy) : Prop :=
  zlen p.(ak_public_key_sec1) = 33 /\ pcrs_wf p.(expected_pcr_values) /\ zlen p.(expected_merkle_root) = 32 /\
  0 <= p.(minimum_release) < 2 ^ 64 /\ 0 <= p.(expected_policy_generation) < 2 ^ 64.

(** ** Reading with a cursor

    [lexes q m R]: from any offset inside [q], [m] succeeds with [a] and leaves the
    cursor at [o'] exactly when [R o' x a] holds of the bytes [x] in between. *)

Definition lexes {A} (q : list byte) (m : stm Z AttestError A) (R : Z -> list byte -> A -> Prop) : Prop :=
  forall o a o', 0 <= o <= zlen q ->
    (m o = (Ok a, o') <-> exists x, slice q o o' = @Ok AttestError _ x /\ R o' x a).

Section lexing.
Context (q : list byte) (Hq : zlen q <= USIZE_MAX).

Lemma slice_empty o : 0 <= o <= zlen q -> slice q o o = @Ok AttestError _ [].
Proof. intros Ho. destruct (@slice_ok AttestError _ q o o) as (x & Hx & Hl); [lia..|]. rewrite Hx. f_equal. apply zlen_0_nil. lia. Qed.

Lemma lexes_ret {A} (a0 : A) : lexes q (mret a0) (fun _ x a => x = [] /\ a = a0).
Proof.
  intros o a o' Ho. split.
  - intros [= <- <-]. exists []. by rewrite slice_empty.
  - intros (x & Hx & -> & ->). apply slice_inv in Hx as (_ & _ & _ & Hl & _). rewrite zlen_nil in Hl.
    by replace o' with o by lia.
Qed.

Lemma lexes_bind {A B} (m : stm Z AttestError A) (f : A -> stm Z AttestError B) R R' :
  lexes q m R -> (forall a, lexes q (f a) (R' a)) ->
  lexes q (m ≫= f) (fun o' z b => exists x y a, z = x ++ y /\ R (o' - zlen y) x a /\ R' a o' y b).
Proof.
  intros Hm Hf o b o' Ho. split.
  - intros Hb. unfold mbind, stm_bind in Hb. destruct (m o) as [[a|e|] o1] eqn:Hmo; [|done..].
    apply Hm in Hmo as (x & Hx & HR); [|done]. pose proof (slice_inv _ _ _ _ Hx) as (_ & _ & ? & ? & _).
    pose proof (zlen_nonneg x).
    apply Hf in Hb as (y & Hy & HR'); [|lia]. pose proof (slice_inv _ _ _ _ Hy) as (_ & _ & ? & Hyl & _).
    exists (x ++ y). split; [by eapply slice_join|]. exists x, y, a. split_and!; [done| |done].
    by replace (o' - zlen y) with o1 by lia.
  - intros (z & Hz & x & y & a & -> & HR & HR'). pose proof (slice_inv _ _ _ _ Hz) as (_ & _ & ? & Hl & _).
    rewrite zlen_app in Hl. pose proof (zlen_nonneg x). pose proof (zlen_nonneg y).
    destruct (slice_split _ _ (o + zlen x) _ _ Hz) as (x' & y' & Hx & Hy & Heq); [lia|].
    pose proof (slice_inv _ _ _ _ Hx) as (_ & _ & _ & Hxl & _).
    apply app_inj_1 in Heq as [-> ->]; [|unfold zlen in *; lia].
    assert (Hmo : m o = (Ok a, o + zlen x')).
    { apply Hm; [done|]. exists x'. split; [done|]. by replace (o + zlen x') with (o' - zlen y') by lia. }
    rewrite (stm_step _ _ _ _ _ Hmo). apply Hf; [lia|]. by exists y'.
Qed.

Lemma lexes_weaken {A} (m : stm Z AttestError A) (R R' : Z -> list byte -> A -> Prop) :
  lexes q m R -> (forall o' x a, R o' x a <-> R' o' x a) -> lexes q m R'.
Proof. intros Hm HR o a o' Ho. rewrite (Hm o a o' Ho). by setoid_rewrite HR. Qed.

Lemma lexes_expect {A} (m : stm Z AttestError A) ok e R : lexes q m R ->
  lexes q (expect m ok e) (fun o' x a => R o' x a /\ ok a = true).
Proof.
  intros Hm o a o' Ho. unfold expect. split.
  - intros Hb. unfold mbind, stm_bind in Hb. destruct (m o) as [[a'|e'|] o1] eqn:Hmo; [|done..].
    destruct (ok a') eqn:Hok; [|done]. injection Hb as -> ->. apply Hm in Hmo as (x & Hx & HR); [|done]. eauto.
  - intros (x & Hx & HR & Hok). assert (Hmo : m o = (Ok a, o')) by (apply Hm; eauto).
    rewrite (stm_step _ _ _ _ _ Hmo). by rewrite Hok.
Qed.

Lemma lexes_take n : 0 <= n -> lexes q (Cursor.take q n) (fun _ x a => a = x /\ zlen x = n).
Proof.
  intros Hn o a o' Ho. unfold Cursor.take. rewrite stm_get, stm_lift. unfold checked_add.
  split.
  - destruct (_ <=? _); [|done]. cbn [ok_or]. rewrite Z.gtb_ltb. destruct (Z.ltb_spec (zlen q) (o + n)); [done|].
    rewrite stm_lift. destruct (@slice_ok AttestError _ q o (o + n)) as (x & Hx & Hl); [lia..|]. rewrite Hx.
    intros [= <- <-]. exists x. split_and!; [done..|lia].
  - intros (x & Hx & -> & Hl). pose proof (slice_inv _ _ _ _ Hx) as (_ & _ & Ho' & Hxl & _).
    replace (o + n) with o' by lia. rewrite (proj2 (Z.leb_le o' USIZE_MAX)) by lia. cbn [ok_or].
    rewrite Z.gtb_ltb, (proj2 (Z.ltb_ge _ _)), stm_lift, Hx by lia. done.
Qed.

(** A fixed-width big-endian integer. *)
Lemma lexes_uint (n : nat) :
  lexes q (b ← Cursor.take q (Z.of_nat n); mret (be_decode b))
    (fun _ x a => zlen x = Z.of_nat n /\ a = be_decode x).
Proof.
  eapply lexes_weaken; [apply lexes_bind; [apply lexes_take; lia|intros; apply lexes_ret]|].
  intros o' z a. cbn beta. split.
  - intros (x & y & a' & -> & [-> Hl] & -> & ->). by rewrite app_nil_r.
  - intros [Hl ->]. exists z, [], z. by rewrite app_nil_r.
Qed.

Lemma lexes_u8 : lexes q (Cursor.read_u8 q) (fun _ x a => exists b, x = [b] /\ a = b2z b).
Proof.
  eapply lexes_weaken with (R := fun o' z b => exists x y a, z = x ++ y /\ (a = x /\ zlen x = 1) /\
    (fun _ y (v : Z) => y = [] /\ exists c, a = [c] /\ v = b2z c) o' y b).
  - intros o a o' Ho. unfold Cursor.read_u8. split.
    + intros Hb. unfold mbind at 1, stm_bind at 1 in Hb. destruct (Cursor.take q 1 o) as [[b|e|] o1] eqn:Ht; [|done..].
      apply lexes_take in Ht as (x & Hx & -> & Hl); [|lia|done].
      destruct x as [|c [|]]; unfold zlen in Hl; cbn in Hl; try lia. rewrite stm_lift in Hb. cbn in Hb. injection Hb as <- <-.
      exists [c]. split; [done|]. exists [c], [], [c]. rewrite app_nil_r. split_and!; try done. by exists c.
    + intros (z & Hz & x & y & a' & -> & [-> Hl] & -> & c & -> & ->). rewrite app_nil_r in Hz.
      assert (Ht : Cursor.take q 1 o = (Ok [c], o')) by (apply lexes_take; [lia|done|by exists [c]]).
      rewrite (stm_step _ _ _ _ _ Ht). done.
  - intros o' z a. cbn beta. split.
    + intros (x & y & a' & -> & [-> Hl] & -> & c & -> & ->). rewrite app_nil_r. by exists c.
    + intros (b & -> & ->). exists [b], [], [b]. split_and!; try done. by exists b.
Qed.

(** A sized buffer: two length bytes, then the content. *)
Lemma lexes_tpm2b :
  lexes q (Cursor.read_tpm2b q) (fun _ x a => zlen a < 2 ^ 16 /\ x = be_encode 2 (zlen a) ++ a).
Proof.
  unfold Cursor.read_tpm2b. intros o a o' Ho. split.
  - intros Hb. unfold mbind at 1, stm_bind at 1 in Hb.
    destruct (Cursor.read_u16 q o) as [[n|e|] o1] eqn:Hu; [|done..].
    apply (lexes_uint 2) in Hu as (x & Hx & Hxl & ->); [|done].
    pose proof (be_decode_range x) as Hr. rewrite Hxl in Hr. change (2 ^ (8 * Z.of_nat 2)) with (2 ^ 16) in Hr.
    pose proof (slice_inv _ _ _ _ Hx) as (_ & _ & ? & ? & _).
    pose proof (zlen_nonneg x).
    apply lexes_take in Hb as (y & Hy & -> & Hyl); [|lia|lia]. exists (x ++ y). split; [by eapply slice_join|].
    split; [lia|]. rewrite Hyl. by rewrite be_encode_decode_n.
  - intros (z & Hz & Hl & ->). pose proof (slice_inv _ _ _ _ Hz) as (_ & _ & ? & Hzl & _).
    rewrite zlen_app, zlen_be_encode in Hzl. pose proof (zlen_nonneg a).
    destruct (slice_split _ _ (o + 2) _ _ Hz) as (x & y & Hx & Hy & Heq); [lia|].
    pose proof (slice_inv _ _ _ _ Hx) as (_ & _ & _ & Hxl & _).
    apply app_inj_1 in Heq as [<- <-].
    2: { pose proof (zlen_be_encode 2 (zlen a)). unfold zlen in *. lia. }
    assert (Hu : Cursor.read_u16 q o = (Ok (zlen a), o + 2)).
    { apply (lexes_uint 2); [done|]. eexists. split; [exact Hx|]. split; [apply zlen_be_encode|].
      rewrite be_decode_encode_small; [done|]. change (2 ^ (8 * Z.of_nat 2)) with (2 ^ 16). lia. }
    rewrite (stm_step _ _ _ _ _ Hu). apply lexes_take; [lia|lia|by exists a].
Qed.
End lexing.

(** ** The accepted quotes *)

(** A quote: signer name, qualifying data, clock, counters, firmware version and the
    digest of the selected PCRs. *)
Definition quote_bytes (signer extra clock resets restarts firmware digest : list byte) : list byte :=
  be_encode 4 TPM_GENERATED_VALUE ++ be_encode 2 TPM_ST_ATTEST_QUOTE ++
  (be_encode 2 (zlen signer) ++ signer) ++ (be_encode 2 32 ++ extra) ++
  clock ++ resets ++ restarts ++ [x01] ++ firmware ++
  be_encode 4 1 ++ be_encode 2 TPM_ALG_SHA256 ++ [x03] ++ PCR_SELECTION_BITMAP ++
  (be_encode 2 32 ++ digest).

Definition quote_fields (signer extra clock resets restarts firmware digest : list byte) : Prop :=
  zlen signer < 2 ^ 16 /\ zlen extra = 32 /\ zlen clock = 8 /\ zlen resets = 4 /\ zlen restarts = 4 /\
  zlen firmware = 8 /\ zlen digest = 32.

Lemma be_const (n : nat) (v : Z) x : 0 <= v < 2 ^ (8 * Z.of_nat n) ->
  zlen x = Z.of_nat n /\ be_decode x = v <-> x = be_encode n v.
Proof.
  intros Hv. split.
  - intros [Hl <-]. by rewrite be_encode_decode_n.
  - intros ->. split; [apply zlen_be_encode|by apply be_decode_encode_small].
Qed.

Section quote.
Context (q : list byte) (Hq : zlen q <= USIZE_MAX).

Lemma lexes_u16 : lexes q (Cursor.read_u16 q) (fun _ x a => zlen x = 2 /\ a = be_decode x).
Proof. apply (lexes_uint q Hq 2). Qed.
Lemma lexes_u32 : lexes q (Cursor.read_u32 q) (fun _ x a => zlen x = 4 /\ a = be_decode x).
Proof. apply (lexes_uint q Hq 4). Qed.
Lemma lexes_u64 : lexes q (Cursor.read_u64 q) (fun _ x a => zlen x = 8 /\ a = be_decode x).
Proof. apply (lexes_uint q Hq 8). Qed.

(** A field that must hold a constant. *)
Lemma lexes_const_u (n : nat) (m : stm Z AttestError Z) v e : 0 <= v < 2 ^ (8 * Z.of_nat n) ->
  lexes q m (fun _ x a => zlen x = Z.of_nat n /\ a = be_decode x) ->
  lexes q (expect m (fun a => a =? v) e) (fun _ x a => x = be_encode n v /\ a = v).
Proof.
  intros Hv Hm. eapply lexes_weaken; [by apply lexes_expect|]. intros o' x a. cbn beta.
  rewrite Z.eqb_eq, <- (be_const n v x Hv). naive_solver.
Qed.

Lemma lexes_const_u8 v b e : b2z b = v ->
  lexes q (expect (Cursor.read_u8 q) (fun a => a =? v) e) (fun _ x a => x = [b] /\ a = v).
Proof.
  intros <-. eapply lexes_weaken; [apply lexes_expect, lexes_u8, Hq|]. intros o' x a. cbn beta.
  rewrite Z.eqb_eq. split; [|naive_solver]. intros [(c & -> & ->) Hc%b2z_inj]. by subst.
Qed.

Lemma lexes_skip : lexes q (Cursor.skip_tpm2b q)
  (fun _ x a => exists s, zlen s < 2 ^ 16 /\ x = be_encode 2 (zlen s) ++ s).
Proof.
  eapply lexes_weaken; [apply lexes_bind; [apply lexes_tpm2b, Hq|intros; apply lexes_ret]|].
  intros o' z []. cbn beta. split.
  - intros (x & y & s & -> & [Hs ->] & -> & _). exists s. by rewrite app_nil_r.
  - intros (s & Hs & ->). exists (be_encode 2 (zlen s) ++ s), [], s. by rewrite app_nil_r.
Qed.

Lemma lexes_extra e : lexes q (expect (Cursor.read_tpm2b q) (fun b => zlen b =? 32) e)
  (fun _ x a => zlen a = 32 /\ x = be_encode 2 32 ++ a).
Proof.
  eapply lexes_weaken; [apply lexes_expect, lexes_tpm2b, Hq|]. intros o' x a. cbn beta. rewrite Z.eqb_eq. split.
  - by intros [[_ ->] Hl]; rewrite Hl.
  - intros [Hl ->]. rewrite Hl. split_and!; done.
Qed.

Lemma lexes_bitmap e : lexes q (expect (Cursor.take q (zlen PCR_SELECTION_BITMAP)) (fun b => bytes_eqb b PCR_SELECTION_BITMAP) e)
  (fun _ x a => x = PCR_SELECTION_BITMAP /\ a = x).
Proof.
  eapply lexes_weaken; [apply lexes_expect, lexes_take; [exact Hq|done]|]. intros o' x a. cbn beta.
  rewrite bytes_eqb_eq. naive_solver.
Qed.

(** The last step: the digest must end the quote. *)
Definition quote_tail (extra : list byte) : stm Z AttestError ParsedQuote :=
  digest ← Cursor.read_tpm2b q;
  empty ← Cursor.is_empty q;
  if negb (zlen digest =? 32) || negb empty then lift (Err QuoteDigest)
  else mret {| extra_data := extra; pcr_digest := digest |}.

Lemma lexes_tail extra : lexes q (quote_tail extra)
  (fun o' x p => o' = zlen q /\ exists d, zlen d = 32 /\ x = be_encode 2 32 ++ d /\
     p = {| extra_data := extra; pcr_digest := d |}).
Proof.
  intros o p o' Ho. unfold quote_tail. split.
  - intros Hb. unfold mbind at 1, stm_bind at 1 in Hb. destruct (Cursor.read_tpm2b q o) as [[d|e|] o1] eqn:Ht; [|done..].
    apply (lexes_tpm2b q Hq) in Ht as (x & Hx & Hl & ->); [|done].
    rewrite (stm_step (Cursor.is_empty q) _ o1 (o1 =? zlen q) o1 eq_refl) in Hb.
    destruct (Z.eqb_spec (zlen d) 32) as [Hd|]; [|done].
    destruct (Z.eqb_spec o1 (zlen q)) as [Ho1|]; [|done]. injection Hb as <- <-. exists (be_encode 2 (zlen d) ++ d). split; [done|]. split; [done|].
    exists d. by rewrite Hd.
  - intros (x & Hx & -> & d & Hd & -> & ->).
    assert (Ht : Cursor.read_tpm2b q o = (Ok d, zlen q)).
    { apply (lexes_tpm2b q Hq); [done|]. eexists. split; [exact Hx|]. by rewrite Hd. }
    rewrite (stm_step _ _ _ _ _ Ht).
    rewrite (stm_step (Cursor.is_empty q) _ (zlen q) (zlen q =? zlen q) (zlen q) eq_refl).
    rewrite Hd, (Z.eqb_refl (zlen q)). done.
Qed.
Lemma lexes_quote : lexes q (parse_quote_at q) (fun o' z p => o' = zlen q /\
  exists signer extra clock resets restarts firmware digest,
    quote_fields signer extra clock resets restarts firmware digest /\
    z = quote_bytes signer extra clock resets restarts firmware digest /\
    p = {| extra_data := extra; pcr_digest := digest |}).
Proof.
  eapply lexes_weaken.
  { unfold parse_quote_at.
    apply lexes_bind; [apply (lexes_const_u 4); [done|apply lexes_u32]|intros ?].
    apply lexes_bind; [apply (lexes_const_u 2); [done|apply lexes_u16]|intros ?].
    apply lexes_bind; [apply lexes_skip|intros ?].
    apply lexes_bind; [apply lexes_extra|intros extra].
    apply lexes_bind; [apply lexes_u64|intros ?].
    apply lexes_bind; [apply lexes_u32|intros ?].
    apply lexes_bind; [apply lexes_u32|intros ?].
    apply lexes_bind; [by apply (lexes_const_u8 1 x01)|intros ?].
    apply lexes_bind; [apply lexes_u64|intros ?].
    apply lexes_bind; [apply (lexes_const_u 4); [done|apply lexes_u32]|intros ?].
    apply lexes_bind; [apply (lexes_const_u 2); [done|apply lexes_u16]|intros ?].
    apply lexes_bind; [by apply (lexes_const_u8 _ x03)|intros ?].
    apply lexes_bind; [apply lexes_bitmap|intros ?].
    apply (lexes_tail extra). }
  intros o' z p. cbn beta. unfold quote_bytes, quote_fields. split.
  - intros (? & ? & ? & -> & [-> _] & ? & ? & ? & -> & [-> _] & ? & ? & ? & -> & (s & Hs & ->) &
      ? & ? & ex & -> & [Hex ->] & c & ? & ? & -> & [Hc _] & r & ? & ? & -> & [Hr _] & rs & ? & ? & -> & [Hrs _] &
      ? & ? & ? & -> & [-> _] & f & ? & ? & -> & [Hf _] & ? & ? & ? & -> & [-> _] & ? & ? & ? & -> & [-> _] &
      ? & ? & ? & -> & [-> _] & ? & ? & ? & -> & [-> _] & -> & d & Hd & -> & ->).
    split; [done|]. exists s, ex, c, r, rs, f, d. split_and!; done.
  - intros (-> & s & ex & c & r & rs & f & d & (Hs & Hex & Hc & Hr & Hrs & Hf & Hd) & -> & ->).
    eexists _, _, _. split; [done|]. split; [done|]. eexists _, _, _. split; [done|]. split; [done|].
    eexists _, _, tt. split; [done|]. split; [by eexists|]. eexists _, _, ex. split; [done|]. split; [done|].
    do 3 (eexists _, _, _; split; [done|]; split; [done|]).
    eexists _, _, _. split; [done|]. split; [done|]. eexists _, _, _. split; [done|]. split; [done|].
    do 4 (eexists _, _, _; split; [done|]; split; [done|]). split; [done|]. by eexists.
Qed.

(** The quotes that [parse_quote] accepts are exactly the canonical ones. *)
Lemma parse_quote_Ok p : parse_quote q = Ok p <->
  exists signer extra clock resets restarts firmware digest,
    quote_fields signer extra clock resets restarts firmware digest /\
    q = quote_bytes signer extra clock resets restarts firmware digest /\
    p = {| extra_data := extra; pcr_digest := digest |}.
Proof.
  unfold parse_quote. pose proof (zlen_nonneg q) as Hnn. split.
  - intros Hp. destruct (parse_quote_at q 0) as [r o'] eqn:Hr. cbn [fst] in Hp. subst r.
    apply lexes_quote in Hr as (x & Hx & -> & Hrest); [|lia]. rewrite slice_all in Hx by done.
    by apply Ok_inj in Hx as <-.
  - intros Hrest. assert (Hr : parse_quote_at q 0 = (Ok p, zlen q)); [|by rewrite Hr].
    apply lexes_quote; [lia|]. exists q. by rewrite slice_all.
Qed.
End quote.

(** ** The envelopes, as bytes *)

Definition challenge_bytes (c : AttestationChallenge) : list byte :=
  CHALLENGE_MAGIC ++ le_encode 4 WIRE_VERSION ++ c.(nonce) ++ le_encode 8 c.(ch_release_counter) ++
  le_encode 8 c.(ch_policy_generation) ++ c.(ch_merkle_root).

Definition evidence_bytes (e : AttestationEvidence) : list byte :=
  EVIDENCE_MAGIC ++ le_encode 4 WIRE_VERSION ++ le_encode 4 (zlen e.(quote)) ++ e.(signature) ++
  concat e.(pcr_values) ++ e.(quote).

Definition policy_bytes (p : AttestationPolicy) : list byte :=
  POLICY_MAGIC ++ le_encode 4 WIRE_VERSION ++ p.(ak_public_key_sec1) ++ le_encode 8 p.(minimum_release) ++
  le_encode 8 p.(expected_policy_generation) ++ p.(expected_merkle_root) ++ concat p.(expected_pcr_values).

Lemma pcrs_five vs : pcrs_wf vs -> exists a b c d e, vs = [a; b; c; d; e] /\
  zlen a = 32 /\ zlen b = 32 /\ zlen c = 32 /\ zlen d = 32 /\ zlen e = 32.
Proof.
  intros [Hl Hf]. unfold zlen in Hl. destruct vs as [|a [|b [|c [|d [|e [|]]]]]]; cbn in Hl; try lia.
  rewrite !Forall_cons in Hf. exists a, b, c, d, e. naive_solver.
Qed.

Lemma zlen_pcrs vs : pcrs_wf vs -> zlen (concat vs) = 160.
Proof. intros (a & b & c & d & e & -> & ?)%pcrs_five. cbn [concat]. zlia. Qed.

(** 160 bytes are five PCR values. *)
Lemma split_pcrs z : zlen z = 160 -> exists vs, pcrs_wf vs /\ z = concat vs.
Proof.
  intros Hz. exists [take 32 z; take 32 (drop 32 z); take 32 (drop 64 z); take 32 (drop 96 z); drop 128 z].
  unfold zlen in Hz. split.
  - split; [done|]. repeat (apply Forall_cons; split; [unfold zlen; rewrite ?length_take, ?length_drop; lia|]).
    by apply Forall_nil.
  - cbn [concat]. rewrite app_nil_r.
    rewrite <- (take_drop 32 z) at 1. f_equal. rewrite <- (take_drop 32 (drop 32 z)) at 1. f_equal. rewrite drop_drop.
    rewrite <- (take_drop 32 (drop (32 + 32) z)) at 1. f_equal. rewrite drop_drop.
    rewrite <- (take_drop 32 (drop (32 + 32 + 32) z)) at 1. f_equal. by rewrite drop_drop.
Qed.

Lemma read_pcrs_ok data o vs : pcrs_wf vs -> slice data o (o + 160) = @Ok AttestError _ (concat vs) ->
  foldM (read_pcr data) (o, []) (range 0 ATTESTED_PCR_COUNT) = Ok (o + 160, vs).
Proof.
  intros (a & b & c & d & e & -> & Ha & Hb & Hc & Hd & He)%pcrs_five Hs. cbn [concat] in Hs.
  rewrite app_nil_r in Hs.
  assert (Hcut : forall o' o'' x y, zlen x = 32 -> slice data o' o'' = @Ok AttestError _ (x ++ y) ->
    slice data o' (o' + 32) = @Ok AttestError _ x /\ slice data (o' + 32) o'' = @Ok AttestError _ y).
  { intros o' o'' x y Hx Hxy. pose proof (slice_inv _ _ _ _ Hxy) as (_ & _ & _ & Hl & _).
    rewrite zlen_app in Hl. pose proof (zlen_nonneg y).
    destruct (slice_split _ _ (o' + 32) _ _ Hxy) as (x' & y' & Hx' & Hy' & Heq); [lia|].
    pose proof (slice_inv _ _ _ _ Hx') as (_ & _ & _ & Hxl & _).
    apply app_inj_1 in Heq as [-> ->]; [done|unfold zlen in *; lia]. }
  destruct (Hcut _ _ _ _ Ha Hs) as [H1 Hs1]. destruct (Hcut _ _ _ _ Hb Hs1) as [H2 Hs2].
  destruct (Hcut _ _ _ _ Hc Hs2) as [H3 Hs3]. destruct (Hcut _ _ _ _ Hd Hs3) as [H4 Hs4].
  change (range 0 ATTESTED_PCR_COUNT) with [0; 1; 2; 3; 4]. cbn [foldM read_pcr].
  rewrite H1, !ok_bind. cbn [read_pcr]. rewrite H2, !ok_bind. cbn [read_pcr]. rewrite H3, !ok_bind. cbn [read_pcr].
  rewrite H4, !ok_bind. cbn [read_pcr app]. replace (o + 160) with (o + 32 + 32 + 32 + 32 + 32) in * by lia.
  by rewrite Hs4, !ok_bind.
Qed.

Lemma bad_envelope_spec data magic : zlen magic = 8 -> 12 <= zlen data ->
  exists b e, bad_envelope data magic = Ok b /\ slice data 0 12 = @Ok AttestError _ e /\
    (b = false <-> e = magic ++ le_encode 4 WIRE_VERSION).
Proof.
  intros Hm Hd. unfold bad_envelope.
  destruct (@slice_ok AttestError _ data 0 8) as (m & Hs & Hl); [lia..|].
  destruct (@slice_ok AttestError _ data 8 12) as (v & Hv & Hvl); [lia..|].
  rewrite Hs, Hv, !ok_bind. pose proof (slice_join _ _ _ _ _ _ Hs Hv) as Hj. rewrite Hj.
  assert (Hver : read_le_u32 v = Ok (le_decode v)).
  { unfold read_le_u32. rewrite (proj2 (Z.eqb_eq _ _)) by lia. cbn [negb]. by rewrite slice_all, ok_bind by lia. }
  rewrite Hver, ok_bind. destruct (bytes_eqb m magic) eqn:Hb; cbn [negb].
  - apply bytes_eqb_eq in Hb as ->. eexists _, _. split_and!; [done..|]. rewrite negb_false_iff, Z.eqb_eq. split.
    + intros <-. by rewrite le_encode_decode_n by lia.
    + intros Heq%(inj (app magic)). by rewrite Heq, le_decode_encode_small.
  - eexists true, _. split_and!; [done..|]. split; [done|]. intros Heq. apply app_inj_1 in Heq as [-> _].
    + by rewrite bytes_eqb_refl in Hb.
    + unfold zlen in *. lia.
Qed.

(** Two concatenations with equally long first parts. *)
Lemma app_inj_zlen {A} (a b x y : list A) : zlen a = zlen x -> a ++ b = x ++ y -> a = x /\ b = y.
Proof. intros Hl Heq. apply app_inj_1; [unfold zlen in Hl; lia|done]. Qed.

Lemma pcrs_inj vs vs' : pcrs_wf vs -> pcrs_wf vs' -> concat vs = concat vs' -> vs = vs'.
Proof.
  intros (a1 & a2 & a3 & a4 & a5 & -> & ?)%pcrs_five (b1 & b2 & b3 & b4 & b5 & -> & ?)%pcrs_five Hc.
  cbn [concat] in Hc. rewrite !app_nil_r in Hc.
  do 4 (apply app_inj_zlen in Hc as [-> Hc]; [|lia]). by subst.
Qed.

(** Reading a 64-bit field. *)
Lemma read_field64 data a b x : b - a = 8 -> slice data a b = @Ok AttestError _ x ->
  (f ← slice data a b; read_le_u64 f) = Ok (le_decode x) /\ 0 <= le_decode x < 2 ^ 64 /\
  le_encode 8 (le_decode x) = x.
Proof.
  intros Hab Hx. pose proof (slice_inv _ _ _ _ Hx) as (_ & _ & _ & Hl & _). rewrite Hx, ok_bind. unfold read_le_u64.
  rewrite (proj2 (Z.eqb_eq _ _)) by lia. cbn [negb]. rewrite slice_all, ok_bind by lia.
  pose proof (le_decode_range x) as Hr. replace (8 * zlen x) with 64 in Hr by lia.
  split_and!; [done|lia|lia|]. apply le_encode_decode_n. lia.
Qed.

Lemma encode_challenge_ok c : challenge_wf c -> encode_attestation_challenge c = Ok (challenge_bytes c).
Proof.
  intros (Hn & Hr & _). unfold encode_attestation_challenge, CHALLENGE_WIRE_LEN.
  assert (Hm : zlen CHALLENGE_MAGIC = 8) by done. change (array x00 92) with ([] ++ array x00 92).
  do 6 (rewrite fill_next by zlia; rewrite ?ok_bind).
  rewrite Hn, Hr, Hm, !zlen_le_encode. cbn [Z.of_nat Z.sub]. change (array x00 _) with (@nil byte).
  rewrite app_nil_r. unfold challenge_bytes. cbn [app]. by rewrite <- !app_assoc.
Qed.

Lemma parse_challenge_Ok data c :
  parse_attestation_challenge data = Ok c <-> challenge_wf c /\ data = challenge_bytes c.
Proof.
  unfold parse_attestation_challenge, CHALLENGE_WIRE_LEN.
  assert (Hcm : zlen CHALLENGE_MAGIC = 8) by done.
  destruct (Z.eqb_spec (zlen data) 92) as [Hlen|Hlen]; cbn [negb].
  2: { split; [done|]. intros [(Hn & Hr & _) ->]. destruct Hlen. unfold challenge_bytes. zlia. }
  destruct (bad_envelope_spec data CHALLENGE_MAGIC Hcm) as (b & env & -> & Henv & Hb); [lia|]. rewrite ok_bind.
  destruct (@slice_ok AttestError _ data 12 44) as (n & Hn & Hnl); [lia..|]. rewrite Hn.
  destruct (@slice_ok AttestError _ data 44 52) as (r & Hr & Hrl); [lia..|].
  destruct (@slice_ok AttestError _ data 52 60) as (g & Hg & Hgl); [lia..|].
  destruct (@slice_ok AttestError _ data 60 92) as (m & Hm & Hml); [lia..|]. rewrite Hm.
  destruct (read_field64 data 44 52 r eq_refl Hr) as (-> & Hrr & Hre).
  destruct (read_field64 data 52 60 g eq_refl Hg) as (-> & Hgr & Hge). rewrite !ok_bind.
  apply (slice_join _ _ _ _ _ _ Hg) in Hm. apply (slice_join _ _ _ _ _ _ Hr) in Hm.
  apply (slice_join _ _ _ _ _ _ Hn) in Hm. pose proof (slice_inv _ _ _ _ Henv) as (_ & _ & _ & Hel & _).
  apply (slice_join _ _ _ _ _ _ Henv) in Hm. rewrite slice_all in Hm by done. apply Ok_inj in Hm. subst data.
  unfold challenge_bytes. rewrite (app_assoc CHALLENGE_MAGIC). split.
  - destruct b; [done|]. intros [= <-]. rewrite (proj1 Hb eq_refl). cbn [nonce ch_release_counter
      ch_policy_generation ch_merkle_root]. rewrite Hre, Hge.
    split; [split_and!; cbn [nonce ch_release_counter ch_policy_generation ch_merkle_root]; lia|done].
  - intros [(Hcn & Hcr & Hcl & Hcg) Heq].
    apply app_inj_zlen in Heq as [He Heq]; [|rewrite zlen_app, zlen_le_encode; lia].
    apply app_inj_zlen in Heq as [-> Heq]; [|lia]. apply app_inj_zlen in Heq as [-> Heq]; [|rewrite zlen_le_encode; lia].
    apply app_inj_zlen in Heq as [-> ->]; [|rewrite zlen_le_encode; lia].
    rewrite (proj2 Hb He), !le_decode_encode_small by lia. by destruct c.
Qed.

Lemma encode_evidence_ok e : 0 < zlen e.(quote) <= MAX_QUOTE_LEN ->
  encode_attestation_evidence e = Ok (evidence_bytes e).
Proof.
  unfold MAX_QUOTE_LEN. intros Hq. unfold encode_attestation_evidence, MAX_QUOTE_LEN, checked_add, EVIDENCE_PREFIX_LEN.
  rewrite (proj2 (Z.eqb_neq _ 0)), Z.gtb_ltb, (proj2 (Z.ltb_ge _ _)) by lia. cbn [orb].
  rewrite (proj2 (Z.leb_le _ USIZE_MAX)) by (unfold USIZE_MAX; lia). cbn [ok_or]. rewrite ok_bind.
  unfold as_u32. by rewrite Z.mod_small by lia.
Qed.

Lemma parse_evidence_Ok data e : parse_attestation_evidence data = Ok e <->
  evidence_wf e /\ 0 < zlen e.(quote) <= MAX_QUOTE_LEN /\ data = evidence_bytes e.
Proof.
  unfold parse_attestation_evidence, EVIDENCE_PREFIX_LEN, MAX_QUOTE_LEN.
  assert (Hem : zlen EVIDENCE_MAGIC = 8) by done.
  assert (Hbl : evidence_wf e -> zlen (evidence_bytes e) = 240 + zlen (quote e)).
  { intros [Hs Hp]. pose proof (zlen_pcrs _ Hp). unfold evidence_bytes. zlia. }
  destruct (Z.ltb_spec (zlen data) 240) as [Hlt|Hge].
  { split; [done|]. intros (Hwf & Hq & ->). rewrite (Hbl Hwf) in Hlt. lia. }
  destruct (bad_envelope_spec data EVIDENCE_MAGIC Hem) as (b & env & -> & Henv & Hb); [lia|]. rewrite ok_bind.
  destruct (@slice_ok AttestError _ data 12 16) as (l & Hl & Hll); [lia..|].
  assert (Hrl : (f ← slice data 12 16; read_le_u32 f) = Ok (le_decode l)).
  { rewrite Hl, ok_bind. unfold read_le_u32. rewrite (proj2 (Z.eqb_eq _ _)) by lia. cbn [negb].
    by rewrite slice_all, ok_bind by lia. }
  rewrite Hrl, ok_bind. pose proof (le_decode_range l) as Hlr. replace (8 * zlen l) with 32 in Hlr by lia.
  destruct (@slice_ok AttestError _ data 16 80) as (sg & Hsg & Hsgl); [lia..|].
  destruct (@slice_ok AttestError _ data 80 240) as (z & Hz & Hzl); [lia..|].
  destruct (split_pcrs z) as (vs & Hvs & ->); [lia|].
  destruct (@slice_ok AttestError _ data 240 (zlen data)) as (q & Hq & Hql); [lia..|].
  rewrite (read_pcrs_ok data 80 vs Hvs Hz), Hsg, Hq.
  pose proof (slice_inv _ _ _ _ Henv) as (_ & _ & _ & Hel & _).
  apply (slice_join _ _ _ _ _ _ Hz) in Hq. apply (slice_join _ _ _ _ _ _ Hsg) in Hq.
  apply (slice_join _ _ _ _ _ _ Hl) in Hq. apply (slice_join _ _ _ _ _ _ Henv) in Hq.
  rewrite slice_all in Hq by done. apply Ok_inj in Hq.
  assert (Hdata : data = evidence_bytes e -> evidence_wf e -> 0 < zlen (quote e) <= 4096 ->
    b = false /\ le_decode l = zlen (quote e) /\ sg = signature e /\ vs = pcr_values e /\ q = quote e).
  { intros Heq [Hs Hp] Hqe. rewrite Hq in Heq. unfold evidence_bytes in Heq. rewrite (app_assoc EVIDENCE_MAGIC) in Heq.
    apply app_inj_zlen in Heq as [He Heq]; [|rewrite zlen_app, zlen_le_encode; lia].
    apply app_inj_zlen in Heq as [-> Heq]; [|rewrite zlen_le_encode; lia].
    apply app_inj_zlen in Heq as [-> Heq]; [|lia].
    apply app_inj_zlen in Heq as [Hc ->]; [|rewrite !zlen_pcrs by done; done].
    split_and!; [by apply Hb|by rewrite le_decode_encode_small by lia|done|by apply pcrs_inj|done]. }
  split.
  - destruct b; [done|]. rewrite Z.gtb_ltb. destruct (Z.eqb_spec (le_decode l) 0); [done|].
    destruct (Z.ltb_spec 4096 (le_decode l)); [done|]. cbn [orb]. unfold checked_add.
    rewrite (proj2 (Z.leb_le _ USIZE_MAX)) by (unfold USIZE_MAX; lia). cbn [ok_or]. rewrite ok_bind.
    destruct (Z.eqb_spec (zlen data) (240 + le_decode l)) as [Hdl|]; [|done]. cbn [negb]. rewrite !ok_bind.
    intros [= <-]. cbn [quote signature pcr_values snd] in *. split; [split; [cbn [signature]; lia|done]|]. split; [lia|].
    rewrite Hq. unfold evidence_bytes. cbn [quote signature pcr_values].
    rewrite (proj1 Hb eq_refl), <- app_assoc. do 3 f_equal. rewrite <- (le_encode_decode_n 4 l) at 1 by lia.
    do 2 f_equal. lia.
  - intros (Hwf & Hqe & Heq). destruct (Hdata Heq Hwf Hqe) as (-> & Hlq & -> & -> & ->). rewrite Hlq, Z.gtb_ltb.
    rewrite (proj2 (Z.eqb_neq _ 0)), (proj2 (Z.ltb_ge _ _)) by lia. cbn [orb]. unfold checked_add.
    rewrite (proj2 (Z.leb_le _ USIZE_MAX)) by (unfold USIZE_MAX; lia). cbn [ok_or]. rewrite ok_bind.
    rewrite (proj2 (Z.eqb_eq (zlen data) _)) by (rewrite Heq; by apply Hbl). cbn [negb]. rewrite !ok_bind. by destruct e.
Qed.

Lemma write_pcrs_ok pre vs o n : pcrs_wf vs -> o = zlen pre -> n = 160 ->
  foldM write_pcr (pre ++ array x00 n, o) vs = @Ok AttestError _ (pre ++ concat vs, o + 160).
Proof.
  intros (a & b & c & d & e & -> & Ha & Hb & Hc & Hd & He)%pcrs_five -> ->.
  cbn [foldM write_pcr concat].
  do 5 (rewrite fill_next by zlia; rewrite !ok_bind; cbn [write_pcr]).
  rewrite Ha, Hb, Hc, Hd, He. change (array x00 _) with (@nil byte).
  rewrite !app_nil_r, <- !app_assoc. do 2 f_equal. lia.
Qed.

Lemma encode_policy_ok p : policy_wf p -> encode_attestation_policy p = Ok (policy_bytes p).
Proof.
  intros (Hk & Hp & Hr & _). unfold encode_attestation_policy, POLICY_WIRE_LEN.
  assert (Hm : zlen POLICY_MAGIC = 8) by done. change (array x00 253) with ([] ++ array x00 253).
  do 6 (rewrite fill_next by zlia; rewrite ok_bind).
  rewrite (write_pcrs_ok _ _ _ _ Hp) by zlia. rewrite ok_bind. cbn [fst]. unfold policy_bytes. cbn [app].
  by rewrite <- !app_assoc.
Qed.

Section policy.
Context `{SigOps}.

(** What the parser demands of a policy beyond its layout. *)
Definition policy_usable (p : AttestationPolicy) : Prop :=
  pk_valid p.(ak_public_key_sec1) = true /\ p.(minimum_release) <> 0 /\ p.(expected_policy_generation) <> 0.

Lemma parse_policy_Ok data p :
  parse_attestation_policy data = Ok p <-> policy_wf p /\ policy_usable p /\ data = policy_bytes p.
Proof.
  unfold parse_attestation_policy, POLICY_WIRE_LEN, policy_usable.
  assert (Hpm : zlen POLICY_MAGIC = 8) by done.
  destruct (Z.eqb_spec (zlen data) 253) as [Hlen|Hlen]; cbn [negb].
  2: { split; [done|]. intros ((Hk & Hp & Hr & _) & _ & ->). destruct Hlen. pose proof (zlen_pcrs _ Hp).
       unfold policy_bytes. zlia. }
  destruct (bad_envelope_spec data POLICY_MAGIC Hpm) as (b & env & -> & Henv & Hb); [lia|]. rewrite ok_bind.
  destruct (@slice_ok AttestError _ data 12 45) as (k & Hk & Hkl); [lia..|]. rewrite Hk, ok_bind.
  destruct (@slice_ok AttestError _ data 45 53) as (r & Hr & Hrl); [lia..|].
  destruct (@slice_ok AttestError _ data 53 61) as (g & Hg & Hgl); [lia..|].
  destruct (@slice_ok AttestError _ data 61 93) as (m & Hm & Hml); [lia..|]. rewrite Hm.
  destruct (@slice_ok AttestError _ data 93 253) as (z & Hz & Hzl); [lia..|].
  destruct (split_pcrs z) as (vs & Hvs & ->); [lia|].
  destruct (read_field64 data 45 53 r eq_refl Hr) as (-> & Hrr & Hre).
  destruct (read_field64 data 53 61 g eq_refl Hg) as (-> & Hgr & Hge).
  rewrite (read_pcrs_ok data 93 vs Hvs Hz), !ok_bind.
  pose proof (slice_inv _ _ _ _ Henv) as (_ & _ & _ & Hel & _).
  apply (slice_join _ _ _ _ _ _ Hm) in Hz. apply (slice_join _ _ _ _ _ _ Hg) in Hz.
  apply (slice_join _ _ _ _ _ _ Hr) in Hz. apply (slice_join _ _ _ _ _ _ Hk) in Hz.
  apply (slice_join _ _ _ _ _ _ Henv) in Hz. rewrite slice_all in Hz by done. apply Ok_inj in Hz. subst data.
  unfold policy_bytes. rewrite (app_assoc POLICY_MAGIC). split.
  - destruct b; [done|]. destruct (pk_valid k) eqn:Hpk; [|done].
    destruct (Z.eqb_spec (le_decode r) 0); [done|]. destruct (Z.eqb_spec (le_decode g) 0); [done|].
    intros [= <-]. rewrite (proj1 Hb eq_refl). unfold policy_wf. cbn [ak_public_key_sec1 expected_pcr_values
      minimum_release expected_policy_generation expected_merkle_root snd]. rewrite Hre, Hge.
    split; [split; [lia|]; split; [done|]; lia|]. done.
  - intros ((Hpk & Hp & Hpr & Hpl & Hpg) & (Hkv & Hr0 & Hg0) & Heq).
    apply app_inj_zlen in Heq as [He Heq]; [|rewrite zlen_app, zlen_le_encode; lia].
    apply app_inj_zlen in Heq as [-> Heq]; [|lia]. apply app_inj_zlen in Heq as [-> Heq]; [|rewrite zlen_le_encode; lia].
    apply app_inj_zlen in Heq as [-> Heq]; [|rewrite zlen_le_encode; lia].
    apply app_inj_zlen in Heq as [-> Heq]; [|lia]. apply pcrs_inj in Heq as ->; [|done..].
    rewrite (proj2 Hb He), !le_decode_encode_small, Hkv by lia.
    rewrite !(proj2 (Z.eqb_neq _ 0)) by done. by destruct p.
Qed.
End policy.

(** ** The verifier *)

Section theorems.
Context `{HashLaws, SigOps}.

(** What the qualifying data of a challenge is the digest of. *)
Definition challenge_binding (c : AttestationChallenge) : list byte :=
  QUALIFYING_DATA_DOMAIN ++ c.(nonce) ++ be_encode 8 c.(ch_release_counter) ++
  be_encode 8 c.(ch_policy_generation) ++ c.(ch_merkle_root).

Lemma qualifying_data_eq c : attestation_qualifying_data c = sha256 (challenge_binding c).
Proof. unfold attestation_qualifying_data, sha256_digest_chunked, challenge_binding. cbn [concat]. by rewrite app_nil_r. Qed.

Lemma challenge_binding_inj c c' : challenge_wf c -> challenge_wf c' ->
  challenge_binding c = challenge_binding c' -> c = c'.
Proof.
  intros (Hn & Hr & Hrc & Hg) (Hn' & Hr' & Hrc' & Hg') Heq. unfold challenge_binding in Heq.
  apply (inj (app _)) in Heq. apply app_inj_zlen in Heq as [He1 Heq]; [|lia].
  apply app_inj_zlen in Heq as [He2 Heq]; [|by rewrite !zlen_be_encode].
  apply app_inj_zlen in Heq as [He3 He4]; [|by rewrite !zlen_be_encode].
  apply (f_equal be_decode) in He2, He3. rewrite !be_decode_encode_small in He2, He3 by done.
  destruct c, c'; cbn in *. congruence.
Qed.

Lemma pcrs_allowed_Ok vs ws : length vs = length ws -> pcrs_allowed vs ws = Ok tt <-> vs = ws.
Proof.
  revert ws. induction vs as [|v vs IH]; intros [|w ws] Hl; try done. injection Hl as Hl. cbn [pcrs_allowed].
  unfold constant_time_hash_eq. destruct (ct_eq v w) eqn:Hvw; cbn [negb].
  - apply ct_eq_spec in Hvw as ->. rewrite IH by done. naive_solver.
  - apply ct_eq_false in Hvw. split; [done|]. naive_solver.
Qed.

Lemma pcrs_wf_length vs ws : pcrs_wf vs -> pcrs_wf ws -> length vs = length ws.
Proof. intros [Hv _] [Hw _]. unfold zlen in *. lia. Qed.

(** A guard that failed to stop the computation. *)
Lemma guard_Ok {A} (b : bool) err (m : AttestResult A) v :
  (if b then Err err else m) = Ok v <-> b = false /\ m = Ok v.
Proof. destruct b; naive_solver. Qed.

(** The quote of [e] answers challenge [c]: a canonical quote over the qualifying data of
    [c] and the digest of the PCR values of [e]. *)
Definition answers (e : AttestationEvidence) (c : AttestationChallenge) : Prop :=
  exists signer clock resets restarts firmware,
    let extra := attestation_qualifying_data c in
    let digest := sha256_digest_chunked e.(pcr_values) in
    quote_fields signer extra clock resets restarts firmware digest /\
    e.(quote) = quote_bytes signer extra clock resets restarts firmware digest.

Lemma answers_parse e c : zlen e.(quote) <= USIZE_MAX -> answers e c ->
  parse_quote e.(quote) = Ok {| extra_data := attestation_qualifying_data c;
                                pcr_digest := sha256_digest_chunked e.(pcr_values) |}.
Proof.
  intros Hq (s & cl & r1 & r2 & f & Hf & Hqb). apply parse_quote_Ok; [done|]. by eexists s, _, cl, r1, r2, f, _.
Qed.

(** The gates after the signature. *)
Lemma quote_gates_Ok e c ws (v0 v : VerifiedAttestation) :
  length e.(pcr_values) = length ws -> zlen e.(quote) <= USIZE_MAX ->
  (parsed ← parse_quote e.(quote);
   if negb (ct_eq parsed.(extra_data) (attestation_qualifying_data c)) then Err BindingMismatch
   else
     pcrs_allowed e.(pcr_values) ws ;;
     if negb (ct_eq parsed.(pcr_digest) (sha256_digest_chunked e.(pcr_values))) then Err PcrDigestMismatch
     else Ok v0) = Ok v <-> e.(pcr_values) = ws /\ answers e c /\ v = v0.
Proof.
  intros Hlen Hq. split.
  - destruct (parse_quote (quote e)) as [pq|?|] eqn:Hpq; [|done..]. rewrite ok_bind.
    rewrite guard_Ok, negb_false_iff, ct_eq_spec. intros [Hex Hrest].
    destruct (pcrs_allowed _ ws) as [[]|?|] eqn:Hal; [|done..]. apply pcrs_allowed_Ok in Hal; [|done].
    rewrite ok_bind, guard_Ok, negb_false_iff, ct_eq_spec in Hrest. destruct Hrest as [Hdg [= <-]].
    apply parse_quote_Ok in Hpq as (s & ex & cl & r1 & r2 & f & d & Hf & Hqb & ->); [|done]. cbn in Hex, Hdg. subst ex d.
    split_and!; [done| |done]. by exists s, cl, r1, r2, f.
  - intros (<- & Ha & ->). rewrite (answers_parse e c Hq Ha), ok_bind.
    cbn [extra_data pcr_digest]. rewrite !ct_eq_refl. cbn [negb].
    by rewrite (proj2 (pcrs_allowed_Ok _ _ Hlen) eq_refl), ok_bind.
Qed.

(** C18: the remote verifier accepts evidence exactly when the challenge is at or above
    the release floor and carries the enrolled generation and root, the signature verifies
    under the enrolled attestation key, the PCR values are the enrolled ones, and the quote
    is a canonical TPM quote over the qualifying data of this challenge and the digest of
    those PCR values; it then returns the state named in the challenge. *)
Theorem attestation_verify_exact e c p v :
  challenge_wf c -> evidence_wf e -> policy_wf p -> zlen e.(quote) <= USIZE_MAX ->
  verify_attestation e c p = Ok v <->
    p.(minimum_release) <= c.(ch_release_counter) /\
    c.(ch_policy_generation) = p.(expected_policy_generation) /\
    c.(ch_merkle_root) = p.(expected_merkle_root) /\
    sig_valid e.(signature) = true /\ pk_valid p.(ak_public_key_sec1) = true /\
    sig_verify p.(ak_public_key_sec1) e.(quote) e.(signature) = true /\
    e.(pcr_values) = p.(expected_pcr_values) /\
    answers e c /\
    v = {| va_release_counter := c.(ch_release_counter); va_policy_generation := c.(ch_policy_generation);
           va_merkle_root := c.(ch_merkle_root) |}.
Proof.
  intros _ [_ He] (_ & Hp & _) Hq. unfold verify_attestation, constant_time_hash_eq.
  rewrite !guard_Ok, !negb_false_iff, Z.ltb_ge, Z.eqb_eq, ct_eq_spec.
  rewrite (quote_gates_Ok e c _ _ v (pcrs_wf_length _ _ He Hp) Hq). done.
Qed.

(** C19: evidence answers one challenge only: if the same evidence is accepted for two
    challenges, under whatever policies, the challenges are equal or their bindings are a
    SHA-256 collision. *)
Theorem attestation_no_replay e c c' p p' v v' :
  challenge_wf c -> challenge_wf c' -> evidence_wf e -> policy_wf p -> policy_wf p' -> zlen e.(quote) <= USIZE_MAX ->
  verify_attestation e c p = Ok v -> verify_attestation e c' p' = Ok v' ->
  c = c' \/ collision (challenge_binding c) (challenge_binding c').
Proof.
  intros Hc Hc' [_ He] (_ & Hp & _) (_ & Hp' & _) Hq Hv Hv'.
  unfold verify_attestation, constant_time_hash_eq in Hv, Hv'. rewrite !guard_Ok in Hv, Hv'.
  destruct Hv as (_ & _ & _ & _ & _ & _ & Hv). destruct Hv' as (_ & _ & _ & _ & _ & _ & Hv').
  apply quote_gates_Ok in Hv as (_ & Ha & _); [|by apply pcrs_wf_length|done].
  apply quote_gates_Ok in Hv' as (_ & Ha' & _); [|by apply pcrs_wf_length|done].
  destruct (sha256_inj_or_collision (challenge_binding c) (challenge_binding c')) as [Heq|]; [|left|by right].
  - rewrite <- !qualifying_data_eq. apply answers_parse in Ha, Ha'; [|done..]. rewrite Ha in Ha'. by injection Ha'.
  - by apply challenge_binding_inj.
Qed.

(** The three envelopes are exact: a parser returns a value exactly when the data is
    what the encoder produces for it, so that every accepted byte string has one meaning and
    every value one encoding; a policy must also carry a valid key and non-zero floors. *)
Theorem attestation_envelopes_exact data c e p :
  challenge_wf c -> evidence_wf e -> policy_wf p ->
  (parse_attestation_challenge data = Ok c <-> encode_attestation_challenge c = Ok data) /\
  (parse_attestation_evidence data = Ok e <-> encode_attestation_evidence e = Ok data) /\
  (parse_attestation_policy data = Ok p <-> policy_usable p /\ encode_attestation_policy p = Ok data).
Proof.
  intros Hc He Hp. rewrite parse_challenge_Ok, parse_evidence_Ok, parse_policy_Ok.
  rewrite (encode_challenge_ok c Hc), (encode_policy_ok p Hp). split_and!; [naive_solver| |naive_solver].
  destruct (decide (0 < zlen (quote e) <= MAX_QUOTE_LEN)) as [Hq|Hq].
  - rewrite (encode_evidence_ok e Hq). naive_solver.
  - split; [naive_solver|]. unfold encode_attestation_evidence. pose proof (zlen_nonneg (quote e)).
    rewrite guard_Ok, orb_false_iff, Z.eqb_neq, Z.gtb_ltb, Z.ltb_ge. lia.
Qed.
End theorems.

(** ** Concrete instances *)

Module AttestationWitness.
Definition ak : list byte := replicate 32 x33.
Definition challenge : AttestationChallenge := {|
  nonce := replicate 32 x44; ch_release_counter := 42; ch_policy_generation := 12;
  ch_merkle_root := replicate 32 xaa |}.
Definition pcrs : list (list byte) := [replicate 32 x01; replicate 32 x02; replicate 32 x03; replicate 32 x04; replicate 32 x05].
Definition the_quote : list byte :=
  quote_bytes (replicate 34 x0b) (@attestation_qualifying_data Toy.hash challenge) (replicate 8 x00)
    (replicate 4 x01) (replicate 4 x02) (replicate 8 x09) (@sha256_digest_chunked Toy.hash pcrs).
Definition evidence : AttestationEvidence := {|
  quote := the_quote; signature := @sign Toy.sig ak the_quote; pcr_values := pcrs |}.
Definition policy (floor : Z) : AttestationPolicy := {|
  ak_public_key_sec1 := @pk_of Toy.sig ak; expected_pcr_values := pcrs; minimum_release := floor;
  expected_policy_generation := 12; expected_merkle_root := replicate 32 xaa |}.
Definition verified : VerifiedAttestation := {|
  va_release_counter := 42; va_policy_generation := 12; va_merkle_root := replicate 32 xaa |}.

Lemma challenge_ok : challenge_wf challenge.
Proof. split_and!; by vm_compute. Defined.
Lemma evidence_ok : evidence_wf evidence.
Proof. split; [by vm_compute|]. split; [by vm_compute|]. unfold evidence, pcrs. by repeat constructor. Defined.
Lemma policy_ok floor : 0 <= floor < 2 ^ 64 -> policy_wf (policy floor).
Proof.
  intros Hf. split; [by vm_compute|]. split; [split; [by vm_compute|unfold policy, pcrs; by repeat constructor]|].
  split; [by vm_compute|]. split; [exact Hf|by vm_compute].
Defined.

(** Evidence for release 42 is accepted with a floor of 40, and then it answers the challenge. *)
Lemma attestation_verify_exact_witness :
  let H := Toy.hash in let S := Toy.sig in
  verify_attestation evidence challenge (policy 40) = Ok verified /\ answers evidence challenge.
Proof.
  assert (Hv : @verify_attestation Toy.hash Toy.sig evidence challenge (policy 40) = Ok verified) by by vm_compute.
  split; [exact Hv|].
  apply (@attestation_verify_exact Toy.hash toy_hash_laws Toy.sig _ _ _ _ challenge_ok evidence_ok (policy_ok 40 ltac:(lia))
    ltac:(vm_compute; discriminate)) in Hv.
  apply Hv.
Defined.

Lemma attestation_no_replay_witness :
  let H := Toy.hash in let S := Toy.sig in
  verify_attestation evidence challenge (policy 40) = Ok verified /\
  verify_attestation evidence challenge (policy 42) = Ok verified /\
  (challenge = challenge \/ collision (challenge_binding challenge) (challenge_binding challenge)).
Proof.
  assert (Hv : @verify_attestation Toy.hash Toy.sig evidence challenge (policy 40) = Ok verified) by by vm_compute.
  assert (Hv' : @verify_attestation Toy.hash Toy.sig evidence challenge (policy 42) = Ok verified) by by vm_compute.
  split; [exact Hv|]. split; [exact Hv'|].
  exact (@attestation_no_replay Toy.hash toy_hash_laws Toy.sig _ _ _ _ _ _ _ challenge_ok challenge_ok evidence_ok
    (policy_ok 40 ltac:(lia)) (policy_ok 42 ltac:(lia)) ltac:(vm_compute; discriminate) Hv Hv').
Defined.

(** The bytes of the challenge decode to it, and are not a policy. *)
Lemma attestation_envelopes_exact_witness :
  let H := Toy.sig in let data := challenge_bytes challenge in
  (parse_attestation_challenge data = Ok challenge <-> encode_attestation_challenge challenge = Ok data) /\
  (parse_attestation_evidence data = Ok evidence <-> encode_attestation_evidence evidence = Ok data) /\
  (parse_attestation_policy data = Ok (policy 40) <->
    policy_usable (policy 40) /\ encode_attestation_policy (policy 40) = Ok data).
Proof.
  exact (@attestation_envelopes_exact Toy.sig (challenge_bytes challenge) _ _ _ challenge_ok evidence_ok (policy_ok 40 ltac:(lia))).
Defined.

(** Stale evidence is refused. *)
Example below_floor_refused :
  @verify_attestation Toy.hash Toy.sig evidence challenge (policy 43) = Err BelowFloor.
Proof. reflexivity. Qed.
End AttestationWitness.
