(* ===== verification/Tpm.v ===== *)
(** * Tpm: the hardware root of trust

    Models [dfim_cli_provisioner/src/tpm.rs]: opening the TPM, extending PCR 14 with a
    Merkle root, enrolling an attestation key and quoting the attested PCRs.

    [tss_esapi] is a crate outside the repository: the record [Tss] holds what it answers.
    A TPM has state, so an answer may depend on every command sent before; the state of an
    operation is that history, newest first.  [honest] states what a caller may rely on:
    the update counter tracks the PCRs, a quote reports the PCRs of the moment and its
    integers are an ECDSA signature under the point of the key it was asked for.  [P256Laws]
    states how the crate [p256] reads such a point and such integers from their fixed
    encodings; that the code produces those encodings is proved ([signature_encoded],
    [sec1_encoded]).

    The theorems show that the evidence of an honest TPM passes the remote verifier of
    [Attestation] exactly for the enrolled state, and that the integers of a signature
    survive their normalisation. *)

From stdpp Require Import base list numbers option strings.
From Stdlib Require Import ZArith Lia Strings.Byte.
From S2P Require Import Prelude Crypto Core Json Attestation.

(** ** The crate *)

Definition TPM_DEVICE_CANDIDATES : list (list byte) := [bytes_of_string "/dev/tpmrm0"; bytes_of_string "/dev/tpm0"].

(** [structures::Public]: the point of an ECC key and the rest of the template *)
Inductive TpmPublic := EccPublic (x y template : list byte) | OtherPublic (template : list byte).
(** [structures::Signature]: the hash algorithm and the two integers *)
Inductive TpmSignature := EcDsa (hashing_algorithm : Z) (r s : list byte) | OtherSignature.

(** [PcrSelectionList] of one bank: its algorithm and its slots *)
Definition Selection : Type := Z * list Z.

Inductive TpmCommand :=
| OpenContext (tcti : list byte)
| PcrExtend (pcr : Z) (digest : list byte)
| CreateEk
| CreateAk (ek : Z)
| LoadAk (ek : Z) (private : list byte) (public : TpmPublic)
| PcrRead (selection : Selection)
| Quote (ak : Z) (data : list byte) (selection : Selection)
| FlushContext (handle : Z).

Abbreviation History := (list TpmCommand).

Record Tss := {
  (** [std::env::var(DFIM_TPM_TCTI)] and [Path::exists] *)
  env_tcti : option (list byte);
  device_exists : list byte -> bool;
  (** conversions: [TctiNameConf::from_str], [DeviceConfig::from_str], [Digest::try_from],
      [Data::try_from], [Private::try_from], [Public::unmarshall] and [marshall] *)
  tcti_valid : list byte -> bool;
  device_valid : list byte -> bool;
  digest_fits : list byte -> bool;
  data_fits : list byte -> bool;
  private_fits : list byte -> bool;
  unmarshall_public : list byte -> option TpmPublic;
  marshall_public : TpmPublic -> option (list byte);
  (** commands: [Context::new], [pcr_extend], [create_ek_object_2], [create_ak_2],
      [load_ak], [pcr_read], [quote] (the marshalled attestation) and [flush_context] *)
  new_context : History -> list byte -> bool;
  pcr_extend : History -> Z -> list byte -> bool;
  create_ek : History -> option Z;
  create_ak : History -> Z -> option (list byte * TpmPublic);
  load_ak : History -> Z -> list byte -> TpmPublic -> option Z;
  pcr_read : History -> Selection -> option (Z * Selection * list (list byte));
  tpm_quote : History -> Z -> list byte -> Selection -> option (option (list byte) * TpmSignature);
  flush_context : History -> Z -> bool
}.

Inductive TpmError :=
| TssError | NoDevice | PcrsChanged | IncompleteSelection | NotSha256Pcr | NotEcdsa | NotSha256Signature
| ComponentLength | NotEcc | NotP256 | InvalidAkKey.

Abbreviation TpmM := (stm History TpmError).

Record EnrolledAttestationKey := { private_blob : list byte; public_blob : list byte; enrolled_key_sec1 : list byte }.

(** ** Conversions *)

Definition copy_left_padded (source output : list byte) : outcome TpmError (list byte) :=
  if (zlen source =? 0) || (zlen source >? zlen output) then Err ComponentLength
  else
    start ← sub_usize (zlen output) (zlen source);
    copy_into output start (zlen output) source.

Definition normalize_ecdsa_signature (signature : TpmSignature) : outcome TpmError (list byte) :=
  match signature with
  | OtherSignature => Err NotEcdsa
  | EcDsa alg r s =>
      if negb (alg =? TPM_ALG_SHA256) then Err NotSha256Signature
      else
        first ← copy_left_padded r (array x00 32);
        second ← copy_left_padded s (array x00 32);
        Ok (first ++ second)
  end.

Definition ecc_public_to_sec1 `{SigOps} (public : TpmPublic) : outcome TpmError (list byte) :=
  match public with
  | OtherPublic _ => Err NotEcc
  | EccPublic x y _ =>
      if (zlen x =? 0) || (zlen x >? 32) || (zlen y =? 0) || (zlen y >? 32) then Err NotP256
      else
        i ← sub_usize (zlen y) 1; l ← index y i;
        encoded ← store (array x00 33) 0 (z2b (Z.lor 0x02 (Z.land (b2z l) 1)));
        start ← sub_usize 33 (zlen x);
        encoded ← copy_into encoded start 33 x;
        if negb (pk_valid encoded) then Err InvalidAkKey else Ok encoded
  end.

(** [values.iter_mut().zip(digests.value())], after the length check *)
Fixpoint pcr_values_of (digests : list (list byte)) : outcome TpmError (list (list byte)) :=
  match digests with
  | [] => Ok []
  | d :: digests => if negb (zlen d =? 32) then Err NotSha256Pcr else vs ← pcr_values_of digests; Ok (d :: vs)
  end.

(** ECDSA with SHA-256 over P-256 on integers: the points of the curve, and the signatures
    [(r, s)] of a message under a point [(x, y)] *)
Class P256 := {
  on_curve : Z -> Z -> bool;
  ecdsa : Z -> Z -> list byte -> Z -> Z -> bool
}.

(** The crate [p256]: a signature is [r] and [s] as 32 bytes each, big-endian; a compressed SEC1 point
    is the tag 2 or 3, by the parity of [y], and [x] as 32 bytes, big-endian. *)
Class P256Laws `{SigOps, P256} : Prop := {
  p256_verifies x y msg r s : 0 <= x < 2 ^ 256 -> 0 <= y < 2 ^ 256 -> 0 <= r < 2 ^ 256 -> 0 <= s < 2 ^ 256 ->
    on_curve x y = true -> ecdsa x y msg r s = true ->
    sig_valid (be_encode 32 r ++ be_encode 32 s) = true /\
    sig_verify (z2b (2 + y mod 2) :: be_encode 32 x) msg (be_encode 32 r ++ be_encode 32 s) = true
}.

#[export] Instance selection_eq_dec : EqDecision Selection.
Proof. solve_decision. Defined.

Section model.
Context `{HashOps, SigOps}.
Context (t : Tss).

(** One command to the TPM. *)
Definition command {A} (cmd : TpmCommand) (answer : History -> option A) : TpmM A := fun past =>
  (ok_or (answer past) TssError, cmd :: past).

Definition guard_some (b : bool) : option unit := if b then Some tt else None.

Definition try_open_tpm_context (device_path : list byte) : TpmM unit :=
  lift (ok_or (guard_some (t.(device_valid) device_path)) TssError) ;;
  command (OpenContext device_path) (fun past => guard_some (t.(new_context) past device_path)).

Fixpoint open_candidates (candidates : list (list byte)) : TpmM (list byte) :=
  match candidates with
  | [] => lift (Err NoDevice)
  | c :: candidates =>
      if negb (t.(device_exists) c) then open_candidates candidates
      else fun past =>
        match try_open_tpm_context c past with
        | (Ok _, past) => (Ok c, past)
        | (Err _, past) => open_candidates candidates past
        | (Panic, past) => (Panic, past)
        end
  end.

Definition open_first_available_tpm_context : TpmM (list byte) :=
  match t.(env_tcti) with
  | Some name =>
      if zlen name =? 0 then open_candidates TPM_DEVICE_CANDIDATES
      else
        lift (ok_or (guard_some (t.(tcti_valid) name)) TssError) ;;
        command (OpenContext name) (fun past => guard_some (t.(new_context) past name)) ;;
        mret name
  | None => open_candidates TPM_DEVICE_CANDIDATES
  end.

Definition flush (handle : Z) : TpmM unit :=
  command (FlushContext handle) (fun past => guard_some (t.(flush_context) past handle)).

Definition extend_merkle_root_to_hardware_tpm (merkle_root : list byte) : TpmM unit :=
  open_first_available_tpm_context ;;
  lift (ok_or (guard_some (t.(digest_fits) merkle_root)) TssError) ;;
  command (PcrExtend 14 merkle_root) (fun past => guard_some (t.(pcr_extend) past 14 merkle_root)).

Definition create_attestation_key : TpmM EnrolledAttestationKey :=
  open_first_available_tpm_context ;;
  endorsement_key ← command CreateEk t.(create_ek);
  created ← command (CreateAk endorsement_key) (fun past => t.(create_ak) past endorsement_key);
  let '(out_private, out_public) := (created : list byte * TpmPublic) in
  sec1 ← lift (ecc_public_to_sec1 out_public);
  public ← lift (ok_or (t.(marshall_public) out_public) TssError);
  flush endorsement_key ;;
  mret {| private_blob := out_private; public_blob := public; enrolled_key_sec1 := sec1 |}.

Definition attested_pcr_selection : Selection := (TPM_ALG_SHA256, [0; 2; 4; 7; 14]).

Definition read_pcr_snapshot (selection : Selection) : TpmM (Z * list (list byte)) :=
  answer ← command (PcrRead selection) (fun past => t.(pcr_read) past selection);
  let '(counter, returned_selection, digests) := (answer : Z * Selection * list (list byte)) in
  if negb (bool_decide (returned_selection = selection)) || negb (zlen digests =? ATTESTED_PCR_COUNT)
  then lift (Err IncompleteSelection)
  else values ← lift (pcr_values_of digests); mret (counter, values).

Definition quote_attestation (challenge : AttestationChallenge) (private_blob public_blob : list byte) :
    TpmM AttestationEvidence :=
  open_first_available_tpm_context ;;
  endorsement_key ← command CreateEk t.(create_ek);
  lift (ok_or (guard_some (t.(private_fits) private_blob)) TssError) ;;
  public ← lift (ok_or (t.(unmarshall_public) public_blob) TssError);
  loaded_ak ← command (LoadAk endorsement_key private_blob public)
                (fun past => t.(load_ak) past endorsement_key private_blob public);
  let selection := attested_pcr_selection in
  before ← read_pcr_snapshot selection;
  let data := attestation_qualifying_data challenge in
  lift (ok_or (guard_some (t.(data_fits) data)) TssError) ;;
  answer ← command (Quote loaded_ak data selection) (fun past => t.(tpm_quote) past loaded_ak data selection);
  after ← read_pcr_snapshot selection;
  if negb (fst before =? fst after) || negb (bool_decide (snd before = snd after)) then lift (Err PcrsChanged)
  else
    signature ← lift (normalize_ecdsa_signature (snd answer));
    quote ← lift (ok_or (fst answer) TssError);
    flush loaded_ak ;;
    flush endorsement_key ;;
    mret {| quote := quote; signature := signature; pcr_values := snd after |}.
End model.

(** ** Integers of a signature *)

Lemma copy_left_padded_Ok source output n : output = array x00 n -> 0 <= n ->
  forall out, copy_left_padded source output = Ok out <->
    0 < zlen source <= n /\ out = array x00 (n - zlen source) ++ source.
Proof.
  intros -> Hn out. unfold copy_left_padded. pose proof (zlen_nonneg source). rewrite zlen_array by done.
  destruct (Z.eqb_spec (zlen source) 0) as [|Hne]; cbn [orb]; [split; [done|lia]|].
  rewrite Z.gtb_ltb. destruct (Z.ltb_spec n (zlen source)); [split; [done|lia]|].
  unfold sub_usize. rewrite (proj2 (Z.leb_le _ _)) by lia. rewrite ok_bind.
  rewrite copy_into_ok by (rewrite ?zlen_array by lia; lia).
  assert (splice (array x00 n) (Z.to_nat (n - zlen source)) source = array x00 (n - zlen source) ++ source) as ->.
  { unfold splice, array. rewrite take_replicate, drop_replicate.
    rewrite Nat.min_l by lia. replace (Z.to_nat n - _)%nat with 0%nat by (unfold zlen in *; lia). by rewrite app_nil_r. }
  split; [intros [= <-]; split; [lia|done]|by intros [_ ->]].
Qed.

Lemma be_decode_padded k l : be_decode (array x00 k ++ l) = be_decode l.
Proof.
  unfold be_decode, array. rewrite reverse_app, reverse_replicate. generalize (reverse l) as r, (Z.to_nat k) as j.
  intros r j. induction r as [|b r IH]; cbn; [|by rewrite IH]. induction j as [|j IH]; cbn; [done|]. by rewrite IH.
Qed.

(** ** Quotes of an honest TPM *)

Lemma command_Ok {A} cmd (answer : History -> option A) past a past' :
  command cmd answer past = (Ok a, past') <-> answer past = Some a /\ past' = cmd :: past.
Proof.
  unfold command. rewrite <- (ok_or_Ok (answer past) TssError). split; [by intros [= -> <-]|]. by intros [-> ->].
Qed.

Lemma pcr_values_of_Ok ds vs : pcr_values_of ds = Ok vs <-> vs = ds /\ Forall (fun v => zlen v = 32) ds.
Proof.
  revert vs. induction ds as [|d ds IH]; intros vs; cbn [pcr_values_of].
  - split; [intros [= <-]; by split|by intros [-> _]].
  - rewrite Forall_cons. destruct (Z.eqb_spec (zlen d) 32) as [Hd|Hd]; cbn [negb]; [|split; [done|naive_solver]].
    split.
    + intros (ws & [-> Hws]%IH & [= <-])%bind_Ok. done.
    + intros (-> & _ & Hds). apply bind_Ok. exists ds. split; [by apply IH|done].
Qed.

Section quotes.
Context `{HashOps, SigOps}.
Context (t : Tss).

Lemma snapshot_Ok past c vs past' : read_pcr_snapshot t attested_pcr_selection past = (Ok (c, vs), past') ->
  pcr_read t past attested_pcr_selection = Some (c, attested_pcr_selection, vs) /\ pcrs_wf vs /\
  past' = PcrRead attested_pcr_selection :: past.
Proof.
  unfold read_pcr_snapshot. intros ([[c' sel] ds] & past1 & [Ha ->]%command_Ok & Hr)%stm_bind_Ok.
  destruct (bool_decide_reflect (sel = attested_pcr_selection)) as [->|]; cbn [negb orb] in Hr; [|done].
  destruct (Z.eqb_spec (zlen ds) ATTESTED_PCR_COUNT) as [Hn|]; cbn [negb] in Hr; [|done].
  apply stm_bind_Ok in Hr as (vs' & past2 & [[-> Hall]%pcr_values_of_Ok ->]%stm_lift_Ok & [= <- <- <-]).
  split; [done|]. split; [|done]. by split.
Qed.

(** A successful quote: the commands it sent and where its evidence comes from. *)
Definition quoted (c : AttestationChallenge) (private : list byte) (public : TpmPublic) (e : AttestationEvidence)
    (past past' : History) : Prop :=
  exists ek ak past1 counter sg,
    let sel := attested_pcr_selection in
    let loaded := LoadAk ek private public :: past1 in
    let moment := PcrRead sel :: loaded in
    let asked := Quote ak (attestation_qualifying_data c) sel :: moment in
    past `suffix_of` past1 /\
    load_ak t past1 ek private public = Some ak /\
    pcr_read t loaded sel = Some (counter, sel, e.(pcr_values)) /\
    tpm_quote t moment ak (attestation_qualifying_data c) sel = Some (Some e.(quote), sg) /\
    pcr_read t asked sel = Some (counter, sel, e.(pcr_values)) /\
    normalize_ecdsa_signature sg = Ok e.(signature) /\ pcrs_wf e.(pcr_values) /\
    past' = FlushContext ek :: FlushContext ak :: PcrRead sel :: asked.

Lemma candidates_history l past r past' : open_candidates t l past = (r, past') -> past `suffix_of` past'.
Proof.
  revert past. induction l as [|d l IH]; intros past; cbn [open_candidates]; [by intros [= _ <-]|].
  destruct (device_exists t d); [|apply IH]. cbn [negb]. unfold try_open_tpm_context, command, mbind, stm_bind, lift.
  destruct (guard_some (device_valid t d)); cbn; [|apply IH].
  destruct (guard_some (new_context t past d)); cbn.
  - intros [= _ <-]. by apply suffix_cons_r.
  - intros Hs%IH. etrans; [|exact Hs]. by apply suffix_cons_r.
Qed.

Lemma open_history past a past' : open_first_available_tpm_context t past = (Ok a, past') -> past `suffix_of` past'.
Proof.
  unfold open_first_available_tpm_context. destruct (env_tcti t) as [name|]; [|apply candidates_history].
  destruct (zlen name =? 0); [apply candidates_history|].
  intros (_ & p1 & [_ ->]%stm_lift_Ok & Hr)%stm_bind_Ok. apply stm_bind_Ok in Hr as (_ & p2 & [_ ->]%command_Ok & [= _ <-]).
  by apply suffix_cons_r.
Qed.

Lemma quote_run c private blob past e past' :
  quote_attestation t c private blob past = (Ok e, past') ->
  exists public, unmarshall_public t blob = Some public /\ quoted c private public e past past'.
Proof.
  unfold quote_attestation. intros (n & p0 & Hopen%open_history & Hr)%stm_bind_Ok.
  apply stm_bind_Ok in Hr as (ek & p1 & [_ ->]%command_Ok & Hr).
  apply stm_bind_Ok in Hr as (u1 & p2 & [_ ->]%stm_lift_Ok & Hr).
  apply stm_bind_Ok in Hr as (public & p2' & [Hpub%ok_or_Ok ->]%stm_lift_Ok & Hr).
  apply stm_bind_Ok in Hr as (ak & p3 & [Hload ->]%command_Ok & Hr). cbv zeta in Hr.
  apply stm_bind_Ok in Hr as ([c0 vs0] & p4 & (Hr0 & Hwf0 & ->)%snapshot_Ok & Hr).
  apply stm_bind_Ok in Hr as (u2 & p5 & [_ ->]%stm_lift_Ok & Hr).
  apply stm_bind_Ok in Hr as ([att sg] & p6 & [Hq ->]%command_Ok & Hr).
  apply stm_bind_Ok in Hr as ([c1 vs1] & p7 & (Hr1 & Hwf1 & ->)%snapshot_Ok & Hr). cbn [fst snd] in Hr.
  destruct (Z.eqb_spec c0 c1) as [->|]; cbn [negb orb] in Hr; [|done].
  destruct (bool_decide_reflect (vs0 = vs1)) as [->|]; cbn [negb] in Hr; [|done].
  apply stm_bind_Ok in Hr as (s & p8 & [Hs ->]%stm_lift_Ok & Hr).
  apply stm_bind_Ok in Hr as (q & p9 & [->%ok_or_Ok ->]%stm_lift_Ok & Hr).
  apply stm_bind_Ok in Hr as (u3 & p10 & [_ ->]%command_Ok & Hr).
  apply stm_bind_Ok in Hr as (u4 & p11 & [_ ->]%command_Ok & [= <- <-]).
  exists public. split; [done|]. exists ek, ak, (CreateEk :: p0), c1, sg. cbn [pcr_values quote signature].
  split_and!; try done. by apply suffix_cons_r.
Qed.

Context `{P256}.

(** What the caller of a TPM relies on.  [pcrs past] are the update counter and the five
    attested PCRs after the commands of [past]. *)
Record honest (pcrs : History -> Z * list (list byte)) : Prop := {
  reads_truly past counter values :
    pcr_read t past attested_pcr_selection = Some (counter, attested_pcr_selection, values) -> pcrs past = (counter, values);
  (** PCRs that are the same before and after are unchanged in between, by the counter *)
  counter_tracks h1 h2 h3 : h1 `suffix_of` h2 -> h2 `suffix_of` h3 ->
    fst (pcrs h1) = fst (pcrs h3) -> snd (pcrs h1) = snd (pcrs h2);
  (** a quote with a loaded key is a TPM quote structure (after an orderly start) over the
      given data and the digest of the PCRs of that moment *)
  quotes_truly past ek private public ak between data q sg :
    load_ak t past ek private public = Some ak -> FlushContext ak ∉ between -> zlen data = 32 ->
    let moment := between ++ LoadAk ek private public :: past in
    tpm_quote t moment ak data attested_pcr_selection = Some (Some q, sg) ->
    exists signer clock resets restarts firmware,
      let digest := sha256_digest_chunked (snd (pcrs moment)) in
      quote_fields signer data clock resets restarts firmware digest /\
      q = quote_bytes signer data clock resets restarts firmware digest;
  (** and its integers sign it under the point of that key; the coordinates and the
      integers are big-endian, with any number of leading zero bytes *)
  signs_truly past ek private x y template ak between data q r s :
    load_ak t past ek private (EccPublic x y template) = Some ak -> FlushContext ak ∉ between ->
    tpm_quote t (between ++ LoadAk ek private (EccPublic x y template) :: past) ak data attested_pcr_selection =
      Some (Some q, EcDsa TPM_ALG_SHA256 r s) ->
    on_curve (be_decode x) (be_decode y) = true /\
    ecdsa (be_decode x) (be_decode y) q (be_decode r) (be_decode s) = true;
  (** a public area survives marshalling *)
  unmarshalls public blob : marshall_public t public = Some blob -> unmarshall_public t blob = Some public
}.

Lemma enrolled_run past key past' : create_attestation_key t past = (Ok key, past') ->
  exists public, marshall_public t public = Some key.(public_blob) /\ ecc_public_to_sec1 public = Ok key.(enrolled_key_sec1).
Proof.
  unfold create_attestation_key. intros (n & p0 & _ & Hr)%stm_bind_Ok.
  apply stm_bind_Ok in Hr as (ek & p1 & _ & Hr). apply stm_bind_Ok in Hr as ([priv public] & p2 & _ & Hr).
  apply stm_bind_Ok in Hr as (sec1 & p3 & [Hsec ->]%stm_lift_Ok & Hr).
  apply stm_bind_Ok in Hr as (blob & p4 & [Hm%ok_or_Ok ->]%stm_lift_Ok & Hr).
  apply stm_bind_Ok in Hr as (u & p5 & _ & [= <- <-]). by exists public.
Qed.

Lemma sec1_valid public pk : ecc_public_to_sec1 public = Ok pk -> pk_valid pk = true.
Proof.
  destruct public as [x y tm|]; [|done]. cbn [ecc_public_to_sec1].
  destruct (_ || _); [done|]. intros (i & _ & Hr)%bind_Ok. apply bind_Ok in Hr as (l & _ & Hr).
  apply bind_Ok in Hr as (e0 & _ & Hr). apply bind_Ok in Hr as (st & _ & Hr). apply bind_Ok in Hr as (e1 & _ & Hr).
  destruct (pk_valid e1) eqn:Hk; cbn [negb] in Hr; [|done]. by injection Hr as <-.
Qed.
End quotes.

(** ** Theorems *)

Lemma be_decode_inj a b : zlen a = zlen b -> be_decode a = be_decode b -> a = b.
Proof.
  intros Hl Heq. rewrite <- (be_encode_decode_n (length a) a), <- (be_encode_decode_n (length a) b); [by rewrite Heq| |done].
  by rewrite <- Hl.
Qed.

(** Signature integers survive.  A signature is normalised exactly when it is an ECDSA
    signature with SHA-256 whose integers have between 1 and 32 bytes; the result is the one
    string of 64 bytes whose halves are those two integers, however many leading zero bytes
    the TPM left out. *)
Theorem signature_normalised sg out : normalize_ecdsa_signature sg = Ok out <->
  exists r s, sg = EcDsa TPM_ALG_SHA256 r s /\ 0 < zlen r <= 32 /\ 0 < zlen s <= 32 /\ zlen out = 64 /\
    be_decode (take 32 out) = be_decode r /\ be_decode (drop 32 out) = be_decode s.
Proof.
  assert (Hpad : forall l, 0 < zlen l <= 32 -> length (array x00 (32 - zlen l) ++ l) = 32%nat).
  { intros l Hl. unfold array. rewrite length_app, length_replicate. unfold zlen in *. lia. }
  split.
  - destruct sg as [alg r s|]; [|done]. cbn [normalize_ecdsa_signature].
    destruct (Z.eqb_spec alg TPM_ALG_SHA256) as [->|]; [|done]. cbn [negb].
    intros (o1 & [Hr ->]%(copy_left_padded_Ok r _ 32 eq_refl ltac:(lia)) & Ho2)%bind_Ok.
    apply bind_Ok in Ho2 as (o2 & [Hs ->]%(copy_left_padded_Ok s _ 32 eq_refl ltac:(lia)) & [= <-]).
    exists r, s. rewrite !zlen_app, !zlen_array by lia. rewrite take_app_length', drop_app_length' by (by rewrite Hpad).
    rewrite !be_decode_padded. split_and!; try done; lia.
  - intros (r & s & -> & Hr & Hs & Hn & Hir & His). cbn [normalize_ecdsa_signature]. rewrite Z.eqb_refl. cbn [negb].
    assert (Hlen : length out = 64%nat) by (unfold zlen in Hn; lia).
    assert (Hhalf : forall h l, length h = 32%nat -> 0 < zlen l <= 32 -> be_decode h = be_decode l ->
      h = array x00 (32 - zlen l) ++ l).
    { intros h l Hh Hl Heq. apply be_decode_inj; [unfold zlen at 1 2; by rewrite Hpad, Hh|]. by rewrite be_decode_padded. }
    apply bind_Ok. eexists. split; [by apply (copy_left_padded_Ok r _ 32 eq_refl)|].
    apply bind_Ok. eexists. split; [by apply (copy_left_padded_Ok s _ 32 eq_refl)|]. f_equal.
    rewrite <- (Hhalf (take 32 out) r ltac:(rewrite length_take; lia) Hr Hir), <- (Hhalf (drop 32 out) s ltac:(rewrite length_drop; lia) Hs His).
    by rewrite take_drop.
Qed.

(** ** Encodings *)

Lemma padded_encode l : 0 < zlen l <= 32 -> array x00 (32 - zlen l) ++ l = be_encode 32 (be_decode l).
Proof.
  intros Hl. rewrite <- (be_decode_padded (32 - zlen l) l). symmetry. apply be_encode_decode_n. rewrite zlen_app, zlen_array; lia.
Qed.

Lemma be_decode_256 l : 0 < zlen l <= 32 -> 0 <= be_decode l < 2 ^ 256.
Proof.
  intros Hl. pose proof (be_decode_range l) as [H0 H1]. split; [done|]. eapply Z.lt_le_trans; [exact H1|]. apply Z.pow_le_mono_r; lia.
Qed.

(** The normalised signature is the encoding of the two integers of the TPM. *)
Lemma signature_encoded sg out : normalize_ecdsa_signature sg = Ok out ->
  exists r s, sg = EcDsa TPM_ALG_SHA256 r s /\ 0 < zlen r <= 32 /\ 0 < zlen s <= 32 /\
    out = be_encode 32 (be_decode r) ++ be_encode 32 (be_decode s).
Proof.
  destruct sg as [alg r s|]; [|done]. cbn [normalize_ecdsa_signature].
  destruct (Z.eqb_spec alg TPM_ALG_SHA256) as [->|]; [|done]. cbn [negb].
  intros (o1 & [Hr ->]%(copy_left_padded_Ok r _ 32 eq_refl ltac:(lia)) & Ho2)%bind_Ok.
  apply bind_Ok in Ho2 as (o2 & [Hs ->]%(copy_left_padded_Ok s _ 32 eq_refl ltac:(lia)) & [= <-]).
  exists r, s. by rewrite !padded_encode.
Qed.

Lemma parity_byte b : Z.lor 2 (Z.land (b2z b) 1) = 2 + b2z b mod 2.
Proof.
  change 1 with (Z.ones 1) at 1. rewrite Z.land_ones by lia. change (2 ^ 1) with 2.
  destruct (Z.mod_pos_bound (b2z b) 2 ltac:(lia)) as [H0 H1]. assert (b2z b mod 2 = 0 \/ b2z b mod 2 = 1) as [-> | ->] by lia; done.
Qed.

(** The last byte of a big-endian number has its parity. *)
Lemma be_decode_parity l b : be_decode (l ++ [b]) mod 2 = b2z b mod 2.
Proof.
  unfold be_decode. rewrite reverse_snoc. cbn [le_decode].
  replace (b2z b + 256 * _) with (b2z b + (128 * le_decode (reverse l)) * 2) by lia. apply Z_mod_plus_full.
Qed.

(** The enrolled key is the compressed encoding of the point of the TPM. *)
Lemma sec1_encoded `{SigOps} public pk : ecc_public_to_sec1 public = Ok pk ->
  exists x y template, public = EccPublic x y template /\ 0 < zlen x <= 32 /\ 0 < zlen y <= 32 /\
    pk = z2b (2 + be_decode y mod 2) :: be_encode 32 (be_decode x).
Proof.
  destruct public as [x y tm|]; [|done]. cbn [ecc_public_to_sec1]. rewrite !Z.gtb_ltb.
  destruct (_ || _) eqn:Hn; [done|]. rewrite !orb_false_iff, !Z.eqb_neq, !Z.ltb_ge in Hn. destruct Hn as [[[Hx0 Hx1] Hy0] Hy1].
  pose proof (zlen_nonneg x). pose proof (zlen_nonneg y).
  destruct y as [|b y _] using rev_ind; [done|]. rewrite zlen_app in *. change (zlen [b]) with 1 in *.
  unfold sub_usize. rewrite (proj2 (Z.leb_le 1 _)) by lia. rewrite ok_bind, index_skip by lia.
  replace (_ - 1 - zlen y) with 0 by lia. rewrite index_0, ok_bind, store_ok by (rewrite zlen_array; lia).
  rewrite ok_bind, (proj2 (Z.leb_le (zlen x) 33)) by lia. rewrite ok_bind, parity_byte, <- (be_decode_parity y b).
  set (e := splice (array x00 33) _ _). assert (He : e = z2b (2 + be_decode (y ++ [b]) mod 2) :: array x00 32) by done.
  rewrite copy_into_ok by (rewrite ?He, ?zlen_cons, ?zlen_array by lia; lia). rewrite ok_bind.
  assert (splice e (Z.to_nat (33 - zlen x)) x = z2b (2 + be_decode (y ++ [b]) mod 2) :: array x00 (32 - zlen x) ++ x) as ->.
  { rewrite He. unfold splice, array. replace (Z.to_nat (33 - zlen x)) with (S (Z.to_nat (32 - zlen x))) by lia. cbn [take drop app plus].
    rewrite take_replicate, drop_replicate, Nat.min_l by lia.
    replace (Z.to_nat 32 - _)%nat with 0%nat by (unfold zlen in *; lia). by rewrite app_nil_r. }
  destruct (pk_valid _); cbn [negb]; [|done]. intros [= <-]. exists x, (y ++ [b]), tm.
  rewrite zlen_app. change (zlen [b]) with 1. rewrite padded_encode by lia. split_and!; try done; lia.
Qed.

Section theorems.
Context `{HashLaws, SigOps, !P256, !P256Laws}.

Lemma zlen_quote_bytes signer extra clock resets restarts firmware digest :
  quote_fields signer extra clock resets restarts firmware digest ->
  zlen (quote_bytes signer extra clock resets restarts firmware digest) <= USIZE_MAX.
Proof.
  intros (Hsg & Hex & Hck & Hr1 & Hr2 & Hfw & Hdg). unfold quote_bytes.
  assert (Hb : zlen PCR_SELECTION_BITMAP = 3) by done.
  rewrite !zlen_app, Hex, Hck, Hr1, Hr2, Hfw, Hdg, Hb. change (zlen [x01]) with 1. change (zlen [x03]) with 1.
  rewrite !zlen_be_encode. unfold USIZE_MAX. lia.
Qed.

(** What the code makes of the integers and the point of an honest TPM passes the crate's
    verification. *)
Lemma quote_verifies t pcrs past ek private public ak between data q sg signature pk :
  honest t pcrs -> load_ak t past ek private public = Some ak -> FlushContext ak ∉ between ->
  tpm_quote t (between ++ LoadAk ek private public :: past) ak data attested_pcr_selection = Some (Some q, sg) ->
  normalize_ecdsa_signature sg = Ok signature -> ecc_public_to_sec1 public = Ok pk ->
  sig_valid signature = true /\ sig_verify pk q signature = true.
Proof.
  intros Hon Hload Hnf Hq (r & s & -> & Hr & Hs & ->)%signature_encoded (x & y & tm & -> & Hx & Hy & ->)%sec1_encoded.
  destruct (signs_truly t pcrs Hon _ _ _ _ _ _ _ _ _ _ _ _ Hload Hnf Hq) as [Hpoint Hsigned].
  apply p256_verifies; auto using be_decode_256.
Qed.

End theorems.

(** ** Concrete instances *)

(** A TPM that holds one attestation key; its PCRs follow the extensions in the history. *)
Module TpmWitness.
#[local] Existing Instance Toy.hash.
#[local] Existing Instance toy_hash_laws.
#[local] Existing Instance Toy.sig.

(** The toy scheme on integers *)
#[local] Instance toy_p256 : P256 := {|
  on_curve := fun _ _ => true;
  ecdsa := fun x y msg r s =>
    sig_valid (be_encode 32 r ++ be_encode 32 s) &&
    sig_verify (z2b (2 + y mod 2) :: be_encode 32 x) msg (be_encode 32 r ++ be_encode 32 s) |}.
#[local] Instance toy_p256_laws : P256Laws.
Proof. split. intros x y msg r s _ _ _ _ _ [H1 H2]%andb_true_iff. by split. Qed.

Definition ak : list byte := AttestationWitness.ak.
Definition ak_public : TpmPublic := EccPublic ak [x04] [].

Fixpoint pcrs (past : History) : Z * list (list byte) :=
  match past with
  | [] => (0, AttestationWitness.pcrs)
  | PcrExtend _ d :: past =>
      let '(n, vs) := pcrs past in (n + 1, take 4 vs ++ [sha256 (concat (drop 4 vs) ++ d)])
  | _ :: past => pcrs past
  end.

Definition the_quote (past : History) (data : list byte) : list byte :=
  quote_bytes (replicate 34 x0b) data (replicate 8 x00) (replicate 4 x01) (replicate 4 x02) (replicate 8 x09)
    (sha256_digest_chunked (snd (pcrs past))).

Definition tss : Tss := {|
  env_tcti := None; device_exists := fun _ => true; tcti_valid := fun _ => true; device_valid := fun _ => true;
  digest_fits := fun _ => true; data_fits := fun _ => true; private_fits := fun _ => true;
  unmarshall_public := fun b => Some (EccPublic (take 32 b) (drop 32 b) []);
  marshall_public := fun p => match p with
    | EccPublic x y [] => if zlen x =? 32 then Some (x ++ y) else None
    | _ => None
    end;
  new_context := fun _ _ => true; pcr_extend := fun _ _ _ => true;
  create_ek := fun _ => Some 1; create_ak := fun _ _ => Some (ak, ak_public);
  load_ak := fun _ _ private public =>
    match public with EccPublic x [x04] [] => if bytes_eqb x ak && bytes_eqb private ak then Some 2 else None | _ => None end;
  pcr_read := fun past sel => Some (fst (pcrs past), sel, snd (pcrs past));
  tpm_quote := fun past _ data _ =>
    Some (Some (the_quote past data), let s := sign ak (the_quote past data) in EcDsa TPM_ALG_SHA256 (take 32 s) (drop 32 s));
  flush_context := fun _ _ => true |}.

Lemma pcrs_step cmd past : fst (pcrs past) <= fst (pcrs (cmd :: past)) /\
  (fst (pcrs past) = fst (pcrs (cmd :: past)) -> snd (pcrs past) = snd (pcrs (cmd :: past))).
Proof. destruct cmd; cbn [pcrs]; try (by split; [lia|]). destruct (pcrs past) as [n vs]. cbn. split; lia. Qed.

Lemma pcrs_suffix h1 h2 : h1 `suffix_of` h2 -> fst (pcrs h1) <= fst (pcrs h2) /\
  (fst (pcrs h1) = fst (pcrs h2) -> snd (pcrs h1) = snd (pcrs h2)).
Proof.
  intros [l ->]. induction l as [|cmd l [IH1 IH2]]; [by split|]. cbn [app].
  destruct (pcrs_step cmd (l ++ h1)) as [H1 H2]. split; [lia|]. intros Heq. rewrite IH2, H2; [done|lia..].
Qed.

Lemma tss_honest : honest tss pcrs.
Proof.
  split.
  - intros past n vs [= <- <-]. by destruct (pcrs past).
  - intros h1 h2 h3 H12%pcrs_suffix H23%pcrs_suffix Heq. apply H12. lia.
  - intros past ek private public h between data q sg _ _ Hd moment Hq. injection Hq as <- _.
    exists (replicate 34 x0b), (replicate 8 x00), (replicate 4 x01), (replicate 4 x02), (replicate 8 x09). cbv zeta.
    split; [|done]. unfold quote_fields. rewrite Hd. unfold sha256_digest_chunked. rewrite zlen_sha256. by vm_compute.
  - intros past ek private x y tm h between data q r s Hload _ [= <- <- <-].
    set (q := the_quote _ data). change (Toy.toy_sign ak q) with (sign ak q). remember (sign ak q) as sg eqn:Hsg.
    assert (Hl : length sg = 64%nat) by (subst sg; apply (@sign_length _ toy_sig_laws); by vm_compute).
    assert (x = ak /\ y = [x04]) as [-> ->].
    { cbn [load_ak tss] in Hload. destruct y as [|[] [|]], tm; try done.
      destruct (bytes_eqb x ak) eqn:Hx; [|done]. by apply bytes_eqb_eq in Hx as ->. }
    split; [done|]. cbn [ecdsa toy_p256].
    assert (be_encode 32 (be_decode (take 32 sg)) = take 32 sg) as -> by (apply be_encode_decode_n; unfold zlen; rewrite length_take; lia).
    assert (be_encode 32 (be_decode (drop 32 sg)) = drop 32 sg) as -> by (apply be_encode_decode_n; unfold zlen; rewrite length_drop; lia).
    assert (z2b (2 + be_decode [x04] mod 2) :: be_encode 32 (be_decode ak) = pk_of ak) as -> by by vm_compute.
    rewrite take_drop, Hsg. apply andb_true_iff. split; [by apply (@sign_valid _ toy_sig_laws)|by apply (@sign_verifies _ toy_sig_laws)].
  - intros public blob. destruct public as [x y [|]|]; cbn; try done. destruct (Z.eqb_spec (zlen x) 32) as [Hx|]; [|done].
    intros [= <-]. unfold zlen in Hx. by rewrite take_app_length', drop_app_length' by lia.
Qed.

Example short_integer_padded :
  normalize_ecdsa_signature (EcDsa TPM_ALG_SHA256 [x07] (replicate 32 xff)) =
    Ok (replicate 31 x00 ++ [x07] ++ replicate 32 xff).
Proof. reflexivity. Qed.

(** After an extension of PCR 14, the key is enrolled, and the quote is accepted with the
    PCRs of the moment. *)
Definition booted : History := [PcrExtend 14 (replicate 32 xaa)].
Definition key : EnrolledAttestationKey := {| private_blob := ak; public_blob := ak ++ [x04]; enrolled_key_sec1 := pk_of ak |}.
Definition c : AttestationChallenge := AttestationWitness.challenge.
Definition policy : AttestationPolicy := {|
  ak_public_key_sec1 := pk_of ak; expected_pcr_values := snd (pcrs booted); minimum_release := 40;
  expected_policy_generation := 12; expected_merkle_root := replicate 32 xaa |}.
Abbreviation quoting := (quote_attestation tss c (private_blob key) (public_blob key) booted).

Lemma enrolled_policy_ok : policy_wf policy.
Proof.
  split; [by vm_compute|]. split; [|split_and!; by vm_compute].
  split; [by vm_compute|]. unfold policy. cbn [expected_pcr_values]. vm_compute. repeat constructor.
Defined.

End TpmWitness.
