(* ===== verification/Files.v ===== *)
(** * Files: paths, files and crashes

    The part of [std::fs] and [std::path] that the command line tool uses.  A file
    system is a directory of inodes.  It distinguishes what a running program sees from
    what a crash leaves: the content of an inode is certain only after [sync_all], and
    until its directory is synchronised a crash may leave any of the directories since
    the last synchronisation.

    The operating system is the record [Os]: which calls fail (and how much a failing
    [write_all] wrote), and what other processes do to the file system between calls.  A
    run records every file system it went through, so that a theorem can speak about a
    crash at any moment. *)

From stdpp Require Import base list numbers option strings gmap.
From Stdlib Require Import ZArith Lia Strings.Byte.
From S2P Require Import Prelude.

#[export] Instance byte_countable : Countable byte.
Proof.
  refine (inj_countable' (fun b => Z.to_N (b2z b)) (fun n => z2b (Z.of_N n)) _).
  intros b. pose proof (b2z_range b). rewrite Z2N.id by lia. apply z2b_b2z.
Defined.

(** ** Paths *)

(** Whether the path starts at the root, and its components, without empty and [.]
    components and without a trailing separator. *)
Abbreviation Path := (bool * list (list byte))%type.

(** [Path::parent], [Path::file_name] and [Path::join] of one name *)
Definition parent (p : Path) : option Path :=
  match snd p with
  | [] => None
  | _ => Some (fst p, take (length (snd p) - 1) (snd p))
  end.

Definition DOTDOT : list byte := bytes_of_string "..".

Definition file_name (p : Path) : option (list byte) :=
  match last (snd p) with
  | Some c => if bytes_eqb c DOTDOT then None else Some c
  | None => None
  end.

Definition join (p : Path) (name : list byte) : Path := (fst p, snd p ++ [name]).

Definition is_empty_path (p : Path) : bool := negb (fst p) && (zlen (snd p) =? 0).

(** [OsString::push] on the text of a path *)
Definition push (p : Path) (suffix : list byte) : Path :=
  match last (snd p) with
  | Some c => (fst p, take (length (snd p) - 1) (snd p) ++ [c ++ suffix])
  | None => (fst p, [suffix])
  end.

(** The bytes of [path.as_os_str()] *)
Fixpoint separated (sep : byte) (l : list (list byte)) : list byte :=
  match l with
  | [] => []
  | [c] => c
  | c :: l => c ++ [sep] ++ separated sep l
  end.

Definition os_bytes (p : Path) : list byte := (if fst p then [x2f] else []) ++ separated x2f (snd p).

(** ** The file system *)

Record Inode := { content : list byte; synced : bool }.
Abbreviation Dir := (gmap Path nat).

Record Fs := {
  inodes : gmap nat Inode;
  dir : Dir;
  unsynced_dirs : list Dir;
  fresh : nat
}.

Definition dirs (fs : Fs) : list Dir := fs.(dir) :: fs.(unsynced_dirs).

Definition set_inode (i : nat) (n : Inode) (fs : Fs) : Fs :=
  {| inodes := <[i := n]> fs.(inodes); dir := fs.(dir); unsynced_dirs := fs.(unsynced_dirs); fresh := fs.(fresh) |}.

Definition set_dir (d : Dir) (fs : Fs) : Fs :=
  {| inodes := fs.(inodes); dir := d; unsynced_dirs := fs.(dir) :: fs.(unsynced_dirs); fresh := fs.(fresh) |}.

Definition new_inode (fs : Fs) : Fs :=
  {| inodes := <[fs.(fresh) := {| content := []; synced := false |}]> fs.(inodes); dir := fs.(dir);
     unsynced_dirs := fs.(unsynced_dirs); fresh := S fs.(fresh) |}.

(** What a program reads at a path. *)
Definition lookup_file (fs : Fs) (p : Path) : option (list byte) :=
  i ← fs.(dir) !! p; n ← fs.(inodes) !! i; Some n.(content).

(** What a crash may leave: one of the directories since the last synchronisation; the
    content of an inode that was not synchronised is anything. *)
Definition crash (fs : Fs) (after : gmap Path (list byte)) : Prop :=
  exists d, d ∈ dirs fs /\
    forall p, match d !! p with
              | None => after !! p = None
              | Some i => exists n b, fs.(inodes) !! i = Some n /\ after !! p = Some b /\
                                      (n.(synced) = true -> b = n.(content))
              end.

(** ** Calls *)

Record Os := {
  fault : nat -> option nat;
  interfere : nat -> Fs -> Fs
}.

Record Proc := { fs : Fs; past : list Fs; calls : nat }.

(** One call: other processes first, then the call with its fault, if any. *)
Definition syscall {E A} (os : Os) (e : E) (f : option nat -> Fs -> option A * Fs) : stm Proc E A := fun p =>
  let before := os.(interfere) p.(calls) p.(fs) in
  let '(r, after) := f (os.(fault) p.(calls)) before in
  (ok_or r e, {| fs := after; past := before :: p.(past); calls := S p.(calls) |}).

(** A call that fails without an effect. *)
Definition clean {A} (f : Fs -> option (A * Fs)) (fl : option nat) (s : Fs) : option A * Fs :=
  match fl with
  | Some _ => (None, s)
  | None => match f s with Some (a, s') => (Some a, s') | None => (None, s) end
  end.

Definition sync_inode (i : nat) (s : Fs) : option (unit * Fs) :=
  n ← s.(inodes) !! i; Some (tt, set_inode i {| content := n.(content); synced := true |} s).

Section calls.
Context (os : Os) {E : Type} (e : E).

(** [std::fs::read] *)
Definition sys_read (p : Path) : stm Proc E (list byte) :=
  syscall os e (clean (fun s => b ← lookup_file s p; Some (b, s))).

(** [OpenOptions::new().write(true).create_new(true).open]: the handle is the inode. *)
Definition sys_create_new (p : Path) : stm Proc E nat :=
  syscall os e (clean (fun s =>
    match s.(dir) !! p with
    | Some _ => None
    | None => Some (s.(fresh), set_dir (<[p := s.(fresh)]> s.(dir)) (new_inode s))
    end)).

(** [write_all] on a handle to an empty file; a failing one wrote a prefix. *)
Definition sys_write_all (i : nat) (payload : list byte) : stm Proc E unit :=
  syscall os e (fun fl s =>
    match fl with
    | Some k => (None, set_inode i {| content := take k payload; synced := false |} s)
    | None => (Some tt, set_inode i {| content := payload; synced := false |} s)
    end).

(** [File::create]: an existing file is truncated. *)
Definition sys_create (p : Path) : stm Proc E nat :=
  syscall os e (clean (fun s =>
    match s.(dir) !! p with
    | Some i => Some (i, set_inode i {| content := []; synced := false |} s)
    | None => Some (s.(fresh), set_dir (<[p := s.(fresh)]> s.(dir)) (new_inode s))
    end)).

(** [std::fs::metadata(..).is_ok()]; permissions are not part of the model. *)
Definition sys_exists (p : Path) : stm Proc E bool :=
  syscall os e (fun fl s =>
    (Some (match fl with None => bool_decide (is_Some (s.(dir) !! p)) | Some _ => false end), s)).

(** A call that changes nothing that is modelled. *)
Definition sys_effectless : stm Proc E unit := syscall os e (clean (fun s => Some (tt, s))).

(** [File::sync_all] *)
Definition sys_sync (i : nat) : stm Proc E unit := syscall os e (clean (sync_inode i)).

(** [std::fs::rename] *)
Definition sys_rename (from to : Path) : stm Proc E unit :=
  syscall os e (clean (fun s => i ← s.(dir) !! from; Some (tt, set_dir (<[to := i]> (delete from s.(dir))) s))).

(** [OpenOptions::new().write(true).open] *)
Definition sys_open_write (p : Path) : stm Proc E nat :=
  syscall os e (clean (fun s => i ← s.(dir) !! p; Some (i, s))).

(** [sync_all] on a directory *)
Definition sys_sync_dir : stm Proc E unit :=
  syscall os e (clean (fun s =>
    Some (tt, {| inodes := s.(inodes); dir := s.(dir); unsynced_dirs := []; fresh := s.(fresh) |}))).

(** [std::fs::write] *)
Definition sys_write (p : Path) (payload : list byte) : stm Proc E unit :=
  i ← sys_create p; sys_write_all i payload.

(** [OpenOptions::new().create(true).append(true).open], and [write_all] at the end *)
Definition sys_open_append (p : Path) : stm Proc E nat :=
  syscall os e (clean (fun s =>
    match s.(dir) !! p with
    | Some i => Some (i, s)
    | None => Some (s.(fresh), set_dir (<[p := s.(fresh)]> s.(dir)) (new_inode s))
    end)).

Definition sys_append_all (i : nat) (payload : list byte) : stm Proc E unit :=
  syscall os e (fun fl s =>
    match s.(inodes) !! i with
    | None => (None, s)
    | Some n =>
        match fl with
        | Some k => (None, set_inode i {| content := n.(content) ++ take k payload; synced := false |} s)
        | None => (Some tt, set_inode i {| content := n.(content) ++ payload; synced := false |} s)
        end
    end).

(** [std::fs::remove_file] *)
Definition sys_remove (p : Path) : stm Proc E unit :=
  syscall os e (clean (fun s => s.(dir) !! p ≫= fun _ => Some (tt, set_dir (delete p s.(dir)) s))).
End calls.

(** ** Views

    What the directories of a file system show for certain, at the paths that are not
    temporary. *)

Definition is_tmp (p : Path) : bool :=
  match last (snd p) with
  | Some c => bytes_eqb (drop (length c - 4) c) (bytes_of_string ".tmp")
  | None => false
  end.

Abbreviation View := (gmap Path (list byte)).

Definition durable (s : Fs) (d : Dir) (p : Path) (o : option (list byte)) : Prop :=
  match d !! p, o with
  | None, None => True
  | Some i, Some b => s.(inodes) !! i = Some {| content := b; synced := true |}
  | _, _ => False
  end.

Definition shows (s : Fs) (d : Dir) (V : View) : Prop := forall p, is_tmp p = false -> durable s d p (V !! p).

Definition ids_ok (s : Fs) : Prop := forall d p i, d ∈ dirs s -> d !! p = Some i -> (i < s.(fresh))%nat.

(** Every directory a crash may leave shows one of [Vs]. *)
Definition within (Vs : list View) (s : Fs) : Prop :=
  ids_ok s /\ forall d, d ∈ dirs s -> exists V, V ∈ Vs /\ shows s d V.

(** Moreover the program sees [V]. *)
Definition at_view (Vs : list View) (V : View) (s : Fs) : Prop :=
  within Vs s /\ V ∈ Vs /\ shows s s.(dir) V.

(** An inode that only temporary names refer to. *)
Definition private (i : nat) (s : Fs) : Prop :=
  (i < s.(fresh))%nat /\ forall d p, d ∈ dirs s -> is_tmp p = false -> d !! p <> Some i.

Lemma shows_crash Vs s after : within Vs s -> crash s after ->
  exists V, V ∈ Vs /\ forall p, is_tmp p = false -> after !! p = V !! p.
Proof.
  intros [_ Hw] (d & Hd & Hafter). destruct (Hw d Hd) as (V & HV & Hs). exists V. split; [done|]. intros p Hp.
  specialize (Hs p Hp). specialize (Hafter p). unfold durable in Hs.
  destruct (d !! p) as [i|], (V !! p) as [b|]; try done.
  destruct Hafter as (n & b' & Hn & Hb' & Hsync). rewrite Hs in Hn. injection Hn as <-.
  rewrite Hb'. f_equal. by apply Hsync.
Qed.

Lemma durable_inode s s' d p o : (forall i, d !! p = Some i -> s'.(inodes) !! i = s.(inodes) !! i) ->
  durable s d p o -> durable s' d p o.
Proof. unfold durable. intros Hi. destruct (d !! p) as [i|], o as [b|]; try done. by rewrite Hi. Qed.

Lemma durable_sync i n s d p o : s.(inodes) !! i = Some n ->
  durable s d p o -> durable (set_inode i {| content := n.(content); synced := true |} s) d p o.
Proof.
  intros Hn. unfold durable. cbn [inodes set_inode]. destruct (d !! p) as [j|], o as [b|]; try done.
  intros Hj. destruct (decide (i = j)) as [->|Hne].
  - rewrite lookup_insert_eq. rewrite Hn in Hj. by injection Hj as ->.
  - by rewrite lookup_insert_ne.
Qed.

(** Rewriting a private inode. *)
Lemma at_view_write Vs V i n s : at_view Vs V s -> private i s ->
  at_view Vs V (set_inode i n s) /\ private i (set_inode i n s).
Proof.
  intros ((Hids & Hw) & HV & Hs) Hi. split; [|done].
  assert (Hsame : forall d U, d ∈ dirs s -> shows s d U -> shows (set_inode i n s) d U).
  { intros d U Hd HU p Hp. eapply durable_inode; [|by apply HU]. intros j Hj. cbn [inodes set_inode].
    rewrite lookup_insert_ne; [done|]. intros ->. by apply (proj2 Hi d p). }
  split; [split; [exact Hids|]|split; [done|by apply Hsame; [left|]]].
  intros d Hd. destruct (Hw d Hd) as (U & HU & HsU). exists U. split; [done|by apply Hsame].
Qed.

Lemma at_view_sync Vs V i s s' : at_view Vs V s -> sync_inode i s = Some (tt, s') -> at_view Vs V s'.
Proof.
  intros ((Hids & Hw) & HV & Hs) Hsync. unfold sync_inode in Hsync.
  destruct (inodes s !! i) as [n|] eqn:Hn; [|done]. cbn in Hsync. injection Hsync as <-.
  assert (Hsame : forall d U, shows s d U -> shows (set_inode i {| content := n.(content); synced := true |} s) d U).
  { intros d U HU p Hp. apply durable_sync; [done|by apply HU]. }
  split; [split; [exact Hids|]|split; [done|by apply Hsame]].
  intros d Hd. destruct (Hw d Hd) as (U & HU & HsU). exists U. split; [done|by apply Hsame].
Qed.

(** A new current directory. *)
Lemma at_view_set_dir Vs V V' d s : at_view Vs V s -> V' ∈ Vs -> shows s d V' ->
  (forall p i, d !! p = Some i -> (i < s.(fresh))%nat) -> at_view Vs V' (set_dir d s).
Proof.
  intros ((Hids & Hw) & HV & Hs) HV' Hd Hlt. split; [split|split; [done|exact Hd]].
  - intros d' p i [->|Hd']%elem_of_cons Hp; [by eapply Hlt|by eapply Hids].
  - intros d' [->|Hd']%elem_of_cons; [by exists V'|by apply Hw].
Qed.

Lemma shows_tmp s d d' V : (forall p, is_tmp p = false -> d' !! p = d !! p) -> shows s d V -> shows s d' V.
Proof. intros Heq Hs p Hp. unfold durable. rewrite (Heq p Hp). by apply Hs. Qed.

Lemma at_view_new_inode Vs V s : at_view Vs V s ->
  at_view Vs V (new_inode s) /\ private s.(fresh) (new_inode s).
Proof.
  intros ((Hids & Hw) & HV & Hs).
  assert (Hsame : forall d U, d ∈ dirs s -> shows s d U -> shows (new_inode s) d U).
  { intros d U Hd HU p Hp. eapply durable_inode; [|by apply HU]. intros j Hj. cbn [inodes new_inode].
    rewrite lookup_insert_ne; [done|]. intros Heq. pose proof (Hids d p _ Hd Hj). lia. }
  split; [split; [split|split; [done|by apply Hsame; [left|]]]|split].
  - intros d p i Hd Hp. pose proof (Hids d p i Hd Hp). cbn [fresh new_inode]. lia.
  - intros d Hd. destruct (Hw d Hd) as (U & HU & HsU). exists U. split; [done|by apply Hsame].
  - cbn [fresh new_inode]. lia.
  - intros d p Hd _ Hp. pose proof (Hids d p _ Hd Hp). lia.
Qed.

Lemma at_view_create Vs V s p : at_view Vs V s -> is_tmp p = true -> s.(dir) !! p = None ->
  let s' := set_dir (<[p := s.(fresh)]> s.(dir)) (new_inode s) in
  at_view Vs V s' /\ private s.(fresh) s'.
Proof.
  intros Hat Hp Hnone. destruct (at_view_new_inode Vs V s Hat) as [Hat' [Hlt Hpriv]].
  assert (Htmp : forall q, is_tmp q = false -> <[p := s.(fresh)]> s.(dir) !! q = s.(dir) !! q).
  { intros q Hq. rewrite lookup_insert_ne; [done|]. intros ->. congruence. }
  split; [|split; [done|]].
  - eapply at_view_set_dir; [exact Hat'|apply Hat|eapply shows_tmp; [exact Htmp|apply Hat']|].
    intros q i. destruct (decide (p = q)) as [->|Hne].
    + rewrite lookup_insert_eq. intros [= <-]. done.
    + rewrite lookup_insert_ne by done. intros Hq. destruct Hat' as [[Hids _] _]. eapply Hids; [by left|exact Hq].
  - intros d q [->|Hd]%elem_of_cons Hq; [|by apply Hpriv]. cbn [dir set_dir]; rewrite (Htmp q Hq). apply Hpriv; [by left|done].
Qed.

Lemma at_view_rename Vs V s from to i b : at_view Vs V s -> <[to := b]> V ∈ Vs ->
  is_tmp from = true -> is_tmp to = false -> s.(dir) !! from = Some i ->
  s.(inodes) !! i = Some {| content := b; synced := true |} ->
  at_view Vs (<[to := b]> V) (set_dir (<[to := i]> (delete from s.(dir))) s).
Proof.
  intros Hat HV' Hfrom Hto Hi Hn. pose proof Hat as ((Hids & Hw) & HV & Hs). eapply at_view_set_dir; [exact Hat|done| |].
  - intros q Hq. unfold durable. destruct (decide (to = q)) as [->|Hne].
    + by rewrite !lookup_insert_eq.
    + rewrite !lookup_insert_ne by done. rewrite lookup_delete_ne by (intros ->; congruence). by apply Hs.
  - intros q j. destruct (decide (to = q)) as [->|Hne].
    + rewrite lookup_insert_eq. intros [= <-]. eapply Hids; [by left|exact Hi].
    + rewrite lookup_insert_ne by done. intros [_ Hj]%lookup_delete_Some. eapply Hids; [by left|exact Hj].
Qed.

Lemma at_view_remove Vs V s p : at_view Vs V s -> is_tmp p = true -> at_view Vs V (set_dir (delete p s.(dir)) s).
Proof.
  intros Hat Hp. pose proof Hat as ((Hids & Hw) & HV & Hs). eapply at_view_set_dir; [exact Hat|done| |].
  - eapply shows_tmp; [|exact Hs]. intros q Hq. rewrite lookup_delete_ne; [done|]. intros ->. congruence.
  - intros q j [_ Hj]%lookup_delete_Some. eapply Hids; [by left|exact Hj].
Qed.

(** ** Triples

    [triple I P m Q R]: from a state whose past satisfies [I] and whose file system
    satisfies [P], [m] keeps [I] of the past, and ends in [Q] on success and in [R] on
    an error. *)

Definition triple {S E A} (proc : S -> Proc) (I P : Fs -> Prop) (m : stm S E A) (Q : A -> Fs -> Prop) (R : Fs -> Prop) : Prop :=
  forall s, Forall I (proc s).(past) -> P (proc s).(fs) ->
    Forall I (proc (snd (m s))).(past) /\
    match fst (m s) with
    | Ok a => Q a (proc (snd (m s))).(fs)
    | Err _ => R (proc (snd (m s))).(fs)
    | Panic => False
    end.

Section triples.
Context {S E : Type} (proc : S -> Proc) (I : Fs -> Prop).

Lemma triple_ret {A} (a : A) (P : Fs -> Prop) (Q : A -> Fs -> Prop) R : (forall s, P s -> Q a s) ->
  triple (E := E) proc I P (mret a) Q R.
Proof. intros H s Hp HP. split; [done|by apply H]. Qed.

Lemma triple_lift {A} (m : outcome E A) (P : Fs -> Prop) (Q : A -> Fs -> Prop) R :
  m <> Panic -> (forall a s, m = Ok a -> P s -> Q a s) -> (forall s, P s -> R s) -> triple proc I P (lift m) Q R.
Proof. intros Hm HQ HR s Hp HP. split; [done|]. cbn. destruct m; auto. Qed.

Lemma triple_bind {A B} (m : stm S E A) (f : A -> stm S E B) P Q Q' R :
  triple proc I P m Q R -> (forall a, triple proc I (Q a) (f a) Q' R) -> triple proc I P (m ≫= f) Q' R.
Proof.
  intros Hm Hf s Hp HP. destruct (Hm s Hp HP) as [Hp' Hr]. unfold mbind, stm_bind.
  destruct (m s) as [[a|e|] s'] eqn:Hms; cbn in *; [by apply Hf|done..].
Qed.

(** The first two steps taken together. *)
Lemma triple_bind_assoc {A B C} (m : stm S E A) (m' : stm S E B) (f : B -> stm S E C) P Q Q' R :
  triple proc I P (m ;; m') Q R -> (forall b, triple proc I (Q b) (f b) Q' R) ->
  triple proc I P (m ;; b ← m'; f b) Q' R.
Proof.
  intros Hm Hf s Hp HP. pose proof (triple_bind (m ;; m') f _ _ _ _ Hm Hf s Hp HP) as Hr.
  unfold mbind, stm_bind in *. by destruct (m s) as [[a|e|] s'].
Qed.

Lemma triple_conseq {A} (m : stm S E A) (P P' : Fs -> Prop) (Q Q' : A -> Fs -> Prop) (R R' : Fs -> Prop) :
  triple proc I P m Q R -> (forall s, P' s -> P s) -> (forall a s, Q a s -> Q' a s) -> (forall s, R s -> R' s) ->
  triple proc I P' m Q' R'.
Proof.
  intros Hm HP HQ HR s Hp HP'. destruct (Hm s Hp (HP _ HP')) as [Hp' Hr]. split; [done|].
  destruct (fst (m s)); auto.
Qed.

Lemma triple_pure {A} (φ : Prop) (m : stm S E A) (P : Fs -> Prop) Q R :
  (φ -> triple proc I P m Q R) -> triple proc I (fun s => P s /\ φ) m Q R.
Proof. intros Hm s Hp [HP Hφ]. by apply Hm. Qed.

Lemma triple_pure_l {A} (φ : Prop) (m : stm S E A) (P : Fs -> Prop) Q R :
  (φ -> triple proc I P m Q R) -> triple proc I (fun s => φ /\ P s) m Q R.
Proof. intros Hm s Hp [Hφ HP]. by apply Hm. Qed.
End triples.

(** No other process interferes. *)
Definition calm (os : Os) : Prop := forall n s, os.(interfere) n s = s.

Section call_triples.
Context (os : Os) (Hcalm : calm os) {E : Type} (e : E) (I : Fs -> Prop).

Lemma triple_syscall {A} (f : option nat -> Fs -> option A * Fs) (P : Fs -> Prop) (Q : A -> Fs -> Prop) (R : Fs -> Prop) :
  (forall s, P s -> I s) ->
  (forall fl s, P s -> match f fl s with (Some a, s') => Q a s' | (None, s') => R s' end) ->
  triple (fun p => p) I P (syscall os e f) Q R.
Proof.
  intros HI Hf p Hp HP. unfold syscall. rewrite Hcalm. specialize (Hf (fault os (calls p)) _ HP).
  destruct (f _ _) as [[a|] s']; cbn; (split; [by constructor; [apply HI|]|done]).
Qed.

Lemma triple_clean {A} (f : Fs -> option (A * Fs)) (P : Fs -> Prop) (Q : A -> Fs -> Prop) (R : Fs -> Prop) :
  (forall s, P s -> I s) -> (forall s, P s -> R s) -> (forall s a s', P s -> f s = Some (a, s') -> Q a s') ->
  triple (fun p => p) I P (syscall os e (clean f)) Q R.
Proof.
  intros HI HR HQ. apply triple_syscall; [done|]. intros [k|] s HP; cbn; [by apply HR|].
  destruct (f s) as [[a s']|] eqn:Hf; [by eapply HQ|by apply HR].
Qed.
End call_triples.
