(* ===== verification/Recovery.v ===== *)
(** * Recovery: restoring a protected file from a signed copy

    Models [dfim_cli_provisioner/src/recovery.rs] on the file system of [Files].

    The theorems show that, with a crash at any moment, every path holds what it held
    before or the authorised image or sidecar in full, the sidecar first; that no crash
    leaves a pair that validates without having been there or been authorised; and what
    a report of success means, also when other processes interfere. *)

From stdpp Require Import base list numbers option strings gmap.
From Stdlib Require Import ZArith Lia Strings.Byte.
From S2P Require Import Prelude Crypto Core Merkle BlockStream Pipeline SignedManifest Json Files.

Record RecoveryRequest := {
  target : Path;
  target_sidecar : Path;
  recovery_image : Path;
  recovery_sidecar : Path;
  policy : TrustedManifestPolicy
}.

Record RecoveryReport := {
  r_release_counter : Z;
  r_key_id : list byte;
  restored_bytes : Z;
  r_merkle_root : list byte
}.

(** The error messages. *)
Inductive RecoveryError :=
| ReadFailed (p : Path) | EmptyFile (p : Path) | AuthorizationFailed (e : DfimError)
| NoParent (p : Path) | NoFileName (p : Path)
| CreateFailed | WriteFailed | PermissionsFailed | SyncFailed | RenameFailed | SyncTargetFailed | SyncDirFailed
| PostVerificationFailed (e : DfimError) | IdentityDiffers.

Section model.
Context `{HashOps, SigOps}.
Context (os : Os) (unix : bool).
(** [to_string_lossy], and the process identifier *)
Context (lossy : list byte -> list byte) (pid : Z).

Abbreviation M := (stm (Proc * Z) RecoveryError).

(** The state also holds [TEMP_SEQUENCE]. *)
Definition on_disk {A} (m : stm Proc RecoveryError A) : M A := fun '(p, n) =>
  let '(r, p') := m p in (r, (p', n)).

Definition fetch_add : M Z := fun '(p, n) => (Ok n, (p, as_u64 (n + 1))).

Definition read_non_empty (p : Path) : M (list byte) :=
  bytes ← on_disk (sys_read os (ReadFailed p) p);
  if zlen bytes =? 0 then lift (Err (EmptyFile p)) else mret bytes.

Definition sync_parent_directory (p : Path) : M unit :=
  if unix then
    lift (match parent p with Some _ => Ok tt | None => Err (NoParent p) end) ;;
    on_disk (sys_effectless os SyncDirFailed) ;;
    on_disk (sys_sync_dir os SyncDirFailed)
  else mret tt.

Definition write_and_replace (temporary target : Path) (payload : list byte) : M unit :=
  file ← on_disk (sys_create_new os CreateFailed temporary);
  on_disk (sys_write_all os WriteFailed file payload) ;;
  there ← on_disk (sys_exists os PermissionsFailed target);
  (if (there : bool) then on_disk (sys_effectless os PermissionsFailed) else mret tt) ;;
  on_disk (sys_sync os SyncFailed file) ;;
  on_disk (sys_rename os RenameFailed temporary target) ;;
  handle ← on_disk (sys_open_write os SyncTargetFailed target);
  on_disk (sys_sync os SyncTargetFailed handle) ;;
  sync_parent_directory target.

Definition temp_name (name : list byte) (sequence : Z) : list byte :=
  txt "." ++ lossy name ++ txt ".dfim-recovery-" ++ to_string pid ++ txt "-" ++ to_string sequence ++ txt ".tmp".

(** [let _ = fs::remove_file(..)] when the result is an error *)
Definition cleanup (temporary : Path) (m : M unit) : M unit := fun s =>
  match m s with
  | (Err e, s') => (Err e, snd (on_disk (sys_remove os CreateFailed temporary) s'))
  | r => r
  end.

Definition atomic_replace (target : Path) (payload : list byte) : M unit :=
  dir ← lift (match parent target with
              | Some d => if is_empty_path d then Err (NoParent target) else Ok d
              | None => Err (NoParent target)
              end);
  name ← lift (ok_or (file_name target) (NoFileName target));
  sequence ← fetch_add;
  let temporary := join dir (temp_name name sequence) in
  cleanup temporary (write_and_replace temporary target payload).

Definition recover_target_atomically (request : RecoveryRequest) : M RecoveryReport :=
  image ← read_non_empty request.(recovery_image);
  sidecar ← read_non_empty request.(recovery_sidecar);
  pre ← lift (map_err AuthorizationFailed (validate_signed_boot_image_v2 image sidecar request.(policy)));
  atomic_replace request.(target_sidecar) sidecar ;;
  atomic_replace request.(target) image ;;
  restored_image ← read_non_empty request.(target);
  restored_sidecar ← read_non_empty request.(target_sidecar);
  post ← lift (map_err PostVerificationFailed
                 (validate_signed_boot_image_v2 restored_image restored_sidecar request.(policy)));
  if negb (pre.(vs_release_counter) =? post.(vs_release_counter)) ||
     negb (bytes_eqb pre.(vs_key_id) post.(vs_key_id)) ||
     negb (bytes_eqb pre.(vs_boot).(vb_merkle_root) post.(vs_boot).(vb_merkle_root))
  then lift (Err IdentityDiffers)
  else mret {| r_release_counter := post.(vs_release_counter); r_key_id := post.(vs_key_id);
               restored_bytes := zlen restored_image; r_merkle_root := post.(vs_boot).(vb_merkle_root) |}.
End model.

(** ** Replacing one file *)

Lemma is_tmp_join d name : is_tmp (join d (name ++ txt ".tmp")) = true.
Proof.
  unfold is_tmp, join. cbn [snd fst]. rewrite last_snoc. apply bytes_eqb_eq.
  rewrite length_app. change (length (txt ".tmp")) with 4%nat.
  replace (length name + 4 - 4)%nat with (length name) by lia. apply drop_app_length.
Qed.

Lemma is_tmp_temp lossy pid d name n : is_tmp (join d (temp_name lossy pid name n)) = true.
Proof.
  unfold temp_name. rewrite !app_assoc. apply is_tmp_join.
Qed.

Section replace.
Context (os : Os) (Hcalm : calm os) (unix : bool) (lossy : list byte -> list byte) (pid : Z).
Context (Vs : list View) (V : View) (tgt : Path) (payload : list byte).
Context (HV' : <[tgt := payload]> V ∈ Vs) (Htgt : is_tmp tgt = false).

Abbreviation V' := (<[tgt := payload]> V).
Abbreviation inv := (within Vs).
(** The two views around the replacement *)
Definition either (s : Fs) : Prop := at_view Vs V s \/ at_view Vs V' s.
Definition settled_at (U : View) (s : Fs) : Prop := at_view Vs U s /\ (unix = true -> s.(unsynced_dirs) = []).

Lemma triple_on_disk {A} (I P : Fs -> Prop) (m : stm Proc RecoveryError A) Q R :
  triple (fun p => p) I P m Q R -> triple fst I P (on_disk m) Q R.
Proof.
  intros Hm [p n] Hp HP. destruct (Hm p Hp HP) as [Hp' Hr]. unfold on_disk.
  by destruct (m p) as [r p'].
Qed.

Lemma at_inv U s : at_view Vs U s -> inv s.
Proof. by intros [? _]. Qed.
Lemma either_inv s : either s -> inv s.
Proof. intros [?|?]; by eapply at_inv. Qed.
#[local] Hint Resolve at_inv either_inv : core.

(** Calls that change nothing *)
Lemma triple_effectless e (P R : Fs -> Prop) : (forall s, P s -> inv s) -> (forall s, P s -> R s) ->
  triple fst inv P (on_disk (sys_effectless os e)) (fun _ => P) R.
Proof.
  intros HI HR. apply triple_on_disk, triple_clean; [done..|]. by intros s a s' HP [= <- <-].
Qed.

(** The new file, from its creation until it is renamed. *)
Definition owned (temporary : Path) (i : nat) (s : Fs) : Prop :=
  at_view Vs V s /\ private i s /\ s.(dir) !! temporary = Some i.

Lemma triple_create temporary : is_tmp temporary = true ->
  triple fst inv (at_view Vs V) (on_disk (sys_create_new os CreateFailed temporary)) (owned temporary) either.
Proof.
  intros Ht. apply triple_on_disk, triple_clean; [done|eauto|by left|].
  intros s i s' Hat Hf. destruct (dir s !! temporary) eqn:Hd; [done|]. injection Hf as <- <-.
  destruct (at_view_create Vs V s temporary Hat Ht Hd) as [Hat' Hp]. split; [done|]. split; [done|].
  apply lookup_insert_eq.
Qed.

Lemma triple_write temporary i :
  triple fst inv (owned temporary i) (on_disk (sys_write_all os WriteFailed i payload))
    (fun _ s => owned temporary i s /\ s.(inodes) !! i = Some {| content := payload; synced := false |}) either.
Proof.
  apply triple_on_disk, triple_syscall; [done|intros s (? & _); eauto|].
  intros [k|] s (Hat & Hp & Hd); cbn [fst snd].
  - left. by apply at_view_write.
  - destruct (at_view_write Vs V i {| content := payload; synced := false |} s Hat Hp) as [Hat' Hp'].
    split; [split; [done|split; [done|exact Hd]]|]. apply lookup_insert_eq.
Qed.

Lemma triple_sync temporary i :
  triple fst inv (fun s => owned temporary i s /\ s.(inodes) !! i = Some {| content := payload; synced := false |})
    (on_disk (sys_sync os SyncFailed i))
    (fun _ s => owned temporary i s /\ s.(inodes) !! i = Some {| content := payload; synced := true |}) either.
Proof.
  apply triple_on_disk, triple_clean; [done|intros s ((? & _) & _); eauto|intros s ((? & _) & _); by left|].
  intros s [] s' ((Hat & Hp & Hd) & Hi) Hsync. pose proof (at_view_sync Vs V i s s' Hat Hsync) as Hat'.
  unfold sync_inode in Hsync. rewrite Hi in Hsync. injection Hsync as <-.
  split; [split; [done|split; [exact Hp|exact Hd]]|]. apply lookup_insert_eq.
Qed.

Lemma triple_rename temporary i : is_tmp temporary = true ->
  triple fst inv (fun s => owned temporary i s /\ s.(inodes) !! i = Some {| content := payload; synced := true |})
    (on_disk (sys_rename os RenameFailed temporary tgt)) (fun _ => at_view Vs V') either.
Proof.
  intros Ht. apply triple_on_disk, triple_clean; [done|intros s ((? & _) & _); eauto|intros s ((? & _) & _); by left|].
  intros s [] s' ((Hat & Hp & Hd) & Hi) Hr. rewrite Hd in Hr. injection Hr as <-. by eapply at_view_rename.
Qed.

Lemma triple_open e U :
  triple fst inv (at_view Vs U) (on_disk (sys_open_write os e tgt)) (fun _ => at_view Vs U) (at_view Vs U).
Proof.
  apply triple_on_disk, triple_clean; [done|eauto|done|]. intros s i s' Hat Hf.
  destruct (dir s !! tgt); [|done]. by injection Hf as <- <-.
Qed.

Lemma triple_sync_target e U i :
  triple fst inv (at_view Vs U) (on_disk (sys_sync os e i)) (fun _ => at_view Vs U) (at_view Vs U).
Proof.
  apply triple_on_disk, triple_clean; [done|eauto|done|]. intros s [] s' Hat Hsync. by eapply at_view_sync.
Qed.

Lemma triple_sync_parent U : parent tgt <> None ->
  triple fst inv (at_view Vs U) (sync_parent_directory os unix tgt) (fun _ => settled_at U) (at_view Vs U).
Proof.
  intros Hpar. unfold sync_parent_directory, settled_at. destruct unix; [|by apply triple_ret].
  destruct (parent tgt) as [above|]; [|done].
  eapply triple_bind with (Q := fun _ => at_view Vs U); [by apply triple_lift|]. intros [].
  eapply triple_bind with (Q := fun _ => at_view Vs U); [apply triple_effectless; eauto|]. intros [].
  apply triple_on_disk, triple_clean; [done|eauto|done|]. intros s [] s' ((Hids & Hw) & HU & Hs) [= <-].
  split; [|done]. split; [split|split; [done|exact Hs]].
  - intros d p i [->|[]%elem_of_nil]%elem_of_cons Hp. eapply Hids; [by left|exact Hp].
  - intros d [->|[]%elem_of_nil]%elem_of_cons. apply (Hw (dir s)). by left.
Qed.

Lemma triple_write_and_replace temporary : is_tmp temporary = true -> parent tgt <> None ->
  triple fst inv (at_view Vs V) (write_and_replace os unix temporary tgt payload) (fun _ => settled_at V') either.
Proof.
  intros Ht Hpar. unfold write_and_replace.
  eapply triple_bind; [by apply triple_create|]. intros i.
  eapply triple_bind; [by apply triple_write|]. intros [].
  eapply triple_bind with (Q := fun _ s => owned temporary i s /\ inodes s !! i = Some {| content := payload; synced := false |}).
  { apply triple_on_disk, triple_syscall; [done|intros s ((? & _) & _); eauto|].
    intros fl s HP. exact HP. }
  intros there. cbn beta.
  eapply triple_bind with (Q := fun _ s => owned temporary i s /\ inodes s !! i = Some {| content := payload; synced := false |}).
  { destruct there; [|by apply triple_ret].
    apply triple_effectless; intros s ((? & _) & _); [eauto|by left]. }
  intros []. eapply triple_bind; [by apply triple_sync|]. intros [].
  eapply triple_bind; [by apply triple_rename|]. intros [].
  apply triple_conseq with (P := at_view Vs V') (Q := fun _ => settled_at V') (R := at_view Vs V'); [|done|done|by right].
  eapply triple_bind; [apply triple_open|]. intros handle.
  eapply triple_bind; [apply triple_sync_target|]. intros []. by apply triple_sync_parent.
Qed.

Lemma triple_cleanup temporary m : is_tmp temporary = true ->
  triple fst inv (at_view Vs V) m (fun _ => settled_at V') either ->
  triple fst inv (at_view Vs V) (cleanup os temporary m) (fun _ => settled_at V') either.
Proof.
  intros Ht Hm p Hp HP. destruct (Hm p Hp HP) as [Hp' Hr]. unfold cleanup.
  destruct (m p) as [[[]|e|] p'] eqn:Hmp; cbn [fst snd] in *; [done| |done].
  assert (Hrem : triple fst inv either (on_disk (sys_remove os CreateFailed temporary)) (fun _ => either) either).
  { apply triple_on_disk, triple_clean; [done|eauto|done|]. intros s [] s' Hs Hf.
    destruct (dir s !! temporary); [|done]. injection Hf as <-.
    destruct Hs; [left|right]; by apply at_view_remove. }
  destruct (Hrem p' Hp' Hr) as [Hp'' Hr']. split; [done|].
  by destruct (fst (on_disk (sys_remove os CreateFailed temporary) p')) as [[]|e'|].
Qed.

Lemma triple_atomic_replace :
  triple fst inv (at_view Vs V) (atomic_replace os unix lossy pid tgt payload) (fun _ => settled_at V') either.
Proof.
  unfold atomic_replace.
  eapply triple_bind with (Q := fun _ s => at_view Vs V s /\ parent tgt <> None).
  { apply triple_lift; [by destruct (parent tgt) as [d|]; [destruct (is_empty_path d)|]| |by left].
    intros d s Hd Hat. split; [done|]. by destruct (parent tgt). }
  intros d. eapply triple_bind with (Q := fun _ s => at_view Vs V s /\ parent tgt <> None).
  { apply triple_lift; [by destruct (file_name tgt)|done|intros s []; by left]. }
  intros name. eapply triple_bind with (Q := fun _ s => at_view Vs V s /\ parent tgt <> None); [by intros [p n] Hp HP|].
  intros n p Hp [Hat Hpar]. revert p Hp Hat. apply triple_cleanup; [apply is_tmp_temp|].
  apply triple_write_and_replace; [apply is_tmp_temp|done].
Qed.
End replace.

(** ** The whole recovery *)

(** The file system at rest: everything is synchronised, and [V] is its content. *)
Definition settled (s : Fs) (V : View) : Prop :=
  s.(unsynced_dirs) = [] /\ ids_ok s /\ forall p, durable s s.(dir) p (V !! p).

(** Equal up to temporary files *)
Definition agrees (after V : View) : Prop := forall p, is_tmp p = false -> after !! p = V !! p.

(** The two files that a recovery replaces are not named like its temporary files. *)
Definition named_well (request : RecoveryRequest) : Prop :=
  is_tmp request.(target) = false /\ is_tmp request.(target_sidecar) = false.

(** The recovery files on disk are a pair that the policy accepts. *)
Definition authorised `{HashOps, SigOps} (request : RecoveryRequest) (s : Fs) (image sidecar : list byte)
    (v : ValidatedSignedBootImage) : Prop :=
  lookup_file s request.(recovery_image) = Some image /\ lookup_file s request.(recovery_sidecar) = Some sidecar /\
  validate_signed_boot_image_v2 image sidecar request.(policy) = Ok v.

Lemma authorised_fun `{HashOps, SigOps} request s i i' sc sc' v v' :
  authorised request s i sc v -> authorised request s i' sc' v' -> i = i' /\ sc = sc' /\ v = v'.
Proof. intros (? & ? & ?) (? & ? & ?). simplify_eq. split_and!; [done..|congruence]. Qed.

Definition report_of (image : list byte) (v : ValidatedSignedBootImage) : RecoveryReport :=
  {| r_release_counter := v.(vs_release_counter); r_key_id := v.(vs_key_id); restored_bytes := zlen image;
     r_merkle_root := v.(vs_boot).(vb_merkle_root) |}.

(** The sidecar is in place; then the image too. *)
Definition with_sidecar (request : RecoveryRequest) (sidecar : list byte) (V : View) : View :=
  <[request.(target_sidecar) := sidecar]> V.
Definition with_both (request : RecoveryRequest) (image sidecar : list byte) (V : View) : View :=
  <[request.(target) := image]> (with_sidecar request sidecar V).
Definition views (request : RecoveryRequest) (image sidecar : list byte) (V : View) : list View :=
  [V; with_sidecar request sidecar V; with_both request image sidecar V].

Lemma settled_at_view s V Vs : settled s V -> V ∈ Vs -> at_view Vs V s.
Proof.
  intros (Hu & Hids & Hd) HV. split; [split; [done|]|split; [done|intros p _; apply Hd]].
  intros d. unfold dirs. rewrite Hu. intros ->%list_elem_of_singleton. exists V. split; [done|]. intros p _. apply Hd.
Qed.

Lemma at_view_lookup Vs V s p : at_view Vs V s -> is_tmp p = false -> lookup_file s p = V !! p.
Proof.
  intros (_ & _ & Hs) Hp. specialize (Hs p Hp). unfold durable in Hs. unfold lookup_file.
  destruct (dir s !! p) as [i|] eqn:Hd, (V !! p) as [b|]; try done.
  change ((n ← inodes s !! i; Some (content n)) = Some b). by rewrite Hs.
Qed.

Section recover.
Context `{HashLaws, SigLaws}.
Context (os : Os) (Hcalm : calm os) (unix : bool) (lossy : list byte -> list byte) (pid : Z).
Context (request : RecoveryRequest) (Hpol : policy_wf request.(policy)) (Hnames : named_well request).
Context (s0 : Fs) (V : View) (Hs0 : settled s0 V).

Lemma triple_read (I P : Fs -> Prop) p : (forall s, P s -> I s) ->
  triple fst I P (read_non_empty os p) (fun a s => P s /\ lookup_file s p = Some a) P.
Proof.
  intros HI. unfold read_non_empty. eapply triple_bind with (Q := fun a s => P s /\ lookup_file s p = Some a).
  - apply triple_on_disk, triple_clean; [done..|]. intros s a s' HP Hf.
    destruct (lookup_file s p) as [b|] eqn:Hb; [|done]. injection Hf as <- <-. done.
  - intros a. destruct (zlen a =? 0); [|by apply triple_ret]. by apply triple_lift; [..|intros s []].
Qed.

(** Reading and checking the recovery files. *)
Lemma triple_authorise {A} (k : list byte -> list byte -> ValidatedSignedBootImage -> stm (Proc * Z) RecoveryError A)
    (I : Fs -> Prop) Q R : I s0 -> R s0 ->
  (forall image sidecar v, authorised request s0 image sidecar v -> triple fst I (eq s0) (k image sidecar v) Q R) ->
  triple fst I (eq s0)
    (image ← read_non_empty os request.(recovery_image);
     sidecar ← read_non_empty os request.(recovery_sidecar);
     pre ← lift (map_err AuthorizationFailed (validate_signed_boot_image_v2 image sidecar request.(policy)));
     k image sidecar pre) Q R.
Proof.
  intros HI HR Hk. assert (HR' : forall s, s0 = s -> R s) by (by intros ? <-).
  assert (Hread : forall p, triple fst I (eq s0) (read_non_empty os p) (fun a s => s0 = s /\ lookup_file s0 p = Some a) R).
  { intros p. eapply triple_conseq; [apply (triple_read I (eq s0)); by intros ? <-|done|by intros a s [<- ?]|exact HR']. }
  eapply triple_bind; [apply Hread|]. intros image. apply triple_pure. intros Himg.
  eapply triple_bind; [apply Hread|]. intros sidecar. apply triple_pure. intros Hsc.
  eapply triple_bind with (Q := fun v s => s0 = s /\ authorised request s0 image sidecar v).
  { apply triple_lift; [|intros v s Hv <-|exact HR'].
    - pose proof (validate_signed_total image sidecar _ Hpol). by destruct (validate_signed_boot_image_v2 _ _ _).
    - split; [done|]. split; [done|]. split; [done|].
      destruct (validate_signed_boot_image_v2 _ _ _); [|done..]. by injection Hv as ->. }
  intros v. apply triple_pure. apply Hk.
Qed.

Section authorised_run.
Context (image sidecar : list byte) (v : ValidatedSignedBootImage).
Context (Hauth : authorised request s0 image sidecar v).
Abbreviation Vs := (views request image sidecar V).
Abbreviation V1 := (with_sidecar request sidecar V).
Abbreviation V2 := (with_both request image sidecar V).

Lemma view_0 : V ∈ Vs. Proof. by left. Qed.
Lemma view_1 : V1 ∈ Vs. Proof. right. by left. Qed.
Lemma view_2 : V2 ∈ Vs. Proof. right. right. by left. Qed.

(** Both replacements. *)
Lemma triple_replacements :
  triple fst (within Vs) (eq s0)
    (atomic_replace os unix lossy pid request.(target_sidecar) sidecar ;;
     atomic_replace os unix lossy pid request.(target) image)
    (fun _ => settled_at unix Vs V2) (within Vs).
Proof.
  destruct Hnames as [Ht Hsc].
  assert (Hw : forall U p b s, either Vs U p b s -> within Vs s) by (by intros ? ? ? ? [[? _]|[? _]]).
  eapply triple_bind with (Q := fun _ => settled_at unix Vs V1).
  { eapply triple_conseq; [apply (triple_atomic_replace os Hcalm unix lossy pid Vs V _ _ view_1 Hsc)| | |].
    - intros s <-. apply settled_at_view; [done|apply view_0].
    - done.
    - intros s. by apply Hw. }
  intros []. eapply triple_conseq;
    [apply (triple_atomic_replace os Hcalm unix lossy pid Vs V1 _ _ view_2 Ht)|by intros s []|done|].
  intros s. by apply Hw.
Qed.

(** The whole run, once the files are read. *)
Definition after_authorisation : stm (Proc * Z) RecoveryError RecoveryReport :=
  atomic_replace os unix lossy pid request.(target_sidecar) sidecar ;;
  atomic_replace os unix lossy pid request.(target) image ;;
  restored_image ← read_non_empty os request.(target);
  restored_sidecar ← read_non_empty os request.(target_sidecar);
  post ← lift (map_err PostVerificationFailed
                 (validate_signed_boot_image_v2 restored_image restored_sidecar request.(policy)));
  if negb (v.(vs_release_counter) =? post.(vs_release_counter)) ||
     negb (bytes_eqb v.(vs_key_id) post.(vs_key_id)) ||
     negb (bytes_eqb v.(vs_boot).(vb_merkle_root) post.(vs_boot).(vb_merkle_root))
  then lift (Err IdentityDiffers)
  else mret (report_of restored_image post).

Lemma triple_after_authorisation :
  triple fst (within Vs) (eq s0) after_authorisation
    (fun r s => settled_at unix Vs V2 s /\ (request.(target) <> request.(target_sidecar) -> r = report_of image v))
    (within Vs).
Proof.
  assert (Hw : forall s, settled_at unix Vs V2 s -> within Vs s) by (by intros s [[? _] _]).
  eapply triple_bind_assoc; [apply triple_replacements|]. intros [].
  assert (Hread : forall p, is_tmp p = false ->
    triple fst (within Vs) (settled_at unix Vs V2) (read_non_empty os p)
      (fun a s => settled_at unix Vs V2 s /\ V2 !! p = Some a) (within Vs)).
  { intros p Hp. eapply triple_conseq; [apply (triple_read (within Vs) (settled_at unix Vs V2) _ Hw)|done| |exact Hw].
    intros a s [Hs Ha]. split; [exact Hs|]. by rewrite <- (at_view_lookup _ _ _ _ (proj1 Hs) Hp). }
  eapply triple_bind; [apply Hread, Hnames|].
  intros image'. apply triple_pure. intros Himg.
  eapply triple_bind; [apply Hread, Hnames|].
  intros sidecar'. apply triple_pure. intros Hsc.
  eapply triple_bind with (Q := fun post s => settled_at unix Vs V2 s /\
    validate_signed_boot_image_v2 image' sidecar' request.(policy) = Ok post).
  { apply triple_lift; [| |exact Hw].
    - pose proof (validate_signed_total image' sidecar' _ Hpol). by destruct (validate_signed_boot_image_v2 _ _ _).
    - intros post s Hv Hs. split; [done|]. destruct (validate_signed_boot_image_v2 _ _ _); [|done..]. by injection Hv as ->. }
  intros post. apply triple_pure. intros Hpost. destruct (_ || _).
  - apply triple_lift; [done|done|exact Hw].
  - apply triple_ret. intros s Hs. split; [done|]. intros Hne. unfold with_both, with_sidecar in Himg, Hsc.
    rewrite lookup_insert_eq in Himg. rewrite lookup_insert_ne, lookup_insert_eq in Hsc by done.
    injection Himg as <-. injection Hsc as <-. destruct Hauth as (_ & _ & Hv). congruence.
Qed.
End authorised_run.

(** Every run: nothing changes unless the recovery pair is authorised. *)
Lemma recover_run p n : p.(fs) = s0 -> p.(past) = [] ->
  let '(r, (p', _)) := recover_target_atomically os unix lossy pid request (p, n) in
  (Forall (eq s0) (p'.(fs) :: p'.(past)) /\ forall a, r <> Ok a) \/
  exists image sidecar v, authorised request s0 image sidecar v /\
    Forall (within (views request image sidecar V)) (p'.(fs) :: p'.(past)) /\
    forall a, r = Ok a -> settled_at unix (views request image sidecar V) (with_both request image sidecar V) p'.(fs) /\
      (request.(target) <> request.(target_sidecar) -> a = report_of image v).
Proof.
  intros Hfs Hpast. destruct (recover_target_atomically os unix lossy pid request (p, n)) as [r [p' n']] eqn:Hrun.
  assert (Hdec : (exists image sidecar v, authorised request s0 image sidecar v) \/
                 forall image sidecar v, ~ authorised request s0 image sidecar v).
  { unfold authorised. destruct (lookup_file s0 (recovery_image request)) as [image|]; [|by right; intros ? ? ? (? & _)].
    destruct (lookup_file s0 (recovery_sidecar request)) as [sidecar|]; [|by right; intros ? ? ? (_ & ? & _)].
    destruct (validate_signed_boot_image_v2 image sidecar (policy request)) as [v|e|] eqn:Hv; [by left; exists image, sidecar, v|right..];
      (intros ? ? ? (? & ? & ?); simplify_eq; congruence). }
  destruct Hdec as [(image & sidecar & v & Ha)|Hno]; [right|left].
  - exists image, sidecar, v. split; [done|].
    assert (Ht : triple fst (within (views request image sidecar V)) (eq s0) (recover_target_atomically os unix lossy pid request)
      (fun r s => settled_at unix (views request image sidecar V) (with_both request image sidecar V) s /\
        (request.(target) <> request.(target_sidecar) -> r = report_of image v)) (within (views request image sidecar V))).
    { assert (H0' : within (views request image sidecar V) s0) by (apply (settled_at_view s0 V); [done|by left]).
      unfold recover_target_atomically. apply triple_authorise; [done..|]. intros image' sidecar' v' Ha'.
      destruct (authorised_fun _ _ _ _ _ _ _ _ Ha Ha') as (<- & <- & <-). by apply triple_after_authorisation. }
    specialize (Ht (p, n)). rewrite Hrun in Ht. cbn [fst snd] in Ht. rewrite Hpast in Ht.
    destruct (Ht (Forall_nil_2 _) (eq_sym Hfs)) as [Hp Hr]. split.
    + apply Forall_cons. split; [|done]. destruct r; [apply Hr|done|done].
    + intros a ->. exact Hr.
  - assert (Ht : triple fst (eq s0) (eq s0) (recover_target_atomically os unix lossy pid request) (fun _ _ => False) (eq s0)).
    { unfold recover_target_atomically. apply triple_authorise; [done..|]. intros i' s' v' Ha. by destruct (Hno i' s' v'). }
    specialize (Ht (p, n)). rewrite Hrun in Ht. cbn [fst snd] in Ht. rewrite Hpast in Ht.
    destruct (Ht (Forall_nil_2 _) (eq_sym Hfs)) as [Hp Hr]. destruct r; [done| |done].
    split; [by constructor|done].
Qed.
End recover.

(** ** Runs in which no call fails *)

Definition faultless (os : Os) : Prop := forall n, os.(fault) n = None.

Section faultless.
Context (os : Os) (Hcalm : calm os) (Hok : faultless os) (unix : bool).
Abbreviation exactly m s a s' :=
  (triple (S := Proc * Z) (E := RecoveryError) fst (fun _ => True) (eq s) m (fun b t => b = a /\ s' = t) (fun _ => False)).

Lemma exact_call {A} e (f : option nat -> Fs -> option A * Fs) s a s' : f None s = (Some a, s') ->
  exactly (on_disk (syscall os e f)) s a s'.
Proof.
  intros Hf [p n] _ Hs. cbn in Hs. subst s. unfold on_disk, syscall. rewrite Hcalm, Hok, Hf. cbn.
  split; [by apply Forall_true|done].
Qed.

Lemma exact_bind {A B} (m : stm (Proc * Z) RecoveryError A) (k : A -> stm (Proc * Z) RecoveryError B) s a s' b s'' :
  exactly m s a s' -> exactly (k a) s' b s'' -> exactly (m ≫= k) s b s''.
Proof.
  intros Hm Hk. eapply triple_bind; [exact Hm|]. intros a' p Hp [-> Hs']. exact (Hk p Hp Hs').
Qed.

Lemma exact_ok {A} (a : A) s : exactly (lift (Ok a)) s a s.
Proof. by intros p Hp Hs. Qed.

Lemma total_read P q b : (forall t, P t -> lookup_file t q = Some b) -> b <> [] ->
  triple fst (fun _ => True) P (read_non_empty os q) (fun a t => a = b /\ P t) (fun _ => False).
Proof.
  intros Hl Hb [u m] Hp HP. cbn in HP. unfold read_non_empty, mbind, stm_bind, on_disk, sys_read, syscall.
  rewrite Hcalm, Hok. cbn [clean]. rewrite (Hl _ HP). cbn.
  rewrite (proj2 (Z.eqb_neq _ 0)) by (by intros ?%zlen_0_nil). cbn. split; [by apply Forall_true|done].
Qed.

(** The file system after a replacement. *)
Definition replaced (temporary tgt : Path) (payload : list byte) (s : Fs) : Fs :=
  let i := s.(fresh) in
  let done := <[i := {| content := payload; synced := true |}]> s.(inodes) in
  {| inodes := done; dir := <[tgt := i]> (delete temporary s.(dir));
     unsynced_dirs := if unix then [] else [<[temporary := i]> s.(dir); s.(dir)] ++ s.(unsynced_dirs);
     fresh := S i |}.

Lemma exact_write_and_replace temporary tgt payload s : s.(dir) !! temporary = None -> temporary <> tgt ->
  parent tgt <> None ->
  exactly (write_and_replace os unix temporary tgt payload) s tt (replaced temporary tgt payload s).
Proof.
  intros Hnone Hne Hpar. unfold write_and_replace.
  eapply exact_bind; [apply exact_call; cbn; by rewrite Hnone|].
  eapply exact_bind; [by apply exact_call|].
  eapply exact_bind; [by apply exact_call|].
  eapply exact_bind with (a := tt).
  { destruct (bool_decide _); [by apply exact_call|apply triple_ret; by intros ? <-]. }
  eapply exact_bind.
  { apply exact_call. cbn. unfold sync_inode. cbn. by rewrite lookup_insert_eq. }
  eapply exact_bind.
  { apply exact_call. cbn. by rewrite lookup_insert_eq. }
  eapply exact_bind.
  { apply exact_call. cbn. by rewrite lookup_insert_eq. }
  eapply exact_bind.
  { apply exact_call. cbn. unfold sync_inode. cbn. by rewrite lookup_insert_eq. }
  unfold set_inode, set_dir, new_inode. cbn. rewrite !insert_insert_eq, delete_insert_eq.
  unfold sync_parent_directory, replaced. destruct unix.
  - destruct (parent tgt); [|done].
    eapply exact_bind; [apply exact_ok|].
    eapply exact_bind; by apply exact_call.
  - apply triple_ret. by intros ? <-.
Qed.

(** No temporary file is left over, and inodes are allocated in order. *)
Definition tidy (s : Fs) : Prop :=
  (forall q i, s.(dir) !! q = Some i -> (i < s.(fresh))%nat) /\ forall q, is_tmp q = true -> s.(dir) !! q = None.

Lemma replaced_lookup temporary tgt payload s q : tidy s -> q <> temporary ->
  lookup_file (replaced temporary tgt payload s) q = if decide (q = tgt) then Some payload else lookup_file s q.
Proof.
  intros [Hids _] Hq. unfold lookup_file, replaced. cbn [dir inodes]. case_decide as Hd.
  - subst q. rewrite lookup_insert_eq. cbn. by rewrite lookup_insert_eq.
  - rewrite lookup_insert_ne, lookup_delete_ne by done. destruct (dir s !! q) as [j|] eqn:Hj; [|done]. cbn.
    rewrite lookup_insert_ne; [done|]. pose proof (Hids q j Hj). lia.
Qed.

Lemma replaced_tidy temporary tgt payload s : tidy s -> is_tmp tgt = false -> tidy (replaced temporary tgt payload s).
Proof.
  intros [Hids Htmp] Ht. split; unfold replaced; cbn [dir fresh]; intros q.
  - intros i. destruct (decide (tgt = q)) as [->|Hne].
    + rewrite lookup_insert_eq. intros [= <-]. lia.
    + rewrite lookup_insert_ne by done. intros [_ Hi]%lookup_delete_Some. pose proof (Hids q i Hi). lia.
  - intros Hq. rewrite lookup_insert_ne by (intros ->; congruence). apply lookup_delete_None. right. by apply Htmp.
Qed.

(** [tgt] now holds [payload], and nothing else changed. *)
Definition updated (tgt : Path) (payload : list byte) (s t : Fs) : Prop :=
  tidy t /\ forall q, is_tmp q = false -> lookup_file t q = if decide (q = tgt) then Some payload else lookup_file s q.

Lemma total_atomic_replace lossy pid tgt payload s d name : tidy s ->
  parent tgt = Some d -> is_empty_path d = false -> file_name tgt = Some name -> is_tmp tgt = false ->
  triple fst (fun _ => True) (eq s) (atomic_replace os unix lossy pid tgt payload) (fun _ => updated tgt payload s) (fun _ => False).
Proof.
  intros Hs Hpar Hd Hname Ht. unfold atomic_replace. rewrite Hpar, Hd, Hname. cbn [ok_or].
  eapply triple_bind; [apply exact_ok|]. intros d'. apply triple_pure_l. intros ->.
  eapply triple_bind; [apply exact_ok|]. intros name'. apply triple_pure_l. intros ->.
  eapply triple_bind with (Q := fun _ t => s = t); [by intros [p n] Hp HP|]. intros n.
  set (temporary := join d (temp_name lossy pid name n)).
  assert (Htmp : is_tmp temporary = true) by apply is_tmp_temp.
  assert (Hne : temporary <> tgt) by (intros Heq; congruence).
  pose proof (exact_write_and_replace temporary tgt payload s (proj2 Hs _ Htmp) Hne ltac:(congruence)) as Hw.
  intros p Hp HP. destruct (Hw p Hp HP) as [_ Hr]. unfold cleanup.
  destruct (write_and_replace os unix temporary tgt payload p) as [[[]|e|] p']; [|done..]. cbn in Hr |- *.
  destruct Hr as [_ <-]. split; [by apply Forall_true|]. split; [by apply replaced_tidy|].
  intros q Hq. apply replaced_lookup; [done|]. intros ->. congruence.
Qed.
End faultless.

Section theorems.
Context `{HashLaws, SigLaws}.
Context (os : Os) (unix : bool) (lossy : list byte -> list byte) (pid : Z).

(** C12: a crash at any moment of a recovery leaves every file whole.  Started on a
    synchronised file system, without interference but with any call failing, after a
    crash at any moment every path (temporary names apart, which neither protected path has)
    holds what it held before; or
    the recovery pair on disk is one the policy accepts, the protected sidecar is the
    recovery sidecar in full, and the protected image is the old one or the recovery image
    in full. *)
Theorem recovery_crash_safe request p n V r p' n' s after :
  calm os -> policy_wf request.(policy) -> named_well request -> settled p.(fs) V -> p.(past) = [] ->
  recover_target_atomically os unix lossy pid request (p, n) = (r, (p', n')) ->
  s ∈ p'.(fs) :: p'.(past) -> crash s after ->
  agrees after V \/
  exists image sidecar v, authorised request p.(fs) image sidecar v /\
    (agrees after (with_sidecar request sidecar V) \/ agrees after (with_both request image sidecar V)).
Proof.
  intros Hcalm Hpol Hn Hs Hpast Hrun Hin Hcrash.
  pose proof (recover_run os Hcalm unix lossy pid request Hpol Hn (fs p) V Hs p n eq_refl Hpast) as Hr.
  rewrite Hrun in Hr. destruct Hr as [[Hall _]|(image & sidecar & v & Ha & Hall & _)]; rewrite Forall_forall in Hall.
  - left. rewrite <- (Hall s Hin) in Hcrash.
    assert (Hw : within [V] (fs p)) by (apply (settled_at_view _ V); [done|by left]).
    destruct (shows_crash [V] (fs p) after Hw Hcrash) as (U & ->%list_elem_of_singleton & HU). exact HU.
  - destruct (shows_crash _ s after (Hall s Hin) Hcrash) as (U & HU & Hag).
    unfold views in HU. rewrite !elem_of_cons, elem_of_nil in HU. destruct HU as [->|[->|[->|[]]]]; [by left|right; exists image, sidecar, v; auto..].
Qed.

(** Success is durable and truthful: if a recovery without interference reports
    success, then the recovery pair on disk is one the policy accepts; where directories
    can be synchronised, a crash right after it leaves both files in place (and all others
    as they were); and the report states the release, key, root and size of that pair. *)
Lemma recovery_success_durable request p n V report p' n' :
  calm os -> policy_wf request.(policy) -> named_well request -> settled p.(fs) V -> p.(past) = [] ->
  recover_target_atomically os unix lossy pid request (p, n) = (Ok report, (p', n')) ->
  exists image sidecar v, authorised request p.(fs) image sidecar v /\
    (unix = true -> forall after, crash p'.(fs) after -> agrees after (with_both request image sidecar V)) /\
    (request.(target) <> request.(target_sidecar) -> report = report_of image v).
Proof.
  intros Hcalm Hpol Hn Hs Hpast Hrun.
  pose proof (recover_run os Hcalm unix lossy pid request Hpol Hn (fs p) V Hs p n eq_refl Hpast) as Hr.
  rewrite Hrun in Hr. destruct Hr as [[_ Hno]|(image & sidecar & v & Ha & _ & Hok)]; [by destruct (Hno report)|].
  destruct (Hok report eq_refl) as [[Hat Hsync] Hrep]. exists image, sidecar, v. split_and!; [done| |done].
  intros Hu after Hcrash.
  assert (Hw : within [with_both request image sidecar V] (fs p')).
  { destruct Hat as ((Hids & _) & _ & Hshow). split; [done|]. intros d Hd. unfold dirs in Hd. rewrite (Hsync Hu) in Hd.
    apply list_elem_of_singleton in Hd as ->. eexists. split; [by left|done]. }
  destruct (shows_crash _ _ after Hw Hcrash) as (U & ->%list_elem_of_singleton & HU). exact HU.
Qed.

(** One signed sidecar validates one image. *)
Lemma signed_binding sidecar pol image1 image2 v1 v2 : policy_wf pol ->
  validate_signed_boot_image_v2 image1 sidecar pol = Ok v1 -> validate_signed_boot_image_v2 image2 sidecar pol = Ok v2 ->
  exists vm, parse_and_verify_boot_sidecar_v2 sidecar pol = Ok vm /\
    (padded image1 = padded image2 \/
     collide (validate_inputs image1 vm.(vm_manifest).(bm_proofs)) (validate_inputs image2 vm.(vm_manifest).(bm_proofs))).
Proof.
  intros Hpol H1' H2'. unfold validate_signed_boot_image_v2 in H1', H2'.
  destruct (parse_and_verify_boot_sidecar_v2 sidecar pol) as [vm|?|] eqn:Hp; [|done..]. rewrite ok_bind in H1', H2'.
  destruct (validate_boot_image image1 _) as [b1|?|] eqn:Hb1; [|done..].
  destruct (validate_boot_image image2 _) as [b2|?|] eqn:Hb2; [|done..].
  exists vm. split; [done|]. eapply validate_binding; [|done..].
  destruct (safe_Ok _ _ _ (parse_v2_safe sidecar pol Hpol) Hp) as (sg & _ & _ & _ & _ & _ & _ & Hwf).
  apply Hwf.
Qed.

(** C13: a crash never leaves a forged pair, as long as nobody else writes.  Take a recovery
    that no other process interferes with, whose calls may fail at any point, started on
    a synchronised file system (with the recorded history starting at that state), under a
    policy whose key identifier has its fixed length, where the protected image and the
    protected sidecar are two different paths and neither has a temporary name.  If, after
    a crash at any moment of it, the protected image and sidecar validate under the policy,
    then they are the pair from before, or the sidecar is the authorised one and the image is
    the authorised one up to the zero padding of its last block, or hashing the two images
    exhibits a collision. *)
Theorem recovery_no_hybrid request p n V r p' n' s after image' sidecar' v' :
  calm os -> policy_wf request.(policy) -> named_well request -> request.(target) <> request.(target_sidecar) ->
  settled p.(fs) V -> p.(past) = [] ->
  recover_target_atomically os unix lossy pid request (p, n) = (r, (p', n')) ->
  s ∈ p'.(fs) :: p'.(past) -> crash s after ->
  after !! request.(target) = Some image' -> after !! request.(target_sidecar) = Some sidecar' ->
  validate_signed_boot_image_v2 image' sidecar' request.(policy) = Ok v' ->
  (V !! request.(target) = Some image' /\ V !! request.(target_sidecar) = Some sidecar') \/
  exists image v vm, authorised request p.(fs) image sidecar' v /\
    parse_and_verify_boot_sidecar_v2 sidecar' request.(policy) = Ok vm /\
    (padded image' = padded image \/
     collide (validate_inputs image' vm.(vm_manifest).(bm_proofs)) (validate_inputs image vm.(vm_manifest).(bm_proofs))).
Proof.
  intros Hcalm Hpol Hn Hne Hs Hpast Hrun Hin Hcrash Himg Hsc Hv'.
  pose proof (recover_run os Hcalm unix lossy pid request Hpol Hn (fs p) V Hs p n eq_refl Hpast) as Hr.
  rewrite Hrun in Hr. destruct Hn as [Ht Hts]. destruct Hr as [[Hall _]|(image & sidecar & v & Ha & Hall & _)];
    rewrite Forall_forall in Hall.
  - left. rewrite <- (Hall s Hin) in Hcrash.
    assert (Hw : within [V] (fs p)) by (apply (settled_at_view _ V); [done|by left]).
    destruct (shows_crash [V] (fs p) after Hw Hcrash) as (U & ->%list_elem_of_singleton & HU).
    by rewrite <- !HU.
  - destruct (shows_crash _ s after (Hall s Hin) Hcrash) as (U & HU & Hag). rewrite Hag in Himg, Hsc by done.
    unfold views in HU. rewrite !elem_of_cons, elem_of_nil in HU. destruct HU as [->|HU]; [by left|right].
    assert (sidecar' = sidecar) as ->.
    { unfold with_both, with_sidecar in HU. destruct HU as [->|[->|[]]];
        rewrite ?lookup_insert_eq in Hsc; rewrite ?(lookup_insert_ne _ _ _ _ Hne), ?lookup_insert_eq in Hsc; by injection Hsc. }
    destruct Ha as (Hi & Hsd & Hv).
    destruct (signed_binding sidecar (policy request) image' image v' v Hpol Hv' Hv) as (vm & Hvm & Hb).
    by exists image, v, vm.
Qed.

(** A path that can be replaced. *)
Definition replaceable (p : Path) : Prop :=
  is_tmp p = false /\ is_Some (file_name p) /\ exists d, parent p = Some d /\ is_empty_path d = false.

(** A recovery in which no call fails *)
Lemma recover_completes request p n image sidecar v :
  calm os -> faultless os -> tidy p.(fs) -> replaceable request.(target) -> replaceable request.(target_sidecar) ->
  request.(target) <> request.(target_sidecar) ->
  authorised request p.(fs) image sidecar v -> image <> [] -> sidecar <> [] ->
  exists p' n', recover_target_atomically os unix lossy pid request (p, n) = (Ok (report_of image v), (p', n')) /\
    lookup_file p'.(fs) request.(target) = Some image /\
    lookup_file p'.(fs) request.(target_sidecar) = Some sidecar.
Proof.
  intros Hcalm Hok Htidy (Ht & [tn Htn] & td & Htd & Hte) (Hs & [sn Hsn] & sd & Hsd & Hse) Hne (Hi & Hsc & Hv) Hi0 Hs0.
  pose proof (fun P q b => total_read os Hcalm Hok P q b) as Hread.
  assert (Hall : triple fst (fun _ => True) (eq (fs p)) (recover_target_atomically os unix lossy pid request)
    (fun r t => r = report_of image v /\ lookup_file t request.(target) = Some image /\
                lookup_file t request.(target_sidecar) = Some sidecar) (fun _ => False)).
  { unfold recover_target_atomically.
    eapply triple_bind; [apply (Hread (eq (fs p)) _ image); [by intros ? <-|done]|]. intros ?. apply triple_pure_l. intros ->.
    eapply triple_bind; [apply (Hread (eq (fs p)) _ sidecar); [by intros ? <-|done]|]. intros ?. apply triple_pure_l. intros ->.
    rewrite Hv. cbn [map_err].
    eapply triple_bind; [apply exact_ok|]. intros ?. apply triple_pure_l. intros ->.
    eapply triple_bind; [by apply (total_atomic_replace os Hcalm Hok unix lossy pid _ _ _ sd sn)|]. intros [].
    eapply triple_bind with (Q := fun _ t => lookup_file t request.(target) = Some image /\
      lookup_file t request.(target_sidecar) = Some sidecar).
    { intros u Hp [Hu Hl].
      destruct (total_atomic_replace os Hcalm Hok unix lossy pid _ image _ td tn Hu Htd Hte Htn Ht u Hp eq_refl) as [Hp' Hr].
      split; [done|]. destruct (atomic_replace os unix lossy pid (target request) image u) as [[[]|?|] u']; cbn [fst snd] in *;
        [|done..]. destruct Hr as [_ Hr]. rewrite !Hr by done.
      rewrite decide_True, decide_False by done. rewrite Hl by done. by rewrite decide_True. }
    intros []. eapply triple_bind; [apply (Hread _ _ image); [by intros t []|done]|]. intros ?. apply triple_pure_l. intros ->.
    eapply triple_bind; [apply (Hread _ _ sidecar); [by intros t []|done]|]. intros ?. apply triple_pure_l. intros ->.
    rewrite Hv. cbn [map_err].
    eapply triple_bind with (Q := fun a t => a = v /\ lookup_file t request.(target) = Some image /\
      lookup_file t request.(target_sidecar) = Some sidecar); [by intros u Hp HP|].
    intros ?. apply triple_pure_l. intros ->. rewrite Z.eqb_refl, !bytes_eqb_refl. by apply triple_ret. }
  destruct (Hall (p, n)) as [_ Hr]; [by apply Forall_true|done|].
  destruct (recover_target_atomically os unix lossy pid request (p, n)) as [[r|?|] [p' n']]; [|done..].
  cbn in Hr. destruct Hr as (-> & ? & ?). eauto.
Qed.

(** C15: an authorised recovery succeeds.  If no call fails and nobody interferes, the
    recovery pair on disk is non-empty and accepted by the policy, no temporary file is
    left over, and the two protected paths are different and have a file name and a non-empty
    parent, then the recovery returns the report of that pair and both files are in place. *)
Theorem recovery_succeeds request p n image sidecar v :
  calm os -> faultless os -> tidy p.(fs) -> replaceable request.(target) -> replaceable request.(target_sidecar) ->
  request.(target) <> request.(target_sidecar) ->
  authorised request p.(fs) image sidecar v -> image <> [] -> sidecar <> [] ->
  exists p' n', recover_target_atomically os unix lossy pid request (p, n) = (Ok (report_of image v), (p', n')) /\
    lookup_file p'.(fs) request.(target) = Some image /\
    lookup_file p'.(fs) request.(target_sidecar) = Some sidecar.
Proof. apply recover_completes. Qed.
End theorems.

Lemma surjective_pairing2 {A B C} (x : A * (B * C)) : x = (fst x, (fst (snd x), snd (snd x))).
Proof. by destruct x as [? [? ?]]. Qed.

(** A crash that loses nothing *)
Definition kept (s : Fs) : View := omap (fun i => content <$> s.(inodes) !! i) s.(dir).

Lemma crash_kept s : map_Forall (fun _ i => is_Some (s.(inodes) !! i)) s.(dir) -> crash s (kept s).
Proof.
  intros Hall. exists s.(dir). split; [by left|]. intros p. unfold kept. rewrite lookup_omap.
  destruct (dir s !! p) as [i|] eqn:Hp; [|done]. destruct (Hall p i Hp) as [n Hn]. cbn. rewrite Hn. cbn. eauto.
Qed.

(** Three files at rest *)
Definition three_files (p1 p2 p3 : Path) (b1 b2 b3 : list byte) : Fs := {|
  inodes := <[0%nat := {| content := b1; synced := true |}]> (<[1%nat := {| content := b2; synced := true |}]>
    (<[2%nat := {| content := b3; synced := true |}]> ∅));
  dir := <[p1 := 0%nat]> (<[p2 := 1%nat]> (<[p3 := 2%nat]> ∅)); unsynced_dirs := []; fresh := 3 |}.

Lemma three_files_settled p1 p2 p3 b1 b2 b3 :
  settled (three_files p1 p2 p3 b1 b2 b3) (<[p1 := b1]> (<[p2 := b2]> (<[p3 := b3]> ∅))).
Proof.
  split; [done|]. split.
  - intros d p i ->%list_elem_of_singleton. unfold three_files. cbn [dir fresh]. rewrite !lookup_insert_Some.
    intros [[_ <-]|[_ [[_ <-]|[_ [[_ <-]|[_ ?]]]]]]; [lia..|done].
  - intros p. unfold durable, three_files. cbn [dir inodes].
    destruct (decide (p1 = p)) as [<-|]; [by rewrite !lookup_insert_eq|].
    rewrite !(lookup_insert_ne _ p1 p) by done.
    destruct (decide (p2 = p)) as [<-|]; [by rewrite !lookup_insert_eq|]. rewrite !(lookup_insert_ne _ p2 p) by done.
    destruct (decide (p3 = p)) as [<-|]; [by rewrite !lookup_insert_eq|]. by rewrite !(lookup_insert_ne _ p3 p).
Qed.

Lemma three_files_tidy p1 p2 p3 b1 b2 b3 : is_tmp p1 = false -> is_tmp p2 = false -> is_tmp p3 = false ->
  tidy (three_files p1 p2 p3 b1 b2 b3).
Proof.
  intros H1 H2 H3. unfold three_files. split; cbn [dir fresh].
  - intros q i. rewrite !lookup_insert_Some. intros [[_ <-]|[_ [[_ <-]|[_ [[_ <-]|[_ ?]]]]]]; [lia..|done].
  - intros q Hq. rewrite !lookup_insert_ne; [done|intros <-; congruence..].
Qed.

Module RecoveryWitness.
#[local] Existing Instance Toy.hash.
#[local] Existing Instance toy_hash_laws.
#[local] Existing Instance Toy.sig.
#[local] Existing Instance toy_sig_laws.

Definition image : list byte := SignedWitness.image.
Definition sidecar : list byte := SignedWitness.body ++ sign SignedWitness.sk SignedWitness.body.
Definition path (d f : string) : Path := (true, [txt d; txt f]).
Definition request : RecoveryRequest := {|
  target := path "boot" "app"; target_sidecar := path "boot" "app.dfim";
  recovery_image := path "safe" "app"; recovery_sidecar := path "safe" "app.dfim";
  policy := SignedWitness.policy |}.
Definition V : View :=
  <[path "boot" "app" := txt "damaged"]> (<[path "safe" "app" := image]> (<[path "safe" "app.dfim" := sidecar]> ∅)).
Definition s0 : Fs :=
  three_files (path "boot" "app") (path "safe" "app") (path "safe" "app.dfim") (txt "damaged") image sidecar.
Definition os : Os := {| fault := fun _ => None; interfere := fun _ s => s |}.
Definition start : Proc := {| fs := s0; past := []; calls := 0 |}.
Abbreviation run := (recover_target_atomically os true id 77 request (start, 0)).

Lemma s0_settled : settled s0 V.
Proof. apply three_files_settled. Defined.

Definition final : Proc := fst (snd run).
Lemma run_eq : run = (fst run, (final, snd (snd run))).
Proof. unfold final. apply (surjective_pairing2 run). Defined.
Lemma final_crash : crash final.(fs) (kept final.(fs)).
Proof. apply crash_kept. apply (bool_decide_unpack _). vm_compute. exact I. Defined.
Lemma pair_ok : exists v, validate_signed_boot_image_v2 image sidecar request.(policy) = Ok v.
Proof. apply is_ok_true. vm_compute. reflexivity. Defined.
Lemma final_in : final.(fs) ∈ final.(fs) :: final.(past).
Proof. apply list_elem_of_here. Defined.
Lemma request_policy_ok : policy_wf request.(policy).
Proof. by vm_compute. Defined.
Lemma os_calm : calm os.
Proof. done. Defined.
Lemma names_ok : named_well request.
Proof. split; by vm_compute. Defined.

Lemma os_faultless : faultless os.
Proof. done. Defined.
Lemma start_tidy : tidy start.(fs).
Proof.
  apply three_files_tidy; by vm_compute.
Defined.
Lemma target_ok : replaceable request.(target).
Proof. split; [by vm_compute|]. split; [by eexists|]. by eexists. Defined.
Lemma sidecar_ok : replaceable request.(target_sidecar).
Proof. split; [by vm_compute|]. split; [by eexists|]. by eexists. Defined.
Lemma image_there : lookup_file start.(fs) request.(recovery_image) = Some image.
Proof. vm_compute. reflexivity. Defined.
Lemma sidecar_there : lookup_file start.(fs) request.(recovery_sidecar) = Some sidecar.
Proof. vm_compute. reflexivity. Defined.

Lemma recovery_crash_safe_witness :
  let after := kept final.(fs) in
  crash final.(fs) after /\
  (agrees after V \/
   exists image sidecar v, authorised request s0 image sidecar v /\
     (agrees after (with_sidecar request sidecar V) \/ agrees after (with_both request image sidecar V))).
Proof.
  split; [exact final_crash|].
  exact (recovery_crash_safe os true id 77 request start 0 V (fst run) final (snd (snd run)) final.(fs) (kept final.(fs))
    os_calm request_policy_ok names_ok s0_settled eq_refl run_eq final_in final_crash).
Defined.

Lemma recovery_no_hybrid_witness : exists image' sidecar',
  kept final.(fs) !! request.(target) = Some image' /\ kept final.(fs) !! request.(target_sidecar) = Some sidecar' /\
  ((V !! request.(target) = Some image' /\ V !! request.(target_sidecar) = Some sidecar') \/
   exists image v vm, authorised request s0 image sidecar' v /\
     parse_and_verify_boot_sidecar_v2 sidecar' request.(policy) = Ok vm /\
     (padded image' = padded image \/
      collide (validate_inputs image' vm.(vm_manifest).(bm_proofs)) (validate_inputs image vm.(vm_manifest).(bm_proofs)))).
Proof.
  assert (Hi : kept final.(fs) !! request.(target) = Some image) by (vm_compute; reflexivity).
  assert (Hs : kept final.(fs) !! request.(target_sidecar) = Some sidecar) by (vm_compute; reflexivity).
  destruct pair_ok as [v' Hv].
  exists image, sidecar. split; [exact Hi|]. split; [exact Hs|].
  exact (recovery_no_hybrid os true id 77 request start 0 V (fst run) final (snd (snd run)) final.(fs) (kept final.(fs))
    image sidecar v' os_calm request_policy_ok names_ok ltac:(discriminate) s0_settled eq_refl run_eq final_in final_crash Hi Hs Hv).
Defined.

Lemma recovery_succeeds_witness : exists v p' n',
  recover_target_atomically os true id 77 request (start, 0) = (Ok (report_of image v), (p', n')) /\
  lookup_file p'.(fs) request.(target) = Some image /\ lookup_file p'.(fs) request.(target_sidecar) = Some sidecar.
Proof.
  destruct pair_ok as [v Hv].
  exists v.
  exact (recovery_succeeds os true id 77 request start 0 image sidecar v os_calm os_faultless start_tidy target_ok
    sidecar_ok ltac:(discriminate) (conj image_there (conj sidecar_there Hv)) ltac:(discriminate) ltac:(discriminate)).
Defined.
End RecoveryWitness.
