(* ===== verification/Shell.v ===== *)
(** * Shell: what the commands of the provisioner share

    Models the helpers of [dfim_cli_provisioner/src/main.rs]: hexadecimal arguments, the
    private key file, the trust policy given on the command line, the default sidecar
    path, the audit event and the JSON report of a command.

    The host is the record [Host]; the state of a command is the disk, the audit
    log, standard output and the commands sent to the TPM.  What is printed to standard
    error is not part of the state.

    The theorem shows that a hexadecimal argument means exactly the bytes it spells. *)

From stdpp Require Import base list numbers option strings gmap.
From Stdlib Require Import ZArith Lia Strings.Byte.
From S2P Require Import Prelude Crypto Core Pipeline SignedManifest Json Telemetry Files Recovery Attestation Tpm.

(** The errors of the commands; the sources carry their text. *)
Inductive CliError :=
| IntegrityPipeline (e : DfimError)
| CannotAccess (p : Path) | NotRegular (p : Path) | CannotRead (p : Path) | EmptyInputFile (p : Path) | ImageEmpty
| InvalidState (e : DfimError) | CorruptSidecar (e : DfimError) | TamperDetected (e : DfimError) | RootDiffers
| PlaintextState | LegacyState | V2TrustFailed (e : DfimError)
| HexLength | HexDigit | KeyNotText | ReleaseZero | NotCompressed | CountersZero
| CannotCreateDir | CannotWrite (p : Path) | WrongFileLength (p : Path)
| AuditSink (e : SinkError) | ReportFailed | TpmFailed (e : TpmError) | NoTpmSupport
| Attest (e : AttestError) | Recover (e : RecoveryError)
| NoRawDevices | ZeroLength | DeviceOpen | BufferLayout | BufferAlloc | DeviceRead | ShortRead | DeviceWrite | DeviceFlush
| DeviceSeek | CannotAppendReport (p : Path) | FailClosedViolation.

Record Host := {
  h_os : Os;
  h_unix : bool;
  h_lossy : list byte -> list byte;
  h_pid : Z;
  (** [Path::canonicalize], when the path exists *)
  canonical : Path -> option Path;
  (** [SystemTime::now], in milliseconds *)
  now : Z;
  (** whether [DFIM_TELEMETRY_OUT] is set, and what each use of the two outputs does *)
  sink_configured : bool;
  sink : nat -> SinkResult;
  stdout_short : nat -> option nat;
  (** the TPM library, when the tool is built with the [tpm] feature on Linux *)
  h_tpm : option Tss
}.

Record Shell := {
  disk : Proc * Z;
  audit : list byte;
  audited : nat;
  stdout : list byte;
  printed : nat;
  tpm : History
}.

Abbreviation Cmd := (stm Shell CliError).

Definition on_files {A} (m : stm Proc CliError A) : Cmd A := fun s =>
  let '(r, p) := m (fst s.(disk)) in
  (r, {| disk := (p, snd s.(disk)); audit := s.(audit); audited := s.(audited); stdout := s.(stdout); printed := s.(printed); tpm := s.(tpm) |}).

Definition on_recovery {A} (m : stm (Proc * Z) RecoveryError A) : Cmd A := fun s =>
  let '(r, d) := m s.(disk) in
  (map_err Recover r, {| disk := d; audit := s.(audit); audited := s.(audited); stdout := s.(stdout); printed := s.(printed); tpm := s.(tpm) |}).

(** ** Arguments *)

Definition map_dfim_error {A} (m : DfimResult A) : outcome CliError A := map_err IntegrityPipeline m.

Definition run_integrity_gates (target : Path) : outcome CliError unit :=
  map_dfim_error (assert_target_path (zlen (os_bytes target))).

Definition default_sidecar_path (target : Path) : Path := push target (txt ".dfim").

Definition decode_hex_nibble (value : byte) : outcome CliError Z :=
  let v := b2z value in
  if (0x30 <=? v) && (v <=? 0x39) then Ok (v - 0x30)
  else if (0x61 <=? v) && (v <=? 0x66) then Ok (v - 0x61 + 10)
  else if (0x41 <=? v) && (v <=? 0x46) then Ok (v - 0x41 + 10)
  else Err HexDigit.

(** [decode_hex_exact::<N>] on the bytes of the text *)
Definition decode_hex_exact (n : Z) (text : list byte) : outcome CliError (list byte) :=
  if negb (zlen text =? n * 2) then Err HexLength
  else
    foldM (fun output i =>
      c ← index text (i * 2); high ← decode_hex_nibble c;
      c ← index text (i * 2 + 1); low ← decode_hex_nibble c;
      store output i (z2b (Z.lor (Z.shiftl high 4) low))) (array x00 n) (range 0 n).

(** The characters of a UTF-8 text, each with its bytes; [core::str::from_utf8] *)
Definition is_cont (b : byte) : bool := Z.land (b2z b) 0xC0 =? 0x80.
Definition cont (b : byte) : Z := Z.land (b2z b) 0x3F.

Fixpoint utf8_chars (l : list byte) : option (list (Z * list byte)) :=
  match l with
  | [] => Some []
  | b0 :: l1 =>
      if b2z b0 <? 0x80 then cs ← utf8_chars l1; Some ((b2z b0, [b0]) :: cs)
      else match l1 with
      | b1 :: l2 =>
          if (0xC2 <=? b2z b0) && (b2z b0 <=? 0xDF) then
            if is_cont b1 then
              cs ← utf8_chars l2; Some ((Z.land (b2z b0) 0x1F * 0x40 + cont b1, [b0; b1]) :: cs)
            else None
          else match l2 with
          | b2 :: l3 =>
              if (0xE0 <=? b2z b0) && (b2z b0 <=? 0xEF) then
                let c := Z.land (b2z b0) 0x0F * 0x1000 + cont b1 * 0x40 + cont b2 in
                if is_cont b1 && is_cont b2 && (0x800 <=? c) && negb ((0xD800 <=? c) && (c <=? 0xDFFF)) then
                  cs ← utf8_chars l3; Some ((c, [b0; b1; b2]) :: cs)
                else None
              else match l3 with
              | b3 :: l4 =>
                  let c := Z.land (b2z b0) 0x07 * 0x40000 + cont b1 * 0x1000 + cont b2 * 0x40 + cont b3 in
                  if (0xF0 <=? b2z b0) && (b2z b0 <=? 0xF4) && is_cont b1 && is_cont b2 && is_cont b3 &&
                     (0x10000 <=? c) && (c <=? 0x10FFFF) then
                    cs ← utf8_chars l4; Some ((c, [b0; b1; b2; b3]) :: cs)
                  else None
              | [] => None
              end
          | [] => None
          end
      | [] => None
      end
  end.

(** [char::is_whitespace] and [str::trim] *)
Definition is_whitespace (c : Z) : bool :=
  ((9 <=? c) && (c <=? 13)) || (c =? 0x20) || (c =? 0x85) || (c =? 0xA0) || (c =? 0x1680) ||
  ((0x2000 <=? c) && (c <=? 0x200A)) || (c =? 0x2028) || (c =? 0x2029) || (c =? 0x202F) || (c =? 0x205F) || (c =? 0x3000).

Fixpoint trim_start (cs : list (Z * list byte)) : list (Z * list byte) :=
  match cs with
  | c :: cs' => if is_whitespace (fst c) then trim_start cs' else cs
  | [] => []
  end.

Definition trim (cs : list (Z * list byte)) : list (Z * list byte) := reverse (trim_start (reverse (trim_start cs))).

Definition parse_private_key (raw : list byte) : outcome CliError (list byte) :=
  if zlen raw =? 32 then Ok raw
  else
    text ← ok_or (utf8_chars raw) KeyNotText;
    decode_hex_exact 32 (concat (map snd (trim text))).

Definition parse_trusted_policy (public_key key_id : list byte) (minimum_release : Z) : outcome CliError TrustedManifestPolicy :=
  if minimum_release =? 0 then Err ReleaseZero
  else
    pk ← decode_hex_exact 33 public_key;
    first ← index pk 0;
    if negb ((b2z first =? 2) || (b2z first =? 3)) then Err NotCompressed
    else
      id ← decode_hex_exact 16 key_id;
      Ok {| public_key_sec1 := pk; expected_key_id := id; SignedManifest.minimum_release := minimum_release |}.

(** ** Files and outputs of a command *)

Section model.
Context `{HashOps}.
Context (h : Host).

Definition read_private_key (path : Path) : Cmd (list byte) :=
  raw ← on_files (sys_read h.(h_os) (CannotRead path) path);
  lift (parse_private_key raw).

(** [path.canonicalize()] and [is_file()] *)
Definition canonical_file (path : Path) : Cmd Path :=
  p ← on_files (syscall h.(h_os) (CannotAccess path) (clean (fun s => q ← h.(canonical) path; Some (q, s))));
  there ← on_files (sys_exists h.(h_os) (NotRegular p) p);
  if (there : bool) then mret p else lift (Err (NotRegular p)).

Definition emit_event (event : Audit.TelemetryEvent) : Cmd unit := fun s =>
  let '(r, log) := Audit.emit_configured h.(sink_configured) (h.(sink) s.(audited)) event s.(audit) in
  (map_err AuditSink r,
   {| disk := s.(disk); audit := log; audited := S s.(audited); stdout := s.(stdout); printed := s.(printed); tpm := s.(tpm) |}).

Definition emit_provision_event (target : Path) (event_type : Audit.EventType) (outcome : Audit.Outcome)
    (release_counter : option Z) (merkle_root : option (list byte)) (dry_run : bool) : Cmd unit :=
  emit_event (Audit.provision h.(now) event_type outcome (os_bytes target) release_counter merkle_root dry_run).

Definition emit_security_event (target : Path) (event_type : Audit.EventType) (outcome : Audit.Outcome)
    (release_counter : option Z) (merkle_root : option (list byte)) : Cmd unit :=
  emit_event (Audit.security h.(now) event_type outcome (os_bytes target) release_counter merkle_root).

(** [CommandJsonReport::write_stdout] *)
Definition print_report (report : Report.CommandJsonReport) : Cmd unit := fun s =>
  let '(r, out) := Report.write_stdout report (h.(stdout_short) s.(printed)) s.(stdout) in
  (map_err (fun _ => ReportFailed) r,
   {| disk := s.(disk); audit := s.(audit); audited := s.(audited); stdout := out; printed := S s.(printed); tpm := s.(tpm) |}).

Definition write_command_json (command : list byte) (target : Path) (format : Report.OutputFormat) (outcome : list byte)
    (merkle_root : option (list byte)) (release_counter bytes : option Z) (dry_run : bool) : Cmd unit :=
  match format with
  | Report.Text => mret tt
  | Report.Json_ =>
      print_report {| Report.command := command; Report.outcome := outcome; Report.r_asset_id := asset_id (os_bytes target);
                      Report.merkle_root := merkle_root; Report.release_counter := release_counter; Report.blocks := None;
                      Report.bytes := bytes; Report.dry_run := dry_run |}
  end.

(** A TPM operation; without TPM support the commands that need one fail. *)
Definition on_tpm {A} (m : Tss -> TpmM A) : Cmd A := fun s =>
  match h.(h_tpm) with
  | None => (Err NoTpmSupport, s)
  | Some t =>
      let '(r, past) := m t s.(tpm) in
      (map_err TpmFailed r,
       {| disk := s.(disk); audit := s.(audit); audited := s.(audited); stdout := s.(stdout); printed := s.(printed);
          tpm := past |})
  end.

Definition extend_merkle_to_tpm (merkle_root : list byte) : Cmd unit :=
  on_tpm (fun t => extend_merkle_root_to_hardware_tpm t merkle_root).

(** Creating the parent directory and writing the file *)
Definition write_output (output : Path) (data : list byte) : Cmd unit :=
  (match parent output with
   | Some d => if is_empty_path d then mret tt else on_files (sys_effectless h.(h_os) CannotCreateDir)
   | None => mret tt
   end) ;;
  on_files (sys_write h.(h_os) (CannotWrite output) output data).
End model.

(** [let _ = m;]: the state of [m], whatever its result *)
Definition ignore {A} (m : Cmd A) : Shell -> Shell := fun s => snd (m s).

(** ** Hexadecimal arguments *)

(** The lower-case form of a hexadecimal digit *)
Definition lower (c : byte) : byte :=
  if (0x41 <=? b2z c) && (b2z c <=? 0x46) then z2b (b2z c + 32) else c.

(** The two digits of a byte, decoded. *)
Definition decode_pair (c d : byte) : outcome CliError byte :=
  high ← decode_hex_nibble c; low ← decode_hex_nibble d; Ok (z2b (Z.lor (Z.shiftl high 4) low)).

Fixpoint decode_pairs (text : list byte) : outcome CliError (list byte) :=
  match text with
  | c :: d :: text => b ← decode_pair c d; bs ← decode_pairs text; Ok (b :: bs)
  | _ => Ok []
  end.

Lemma nibble_spec c v : 0 <= v < 16 -> decode_hex_nibble c = Ok v <-> lower c = hex_digit v.
Proof.
  intros Hv. assert (Hc : forallb (fun v => Bool.eqb (match decode_hex_nibble c with Ok w => w =? v | _ => false end)
    (bytes_eqb [lower c] [hex_digit v])) (range 0 16) = true) by (destruct c; vm_compute; reflexivity).
  rewrite forallb_forall in Hc. specialize (Hc v). rewrite Bool.eqb_true_iff in Hc.
  specialize (Hc ltac:(apply list_elem_of_In, elem_of_range; lia)). split.
  - intros Hd. rewrite Hd, Z.eqb_refl in Hc. symmetry in Hc. apply bytes_eqb_eq in Hc. by injection Hc.
  - intros Hl. rewrite Hl, bytes_eqb_refl in Hc. destruct (decode_hex_nibble c); [|done..].
    by apply Z.eqb_eq in Hc as ->.
Qed.

Lemma hex_nibble_range c v : decode_hex_nibble c = Ok v -> 0 <= v < 16.
Proof.
  unfold decode_hex_nibble. cbv zeta. repeat case_match; try done; intros [= <-];
    repeat match goal with H : _ && _ = true |- _ => apply andb_true_iff in H as [?%Z.leb_le ?%Z.leb_le] end; lia.
Qed.

Lemma nibbles_byte h l : 0 <= h < 16 -> 0 <= l < 16 ->
  let b := z2b (Z.lor (Z.shiftl h 4) l) in Z.shiftr (b2z b) 4 = h /\ Z.land (b2z b) 0x0f = l.
Proof.
  intros Hh Hl. cbv zeta.
  assert (Hall : forallb (fun h => forallb (fun l => let b := z2b (Z.lor (Z.shiftl h 4) l) in
    (Z.shiftr (b2z b) 4 =? h) && (Z.land (b2z b) 0x0f =? l)) (range 0 16)) (range 0 16) = true) by (vm_compute; reflexivity).
  rewrite forallb_forall in Hall. specialize (Hall h ltac:(apply list_elem_of_In, elem_of_range; lia)).
  rewrite forallb_forall in Hall. specialize (Hall l ltac:(apply list_elem_of_In, elem_of_range; lia)).
  apply andb_true_iff in Hall as [?%Z.eqb_eq ?%Z.eqb_eq]. done.
Qed.

Lemma byte_nibbles b : z2b (Z.lor (Z.shiftl (Z.shiftr (b2z b) 4) 4) (Z.land (b2z b) 0x0f)) = b /\
  0 <= Z.shiftr (b2z b) 4 < 16 /\ 0 <= Z.land (b2z b) 0x0f < 16.
Proof. destruct b; vm_compute; intuition discriminate. Qed.

Lemma decode_pair_Ok c d b : decode_pair c d = Ok b <->
  [lower c; lower d] = [hex_digit (Z.shiftr (b2z b) 4); hex_digit (Z.land (b2z b) 0x0f)].
Proof.
  unfold decode_pair. split.
  - destruct (decode_hex_nibble c) as [h|?|] eqn:Hc; [|done..]. rewrite ok_bind.
    destruct (decode_hex_nibble d) as [l|?|] eqn:Hd; [|done..]. rewrite ok_bind. intros [= <-].
    pose proof (hex_nibble_range _ _ Hc). pose proof (hex_nibble_range _ _ Hd).
    destruct (nibbles_byte h l) as [-> ->]; [done..|]. apply nibble_spec in Hc as ->, Hd as ->; done.
  - destruct (byte_nibbles b) as (Hb & Hh & Hl). intros [= Hc Hd].
    rewrite (proj2 (nibble_spec c _ Hh) Hc), ok_bind, (proj2 (nibble_spec d _ Hl) Hd), ok_bind. by rewrite Hb.
Qed.

Lemma decode_pairs_Ok k text bs : length text = (2 * k)%nat ->
  decode_pairs text = Ok bs <-> map lower text = hex_encode bs.
Proof.
  revert text bs. induction k as [|k IH]; intros text bs Hl.
  - destruct text; [|done]. destruct bs; cbn; [done|split; done].
  - destruct text as [|c [|d text]]; cbn in Hl; try lia. cbn [decode_pairs map]. split.
      + intros (b & Hb & Hbs)%bind_Ok. apply bind_Ok in Hbs as (bs' & Hbs & [= <-]).
        apply decode_pair_Ok in Hb. injection Hb as -> ->. apply IH in Hbs; [|lia]. rewrite Hbs. done.
      + destruct bs as [|b bs]; [done|]. change (hex_encode (b :: bs)) with
          ([hex_digit (Z.shiftr (b2z b) 4); hex_digit (Z.land (b2z b) 0x0f)] ++ hex_encode bs).
        intros [= Hc Hd Hr]. rewrite (proj2 (decode_pair_Ok c d b)) by (by rewrite Hc, Hd). rewrite ok_bind.
        by rewrite (proj2 (IH text bs ltac:(lia)) Hr).
Qed.

(** The loop of [decode_hex_exact] decodes pair after pair into the output array. *)
Lemma decode_loop text k pre done :
  zlen done = 2 * zlen pre -> length text = (2 * k)%nat ->
  foldM (fun output i =>
      c ← index (done ++ text) (i * 2); high ← decode_hex_nibble c;
      c ← index (done ++ text) (i * 2 + 1); low ← decode_hex_nibble c;
      store output i (z2b (Z.lor (Z.shiftl high 4) low)))
    (pre ++ array x00 (Z.of_nat k)) (range (zlen pre) (zlen pre + Z.of_nat k)) =
  (bs ← decode_pairs text; Ok (pre ++ bs)).
Proof.
  revert text pre done. induction k as [|k IH]; intros text pre done Hd Hl.
  - destruct text; [|done]. rewrite range_nil by lia. cbn. done.
  - destruct text as [|c [|d text]]; cbn in Hl; try lia. pose proof (zlen_nonneg pre).
    rewrite range_cons by lia. cbn [foldM decode_pairs]. unfold decode_pair.
    assert (Hc : index (done ++ c :: d :: text) (zlen pre * 2) = @Ok CliError _ c).
    { rewrite index_skip by lia. by replace (zlen pre * 2 - zlen done) with 0 by lia. }
    assert (Hd' : index (done ++ c :: d :: text) (zlen pre * 2 + 1) = @Ok CliError _ d).
    { rewrite index_skip by lia. by replace (zlen pre * 2 + 1 - zlen done) with 1 by lia. }
    rewrite Hc, ok_bind. destruct (decode_hex_nibble c) as [h|?|]; [|done..]. rewrite !ok_bind, Hd', ok_bind.
    destruct (decode_hex_nibble d) as [l|?|]; [|done..]. rewrite !ok_bind.
    assert (Hst : store (pre ++ array x00 (Z.of_nat (S k))) (zlen pre) (z2b (Z.lor (Z.shiftl h 4) l)) =
      @Ok CliError _ ((pre ++ [z2b (Z.lor (Z.shiftl h 4) l)]) ++ array x00 (Z.of_nat k))).
    { rewrite store_ok by (rewrite zlen_app, zlen_array by lia; lia). f_equal. unfold splice, array.
      replace (Z.to_nat (zlen pre)) with (length pre) by (unfold zlen; lia).
      rewrite take_app_length, <- app_assoc. do 2 f_equal. rewrite Nat2Z.id, drop_app_ge by lia.
      cbn [length]. replace (length pre + 1 - length pre)%nat with 1%nat by lia. by rewrite Nat2Z.id. }
    rewrite Hst, ok_bind. set (b := z2b _).
    specialize (IH text (pre ++ [b]) (done ++ [c; d])).
    rewrite !zlen_app in IH. change (zlen [b]) with 1 in IH. change (zlen [c; d]) with 2 in IH.
    replace (zlen pre + Z.of_nat (S k)) with (zlen pre + 1 + Z.of_nat k) by lia.
    rewrite <- app_assoc in IH. cbn [app] in IH. rewrite IH by (lia || (cbn; lia)).
    destruct (decode_pairs text); [|done..]. cbn. by rewrite <- app_assoc.
Qed.

Lemma decode_hex_spec n text bs : 0 <= n ->
  decode_hex_exact n text = Ok bs <-> zlen bs = n /\ map lower text = hex_encode bs.
Proof.
  intros Hn. unfold decode_hex_exact.
  assert (Hlen : forall bs, map lower text = hex_encode bs -> zlen text = 2 * zlen bs).
  { intros bs' Heq. apply (f_equal length) in Heq. rewrite length_map in Heq. unfold zlen. rewrite Heq.
    clear. induction bs' as [|b bs' IH]; [done|]. change (hex_encode (b :: bs')) with
      ([hex_digit (Z.shiftr (b2z b) 4); hex_digit (Z.land (b2z b) 0x0f)] ++ hex_encode bs').
    rewrite length_app. cbn [length]. lia. }
  destruct (Z.eqb_spec (zlen text) (n * 2)) as [Hl|Hl]; cbn [negb].
  2: { split; [done|]. intros [Hb Hm]. pose proof (Hlen bs Hm). lia. }
  pose proof (decode_loop text (Z.to_nat n) [] [] eq_refl ltac:(unfold zlen in Hl; lia)) as Hloop.
  change (zlen []) with 0 in Hloop. cbn [app] in Hloop. rewrite Z2Nat.id in Hloop by lia. rewrite Z.add_0_l in Hloop.
  rewrite Hloop. rewrite <- (decode_pairs_Ok (Z.to_nat n)) by (unfold zlen in Hl; lia). split.
  - intros (bs' & Hp & [= ->])%bind_Ok. cbn. split; [|done].
    apply (decode_pairs_Ok (Z.to_nat n)) in Hp; [|unfold zlen in Hl; lia]. pose proof (Hlen bs Hp). lia.
  - intros [_ ->]. done.
Qed.

(** A hexadecimal argument means exactly the bytes it spells.  Decoding with a given
    length returns [bs] exactly when [bs] has that length and the text, up to the case of
    its digits, is the hexadecimal form of [bs]; in particular printing and decoding round
    trip, and nothing else is accepted. *)
Theorem hex_argument_exact n text bs : 0 <= n ->
  decode_hex_exact n text = Ok bs <-> zlen bs = n /\ map lower text = hex_encode bs.
Proof. apply decode_hex_spec. Qed.

Lemma hex_argument_exact_witness :
  decode_hex_exact 3 (txt "0aFf7E") = Ok [x0a; xff; x7e] <->
  zlen [x0a; xff; x7e] = 3 /\ map lower (txt "0aFf7E") = hex_encode [x0a; xff; x7e].
Proof. apply hex_argument_exact. lia. Defined.

(** ** Commands that only read

    [reads m Q]: whatever its result, [m] leaves the files and the outputs alone, and a
    result satisfies [Q] of the file system. *)

Definition fs_of (s : Shell) : Fs := (fst s.(disk)).(fs).

Definition untouched (s s' : Shell) : Prop :=
  fs_of s' = fs_of s /\ snd s'.(disk) = snd s.(disk) /\ s'.(audit) = s.(audit) /\ s'.(audited) = s.(audited) /\
  s'.(stdout) = s.(stdout) /\ s'.(printed) = s.(printed) /\ s'.(tpm) = s.(tpm).

#[export] Instance untouched_preorder : PreOrder untouched.
Proof. split; [done|]. intros s1 s2 s3 (? & ? & ? & ? & ? & ? & ?) (? & ? & ? & ? & ? & ? & ?). split_and!; congruence. Qed.

Definition reads {A} (m : Cmd A) (Q : Fs -> A -> Prop) : Prop :=
  forall s, untouched s (snd (m s)) /\ forall a, fst (m s) = Ok a -> Q (fs_of s) a.

Lemma reads_lift {A} (m : outcome CliError A) : reads (lift m) (fun _ a => m = Ok a).
Proof. by intros s. Qed.

Lemma reads_ret {A} (a : A) : reads (mret a) (fun _ b => b = a).
Proof. intros s. split; [done|]. by intros b [= ->]. Qed.

Lemma reads_bind {A B} (m : Cmd A) (f : A -> Cmd B) Q Q' : reads m Q -> (forall a, reads (f a) (Q' a)) ->
  reads (m ≫= f) (fun d b => exists a, Q d a /\ Q' a d b).
Proof.
  intros Hm Hf s. destruct (Hm s) as [Hu Ha]. unfold mbind, stm_bind. destruct (m s) as [[a|e|] s1]; cbn in *; [|done..].
  destruct (Hf a s1) as [Hu' Hb]. split; [by etrans|]. intros b Hfb. exists a. split; [by apply Ha|].
  destruct Hu as [<- _]. by apply Hb.
Qed.

Lemma reads_weaken {A} (m : Cmd A) (Q Q' : Fs -> A -> Prop) : reads m Q -> (forall d a, Q d a -> Q' d a) -> reads m Q'.
Proof. intros Hm HQ s. destruct (Hm s) as [Hu Ha]. split; [done|]. eauto. Qed.

Section reading.
Context (h : Host) (Hcalm : calm h.(h_os)).

Lemma reads_call {A} e (f : Fs -> option (A * Fs)) : (forall s a s', f s = Some (a, s') -> s' = s) ->
  reads (on_files (syscall h.(h_os) e (clean f))) (fun d a => f d = Some (a, d)).
Proof.
  intros Hf s. unfold on_files, syscall, untouched, fs_of. rewrite Hcalm. unfold clean.
  destruct (fault (h_os h) (calls (fst (disk s)))) as [k|]; [by cbn|].
  destruct (f (fs (fst (disk s)))) as [[a s']|] eqn:Hfs; cbn; [|done].
  pose proof (Hf _ _ _ Hfs) as ->. split; [done|]. by intros b [= <-].
Qed.

Lemma reads_file e p : reads (on_files (sys_read h.(h_os) e p)) (fun d b => lookup_file d p = Some b).
Proof.
  eapply reads_weaken; [apply reads_call|].
  - intros s a s'. destruct (lookup_file s p); [|done]. by intros [= <- <-].
  - intros d a Hd. cbn in Hd. destruct (lookup_file d p); [|done]. by injection Hd as ->.
Qed.

Lemma reads_exists e p : reads (on_files (sys_exists h.(h_os) e p)) (fun d b => b = true -> is_Some (d.(dir) !! p)).
Proof.
  intros s. unfold on_files, sys_exists, syscall, untouched, fs_of. rewrite Hcalm.
  destruct (fault (h_os h) (calls (fst (disk s)))); cbn; (split; [done|]); intros b [= <-]; [done|].
  apply bool_decide_eq_true.
Qed.

Lemma reads_canonical p : reads (canonical_file h p) (fun _ q => h.(canonical) p = Some q).
Proof.
  unfold canonical_file. eapply reads_weaken.
  - eapply (reads_bind _ _ _ (fun q _ r => r = q)).
    + apply (reads_call _ (fun s => q ← h.(canonical) p; Some (q, s))).
      intros s a s'. destruct (canonical h p); [|done]. by intros [= <- <-].
    + intros q. eapply reads_weaken.
      * eapply (reads_bind _ _ _ (fun _ _ r => r = q)); [apply reads_exists|]. intros there.
        destruct there; [apply reads_ret|]. by eapply reads_weaken; [apply reads_lift|].
      * by intros d r (_ & _ & ->).
  - intros d q (q' & Hq & ->). destruct (canonical h p); [|done]. by injection Hq as ->.
Qed.
End reading.

(** ** The two outputs *)

Section outputs.
Context (h : Host).

Definition audit_line (event : Audit.TelemetryEvent) : list byte :=
  if h.(sink_configured) then Audit.to_json_line event else [].

(** An event that is reported as written is written: whole, last, and nothing else changes. *)
Lemma emit_event_Ok event s u s' : emit_event h event s = (Ok u, s') ->
  s'.(disk) = s.(disk) /\ s'.(stdout) = s.(stdout) /\ s'.(audit) = s.(audit) ++ audit_line event.
Proof.
  unfold emit_event, Audit.emit_configured, emit_line, audit_line.
  destruct (sink_configured h); [|intros [= _ <-]; by rewrite app_nil_r].
  unfold append_line. destruct (opens _); [|done]. cbn [negb]. destruct (short_write _); [done|]. destruct (syncs _); [|done].
  by intros [= _ <-].
Qed.

Lemma emit_event_disk event s : (snd (emit_event h event s)).(disk) = s.(disk).
Proof. unfold emit_event. by destruct (Audit.emit_configured _ _ _ _). Qed.

Lemma print_report_Ok report s u s' : print_report h report s = (Ok u, s') ->
  s'.(disk) = s.(disk) /\ s'.(audit) = s.(audit) /\ s'.(stdout) = s.(stdout) ++ Report.json_line report.
Proof.
  unfold print_report, Report.write_stdout. destruct (stdout_short h (printed s)); [done|]. by intros [= _ <-].
Qed.

Lemma print_report_disk report s : (snd (print_report h report s)).(disk) = s.(disk).
Proof. unfold print_report. by destruct (Report.write_stdout _ _ _). Qed.

(** The host whose outputs accept everything. *)
Definition outputs_work : Prop :=
  (forall n, h.(sink) n = {| opens := true; short_write := None; syncs := true |}) /\ (forall n, h.(stdout_short) n = None).

Lemma emit_event_works event s : outputs_work ->
  emit_event h event s = (Ok tt, {| disk := s.(disk); audit := s.(audit) ++ audit_line event; audited := S s.(audited);
                                    stdout := s.(stdout); printed := s.(printed); tpm := s.(tpm) |}).
Proof.
  intros [Hs _]. unfold emit_event, Audit.emit_configured, emit_line, audit_line. rewrite Hs.
  destruct (sink_configured h); [done|]. cbn. by rewrite app_nil_r.
Qed.

Lemma print_report_works report s : outputs_work ->
  print_report h report s = (Ok tt, {| disk := s.(disk); audit := s.(audit); audited := s.(audited);
                                       stdout := s.(stdout) ++ Report.json_line report; printed := S s.(printed); tpm := s.(tpm) |}).
Proof. intros [_ Hp]. unfold print_report, Report.write_stdout. by rewrite Hp. Qed.
End outputs.
