(* ===== verification/Device.v ===== *)
(** * Device: raw block devices and the stress harness

    Models [dfim_cli_provisioner/src/platform] (direct reads, writes and bit flips on a raw
    block device through aligned buffers) and [dfim_cli_provisioner/src/raw_stress.rs] (the
    validation cycles, the injected fault and the JSONL report).

    A device is its bytes, of fixed number; [Driver] holds what the kernel and the allocator
    answer: failing calls, short reads, failing writes with what they wrote, and the bytes an
    allocated buffer holds before it is written.

    The theorems show that a device reads back what was written, that an injected fault
    changes one bit, and that a fault inside the image is always reported. *)

From stdpp Require Import base list numbers option strings gmap.
From Stdlib Require Import ZArith Lia Strings.Byte.
From S2P Require Import Prelude Crypto Core Merkle BlockStream StateDb Pipeline SignedManifest Json Telemetry Files Recovery.
From S2P Require Import Attestation Tpm Shell Verify.

Definition DIRECT_IO_ALIGN : Z := 4096.

Definition block_byte_offset (block_index block_size : Z) : Z := saturating_mul block_index block_size.

Definition align_up {E} (value align : Z) : outcome E Z := mul_usize (div_ceil value align) align.

(** ** Devices *)

Record Device := { dev_bytes : list byte; dev_calls : nat }.

Record Driver := {
  (** whether a call fails; for a write, how many bytes it wrote *)
  dev_fault : nat -> option nat;
  (** the bytes a successful [read] transfers at most *)
  dev_short : nat -> option Z;
  (** the content of freshly allocated memory *)
  heap : nat -> Z -> byte
}.

Definition ISIZE_MAX : Z := 2 ^ 63 - 1.

Section device.
Context (d : Driver) (unix : bool).

Abbreviation Dev := (stm Device CliError).

(** One call: its number, and a new device content. *)
Definition dev_call {A} (e : CliError) (f : nat -> list byte -> option A * list byte) : Dev A := fun s =>
  let '(r, b) := f s.(dev_calls) s.(dev_bytes) in
  (ok_or r e, {| dev_bytes := b; dev_calls := S s.(dev_calls) |}).

(** A call that only succeeds or fails. *)
Definition dev_try (e : CliError) : Dev unit :=
  dev_call e (fun n b => (match d.(dev_fault) n with Some _ => None | None => Some tt end, b)).

Definition open_direct : Dev unit := dev_try DeviceOpen.

(** [AlignedBuffer::new]: the memory is not initialised. *)
Definition aligned_buffer (len align : Z) : Dev (list byte) :=
  if len >? ISIZE_MAX - (align - 1) then lift (Err BufferLayout)
  else dev_call BufferAlloc (fun n b =>
    (match d.(dev_fault) n with Some _ => None | None => Some (d.(heap) n <$> range 0 len) end, b)).

(** [file.read(buf)] from the start: the number of bytes and the buffer *)
Definition dev_read (buf : list byte) : Dev (Z * list byte) :=
  dev_call DeviceRead (fun n b =>
    match d.(dev_fault) n with
    | Some _ => (None, b)
    | None =>
        let got := take (Z.to_nat (Z.min (zlen buf) (default (zlen buf) (d.(dev_short) n)))) b in
        (Some (zlen got, splice buf 0 got), b)
    end).

(** [file.read_exact(buf)] at an offset *)
Definition dev_read_exact (offset : Z) (buf : list byte) : Dev (list byte) :=
  dev_call DeviceRead (fun n b =>
    match d.(dev_fault) n with
    | Some _ => (None, b)
    | None => if offset + zlen buf <=? zlen b then (Some (take (length buf) (drop (Z.to_nat offset) b)), b) else (None, b)
    end).

(** [file.write_all(buf)] at an offset; the device does not grow. *)
Definition dev_write_all (offset : Z) (buf : list byte) : Dev unit :=
  dev_call DeviceWrite (fun n b =>
    let room := take (Z.to_nat (zlen b - offset)) buf in
    match d.(dev_fault) n with
    | Some k => (None, splice b (Z.to_nat offset) (take k room))
    | None => (if offset + zlen buf <=? zlen b then Some tt else None, splice b (Z.to_nat offset) room)
    end).

Definition read_block_device_direct (byte_len : Z) : Dev (list byte) :=
  if byte_len =? 0 then lift (Err ZeroLength)
  else
    io_len ← lift (align_up byte_len DIRECT_IO_ALIGN);
    open_direct ;;
    buf ← aligned_buffer io_len DIRECT_IO_ALIGN;
    got ← dev_read buf;
    if fst got <? byte_len then lift (Err ShortRead)
    else lift (slice (snd got) 0 byte_len).

Definition write_block_device_direct (payload : list byte) : Dev unit :=
  if zlen payload =? 0 then lift (Err ZeroLength)
  else
    io_len ← lift (align_up (zlen payload) DIRECT_IO_ALIGN);
    open_direct ;;
    buf ← aligned_buffer io_len DIRECT_IO_ALIGN;
    buf ← lift (copy_into buf 0 (zlen payload) payload);
    dev_write_all 0 buf ;;
    dev_try DeviceFlush.

Definition flip_bit_at_offset_direct (byte_offset : Z) : Dev unit :=
  sector_start ← lift (mul_usize (byte_offset `div` DIRECT_IO_ALIGN) DIRECT_IO_ALIGN);
  in_sector ← lift (sub_usize byte_offset sector_start);
  open_direct ;;
  buf ← aligned_buffer DIRECT_IO_ALIGN DIRECT_IO_ALIGN;
  dev_try DeviceSeek ;;
  buf ← dev_read_exact sector_start buf;
  byte ← lift (index buf in_sector);
  buf ← lift (store buf in_sector (z2b (Z.lxor (b2z byte) 1)));
  dev_try DeviceSeek ;;
  dev_write_all sector_start buf ;;
  dev_try DeviceFlush.

(** The functions of [platform]: Windows has stubs. *)
Definition read_block_device (byte_len : Z) : Dev (list byte) :=
  if unix then read_block_device_direct byte_len else lift (Err NoRawDevices).
Definition write_block_device (payload : list byte) : Dev unit :=
  if unix then write_block_device_direct payload else lift (Err NoRawDevices).
Definition flip_bit_at_offset (byte_offset : Z) : Dev unit :=
  if unix then flip_bit_at_offset_direct byte_offset else lift (Err NoRawDevices).
End device.

(** ** The stress harness *)

Record RawStressArgs := {
  rs_device : Path;
  rs_golden : Path;
  rs_state : option Path;
  rs_cycles : Z;
  rs_inject_sector : option Z;
  rs_jsonl_out : Path
}.

(** [timings_ns.iter().copied().sum::<u64>()] *)
Definition sum_u64 {E} (l : list Z) : outcome E Z :=
  foldM (fun acc x => if acc + x <=? U64_MAX then Ok (acc + x) else Panic) 0 l.

Section harness.
Context `{HashOps, SigOps}.
Context (h : Host) (d : Driver).
(** [Path::display], and the clock: what each [elapsed] returns, in nanoseconds *)
Context (display : Path -> list byte) (elapsed : nat -> Z).

Abbreviation Run := (stm (Shell * Device) CliError).

Definition on_shell {A} (m : Cmd A) : Run A := fun s => let '(r, s1) := m (fst s) in (r, (s1, snd s)).
Definition on_device {A} (m : stm Device CliError A) : Run A := fun s => let '(r, s2) := m (snd s) in (r, (fst s, s2)).

Definition json_line (phase status : list byte) (args : RawStressArgs) (image_len cycles : Z) (timings_ns : list Z)
    (elapsed_ms : Z) (fault : option (Z * Z * bool)) : outcome CliError (list byte) :=
  let min_ns := match timings_ns with [] => 0 | t :: ts => fold_left Z.min ts t end in
  let max_ns := match timings_ns with [] => 0 | t :: ts => fold_left Z.max ts t end in
  avg_ns ← (if zlen timings_ns =? 0 then Ok 0 else sum ← sum_u64 timings_ns; Ok (sum `div` zlen timings_ns));
  let fault_json := match fault with
    | Some (sector, offset, rejected) =>
        raw ",'inject_sector':" ++ to_string sector ++ raw ",'inject_byte_offset':" ++ to_string offset ++
        raw ",'fail_closed':" ++ txt (if (rejected : bool) then "true" else "false")
    | None => []
    end in
  Ok (raw "{'phase':'" ++ phase ++ raw "','status':'" ++ status ++ raw "','device':'" ++ display args.(rs_device) ++
      raw "','golden':'" ++ display args.(rs_golden) ++ raw "','image_bytes':" ++ to_string image_len ++
      raw ",'cycles':" ++ to_string cycles ++ raw ",'timing_ns':{'min':" ++ to_string min_ns ++ raw ",'max':" ++
      to_string max_ns ++ raw ",'avg':" ++ to_string avg_ns ++ raw "},'elapsed_ms':" ++ to_string elapsed_ms ++
      fault_json ++ txt "}").

Definition append_jsonl (path : Path) (line : list byte) : Cmd unit :=
  (match parent path with
   | Some p => if is_empty_path p then mret tt else on_files (sys_effectless h.(h_os) CannotCreateDir)
   | None => mret tt
   end) ;;
  i ← on_files (sys_open_append h.(h_os) (CannotAppendReport path) path);
  on_files (sys_append_all h.(h_os) (CannotAppendReport path) i (line ++ [x0a])).

(** One validation cycle *)
Definition cycle (image_len : Z) (state_path : Path) : Run unit :=
  live ← on_device (read_block_device d h.(h_unix) image_len);
  live ← lift (slice live 0 image_len);
  on_shell (verify_image_bytes_against_state h live state_path) ;;
  mret tt.

(** Writing the baseline sidecar if there is none *)
Definition ensure_state (golden : list byte) (state_path : Path) : Cmd unit :=
  there ← on_files (sys_exists h.(h_os) (NotRegular state_path) state_path);
  if (there : bool) then mret tt
  else
    sidecar ← lift (map_dfim_error (build_boot_sidecar golden));
    write_output h state_path sidecar.

(** The injected fault and its verdict *)
Definition inject (args : RawStressArgs) (image_len : Z) (state_path : Path) (sector : Z) : Run unit :=
  let flip_offset := block_byte_offset sector DFIM_BLOCK_SIZE in
  on_device (flip_bit_at_offset d h.(h_unix) flip_offset) ;;
  let flip_ns := as_u64 (elapsed (S (Z.to_nat args.(rs_cycles)))) in
  post ← on_device (read_block_device d h.(h_unix) image_len);
  post ← lift (slice post 0 image_len);
  fail_closed ← (fun s =>
    match on_shell (verify_image_bytes_against_state h post state_path) s with
    | (Ok _, s) => (Ok false, s)
    | (Err _, s) => (Ok true, s)
    | (Panic, s) => (Panic, s)
    end);
  line ← lift (json_line (txt "RAW-FAULT-INJECT") (txt (if (fail_closed : bool) then "PASS" else "FAIL")) args image_len 1
                 [flip_ns] (flip_ns `div` 1000000) (Some (sector, flip_offset, fail_closed)));
  on_shell (append_jsonl args.(rs_jsonl_out) line) ;;
  if (fail_closed : bool) then mret tt else lift (Err FailClosedViolation).

Definition run_raw_stress (args : RawStressArgs) : Run unit :=
  lift (run_integrity_gates args.(rs_device)) ;;
  lift (run_integrity_gates args.(rs_golden)) ;;
  golden ← on_shell (on_files (sys_read h.(h_os) (CannotRead args.(rs_golden)) args.(rs_golden)));
  if zlen golden =? 0 then lift (Err (EmptyInputFile args.(rs_golden)))
  else
    let state_path := default (default_sidecar_path args.(rs_golden)) args.(rs_state) in
    on_shell (ensure_state golden state_path) ;;
    let image_len := zlen golden in
    payload ← lift (slice golden 0 image_len);
    on_device (write_block_device d h.(h_unix) payload) ;;
    iterM (fun _ => cycle image_len state_path) (range 0 args.(rs_cycles)) ;;
    let timings := (fun k => as_u64 (elapsed (Z.to_nat k))) <$> range 0 args.(rs_cycles) in
    line ← lift (json_line (txt "RAW-CYCLES") (txt "PASS") args image_len args.(rs_cycles) timings
                   (elapsed (Z.to_nat args.(rs_cycles)) `div` 1000000) None);
    on_shell (append_jsonl args.(rs_jsonl_out) line) ;;
    match args.(rs_inject_sector) with
    | Some sector => inject args image_len state_path sector
    | None => mret tt
    end.
End harness.

(** ** What a device does *)

(** Writing back a window with one element changed. *)
Lemma splice_window {A} (l : list A) st n i x : (st + n <= length l)%nat -> (i < n)%nat ->
  splice l st (<[i := x]> (take n (drop st l))) = <[(st + i)%nat := x]> l.
Proof.
  intros Hl Hi. set (w := take n (drop st l)).
  assert (Hw : length w = n) by (unfold w; rewrite length_take, length_drop; lia).
  assert (Hsplit : l = take st l ++ w ++ drop (st + n) l).
  { unfold w. by rewrite <- drop_drop, take_drop, take_drop. }
  unfold splice. rewrite length_insert, Hw. rewrite Hsplit at 3.
  assert (Ht : length (take st l) = st) by (rewrite length_take; lia).
  rewrite insert_app_r_alt by lia. rewrite insert_app_l by lia. by replace (st + i - length (take st l))%nat with i by lia.
Qed.

Section device_lemmas.
Context (d : Driver).

Lemma dev_try_Ok e s u s' : dev_try d e s = (Ok u, s') -> s'.(dev_bytes) = s.(dev_bytes).
Proof. unfold dev_try, dev_call. by intros [= _ <-]. Qed.

Lemma aligned_buffer_Ok len align s buf s' : 0 <= len -> aligned_buffer d len align s = (Ok buf, s') ->
  s'.(dev_bytes) = s.(dev_bytes) /\ len <= ISIZE_MAX - (align - 1) /\ exists n, buf = d.(heap) n <$> range 0 len.
Proof.
  intros Hl. unfold aligned_buffer. rewrite Z.gtb_ltb. destruct (Z.ltb_spec (ISIZE_MAX - (align - 1)) len); [done|].
  unfold dev_call. destruct (dev_fault d (dev_calls s)); [done|]. intros [= <- <-]. eauto.
Qed.

Lemma align_up_Ok {E} n k : 0 < n -> @align_up E n DIRECT_IO_ALIGN = Ok k -> n <= k /\ 0 <= k.
Proof.
  intros Hn. unfold align_up, mul_usize, div_ceil, DIRECT_IO_ALIGN. destruct (_ <=? _); [|done]. intros [= <-].
  pose proof (Z.mul_succ_div_gt (n + 4096 - 1) 4096). nia.
Qed.

(** What is read is what the device holds, in full. *)
Lemma read_device_Ok unix n s b s' : 0 <= n -> read_block_device d unix n s = (Ok b, s') ->
  s'.(dev_bytes) = s.(dev_bytes) /\ b = take (Z.to_nat n) s.(dev_bytes) /\ zlen b = n /\ 0 < n.
Proof.
  intros Hn. unfold read_block_device. destruct unix; [|done]. unfold read_block_device_direct.
  destruct (Z.eqb_spec n 0) as [|Hne]; [done|].
  intros (io & s1 & [Hio ->]%stm_lift_Ok & Hr)%stm_bind_Ok. apply align_up_Ok in Hio as [Hle Hio0]; [|lia].
  apply stm_bind_Ok in Hr as (u & s2 & H2%dev_try_Ok & Hr).
  apply stm_bind_Ok in Hr as (buf & s3 & (H3 & _ & k & ->)%aligned_buffer_Ok & Hr); [|done].
  apply stm_bind_Ok in Hr as ([c got] & s4 & Hrd & Hr). cbn [fst snd] in Hr.
  unfold dev_read, dev_call in Hrd. destruct (dev_fault d (dev_calls s3)); [done|]. cbn [ok_or] in Hrd.
  set (data := take _ (dev_bytes s3)) in Hrd. injection Hrd as <- <- <-.
  destruct (Z.ltb_spec (zlen data) n) as [|Hge]; [done|]. apply stm_lift_Ok in Hr as [Hs ->]. cbn [dev_bytes].
  rewrite H3, H2 in *. split; [done|].
  assert (Hb : b = take (Z.to_nat n) data).
  { unfold slice in Hs. repeat case_match; [|done..]. injection Hs as <-. rewrite splice_0.
    rewrite drop_0, Z.sub_0_r. apply take_app_le. unfold zlen in *. lia. }
  assert (Hmin : (Z.to_nat n <= length data)%nat) by (unfold zlen in *; lia).
  subst b. unfold data in Hmin |- *. rewrite take_take, H3. rewrite length_take, H3 in Hmin.
  rewrite Nat.min_l by lia. split; [done|]. split; [|lia]. unfold zlen. rewrite length_take. lia.
Qed.

(** What a write leaves: the payload, then the uninitialised rest of the buffer, then the
    old content. *)
Lemma write_device_Ok unix payload s u s' : write_block_device d unix payload s = (Ok u, s') ->
  exists n io_len, align_up (zlen payload) DIRECT_IO_ALIGN = @Ok CliError _ io_len /\ zlen payload <= io_len <= zlen s.(dev_bytes) /\
    s'.(dev_bytes) = payload ++ (d.(heap) n <$> range (zlen payload) io_len) ++ drop (Z.to_nat io_len) s.(dev_bytes).
Proof.
  unfold write_block_device. destruct unix; [|done]. unfold write_block_device_direct. pose proof (zlen_nonneg payload) as Hp0.
  destruct (Z.eqb_spec (zlen payload) 0) as [|Hne]; [done|].
  intros (io & s1 & [Hio ->]%stm_lift_Ok & Hr)%stm_bind_Ok. pose proof Hio as Hio'.
  apply align_up_Ok in Hio as [Hle Hio0]; [|lia].
  apply stm_bind_Ok in Hr as (u1 & s2 & H2%dev_try_Ok & Hr).
  apply stm_bind_Ok in Hr as (buf0 & s3 & (H3 & _ & k & ->)%aligned_buffer_Ok & Hr); [|done].
  apply stm_bind_Ok in Hr as (buf & s4 & [Hc ->]%stm_lift_Ok & Hr).
  apply stm_bind_Ok in Hr as (u2 & s5 & Hw & H6%dev_try_Ok).
  assert (Hz : zlen (d.(heap) k <$> range 0 io) = io) by (unfold zlen; rewrite length_fmap, zlen_range_nat; lia).
  rewrite copy_into_ok in Hc by (rewrite ?Hz; lia). injection Hc as Hbuf. change (Z.to_nat 0) with 0%nat in Hbuf.
  assert (Heq : buf = payload ++ (d.(heap) k <$> range (zlen payload) io)).
  { rewrite <- Hbuf, splice_0. f_equal. rewrite (range_split 0 (zlen payload)), fmap_app by lia.
    apply drop_app_length'. rewrite length_fmap, zlen_range_nat. unfold zlen. lia. }
  assert (Hzb : zlen buf = io) by (rewrite Heq, zlen_app; unfold zlen in *; rewrite length_fmap, zlen_range_nat; lia).
  unfold dev_write_all, dev_call in Hw. destruct (dev_fault d (dev_calls s3)); [done|]. rewrite Hzb in Hw.
  destruct (Z.leb_spec (0 + io) (zlen (dev_bytes s3))) as [Hfit|]; [|done]. injection Hw as _ <-. cbn [dev_bytes] in H6.
  exists k, io. split; [done|]. rewrite H3, H2 in *. split; [lia|]. rewrite H6.
  rewrite take_ge by (unfold zlen in *; lia). change (Z.to_nat 0) with 0%nat. rewrite splice_0, Heq, <- app_assoc. do 3 f_equal.
  rewrite <- Heq. unfold zlen in *. lia.
Qed.

(** A flip changes bit 0 of one byte. *)
Lemma flip_device_Ok unix offset s u s' : 0 <= offset -> flip_bit_at_offset d unix offset s = (Ok u, s') ->
  exists b, s.(dev_bytes) !! Z.to_nat offset = Some b /\
    s'.(dev_bytes) = <[Z.to_nat offset := z2b (Z.lxor (b2z b) 1)]> s.(dev_bytes).
Proof.
  intros Ho. unfold flip_bit_at_offset. destruct unix; [|done]. unfold flip_bit_at_offset_direct, DIRECT_IO_ALIGN.
  intros (st & s1 & [Hst ->]%stm_lift_Ok & Hr)%stm_bind_Ok. unfold mul_usize in Hst. destruct (_ <=? _); [|done].
  injection Hst as Hst. pose proof (Z.div_mod offset 4096). pose proof (Z.mod_pos_bound offset 4096).
  apply stm_bind_Ok in Hr as (ins & s1 & [Hins ->]%stm_lift_Ok & Hr). unfold sub_usize in Hins.
  destruct (_ <=? _); [|done]. injection Hins as Hins.
  apply stm_bind_Ok in Hr as (u1 & s2 & H2%dev_try_Ok & Hr).
  apply stm_bind_Ok in Hr as (buf & s3 & (H3 & _ & k & Hbuf)%aligned_buffer_Ok & Hr); [|lia].
  apply stm_bind_Ok in Hr as (u2 & s4 & H4%dev_try_Ok & Hr).
  apply stm_bind_Ok in Hr as (sec & s5 & Hrd & Hr).
  apply stm_bind_Ok in Hr as (b & s6 & [Hb ->]%stm_lift_Ok & Hr).
  apply stm_bind_Ok in Hr as (sec' & s6 & [Hsec ->]%stm_lift_Ok & Hr).
  apply stm_bind_Ok in Hr as (u3 & s7 & H7%dev_try_Ok & Hr).
  apply stm_bind_Ok in Hr as (u4 & s8 & Hw & H8%dev_try_Ok).
  assert (Hlb : length buf = 4096%nat) by (rewrite Hbuf, length_fmap, zlen_range_nat; done).
  unfold dev_read_exact, dev_call in Hrd. destruct (dev_fault d (dev_calls s4)); [done|].
  destruct (Z.leb_spec (st + zlen buf) (zlen (dev_bytes s4))) as [Hfit|]; [|done]. injection Hrd as Hsec0 <-.
  cbn [dev_bytes] in H7. rewrite H4, H3, H2 in *. clear s2 s3 s4 H2 H3 H4.
  unfold index in Hb. rewrite (proj2 (Z.leb_le 0 ins)) in Hb by lia.
  rewrite Hlb in Hsec0. rewrite <- Hsec0 in Hb.
  unfold zlen in Hfit. rewrite Hlb in Hfit.
  assert (Hat : dev_bytes s !! Z.to_nat offset = Some b).
  { destruct (_ !! Z.to_nat ins) as [b'|] eqn:Hl in Hb; [|done]. injection Hb as <-.
    rewrite lookup_take_lt, lookup_drop in Hl by lia.
    by replace (Z.to_nat st + Z.to_nat ins)%nat with (Z.to_nat offset) in Hl by lia. }
  exists b. split; [done|]. unfold store in Hsec. destruct (_ && _); [|done]. injection Hsec as Hsec.
  assert (Hls' : length sec' = 4096%nat) by (rewrite <- Hsec, <- Hsec0, length_insert, length_take, length_drop; lia).
  unfold dev_write_all, dev_call in Hw. rewrite H7 in Hw. destruct (dev_fault d (dev_calls s7)); [done|].
  rewrite (proj2 (Z.leb_le _ _)) in Hw by (unfold zlen; lia). injection Hw as _ <-. cbn [dev_bytes] in H8. rewrite H8.
  rewrite take_ge by (unfold zlen; lia). rewrite <- Hsec, <- Hsec0, splice_window by lia. f_equal. lia.
Qed.
End device_lemmas.

(** A driver on which no call fails and no read is short. *)
Definition dutiful (d : Driver) : Prop := forall n, d.(dev_fault) n = None /\ d.(dev_short) n = None.

Lemma read_device_total d n s : dutiful d -> 0 < n ->
  (exists io, align_up n DIRECT_IO_ALIGN = @Ok CliError _ io /\ io <= ISIZE_MAX - 4095) -> n <= zlen s.(dev_bytes) ->
  exists b s', read_block_device d true n s = (Ok b, s').
Proof.
  intros Hd Hn (io & Hio & Hfit) Hlen. pose proof (align_up_Ok n io Hn Hio) as [Hle Hio0].
  unfold read_block_device, read_block_device_direct.
  rewrite (proj2 (Z.eqb_neq n 0)) by lia. rewrite Hio, stm_lift.
  unfold open_direct, dev_try. unfold mbind at 1, stm_bind at 1. unfold dev_call at 1. rewrite (proj1 (Hd _)). cbn [ok_or].
  unfold mbind at 1, stm_bind at 1. unfold aligned_buffer, DIRECT_IO_ALIGN. rewrite Z.gtb_ltb, (proj2 (Z.ltb_ge _ _)) by lia.
  unfold dev_call at 1. rewrite (proj1 (Hd _)). cbn [ok_or dev_bytes dev_calls].
  unfold mbind, stm_bind, dev_read, dev_call. cbn [dev_bytes dev_calls]. rewrite (proj1 (Hd _)), (proj2 (Hd _)).
  cbn [default ok_or fst snd]. set (buf := heap d _ <$> range 0 io).
  assert (Hbuf : zlen buf = io) by (unfold buf, zlen; rewrite length_fmap, zlen_range_nat; lia).
  rewrite Hbuf, Z.min_id. set (got := take _ _).
  assert (Hgot : n <= zlen got) by (unfold got, zlen in *; rewrite length_take; lia).
  rewrite (proj2 (Z.ltb_ge _ _)) by done. unfold lift.
  assert (exists b, slice (splice buf 0 got) 0 n = @Ok CliError _ b) as [b ->]; [|eauto].
  assert (Hsp : zlen (splice buf 0 got) = io).
  { unfold zlen in *. rewrite length_splice; [lia|]. unfold got. rewrite length_take. lia. }
  eexists. unfold slice. rewrite Hsp, (proj2 (Z.leb_le 0 n)), (proj2 (Z.leb_le n io)) by lia. done.
Qed.

(** A device gives back what it was given.  After a successful write, reading as many
    bytes on a driver that does its duty returns the payload; past the payload, up to the
    alignment, the device holds whatever the freshly allocated buffer held, and behind that
    its old content. *)
Theorem device_roundtrip d payload s u s' : dutiful d -> write_block_device d true payload s = (Ok u, s') ->
  zlen payload <= ISIZE_MAX - 8191 ->
  (exists s'', read_block_device d true (zlen payload) s' = (Ok payload, s'') /\ s''.(dev_bytes) = s'.(dev_bytes)) /\
  exists n io_len, align_up (zlen payload) DIRECT_IO_ALIGN = @Ok CliError _ io_len /\
    s'.(dev_bytes) = payload ++ (d.(heap) n <$> range (zlen payload) io_len) ++ drop (Z.to_nat io_len) s.(dev_bytes).
Proof.
  intros Hd Hw Hsmall. pose proof (zlen_nonneg payload) as Hp0.
  assert (Hp : 0 < zlen payload).
  { destruct (Z.eqb_spec (zlen payload) 0) as [H0|]; [|lia]. unfold write_block_device, write_block_device_direct in Hw.
    by rewrite H0 in Hw. }
  apply write_device_Ok in Hw as (n & io & Hio & Hle & Hbytes). split; [|by exists n, io].
  destruct (read_device_total d (zlen payload) s' Hd Hp) as (b & s'' & Hr).
  - exists io. split; [done|]. unfold align_up, mul_usize, div_ceil, DIRECT_IO_ALIGN in Hio.
    destruct (_ <=? _); [|done]. injection Hio as <-. pose proof (Z.mul_div_le (zlen payload + 4096 - 1) 4096). lia.
  - rewrite Hbytes, zlen_app. pose proof (zlen_nonneg ((heap d n <$> range (zlen payload) io) ++ drop (Z.to_nat io) (dev_bytes s))). lia.
  - exists s''. pose proof Hr as (Hs & Hb & _)%read_device_Ok; [|done]. split; [|done]. rewrite Hr, Hb, Hbytes.
    rewrite take_app_length' by (unfold zlen; lia). done.
Qed.

(** ** The injected fault *)

(** Computations that never report the violation. *)
Definition never {S A} (m : stm S CliError A) : Prop := forall s, fst (m s) <> Err FailClosedViolation.

Lemma never_bind {S A B} (m : stm S CliError A) (f : A -> stm S CliError B) : never m -> (forall a, never (f a)) -> never (m ≫= f).
Proof.
  intros Hm Hf s. specialize (Hm s). unfold mbind, stm_bind. destruct (m s) as [[a|e|] s']; [apply Hf|cbn in *; congruence..].
Qed.

Lemma never_ret {S A} (a : A) : never (S := S) (mret a).
Proof. done. Qed.

Lemma never_lift {S A} (m : outcome CliError A) : m <> Err FailClosedViolation -> never (S := S) (lift m).
Proof. by intros Hm s. Qed.

Lemma never_dev_call {A} e (f : nat -> list byte -> option A * list byte) : e <> FailClosedViolation -> never (dev_call e f).
Proof. intros He s. unfold dev_call. destruct (f _ _) as [[a|] b]; cbn; congruence. Qed.

Lemma never_files {A} (m : stm Proc CliError A) : never m -> never (on_files m).
Proof. intros Hm s. unfold on_files. specialize (Hm (fst (disk s))). by destruct (m _). Qed.

Lemma never_syscall {A} os e (f : option nat -> Fs -> option A * Fs) : e <> FailClosedViolation -> never (syscall os e f).
Proof. intros He s. unfold syscall. destruct (f _ _) as [[a|] b]; cbn; congruence. Qed.

Lemma never_shell {A} (m : Cmd A) : never m -> never (on_shell m).
Proof. intros Hm s. unfold on_shell. specialize (Hm (fst s)). by destruct (m _). Qed.

Lemma never_device {A} (m : stm Device CliError A) : never m -> never (on_device m).
Proof. intros Hm s. unfold on_device. specialize (Hm (snd s)). by destruct (m _). Qed.

Lemma never_iter {S A} (f : A -> stm S CliError unit) l : (forall a, never (f a)) -> never (iterM f l).
Proof. intros Hf. induction l as [|a l IH]; [done|]. cbn [iterM]. by apply never_bind. Qed.

Lemma violation_step {S A B} (m : stm S CliError A) (f : A -> stm S CliError B) s s'' : never m ->
  (m ≫= f) s = (Err FailClosedViolation, s'') -> exists a s', m s = (Ok a, s') /\ f a s' = (Err FailClosedViolation, s'').
Proof.
  intros Hm. specialize (Hm s). unfold mbind, stm_bind. destruct (m s) as [[a|e|] s']; cbn in Hm; [eauto|congruence..].
Qed.

Lemma sound_bind {A B} (m : outcome CliError A) (f : A -> outcome CliError B) :
  m <> Err FailClosedViolation -> (forall a, f a <> Err FailClosedViolation) -> m ≫= f <> Err FailClosedViolation.
Proof. intros Hm Hf. destruct m as [a|e|]; cbn; [apply Hf|congruence..]. Qed.

Lemma sound_map_err {E A} (g : E -> CliError) (m : outcome E A) : (forall e, g e <> FailClosedViolation) ->
  map_err g m <> Err FailClosedViolation.
Proof. intros Hg. destruct m as [a|e|]; cbn; try done. specialize (Hg e). congruence. Qed.

Lemma sound_slice {A} (l : list A) a b : slice l a b <> Err FailClosedViolation.
Proof. unfold slice. by case_match. Qed.

(** Structural search for [never]. *)
Ltac never_tac :=
  repeat first
    [ progress intros | apply never_bind | apply never_ret | apply never_shell | apply never_device | apply never_files
    | apply never_dev_call; discriminate | apply never_syscall; discriminate | apply never_iter
    | apply never_lift | apply sound_bind | apply sound_map_err; discriminate | apply sound_slice | discriminate
    | progress unfold map_dfim_error, run_integrity_gates | case_match ].

Section no_violation.
Context `{HashOps, SigOps}.
Context (h : Host) (d : Driver) (display : Path -> list byte).

Lemma never_read_file e p : e <> FailClosedViolation -> never (on_files (sys_read h.(h_os) e p)).
Proof. intros He. by apply never_files, never_syscall. Qed.

Lemma never_verify image p : never (verify_image_bytes_against_state h image p).
Proof.
  unfold verify_image_bytes_against_state, read_non_empty_file, verify_against, compute_live_merkle_root, sys_read. never_tac.
Qed.

Lemma never_read_device unix n : never (read_block_device d unix n).
Proof.
  unfold read_block_device, read_block_device_direct, align_up, mul_usize, open_direct, dev_try, aligned_buffer, dev_read.
  never_tac.
Qed.

Lemma never_write_device unix b : never (write_block_device d unix b).
Proof.
  unfold write_block_device, write_block_device_direct, align_up, mul_usize, open_direct, dev_try, aligned_buffer,
    dev_write_all, copy_into. never_tac.
Qed.

Lemma never_flip unix n : never (flip_bit_at_offset d unix n).
Proof.
  unfold flip_bit_at_offset, flip_bit_at_offset_direct, mul_usize, sub_usize, open_direct, dev_try, aligned_buffer,
    dev_read_exact, dev_write_all, index, store, unwrap. never_tac.
Qed.

Lemma sound_sum l acc : foldM (fun acc x => if acc + x <=? U64_MAX then Ok (acc + x) else Panic) acc l <> Err FailClosedViolation.
Proof.
  revert acc. induction l as [|x l IH]; intros acc; [done|]. cbn [foldM]. destruct (_ <=? _); [apply IH|done].
Qed.

Lemma sound_json phase status args n c ts ms f : json_line display phase status args n c ts ms f <> Err FailClosedViolation.
Proof.
  unfold json_line. apply sound_bind; [|done]. destruct (zlen ts =? 0); [done|]. apply sound_bind; [apply sound_sum|done].
Qed.

Lemma never_append p line : never (append_jsonl h p line).
Proof. unfold append_jsonl, sys_effectless, sys_open_append, sys_append_all. never_tac. Qed.

Lemma never_ensure golden p : never (ensure_state h golden p).
Proof.
  unfold ensure_state, sys_exists, write_output, sys_effectless, sys_write, sys_create, sys_write_all. never_tac.
Qed.

Lemma never_cycle n p : never (cycle h d n p).
Proof.
  unfold cycle. apply never_bind; [apply never_device, never_read_device|intros].
  apply never_bind; [apply never_lift, sound_slice|intros]. apply never_bind; [apply never_shell, never_verify|done].
Qed.
End no_violation.

(** *** What the harness keeps *)

(** The report and the state are different files, and every inode is an old one. *)
Definition apart (report state : Path) (f : Fs) : Prop :=
  report <> state /\ (forall q i, f.(dir) !! q = Some i -> (i < f.(fresh))%nat) /\
  forall i, f.(dir) !! report = Some i -> f.(dir) !! state <> Some i.

Section kept.
Context `{HashLaws, SigOps}.
Context (h : Host) (Hcalm : calm h.(h_os)).

(** A call of the host, on its file system. *)
Lemma on_call {A} e (f : option nat -> Fs -> option A * Fs) s a s' :
  on_files (syscall h.(h_os) e f) s = (Ok a, s') -> exists fl, f fl (fs_of s) = (Some a, fs_of s').
Proof.
  unfold on_files, syscall, fs_of. rewrite Hcalm. intros Hr. exists (fault (h_os h) (calls (fst (disk s)))).
  destruct (f _ _) as [[a'|] s1]; cbn in *; [|done]. by injection Hr as <- <-.
Qed.

Lemma on_clean {A} e (f : Fs -> option (A * Fs)) s a s' :
  on_files (syscall h.(h_os) e (clean f)) s = (Ok a, s') -> f (fs_of s) = Some (a, fs_of s').
Proof.
  intros ([k|] & Hf)%on_call; [done|]. cbn in Hf. destruct (f (fs_of s)) as [[b t]|]; [|done]. by injection Hf as -> ->.
Qed.

(** A file that is created or opened here, at [p], is not the one at another path. *)
Lemma created_apart report state f : apart report state f ->
  apart report state (set_dir (<[state := f.(fresh)]> f.(dir)) (new_inode f)).
Proof.
  intros (Hne & Hlt & Hap). split; [done|]. cbn [dir set_dir fresh new_inode]. split.
  - intros q i. rewrite lookup_insert_Some. intros [[_ <-]|[_ Hq%Hlt]]; lia.
  - intros i. rewrite lookup_insert_ne by done. intros Hi. rewrite lookup_insert_eq. intros [= <-].
    apply Hlt in Hi. lia.
Qed.

Lemma make_parent_keeps p s u s' :
  (match parent p with
   | Some q => if is_empty_path q then mret tt else on_files (sys_effectless h.(h_os) CannotCreateDir)
   | None => mret tt
   end) s = (Ok u, s') -> fs_of s' = fs_of s.
Proof.
  repeat case_match; try (by intros [= _ <-]). intros Hc%on_clean. by injection Hc.
Qed.

Lemma ensure_state_apart golden report state s u s' : ensure_state h golden state s = (Ok u, s') ->
  apart report state (fs_of s) -> apart report state (fs_of s').
Proof.
  unfold ensure_state, sys_exists. intros (b & s1 & (fl & Hx)%on_call & Hr)%stm_bind_Ok Hap. injection Hx as _ Hx. rewrite Hx in Hap.
  destruct b; [by injection Hr as _ <-|].
  apply stm_bind_Ok in Hr as (sc & s2 & [_ ->]%stm_lift_Ok & Hr).
  apply stm_bind_Ok in Hr as (u1 & s3 & Hm%make_parent_keeps & Hw). rewrite <- Hm in Hap.
  unfold sys_write, on_files in Hw. destruct ((sys_create _ _ _ ≫= _) (fst (disk s3))) as [r p'] eqn:Hwr. injection Hw as -> <-.
  apply stm_bind_Ok in Hwr as (i & p1 & Hc & Ha). unfold sys_create, sys_write_all, syscall in Hc, Ha.
  rewrite Hcalm in Hc, Ha. destruct (fault _ _) in Hc; cbn in Hc; [done|].
  assert (Hap1 : apart report state (fs p1)).
  { unfold fs_of in Hap. destruct (dir (fs (fst (disk s3))) !! state) as [j|]; cbn in Hc; injection Hc as _ <-; [exact Hap|].
    by apply created_apart. }
  destruct (fault _ _) in Ha; cbn in Ha; [done|]. injection Ha as _ <-. exact Hap1.
Qed.

Lemma append_keeps report state line s u s' : append_jsonl h report line s = (Ok u, s') ->
  apart report state (fs_of s) -> lookup_file (fs_of s') state = lookup_file (fs_of s) state.
Proof.
  unfold append_jsonl, sys_open_append, sys_append_all. intros (u0 & s1 & Hm%make_parent_keeps & Hr)%stm_bind_Ok. rewrite <- Hm. intros (Hne & Hlt & Hap).
  apply stm_bind_Ok in Hr as (i & s2 & Hopen%on_clean & (fl & Ha)%on_call).
  assert (Hi : forall q, dir (fs_of s2) !! q = (if decide (q = report) then Some i else dir (fs_of s1) !! q)).
  { intros q. destruct (dir (fs_of s1) !! report) as [j|] eqn:Hj; injection Hopen as -> <-.
    - case_decide as Hq; [by subst|done].
    - cbn [dir set_dir]. case_decide as Hq; [subst; by rewrite lookup_insert_eq|by rewrite lookup_insert_ne]. }
  assert (Hsame : lookup_file (fs_of s2) state = lookup_file (fs_of s1) state /\ dir (fs_of s1) !! state <> Some i).
  { unfold lookup_file. rewrite (Hi state), decide_False by done.
    destruct (dir (fs_of s1) !! report) as [j|] eqn:Hj; injection Hopen as <- <-; [split; [done|by apply Hap]|].
    cbn [inodes set_dir new_inode]. destruct (dir (fs_of s1) !! state) as [k|] eqn:Hk; [|done]. apply Hlt in Hk. cbn.
    split; [|intros [= ->]; lia]. rewrite lookup_insert_ne by lia. done. }
  destruct Hsame as [<- Hno]. destruct (inodes (fs_of s2) !! i) as [n|]; [|done]. destruct fl; [done|]. injection Ha as _ <-.
  unfold lookup_file. cbn [dir set_inode inodes]. rewrite (Hi state), decide_False by done.
  destruct (dir (fs_of s1) !! state) as [k|]; [|done]. cbn. rewrite lookup_insert_ne; [done|]. intros ->. congruence.
Qed.
End kept.

(** *** Two accepted images *)

Section detection.
Context `{HashLaws, SigOps}.
Context (h : Host) (Hcalm : calm h.(h_os)) (d : Driver).

Lemma verify_against_inv image raw r : verify_against image raw = Ok r ->
  exists sidecar baseline v, parse_authenticated_state_db raw = Ok sidecar /\ parse_boot_manifest sidecar = Ok baseline /\
    validate_boot_image image baseline = Ok v.
Proof.
  unfold verify_against. destruct (parse_authenticated_state_db raw) as [sidecar|?|]; [|done..]. cbn [map_err]. rewrite ok_bind.
  destruct (parse_boot_manifest sidecar) as [baseline|?|] eqn:Hp; [|done..]. cbn [map_err]. rewrite ok_bind.
  destruct (compute_live_merkle_root image); [|done..]. rewrite ok_bind.
  destruct (validate_boot_image image baseline) as [v|?|] eqn:Hv; [|done..]. eauto 8.
Qed.

(** The state file at [p] accepts the first [n] bytes of the device. *)
Definition accepts (f : Fs) (b : list byte) (n : Z) (p : Path) : Prop :=
  exists raw r, lookup_file f p = Some raw /\ verify_against (take (Z.to_nat n) b) raw = Ok r /\
    zlen (take (Z.to_nat n) b) = n.

Lemma reads_verify_bytes image p : reads (verify_image_bytes_against_state h image p)
  (fun f r => exists raw, lookup_file f p = Some raw /\ verify_against image raw = Ok r).
Proof.
  unfold verify_image_bytes_against_state. destruct (zlen image =? 0); [by eapply reads_weaken; [apply reads_lift|]|].
  eapply reads_weaken.
  - apply reads_bind; [apply reads_lift|intros gate]. apply reads_bind; [by apply reads_non_empty|intros raw]. apply reads_lift.
  - intros f r (_ & _ & raw & Hraw & Hv). eauto.
Qed.

Lemma verified n p s dv dv1 b r s' : 0 <= n -> read_block_device d h.(h_unix) n dv = (Ok b, dv1) ->
  verify_image_bytes_against_state h b p s = (Ok r, s') ->
  fs_of s' = fs_of s /\ dv1.(dev_bytes) = dv.(dev_bytes) /\ accepts (fs_of s) dv.(dev_bytes) n p.
Proof.
  intros Hn (Hd1 & -> & Hlen & _)%read_device_Ok Hv; [|done].
  destruct (reads_verify_bytes (take (Z.to_nat n) (dev_bytes dv)) p s) as [[Hu _] Hok]. rewrite Hv in Hu, Hok.
  cbn [fst snd] in Hu, Hok. destruct (Hok r eq_refl) as (raw & Hraw & Hr). split; [done|]. split; [done|].
  by exists raw, r.
Qed.

Lemma slice_full {E} (l : list byte) n x : zlen l = n -> slice l 0 n = @Ok E _ x -> x = l.
Proof.
  intros <-. unfold slice. case_match; [|done]. intros [= <-]. rewrite drop_0, Z.sub_0_r. apply take_ge. unfold zlen. lia.
Qed.

Lemma cycle_Ok n p s dv u s' dv' : 0 <= n -> cycle h d n p (s, dv) = (Ok u, (s', dv')) ->
  fs_of s' = fs_of s /\ dv'.(dev_bytes) = dv.(dev_bytes) /\ accepts (fs_of s) dv.(dev_bytes) n p.
Proof.
  intros Hn. unfold cycle, on_device, on_shell. intros (b & [s1 dv1] & Hrd & Hr)%stm_bind_Ok. cbn [fst snd] in Hrd.
  destruct (read_block_device d (h_unix h) n dv) as [rb dvb] eqn:Hread. injection Hrd as -> <- <-.
  apply stm_bind_Ok in Hr as (live & st & [Hs ->]%stm_lift_Ok & Hr).
  pose proof Hread as (_ & _ & Hlen & _)%read_device_Ok; [|done]. apply slice_full in Hs as ->; [|done].
  apply stm_bind_Ok in Hr as (rep & [s2 dv2] & Hv & [= _ <- <-]). cbn [fst snd] in Hv.
  destruct (verify_image_bytes_against_state h b p s) as [rv sv] eqn:Hver. injection Hv as -> <- <-.
  by eapply verified.
Qed.

Lemma cycles_Ok n p l s dv u s' dv' : 0 <= n -> l <> [] ->
  iterM (fun _ : Z => cycle h d n p) l (s, dv) = (Ok u, (s', dv')) ->
  fs_of s' = fs_of s /\ dv'.(dev_bytes) = dv.(dev_bytes) /\ accepts (fs_of s) dv.(dev_bytes) n p.
Proof.
  intros Hn. revert s dv. induction l as [|k l IH]; intros s dv Hne; [done|]. cbn [iterM].
  intros (u1 & [s1 dv1] & (Hs1 & Hd1 & Hacc)%cycle_Ok & Hr)%stm_bind_Ok; [|done].
  destruct l as [|k' l]; [injection Hr as _ <- <-; done|]. destruct (IH s1 dv1 ltac:(done) Hr) as (Hs & Hd & _).
  split_and!; congruence.
Qed.

(** Two different images of one length that the same state accepts are a collision. *)
Lemma accepted_differ f b b' n p : accepts f b n p -> accepts f b' n p ->
  take (Z.to_nat n) b <> take (Z.to_nat n) b' ->
  exists m, collide (validate_inputs (take (Z.to_nat n) b) m.(bm_proofs)) (validate_inputs (take (Z.to_nat n) b') m.(bm_proofs)).
Proof.
  intros (raw & r & Hraw & (sc & m & v & Hsc & Hm & Hv)%verify_against_inv & Hl)
    (raw' & r' & Hraw' & (sc' & m' & v' & Hsc' & Hm' & Hv')%verify_against_inv & Hl') Hne.
  rewrite Hraw in Hraw'. injection Hraw' as <-. rewrite Hsc in Hsc'. injection Hsc' as <-. rewrite Hm in Hm'. injection Hm' as <-.
  exists m. destruct (validate_binding m _ _ v v' (parsed_proofs _ _ Hm) Hv Hv') as [Heq|]; [|done].
  exfalso. apply Hne. unfold padded in Heq. rewrite Hl, Hl' in Heq. by apply app_inv_tail in Heq.
Qed.

Lemma flipped_differs b : z2b (Z.lxor (b2z b) 1) <> b.
Proof. by destruct b. Qed.

Lemma inject_violation display elapsed args n p sector s dv st : 0 <= n -> 0 <= sector ->
  inject h d display elapsed args n p sector (s, dv) = (Err FailClosedViolation, st) ->
  exists b, dv.(dev_bytes) !! Z.to_nat (block_byte_offset sector DFIM_BLOCK_SIZE) = Some b /\
    accepts (fs_of s) (<[Z.to_nat (block_byte_offset sector DFIM_BLOCK_SIZE) := z2b (Z.lxor (b2z b) 1)]> dv.(dev_bytes)) n p.
Proof.
  intros Hn Hsec. unfold inject. cbv zeta. set (off := block_byte_offset sector DFIM_BLOCK_SIZE).
  assert (Hoff : 0 <= off) by (unfold off, block_byte_offset, saturating_mul, DFIM_BLOCK_SIZE, USIZE_MAX; lia).
  intros (u & [s1 dv1] & Hf & Hr)%violation_step; [|apply never_device, never_flip].
  unfold on_device in Hf. cbn [fst snd] in Hf. destruct (flip_bit_at_offset d (h_unix h) off dv) as [rf dvf] eqn:Hflip.
  injection Hf as -> <- <-. apply flip_device_Ok in Hflip as (b & Hb & Hbytes); [|done].
  apply violation_step in Hr as (post & [s2 dv2] & Hrd & Hr); [|apply never_device, never_read_device].
  unfold on_device in Hrd. cbn [fst snd] in Hrd. destruct (read_block_device d (h_unix h) n dvf) as [rr dvr] eqn:Hread.
  injection Hrd as -> <- <-.
  apply violation_step in Hr as (post' & st1 & [Hs ->]%stm_lift_Ok & Hr); [|apply never_lift, sound_slice].
  pose proof Hread as (_ & _ & Hlen & _)%read_device_Ok; [|done]. apply slice_full in Hs as ->; [|done].
  assert (Hnv : never (fun s0 : Shell * Device => match on_shell (verify_image_bytes_against_state h post p) s0 with
    | (Ok _, s) => (Ok false, s) | (Err _, s) => (Ok true, s) | (Panic, s) => (Panic, s) end)).
  { intros s0. by destruct (on_shell _ s0) as [[]]. }
  apply violation_step in Hr as (fc & st2 & Hfc & Hr); [|exact Hnv].
  apply violation_step in Hr as (line & st3 & [_ ->]%stm_lift_Ok & Hr); [|apply never_lift, sound_json].
  apply violation_step in Hr as (u2 & st4 & _ & Hr); [|apply never_shell, never_append].
  destruct fc; [done|]. unfold on_shell in Hfc. cbn [fst snd] in Hfc.
  destruct (verify_image_bytes_against_state h post p s) as [[rep|?|] sv] eqn:Hver; [|done..].
  exists b. split; [done|]. rewrite <- Hbytes.
  by destruct (verified n p s dvf dvr post rep sv Hn Hread Hver) as (_ & _ & Hacc).
Qed.

(** An injected fault is always caught.  If the stress harness, after at least one
    validation cycle, reports that a flipped bit was not rejected, then the flipped byte lay
    past the end of the image, or hashing the image before and after exhibits a collision;
    for every driver, with whatever failures and short reads. *)
Theorem injected_fault_detected display elapsed args s dv st sector :
  1 <= args.(rs_cycles) -> args.(rs_inject_sector) = Some sector -> 0 <= sector ->
  apart args.(rs_jsonl_out) (default (default_sidecar_path args.(rs_golden)) args.(rs_state)) (fs_of s) ->
  run_raw_stress h d display elapsed args (s, dv) = (Err FailClosedViolation, st) ->
  exists golden, lookup_file (fs_of s) args.(rs_golden) = Some golden /\
    (zlen golden <= block_byte_offset sector DFIM_BLOCK_SIZE \/
     exists image image' m, zlen image = zlen golden /\ zlen image' = zlen golden /\ image <> image' /\
       collide (validate_inputs image m.(bm_proofs)) (validate_inputs image' m.(bm_proofs))).
Proof.
  intros Hcyc Hinj Hsec Hap. unfold run_raw_stress. set (state := default _ _) in *.
  intros (u1 & st1 & [_ ->]%stm_lift_Ok & Hr)%violation_step; [|never_tac].
  apply violation_step in Hr as (u2 & st2 & [_ ->]%stm_lift_Ok & Hr); [|never_tac].
  apply violation_step in Hr as (golden & [s3 dv3] & Hrd & Hr); [|by apply never_shell, never_read_file].
  unfold on_shell in Hrd. cbn [fst snd] in Hrd. destruct (on_files _ s) as [rg sg] eqn:Hread. injection Hrd as -> <- <-.
  apply (on_clean h Hcalm) in Hread. destruct (lookup_file (fs_of s) (rs_golden args)) as [g|]; [|done].
  injection Hread as -> Hsg. exists golden. split; [done|]. rewrite Hsg in Hap. clear s Hsg.
  destruct (zlen golden =? 0); [done|]. cbv zeta in Hr. pose proof (zlen_nonneg golden) as Hn. set (n := zlen golden) in *.
  apply violation_step in Hr as (u4 & [s4 dv4] & He & Hr); [|apply never_shell, never_ensure].
  unfold on_shell in He. cbn [fst snd] in He. destruct (ensure_state h golden state sg) as [re se] eqn:Hens. injection He as -> <- <-.
  apply (ensure_state_apart h Hcalm _ (rs_jsonl_out args)) in Hens; [|done].
  apply violation_step in Hr as (pl & st5 & [_ ->]%stm_lift_Ok & Hr); [|apply never_lift, sound_slice].
  apply violation_step in Hr as (u6 & [s6 dv6] & Hw & Hr); [|apply never_device, never_write_device].
  unfold on_device in Hw. cbn [fst snd] in Hw. destruct (write_block_device d (h_unix h) pl dv) as [rw dvw]. injection Hw as -> <- <-.
  apply violation_step in Hr as (u7 & [s7 dv7] & Hit & Hr); [|apply never_iter; intros; apply never_cycle].
  apply cycles_Ok in Hit as (Hs7 & Hd7 & Hacc); [|done|rewrite range_cons by lia; done].
  apply violation_step in Hr as (line & st8 & [_ ->]%stm_lift_Ok & Hr); [|apply never_lift, sound_json].
  apply violation_step in Hr as (u9 & [s9 dv9] & Hj & Hr); [|apply never_shell, never_append].
  unfold on_shell in Hj. cbn [fst snd] in Hj. destruct (append_jsonl h (rs_jsonl_out args) line s7) as [rj sj] eqn:Happ.
  injection Hj as -> <- <-. rewrite <- Hs7 in Hens. apply (append_keeps h Hcalm _ state) in Happ; [|done].
  rewrite Hinj in Hr. apply inject_violation in Hr as (b & Hb & Hacc'); [|done..]. rewrite Hd7 in Hb, Hacc'.
  set (off := block_byte_offset sector DFIM_BLOCK_SIZE) in *. destruct (decide (n <= off)) as [|Hin]; [by left|right].
  assert (Hacc'' : accepts (fs_of se) (<[Z.to_nat off := z2b (Z.lxor (b2z b) 1)]> (dev_bytes dvw)) n state).
  { destruct Hacc' as (raw & r & Hraw & Hv & Hl). exists raw, r. split_and!; [|done..]. by rewrite <- Hs7, <- Happ. }
  assert (Hne : take (Z.to_nat n) (dev_bytes dvw) <> take (Z.to_nat n) (<[Z.to_nat off := z2b (Z.lxor (b2z b) 1)]> (dev_bytes dvw))).
  { intros Heq. apply (f_equal (.!! Z.to_nat off)) in Heq.
    assert (0 <= off) by (unfold off, block_byte_offset, saturating_mul, DFIM_BLOCK_SIZE, USIZE_MAX; lia).
    rewrite !lookup_take_lt, list_lookup_insert_eq, Hb in Heq by (lia || (eapply lookup_lt_Some; eassumption)).
    injection Heq as Heq. by apply (flipped_differs b). }
  destruct (accepted_differ _ _ _ _ _ Hacc Hacc'' Hne) as [m Hm].
  destruct Hacc as (? & ? & _ & _ & Hl1). destruct Hacc'' as (? & ? & _ & _ & Hl2).
  by exists (take (Z.to_nat n) (dev_bytes dvw)), (take (Z.to_nat n) (<[Z.to_nat off := z2b (Z.lxor (b2z b) 1)]> (dev_bytes dvw))), m.
Qed.
End detection.

Module DeviceWitness.
#[local] Existing Instance Toy.hash.
#[local] Existing Instance toy_hash_laws.
#[local] Existing Instance Toy.sig.
Import RecoveryWitness VerifyWitness.

Definition driver : Driver := {| dev_fault := fun _ => None; dev_short := fun _ => None; heap := fun _ _ => xa5 |}.
Definition device : Device := {| dev_bytes := array x00 8192; dev_calls := 0 |}.

Lemma driver_dutiful : dutiful driver.
Proof. by intros n. Defined.

Abbreviation written := (write_block_device driver true image device).

Lemma device_roundtrip_witness :
  (exists s'', read_block_device driver true (zlen image) (snd written) = (Ok image, s'') /\
     s''.(dev_bytes) = (snd written).(dev_bytes)) /\
  exists n io_len, align_up (zlen image) DIRECT_IO_ALIGN = @Ok CliError _ io_len /\
    (snd written).(dev_bytes) = image ++ (driver.(heap) n <$> range (zlen image) io_len) ++ drop (Z.to_nat io_len) device.(dev_bytes).
Proof.
  assert (Hok : fst written = Ok tt) by (vm_compute; reflexivity).
  refine (device_roundtrip driver image device tt (snd written) driver_dutiful _ _).
  - rewrite <- Hok. apply surjective_pairing.
  - vm_compute. discriminate.
Defined.

(** A fault in the second sector of a device whose image fits the first. *)
Definition args : RawStressArgs := {|
  rs_device := path "dev" "vda"; rs_golden := path "safe" "app"; rs_state := None; rs_cycles := 2;
  rs_inject_sector := Some 1; rs_jsonl_out := path "out" "report" |}.

Definition golden_only : Shell := {|
  disk := ({| fs := three_files (path "boot" "x") (path "safe" "app") (path "safe" "y") [] image [];
              past := []; calls := 0 |}, 0);
  audit := []; audited := 0; stdout := []; printed := 0; tpm := [] |}.
Abbreviation stressed := (run_raw_stress host driver os_bytes (fun k => Z.of_nat k) args (golden_only, device)).

Lemma injected_fault_detected_witness : exists golden,
  fst stressed = Err FailClosedViolation /\ lookup_file (fs_of golden_only) args.(rs_golden) = Some golden /\
  (zlen golden <= block_byte_offset 1 DFIM_BLOCK_SIZE \/
   exists image image' m, zlen image = zlen golden /\ zlen image' = zlen golden /\ image <> image' /\
     collide (validate_inputs image m.(bm_proofs)) (validate_inputs image' m.(bm_proofs))).
Proof.
  assert (Herr : fst stressed = Err FailClosedViolation) by (vm_compute; reflexivity).
  assert (Hap : apart args.(rs_jsonl_out) (default (default_sidecar_path args.(rs_golden)) args.(rs_state)) (fs_of golden_only)).
  { split; [discriminate|]. split; [|by vm_compute].
    apply (three_files_tidy (path "boot" "x") (path "safe" "app") (path "safe" "y") [] image []); by vm_compute. }
  destruct (injected_fault_detected host host_calm driver os_bytes (fun k => Z.of_nat k) args golden_only device (snd stressed) 1
    ltac:(vm_compute; discriminate) eq_refl ltac:(lia) Hap ltac:(rewrite <- Herr; apply surjective_pairing))
    as (golden & Hg & Hd).
  exists golden. split; [exact Herr|]. split; [exact Hg|exact Hd].
Defined.
End DeviceWitness.
