(* ===== verification/Commands.v ===== *)
(** * Commands: the provisioner

    Models the commands of [dfim_cli_provisioner/src/main.rs]: provisioning (versions 1 and
    2), recovery, the rollback payload, the attestation files, enrolment and quotes, and the
    dispatch of [main] with the exit status of each command.

    A command is a computation on the shell of [Shell]; [Cli] is what [clap] parsed.

    The theorems show that what [provision-v2] wrote, [verify-v2] accepts; that a dry run
    and a failed check leave every file alone; that recovery through the command line is
    audited; and that the attestation files written here are the ones the verifier reads. *)

From stdpp Require Import base list numbers option strings gmap.
From Stdlib Require Import ZArith Lia Strings.Byte.
From S2P Require Import Prelude Crypto Core Merkle BlockStream StateDb Pipeline SignedManifest Rollback Json Telemetry HostInit.
From S2P Require Import Attestation Tpm Files Recovery Shell Verify Device.

Record ProvisionV2Args := {
  p2_target : Path;
  p2_output : option Path;
  p2_signing_key : Path;
  p2_key_id : list byte;
  p2_release_counter : Z;
  p2_dry_run : bool;
  p2_extend_tpm : bool;
  p2_format : Report.OutputFormat
}.

(** The subcommands, with their arguments *)
Inductive Commands :=
| CVerify (target : Path) (state : option Path)
| CVerifyV2 (target : Path) (state : option Path) (public_key key_id : list byte) (minimum_release : Z)
| CRecoverV2 (target : Path) (state : option Path) (recovery_image recovery_sidecar : Path) (public_key key_id : list byte)
    (minimum_release : Z)
| CProvision (target : Path) (output : option Path) (dry_run extend_tpm : bool)
| CProvisionV2 (target : Path) (output : option Path) (signing_key : Path) (key_id : list byte) (release_counter : Z)
    (dry_run extend_tpm : bool)
| CRollbackPayload (key_id : list byte) (minimum_release : Z) (output : Path)
| CAttestationChallenge (nonce : list byte) (release_counter policy_generation : Z) (merkle_root : list byte) (output : Path)
| CAttestationPolicy (ak_public_key : list byte) (minimum_release policy_generation : Z) (merkle_root : list byte)
    (pcr_values output : Path)
| CAttestationVerify (challenge evidence policy : Path)
| CAttestationEnroll (private_blob public_blob ak_public_key : Path)
| CAttestationQuote (challenge private_blob public_blob output : Path)
| CRawStress (args : RawStressArgs).

Record Cli := {
  cli_command : option Commands;
  cli_target : option Path;
  cli_output : option Path;
  cli_dry_run : bool;
  cli_extend_tpm : bool;
  cli_format : list byte
}.

Section model.
Context `{HashOps, SigOps}.
Context (h : Host).

(** ** Provisioning *)

(** The end of both provisioning commands: the audit event and the JSON report *)
Definition announce (event_type : Audit.EventType) (command : list byte) (target : Path) (format : Report.OutputFormat)
    (release_counter : option Z) (merkle_root : list byte) (bytes : Z) (dry_run : bool) : Cmd unit :=
  emit_provision_event h target event_type Audit.Success release_counter (Some merkle_root) dry_run ;;
  write_command_json h command target format (txt "success") (Some merkle_root) release_counter (Some bytes) dry_run.

Definition run_provision_v2 (args : ProvisionV2Args) : Cmd unit :=
  lift (run_integrity_gates args.(p2_target)) ;;
  if args.(p2_release_counter) =? 0 then lift (Err ReleaseZero)
  else
    target ← canonical_file h args.(p2_target);
    image ← on_files (sys_read h.(h_os) (CannotRead target) target);
    lift (map_dfim_error (assert_image_bounds (zlen image))) ;;
    private_key ← read_private_key h args.(p2_signing_key);
    key_id ← lift (decode_hex_exact 16 args.(p2_key_id));
    sidecar ← lift (map_dfim_error (build_signed_boot_sidecar_v2 image private_key key_id args.(p2_release_counter)));
    public ← lift (map_dfim_error (public_key_sec1_from_private private_key));
    let policy := {| public_key_sec1 := public; expected_key_id := key_id;
                     SignedManifest.minimum_release := args.(p2_release_counter) |} in
    validated ← lift (map_dfim_error (validate_signed_boot_image_v2 image sidecar policy));
    let root := validated.(vs_boot).(vb_merkle_root) in
    (if args.(p2_extend_tpm) then extend_merkle_to_tpm h root else mret tt) ;;
    if args.(p2_dry_run) then
      announce Audit.ProvisionV2 (txt "provision_v2") target args.(p2_format) (Some validated.(vs_release_counter)) root
        (zlen image) true
    else
      let output := default (default_sidecar_path target) args.(p2_output) in
      write_output h output sidecar ;;
      announce Audit.ProvisionV2 (txt "provision_v2") target args.(p2_format) (Some validated.(vs_release_counter)) root
        (zlen image) false.

Definition run_provision (target : Path) (output : option Path) (dry_run extend_tpm : bool) (format : Report.OutputFormat) :
    Cmd unit :=
  lift (run_integrity_gates target) ;;
  target ← canonical_file h target;
  image ← on_files (sys_read h.(h_os) (CannotRead target) target);
  if zlen image =? 0 then lift (Err (EmptyInputFile target))
  else
    lift (map_dfim_error (assert_image_bounds (zlen image))) ;;
    sidecar ← lift (map_dfim_error (build_boot_sidecar image));
    manifest ← lift (map_dfim_error (parse_boot_manifest sidecar));
    validated ← lift (map_dfim_error (validate_boot_image image manifest));
    let root := validated.(vb_merkle_root) in
    (if extend_tpm then extend_merkle_to_tpm h root else mret tt) ;;
    if dry_run then announce Audit.ProvisionV1 (txt "provision_v1") target format None root (zlen image) true
    else
      let output := default (default_sidecar_path target) output in
      write_output h output sidecar ;;
      announce Audit.ProvisionV1 (txt "provision_v1") target format None root (zlen image) false.

(** ** Files for the firmware and the remote verifier *)

Definition read_exact_file (n : Z) (path : Path) : Cmd (list byte) :=
  bytes ← on_files (sys_read h.(h_os) (CannotRead path) path);
  if negb (zlen bytes =? n) then lift (Err (WrongFileLength path)) else mret bytes.

Definition write_rollback_payload (key_id : list byte) (minimum_release : Z) (output : Path) : Cmd unit :=
  id ← lift (decode_hex_exact 16 key_id);
  payload ← lift (map_dfim_error (build_rollback_baseline id minimum_release));
  on_files (sys_write h.(h_os) (CannotWrite output) output payload).

Definition write_attestation_challenge (nonce : list byte) (release_counter policy_generation : Z) (merkle_root : list byte)
    (output : Path) : Cmd unit :=
  if (release_counter =? 0) || (policy_generation =? 0) then lift (Err CountersZero)
  else
    nonce ← lift (decode_hex_exact 32 nonce);
    root ← lift (decode_hex_exact 32 merkle_root);
    encoded ← lift (map_err Attest (encode_attestation_challenge
      {| nonce := nonce; ch_release_counter := release_counter; ch_policy_generation := policy_generation;
         ch_merkle_root := root |}));
    on_files (sys_write h.(h_os) (CannotWrite output) output encoded).

Definition write_attestation_policy (ak_public_key : list byte) (minimum_release policy_generation : Z)
    (merkle_root : list byte) (pcr_values_path output : Path) : Cmd unit :=
  if (minimum_release =? 0) || (policy_generation =? 0) then lift (Err CountersZero)
  else
    raw_pcrs ← read_exact_file (ATTESTED_PCR_COUNT * 32) pcr_values_path;
    values ← lift (foldM (fun values index => v ← slice raw_pcrs (index * 32) (index * 32 + 32); Ok (values ++ [v])) []
                     (range 0 ATTESTED_PCR_COUNT));
    ak ← lift (decode_hex_exact 33 ak_public_key);
    root ← lift (decode_hex_exact 32 merkle_root);
    encoded ← lift (map_err Attest (encode_attestation_policy
      {| ak_public_key_sec1 := ak; expected_pcr_values := values; minimum_release := minimum_release;
         expected_policy_generation := policy_generation; expected_merkle_root := root |}));
    lift (map_err Attest (parse_attestation_policy encoded)) ;;
    on_files (sys_write h.(h_os) (CannotWrite output) output encoded).

(** The closure of [command_verify_attestation] *)
Definition verify_attestation_files (challenge evidence policy : Path) : Cmd VerifiedAttestation :=
  data ← on_files (sys_read h.(h_os) (CannotRead challenge) challenge);
  challenge ← lift (map_err Attest (parse_attestation_challenge data));
  data ← on_files (sys_read h.(h_os) (CannotRead evidence) evidence);
  evidence ← lift (map_err Attest (parse_attestation_evidence data));
  data ← on_files (sys_read h.(h_os) (CannotRead policy) policy);
  policy ← lift (map_err Attest (parse_attestation_policy data));
  lift (map_err Attest (verify_attestation evidence challenge policy)).

(** The private blob is never written over an existing file. *)
Definition run_attestation_enroll (private_blob_path public_blob_path ak_public_key_path : Path) : Cmd unit :=
  enrolled ← on_tpm h (fun t => create_attestation_key t);
  file ← on_files (sys_create_new h.(h_os) (CannotWrite private_blob_path) private_blob_path);
  on_files (sys_write_all h.(h_os) (CannotWrite private_blob_path) file enrolled.(private_blob)) ;;
  on_files (sys_write h.(h_os) (CannotWrite public_blob_path) public_blob_path enrolled.(public_blob)) ;;
  on_files (sys_write h.(h_os) (CannotWrite ak_public_key_path) ak_public_key_path (hex_encode enrolled.(enrolled_key_sec1))).

(** Without TPM support the command fails before it reads a file. *)
Definition run_attestation_quote (challenge_path private_blob_path public_blob_path output : Path) : Cmd unit :=
  match h.(h_tpm) with
  | None => lift (Err NoTpmSupport)
  | Some _ =>
      data ← on_files (sys_read h.(h_os) (CannotRead challenge_path) challenge_path);
      challenge ← lift (map_err Attest (parse_attestation_challenge data));
      private_blob ← on_files (sys_read h.(h_os) (CannotRead private_blob_path) private_blob_path);
      public_blob ← on_files (sys_read h.(h_os) (CannotRead public_blob_path) public_blob_path);
      evidence ← on_tpm h (fun t => quote_attestation t challenge private_blob public_blob);
      encoded ← lift (map_err Attest (encode_attestation_evidence evidence));
      on_files (sys_write h.(h_os) (CannotWrite output) output encoded)
  end.

(** ** Exit statuses *)

(** A command that is not audited: [ExitCode::SUCCESS], [ExitCode::FAILURE], or an abort *)
Definition report_attestation_command {S A} (result : stm S CliError A) (s : S) : Z * S :=
  match result s with
  | (Ok _, s) => (0, s)
  | (Err _, s) => (1, s)
  | (Panic, s) => (101, s)
  end.

(** A failed provisioning: an audit event and a report, both best effort *)
Definition provision_exit (event_type : Audit.EventType) (command : list byte) (target : Path) (format : Report.OutputFormat)
    (dry_run : bool) (result : Cmd unit) (s : Shell) : Z * Shell :=
  match result s with
  | (Ok _, s) => (0, s)
  | (Err _, s) =>
      let s := ignore (emit_provision_event h target event_type Audit.Failure None None dry_run) s in
      (1, ignore (write_command_json h command target format (txt "failure") None None None dry_run) s)
  | (Panic, s) => (101, s)
  end.

(** The failure branch that [verify-v2] and [recover-v2] share *)
Definition security_failure (event_type : Audit.EventType) (command : list byte) (target : Path)
    (format : Report.OutputFormat) (s : Shell) : Z * Shell :=
  let s := ignore (emit_security_event h target event_type Audit.Failure None None) s in
  (1, ignore (write_command_json h command target format (txt "failure") None None None false) s).

Definition command_recover_v2 (target : Path) (state : option Path) (recovery_image recovery_sidecar : Path)
    (public_key key_id : list byte) (minimum_release : Z) (format : Report.OutputFormat) (s : Shell) : Z * Shell :=
  match parse_trusted_policy public_key key_id minimum_release with
  | Panic => (101, s)
  | Err _ => security_failure Audit.RecoveryV2 (txt "recover_v2") target format s
  | Ok policy =>
      let target_sidecar := default (default_sidecar_path target) state in
      let request := {| Recovery.target := target; target_sidecar := target_sidecar;
                        Recovery.recovery_image := recovery_image; Recovery.recovery_sidecar := recovery_sidecar;
                        Recovery.policy := policy |} in
      match on_recovery (recover_target_atomically h.(h_os) h.(h_unix) h.(h_lossy) h.(h_pid) request) s with
      | (Ok report, s) =>
          match emit_security_event h target Audit.RecoveryV2 Audit.Success (Some report.(r_release_counter))
                  (Some report.(r_merkle_root)) s with
          | (Ok _, s) =>
              match write_command_json h (txt "recover_v2") target format (txt "success") (Some report.(r_merkle_root))
                      (Some report.(r_release_counter)) (Some report.(restored_bytes)) false s with
              | (Ok _, s) => (0, s)
              | (_, s) => (1, s)
              end
          | (_, s) => (1, s)
          end
      | (Err _, s) => security_failure Audit.RecoveryV2 (txt "recover_v2") target format s
      | (Panic, s) => (101, s)
      end
  end.

Definition command_verify_v2 (target : Path) (state : option Path) (public_key key_id : list byte) (minimum_release : Z)
    (format : Report.OutputFormat) (s : Shell) : Z * Shell :=
  match parse_trusted_policy public_key key_id minimum_release with
  | Panic => (101, s)
  | Err _ => security_failure Audit.VerifyV2 (txt "verify_v2") target format s
  | Ok policy =>
      verify_v2_or_exit h {| v2_target := target; v2_state := state; v2_policy := policy; v2_format := format |} s
  end.

Definition command_write_attestation_challenge (nonce : list byte) (release_counter policy_generation : Z)
    (merkle_root : list byte) (output : Path) : Shell -> Z * Shell :=
  report_attestation_command (write_attestation_challenge nonce release_counter policy_generation merkle_root output).

Definition command_write_attestation_policy (ak_public_key : list byte) (minimum_release policy_generation : Z)
    (merkle_root : list byte) (pcr_values output : Path) : Shell -> Z * Shell :=
  report_attestation_command
    (write_attestation_policy ak_public_key minimum_release policy_generation merkle_root pcr_values output).

Definition command_verify_attestation (challenge evidence policy : Path) : Shell -> Z * Shell :=
  report_attestation_command (verify_attestation_files challenge evidence policy).

Definition command_provision_v2 (target : Path) (output : option Path) (signing_key : Path) (key_id : list byte) (release_counter : Z)
    (dry_run extend_tpm : bool) (format : Report.OutputFormat) : Shell -> Z * Shell :=
  provision_exit Audit.ProvisionV2 (txt "provision_v2") target format dry_run
    (run_provision_v2 {| p2_target := target; p2_output := output; p2_signing_key := signing_key; p2_key_id := key_id;
       p2_release_counter := release_counter; p2_dry_run := dry_run; p2_extend_tpm := extend_tpm; p2_format := format |}).

Definition command_rollback_payload (key_id : list byte) (minimum_release : Z) (output : Path) : Shell -> Z * Shell :=
  report_attestation_command (write_rollback_payload key_id minimum_release output).

Definition command_attestation_enroll (private public ak : Path) : Shell -> Z * Shell :=
  report_attestation_command (run_attestation_enroll private public ak).

Definition command_attestation_quote (challenge private public output : Path) : Shell -> Z * Shell :=
  report_attestation_command (run_attestation_quote challenge private public output).

(** ** Dispatch *)

Context (d : Driver) (display : Path -> list byte) (elapsed : nat -> Z).

Definition on_first (f : Shell -> Z * Shell) (s : Shell * Device) : Z * (Shell * Device) :=
  let '(status, s1) := f (fst s) in (status, (s1, snd s)).

(** Without a subcommand, [TARGET] is provisioned. *)
Definition implicit_provision (cli : Cli) (format : Report.OutputFormat) : Shell -> Z * Shell :=
  match cli.(cli_target) with
  | None => fun s => (1, s)
  | Some target =>
      provision_exit Audit.ProvisionV1 (txt "provision_v1") target format cli.(cli_dry_run)
        (run_provision target cli.(cli_output) cli.(cli_dry_run) cli.(cli_extend_tpm) format)
  end.

Definition dispatch (cli : Cli) (format : Report.OutputFormat) : Shell * Device -> Z * (Shell * Device) :=
  match cli.(cli_command) with
  | Some (CVerify target state) =>
      on_first (verify_or_exit h {| va_target := target; va_state := state; va_format := format |})
  | Some (CVerifyV2 target state public_key key_id minimum_release) =>
      on_first (command_verify_v2 target state public_key key_id minimum_release format)
  | Some (CRecoverV2 target state image sidecar public_key key_id minimum_release) =>
      on_first (command_recover_v2 target state image sidecar public_key key_id minimum_release format)
  | Some (CProvision target output dry_run extend_tpm) =>
      on_first (provision_exit Audit.ProvisionV1 (txt "provision_v1") target format dry_run
        (run_provision target output dry_run extend_tpm format))
  | Some (CRawStress args) => report_attestation_command (run_raw_stress h d display elapsed args)
  | Some (CProvisionV2 target output signing_key key_id release_counter dry_run extend_tpm) =>
      on_first (command_provision_v2 target output signing_key key_id release_counter dry_run extend_tpm format)
  | Some (CRollbackPayload key_id minimum_release output) =>
      on_first (command_rollback_payload key_id minimum_release output)
  | Some (CAttestationChallenge nonce release generation root output) =>
      on_first (command_write_attestation_challenge nonce release generation root output)
  | Some (CAttestationPolicy ak release generation root pcrs output) =>
      on_first (command_write_attestation_policy ak release generation root pcrs output)
  | Some (CAttestationVerify challenge evidence policy) => on_first (command_verify_attestation challenge evidence policy)
  | Some (CAttestationEnroll private public ak) =>
      on_first (command_attestation_enroll private public ak)
  | Some (CAttestationQuote challenge private public output) =>
      on_first (command_attestation_quote challenge private public output)
  | None => on_first (implicit_provision cli format)
  end.

(** [main]: the licence gate, then the output format, then the command.  [gate] is what
    [enforce_host_gate] did, with the licence file it left; it exits with status 1. *)
Definition main (gate : option (Gate * option (list byte))) (cli : Cli) (s : Shell * Device) : Z * (Shell * Device) :=
  match gate with
  | None => (101, s)
  | Some (Exits _, _) => (1, s)
  | Some (Continues, _) =>
      match Report.parse cli.(cli_format) with
      | Ok format => dispatch cli format s
      | Err _ => (1, s)
      | Panic => (101, s)
      end
  end.
End model.

(** ** Runs without failures

    [does m f a f']: on a host without failures, [m] succeeds with [a] from every shell
    whose file system is [f], and leaves [f']. *)

Definition does {A} (m : Cmd A) (f : Fs) (a : A) (f' : Fs) : Prop :=
  forall s, fs_of s = f -> exists s', m s = (Ok a, s') /\ fs_of s' = f'.

Lemma does_bind {A B} (m : Cmd A) (k : A -> Cmd B) f a f1 b f2 : does m f a f1 -> does (k a) f1 b f2 -> does (m ≫= k) f b f2.
Proof.
  intros Hm Hk s Hs. destruct (Hm s Hs) as (s1 & Hm1 & Hs1). destruct (Hk s1 Hs1) as (s2 & Hk2 & Hs2).
  exists s2. split; [|done]. by rewrite (stm_step _ _ _ _ _ Hm1).
Qed.

Lemma does_ret {A} (a : A) f : does (mret a) f a f.
Proof. intros s Hs. by exists s. Qed.

Lemma does_lift {A} (m : outcome CliError A) a f : m = Ok a -> does (lift m) f a f.
Proof. intros -> s Hs. by exists s. Qed.

(** The file system after [std::fs::write]. *)
Definition written (p : Path) (payload : list byte) (f : Fs) : Fs :=
  match f.(dir) !! p with
  | Some i => set_inode i {| content := payload; synced := false |} f
  | None => set_inode f.(fresh) {| content := payload; synced := false |} (set_dir (<[p := f.(fresh)]> f.(dir)) (new_inode f))
  end.

Lemma written_lookup p payload f : lookup_file (written p payload f) p = Some payload.
Proof.
  unfold written, lookup_file. destruct (dir f !! p) as [i|] eqn:Hp; cbn [dir set_inode set_dir inodes].
  - rewrite Hp. cbn. by rewrite lookup_insert_eq.
  - rewrite lookup_insert_eq. cbn. by rewrite lookup_insert_eq.
Qed.

Lemma written_other p q payload f : apart p q f ->
  lookup_file (written p payload f) q = lookup_file f q /\ (written p payload f).(dir) !! q = f.(dir) !! q.
Proof.
  intros (Hne & Hlt & Hap). unfold written, lookup_file. destruct (dir f !! p) as [i|] eqn:Hp;
    cbn [dir set_inode set_dir inodes new_inode].
  - split; [|done]. destruct (dir f !! q) as [k|] eqn:Hq; [|done]. cbn. rewrite lookup_insert_ne; [done|].
    intros ->. by apply (Hap k).
  - rewrite lookup_insert_ne by done. split; [|done]. destruct (dir f !! q) as [k|] eqn:Hq; [|done]. apply Hlt in Hq. cbn.
    rewrite !lookup_insert_ne by lia. done.
Qed.

Section calls.
Context (h : Host) (Hcalm : calm h.(h_os)) (Hok : faultless h.(h_os)).

Lemma does_call {A} e (g : option nat -> Fs -> option A * Fs) f a f' : g None f = (Some a, f') ->
  does (on_files (syscall h.(h_os) e g)) f a f'.
Proof.
  intros Hg s <-. unfold on_files, syscall, fs_of in *. rewrite Hcalm, Hok, Hg. cbn. by eexists.
Qed.

Lemma does_read e p b f : lookup_file f p = Some b -> does (on_files (sys_read h.(h_os) e p)) f b f.
Proof. intros Hb. apply does_call. cbn. by rewrite Hb. Qed.

Lemma does_canonical p q f : h.(canonical) p = Some q -> is_Some (f.(dir) !! q) -> does (canonical_file h p) f q f.
Proof.
  intros Hq Hd. unfold canonical_file. eapply does_bind; [apply does_call; cbn; by rewrite Hq|].
  eapply does_bind; [apply does_call; cbn; reflexivity|]. rewrite bool_decide_true by done. apply does_ret.
Qed.

Lemma does_write e p payload f : does (on_files (sys_write h.(h_os) e p payload)) f tt (written p payload f).
Proof.
  intros s <-. unfold sys_write, on_files, fs_of. unfold mbind, stm_bind, sys_create, sys_write_all, syscall, written.
  rewrite !Hcalm, !Hok. unfold clean. destruct (dir (fs (fst (disk s))) !! p) as [i|] eqn:Hp; cbn;
    rewrite Hcalm, Hok; eexists; (split; [reflexivity|]); cbn; [|done].
  unfold set_inode. cbn. by rewrite insert_insert_eq.
Qed.

Lemma does_write_output p payload f : does (write_output h p payload) f tt (written p payload f).
Proof.
  unfold write_output. eapply does_bind; [|apply does_write].
  destruct (parent p) as [q|]; [|apply does_ret]. destruct (is_empty_path q); [apply does_ret|]. by apply does_call.
Qed.

Context (Hout : outputs_work h).

Lemma does_emit event f : does (emit_event h event) f tt f.
Proof. intros s Hs. rewrite (emit_event_works h event s Hout). by eexists. Qed.

Lemma does_print report f : does (print_report h report) f tt f.
Proof. intros s Hs. rewrite (print_report_works h report s Hout). by eexists. Qed.

Lemma does_json `{HashOps} c p fmt o r n b dry f : does (write_command_json h c p fmt o r n b dry) f tt f.
Proof. unfold write_command_json. destruct fmt; [apply does_ret|apply does_print]. Qed.

Lemma does_announce `{HashOps} ev c p fmt n r b dry f : does (announce h ev c p fmt n r b dry) f tt f.
Proof. unfold announce. eapply does_bind; [apply does_emit|apply does_json]. Qed.
End calls.

(** ** Provisioning and verification *)

Section round_trip.
Context `{HashLaws, SigLaws}.
Context (h : Host) (Hcalm : calm h.(h_os)) (Hok : faultless h.(h_os)) (Hout : outputs_work h).

(** A signed sidecar passes the envelope check. *)
Lemma signed_envelope image sk key_id release p : sk_valid sk = true ->
  let body := v2_body (to_boot (honest_manifest image)) release key_id in
  validate_v2_sidecar_envelope (body ++ sign sk body) p = Ok (body ++ sign sk body).
Proof.
  intros Hsk body. unfold validate_v2_sidecar_envelope. pose proof (zlen_nonneg body).
  assert (Hl : zlen (body ++ sign sk body) = zlen body + 64) by (rewrite zlen_app; unfold zlen at 2; by rewrite sign_length).
  rewrite Hl, !(proj2 (Z.eqb_neq _ _)) by lia.
  assert (exists rest, body ++ sign sk body = x44 :: rest) as [rest ->] by (by eexists).
  done.
Qed.

(** The parts of a disk that [provision-v2] needs. *)
Record provisionable (args : ProvisionV2Args) (f : Fs) (target : Path) (image sk key_id : list byte) : Prop := {
  pr_gate : run_integrity_gates args.(p2_target) = Ok tt;
  pr_target : h.(canonical) args.(p2_target) = Some target;
  pr_image : lookup_file f target = Some image;
  pr_size : 1 <= zlen image <= MAX_IMAGE_BYTES;
  pr_key : exists key, lookup_file f args.(p2_signing_key) = Some key /\ parse_private_key key = Ok sk;
  pr_valid : sk_valid sk = true;
  pr_key_id : decode_hex_exact 16 args.(p2_key_id) = Ok key_id;
  pr_release : 0 < args.(p2_release_counter) < 2 ^ 64;
  pr_apart : apart (default (default_sidecar_path target) args.(p2_output)) target f
}.

Definition sidecar_of (args : ProvisionV2Args) (image sk key_id : list byte) : list byte :=
  let body := v2_body (to_boot (honest_manifest image)) args.(p2_release_counter) key_id in body ++ sign sk body.

Lemma lookup_file_dir f p b : lookup_file f p = Some b -> is_Some (f.(dir) !! p).
Proof. unfold lookup_file. by destruct (dir f !! p). Qed.

Lemma provision_v2_does args f target image sk key_id : provisionable args f target image sk key_id ->
  args.(p2_dry_run) = false -> args.(p2_extend_tpm) = false ->
  does (run_provision_v2 h args) f tt
    (written (default (default_sidecar_path target) args.(p2_output)) (sidecar_of args image sk key_id) f).
Proof.
  intros [Hgate Hcan Himg Hsize (key & Hkey & Hparse) Hsk Hkid Hrel _] Hdry Htpm. unfold run_provision_v2.
  assert (Hlen : zlen key_id = 16) by (by apply decode_hex_spec in Hkid as [? _]).
  destruct (signed_honest image sk key_id args.(p2_release_counter) args.(p2_release_counter) Hsize Hsk Hlen Hrel ltac:(lia))
    as (v & Hv & _).
  eapply does_bind; [by apply does_lift|]. rewrite (proj2 (Z.eqb_neq _ _)) by lia.
  eapply does_bind; [exact (does_canonical h Hcalm Hok _ target _ Hcan (lookup_file_dir _ _ _ Himg))|].
  eapply does_bind; [by apply does_read|].
  eapply does_bind; [apply does_lift; unfold assert_image_bounds; by rewrite (proj2 (validate_image_byte_len_Ok (zlen image) ltac:(lia)) Hsize)|].
  eapply does_bind; [unfold read_private_key; eapply does_bind; [by apply does_read|by apply does_lift]|].
  eapply does_bind; [by apply does_lift|].
  eapply does_bind; [apply does_lift; by rewrite build_signed_ok by (done || lia)|].
  eapply does_bind; [apply does_lift; unfold public_key_sec1_from_private; rewrite Hsk; cbn [negb];
    unfold zlen, V2_PUBLIC_KEY_LEN; by rewrite pk_of_length|]. cbv zeta.
  eapply does_bind; [apply does_lift; by rewrite Hv|].
  rewrite Hdry, Htpm. eapply does_bind; [apply does_ret|].
  eapply does_bind; [by apply does_write_output|by apply does_announce].
Qed.

Lemma verify_v2_does args f target image sk key_id policy fmt : provisionable args f target image sk key_id ->
  policy = {| public_key_sec1 := pk_of sk; expected_key_id := key_id; SignedManifest.minimum_release := policy.(SignedManifest.minimum_release) |} ->
  policy.(SignedManifest.minimum_release) <= args.(p2_release_counter) ->
  let output := default (default_sidecar_path target) args.(p2_output) in
  exists report, does (verify_v2_target h {| v2_target := args.(p2_target); v2_state := args.(p2_output); v2_policy := policy;
      v2_format := fmt |}) (written output (sidecar_of args image sk key_id) f) report (written output (sidecar_of args image sk key_id) f).
Proof.
  intros [Hgate Hcan Himg Hsize _ Hsk Hkid Hrel Hap] Hpol Hfloor output. set (f' := written _ _ f).
  assert (Hlen : zlen key_id = 16) by (by apply decode_hex_spec in Hkid as [? _]).
  destruct (signed_honest image sk key_id args.(p2_release_counter) policy.(SignedManifest.minimum_release) Hsize Hsk Hlen Hrel Hfloor)
    as (v & Hv & _). rewrite <- Hpol in Hv.
  destruct (written_other output target (sidecar_of args image sk key_id) f Hap) as [Hi Hd]. fold f' in Hi, Hd.
  rewrite Himg in Hi. pose proof (written_lookup output (sidecar_of args image sk key_id) f) as Hs. fold f' in Hs.
  eexists. unfold verify_v2_target. cbn [v2_target v2_state v2_policy].
  eapply does_bind; [by apply does_lift|].
  eapply does_bind; [exact (does_canonical h Hcalm Hok _ target _ Hcan (lookup_file_dir _ _ _ Hi))|]. cbv zeta. fold output.
  eapply does_bind.
  { unfold read_non_empty_file. eapply does_bind; [by apply does_read|]. rewrite (proj2 (Z.eqb_neq _ _)) by lia. apply does_ret. }
  eapply does_bind.
  { unfold read_non_empty_file. eapply does_bind; [by apply does_read|]. rewrite (proj2 (Z.eqb_neq _ _)); [apply does_ret|].
    unfold sidecar_of. rewrite zlen_app. pose proof (zlen_nonneg (v2_body (to_boot (honest_manifest image)) (p2_release_counter args) key_id)).
    unfold zlen at 2. rewrite sign_length by done. lia. }
  eapply does_bind; [apply does_lift; by apply signed_envelope|].
  apply does_lift. unfold verify_v2_image_bytes. rewrite (proj2 (Z.eqb_neq _ _)) by lia.
  unfold assert_image_bounds. rewrite (proj2 (validate_image_byte_len_Ok (zlen image) ltac:(lia)) Hsize). cbn [map_dfim_error map_err].
  rewrite ok_bind, Hv. reflexivity.
Qed.

Lemma conclude_does ev c p fmt check report f s : does check f report f -> fs_of s = f ->
  exists s', conclude h ev c p fmt check s = (0, s').
Proof.
  intros Hc Hs. unfold conclude. destruct (Hc s Hs) as (s1 & -> & Hs1).
  destruct (does_emit h Hout (Audit.security h.(now) ev Audit.Success (os_bytes p) None (Some report.(vr_merkle_root))) f s1 Hs1)
    as (s2 & He & Hs2). unfold emit_verify_event. rewrite He. unfold write_verify_json. destruct fmt; [by eexists|].
  destruct (does_print h Hout {| Report.command := c; Report.outcome := txt "success"; Report.r_asset_id := asset_id (os_bytes p);
    Report.merkle_root := vr_merkle_root <$> Some report; Report.release_counter := None;
    Report.blocks := vr_block_count <$> Some report; Report.bytes := None; Report.dry_run := false |} f s2 Hs2) as (s3 & -> & _).
  by eexists.
Qed.

(** C17: what is provisioned verifies.  On a host where no call fails and no other process
    interferes, with an image within
    the size cap, a valid signing key and a sidecar path that is not the image,
    [provision-v2] (not a dry run, and without the TPM extension) exits with 0, and [verify-v2] of the same target and sidecar path with
    the public key, the key identifier and any release floor up to the release then exits
    with 0 too, whatever the output formats. *)
Theorem provision_then_verify args s target image sk key_id public_key floor policy fmt :
  provisionable args (fs_of s) target image sk key_id -> args.(p2_dry_run) = false -> args.(p2_extend_tpm) = false ->
  parse_trusted_policy public_key args.(p2_key_id) floor = Ok policy -> policy.(public_key_sec1) = pk_of sk ->
  floor <= args.(p2_release_counter) ->
  exists s1 s2,
    provision_exit h Audit.ProvisionV2 (txt "provision_v2") args.(p2_target) args.(p2_format) false (run_provision_v2 h args) s =
      (0, s1) /\
    command_verify_v2 h args.(p2_target) args.(p2_output) public_key args.(p2_key_id) floor fmt s1 = (0, s2).
Proof.
  intros Hpr Hdry Htpm Hpol Hpk Hfloor.
  destruct (provision_v2_does args (fs_of s) target image sk key_id Hpr Hdry Htpm s eq_refl) as (s1 & Hrun & Hs1).
  exists s1. unfold provision_exit. rewrite Hrun.
  assert (Hshape : policy = {| public_key_sec1 := pk_of sk; expected_key_id := key_id;
    SignedManifest.minimum_release := policy.(SignedManifest.minimum_release) |} /\ policy.(SignedManifest.minimum_release) = floor).
  { unfold parse_trusted_policy in Hpol. destruct (floor =? 0); [done|]. apply bind_Ok in Hpol as (pk & _ & Hpol).
    apply bind_Ok in Hpol as (b & _ & Hpol). destruct (negb _); [done|]. apply bind_Ok in Hpol as (id & Hid & [= <-]).
    cbn in Hpk |- *. rewrite (pr_key_id _ _ _ _ _ _ Hpr) in Hid. injection Hid as <-. by rewrite Hpk. }
  destruct Hshape as [Hshape Hmin].
  destruct (verify_v2_does args (fs_of s) target image sk key_id policy fmt Hpr Hshape ltac:(lia)) as (report & Hver).
  unfold command_verify_v2. rewrite Hpol.
  destruct (conclude_does Audit.VerifyV2 (txt "verify_v2") args.(p2_target) fmt _ report _ s1 Hver Hs1) as (s2 & Hc).
  exists s2. split; [done|exact Hc].
Qed.
End round_trip.

(** ** Recovery *)

Section recovery.
Context `{HashLaws, SigLaws}.
Context (h : Host).

Lemma parsed_policy_wf public_key key_id floor policy :
  parse_trusted_policy public_key key_id floor = Ok policy -> SignedManifest.policy_wf policy.
Proof.
  unfold parse_trusted_policy. destruct (floor =? 0); [done|].
  intros (pk & [Hpk _]%decode_hex_spec & Hr)%bind_Ok; [|done]. apply bind_Ok in Hr as (b & _ & Hr). destruct (negb _); [done|].
  apply bind_Ok in Hr as (id & [Hid _]%decode_hex_spec & [= <-]); [|done]. exact Hid.
Qed.

Lemma write_json_Ok c p fmt o r n b dry s u s' : write_command_json h c p fmt o r n b dry s = (Ok u, s') ->
  s'.(disk) = s.(disk) /\ s'.(audit) = s.(audit).
Proof.
  unfold write_command_json. destruct fmt; [by intros [= _ <-]|]. by intros (? & ? & _)%print_report_Ok.
Qed.

(** C14: exit status 0 of [recover-v2] is earned, durable and on record.  If the command
    exits with 0 without interference, from files at rest, for two different protected paths
    without temporary names, then the trust policy was well
    formed and the recovery pair on disk is one it accepts; where directories can be
    synchronised, a crash right after leaves both protected files in place and all others as
    they were; and a configured audit log ends with the success line of that release and
    root. *)
Theorem recover_exit_zero target state image_path sidecar_path public_key key_id floor fmt s s' V :
  let target_sidecar := default (default_sidecar_path target) state in
  calm h.(h_os) -> is_tmp target = false -> is_tmp target_sidecar = false -> target <> target_sidecar ->
  settled (fs_of s) V -> (fst s.(disk)).(past) = [] ->
  command_recover_v2 h target state image_path sidecar_path public_key key_id floor fmt s = (0, s') ->
  exists policy image sidecar v,
    let request := {| Recovery.target := target; target_sidecar := target_sidecar; Recovery.recovery_image := image_path;
                      Recovery.recovery_sidecar := sidecar_path; Recovery.policy := policy |} in
    parse_trusted_policy public_key key_id floor = Ok policy /\ authorised request (fs_of s) image sidecar v /\
    (h.(h_unix) = true -> forall after, crash (fs_of s') after -> agrees after (with_both request image sidecar V)) /\
    s'.(audit) = s.(audit) ++ audit_line h (Audit.security h.(now) Audit.RecoveryV2 Audit.Success (os_bytes target)
      (Some v.(vs_release_counter)) (Some v.(vs_boot).(vb_merkle_root))).
Proof.
  intros tsc Hcalm Ht Hts Hne Hset Hpast. unfold command_recover_v2. fold tsc.
  destruct (parse_trusted_policy public_key key_id floor) as [policy|?|] eqn:Hpol; [|done..].
  set (request := {| Recovery.target := target; target_sidecar := tsc; Recovery.recovery_image := image_path;
    Recovery.recovery_sidecar := sidecar_path; Recovery.policy := policy |}). unfold on_recovery.
  destruct (recover_target_atomically (h_os h) (h_unix h) (h_lossy h) (h_pid h) request (disk s)) as [r dk] eqn:Hrun.
  destruct r as [report|?|]; cbn [map_err]; [|done..].
  destruct (emit_security_event h _ _ _ _ _ _) as [[u|?|] s1] eqn:He; [|done..]. apply emit_event_Ok in He as (Hd1 & _ & Ha1).
  destruct (write_command_json h _ _ _ _ _ _ _ _ s1) as [[u'|?|] s2] eqn:Hw; [|done..]. apply write_json_Ok in Hw as [Hd2 Ha2].
  intros [= <-]. destruct (disk s) as [p n] eqn:Hds. destruct dk as [p' n'].
  unfold fs_of in *. rewrite Hds in *. cbn [fst] in *.
  destruct (recovery_success_durable (h_os h) (h_unix h) (h_lossy h) (h_pid h) request p n V report p' n' Hcalm
    (parsed_policy_wf _ _ _ _ Hpol) (conj Ht Hts) Hset Hpast Hrun) as (image & sidecar & v & Ha & Hdur & Hrep).
  exists policy, image, sidecar, v. cbv zeta. split_and!; [done|done| |].
  - intros Hu after Hc. apply Hdur; [done|]. rewrite Hd2, Hd1 in Hc. exact Hc.
  - rewrite Ha2, Ha1, (Hrep Hne). done.
Qed.
End recovery.

(** ** Commands that write nothing *)

Definition keeps {A} (m : Cmd A) : Prop := forall s, fs_of (snd (m s)) = fs_of s.

Lemma keeps_bind {A B} (m : Cmd A) (k : A -> Cmd B) : keeps m -> (forall a, keeps (k a)) -> keeps (m ≫= k).
Proof.
  intros Hm Hk s. specialize (Hm s). unfold mbind, stm_bind. destruct (m s) as [[a|e|] s1]; cbn in *; [by rewrite Hk|done..].
Qed.

Lemma keeps_ret {A} (a : A) : keeps (mret a).
Proof. done. Qed.

Lemma keeps_lift {A} (m : outcome CliError A) : keeps (lift m).
Proof. done. Qed.

Lemma keeps_reads {A} (m : Cmd A) Q : reads m Q -> keeps m.
Proof. intros Hm s. by destruct (Hm s) as [[? _] _]. Qed.

Section read_only.
Context `{HashOps, SigOps}.
Context (h : Host) (Hcalm : calm h.(h_os)).

Lemma keeps_read e p : keeps (on_files (sys_read h.(h_os) e p)).
Proof. eapply keeps_reads. by apply reads_file. Qed.

Lemma keeps_canonical p : keeps (canonical_file h p).
Proof. eapply keeps_reads. by apply reads_canonical. Qed.

Lemma keeps_tpm {A} (m : Tss -> TpmM A) : keeps (on_tpm h m).
Proof. intros s. unfold on_tpm. destruct (h_tpm h); [|done]. by destruct (m _ _). Qed.

Lemma keeps_emit event : keeps (emit_event h event).
Proof. intros s. unfold fs_of. by rewrite emit_event_disk. Qed.

Lemma keeps_json c p fmt o r n b dry : keeps (write_command_json h c p fmt o r n b dry).
Proof. unfold write_command_json. destruct fmt; [done|]. intros s. unfold fs_of. by rewrite print_report_disk. Qed.

Lemma keeps_verify_json c p fmt o r : keeps (write_verify_json h c p fmt o r).
Proof. unfold write_verify_json. destruct fmt; [done|]. intros s. unfold fs_of. by rewrite print_report_disk. Qed.

Create HintDb keeps.
#[local] Hint Resolve keeps_ret keeps_lift keeps_read keeps_canonical keeps_tpm keeps_emit keeps_json
  keeps_verify_json : keeps.

Ltac keeps_tac := repeat first [progress intros | solve [auto with keeps] | apply keeps_bind | progress cbv match zeta | case_match].

Lemma keeps_announce ev c p fmt n r b dry : keeps (announce h ev c p fmt n r b dry).
Proof. unfold announce, emit_provision_event. keeps_tac. Qed.
#[local] Hint Resolve keeps_announce : keeps.

Lemma keeps_provision target output extend fmt : keeps (run_provision h target output true extend fmt).
Proof. unfold run_provision, extend_merkle_to_tpm. keeps_tac. Qed.

Lemma keeps_provision_v2 args : args.(p2_dry_run) = true -> keeps (run_provision_v2 h args).
Proof. intros Hdry. unfold run_provision_v2, extend_merkle_to_tpm, read_private_key. rewrite Hdry. keeps_tac. Qed.

Lemma keeps_verify args : keeps (verify_target h args).
Proof. unfold verify_target, verify_image_bytes_against_state, read_non_empty_file. keeps_tac. Qed.

Lemma keeps_verify_v2 args : keeps (verify_v2_target h args).
Proof. unfold verify_v2_target, read_non_empty_file. keeps_tac. Qed.

Lemma keeps_attestation c e p : keeps (verify_attestation_files h c e p).
Proof. unfold verify_attestation_files. keeps_tac. Qed.

(** The exit functions keep what their computations keep. *)
Lemma exit_keeps {A} (m : Cmd A) s : keeps m -> fs_of (snd (report_attestation_command m s)) = fs_of s.
Proof. intros Hm. specialize (Hm s). unfold report_attestation_command. by destruct (m s) as [[]]. Qed.

Lemma ignore_keeps {A} (m : Cmd A) s : keeps m -> fs_of (ignore m s) = fs_of s.
Proof. intros Hm. apply Hm. Qed.

Lemma provision_exit_keeps ev c p fmt dry (m : Cmd unit) s : keeps m -> fs_of (snd (provision_exit h ev c p fmt dry m s)) = fs_of s.
Proof.
  intros Hm. specialize (Hm s). unfold provision_exit, emit_provision_event. destruct (m s) as [[|e|] s1]; cbn in *; [done| |done].
  by rewrite (ignore_keeps _ _ (keeps_json _ _ _ _ _ _ _ _)), (ignore_keeps _ _ (keeps_emit _)).
Qed.

Lemma security_failure_keeps ev c p fmt s : fs_of (snd (security_failure h ev c p fmt s)) = fs_of s.
Proof.
  unfold security_failure, emit_security_event. cbn [snd]. by rewrite (ignore_keeps _ _ (keeps_json _ _ _ _ _ _ _ _)), (ignore_keeps _ _ (keeps_emit _)).
Qed.

Lemma conclude_keeps ev c p fmt m s : keeps m -> fs_of (snd (conclude h ev c p fmt m s)) = fs_of s.
Proof.
  intros Hm. specialize (Hm s). unfold conclude, emit_verify_event. destruct (m s) as [[r|e|] s1]; cbn [snd] in *; [| |done].
  - match goal with |- context [emit_event h ?ev s1] => pose proof (keeps_emit ev s1) as He; destruct (emit_event h ev s1) as [[|?|] s2] end;
      cbn [snd] in *; [|congruence..].
    match goal with |- context [write_verify_json h ?c ?p ?f ?o ?r s2] => pose proof (keeps_verify_json c p f o r s2) as Hw;
      destruct (write_verify_json h c p f o r s2) as [[|?|] s3] end; cbn [snd] in *; congruence.
  - by rewrite (ignore_keeps _ _ (keeps_verify_json _ _ _ _ _)), (ignore_keeps _ _ (keeps_emit _)).
Qed.

(** The command lines that promise to write no file. *)
Definition read_only (cli : Cli) : bool :=
  match cli.(cli_command) with
  | Some (CVerify _ _) | Some (CVerifyV2 _ _ _ _ _) | Some (CAttestationVerify _ _ _) => true
  | Some (CProvision _ _ dry_run _) | Some (CProvisionV2 _ _ _ _ _ dry_run _) => dry_run
  | None => match cli.(cli_target) with Some _ => cli.(cli_dry_run) | None => true end
  | _ => false
  end.

(** Checking changes nothing.  Verification (of both versions, and of attestation
    evidence) and every dry run, successful or not, with whatever calls failing, leave all
    files and the raw device exactly as they were. *)
Theorem read_only_commands d display elapsed gate cli s : read_only cli = true ->
  let s' := snd (main h d display elapsed gate cli s) in fs_of (fst s') = fs_of (fst s) /\ snd s' = snd s.
Proof.
  assert (Hfirst : forall f, fs_of (snd (f (fst s))) = fs_of (fst s) ->
    fs_of (fst (snd (on_first f s))) = fs_of (fst s) /\ snd (snd (on_first f s)) = snd s).
  { intros f Hf. unfold on_first. destruct (f (fst s)) as [st s1]. by cbn in *. }
  intros Hro. cbv zeta. unfold main. destruct gate as [[[|e] lic]|]; [|done..].
  destruct (Report.parse (cli_format cli)) as [fmt|?|]; [|done..]. unfold dispatch, read_only in *.
  destruct (cli_command cli) as [[]|]; try done.
  - apply Hfirst, conclude_keeps, keeps_verify.
  - apply Hfirst. unfold command_verify_v2. destruct (parse_trusted_policy _ _ _); [|apply security_failure_keeps|done].
    apply conclude_keeps, keeps_verify_v2.
  - subst dry_run. apply Hfirst, provision_exit_keeps, keeps_provision.
  - subst dry_run. by apply Hfirst, provision_exit_keeps, keeps_provision_v2.
  - apply Hfirst, exit_keeps, keeps_attestation.
  - apply Hfirst. unfold implicit_provision. destruct (cli_target cli); [|done]. rewrite Hro.
    apply provision_exit_keeps, keeps_provision.
Qed.
End read_only.

Module CommandsWitness.
#[local] Existing Instance Toy.hash.
#[local] Existing Instance toy_hash_laws.
#[local] Existing Instance Toy.sig.
#[local] Existing Instance toy_sig_laws.
Import RecoveryWitness VerifyWitness.

Definition sk : list byte := SignedWitness.sk.
Definition keyed : Shell := {|
  disk := ({| fs := three_files (path "safe" "app") (path "keys" "k") (path "safe" "y") image sk []; past := []; calls := 0 |}, 0);
  audit := []; audited := 0; stdout := []; printed := 0; tpm := [] |}.
Definition args : ProvisionV2Args := {|
  p2_target := path "safe" "app"; p2_output := None; p2_signing_key := path "keys" "k";
  p2_key_id := hex_encode SignedWitness.key_id; p2_release_counter := 9; p2_dry_run := false; p2_extend_tpm := false;
  p2_format := Report.Json_ |}.

Lemma host_works : outputs_work host.
Proof. by split. Defined.

Lemma keyed_ok : provisionable host args (fs_of keyed) (path "safe" "app") image sk SignedWitness.key_id.
Proof.
  split; [vm_compute; reflexivity|vm_compute; reflexivity|vm_compute; reflexivity|by vm_compute| |
    vm_compute; reflexivity|vm_compute; reflexivity| |].
  - exists sk. split; vm_compute; reflexivity.
  - split; vm_compute; reflexivity.
  - split; [discriminate|]. split; [|by vm_compute].
    apply (three_files_tidy (path "safe" "app") (path "keys" "k") (path "safe" "y") image sk []); by vm_compute.
Defined.

Definition policy : TrustedManifestPolicy := {|
  public_key_sec1 := pk_of sk; expected_key_id := SignedWitness.key_id; SignedManifest.minimum_release := 7 |}.

Lemma provision_then_verify_witness : exists s1 s2,
  provision_exit host Audit.ProvisionV2 (txt "provision_v2") args.(p2_target) args.(p2_format) false
    (run_provision_v2 host args) keyed = (0, s1) /\
  command_verify_v2 host args.(p2_target) args.(p2_output) (hex_encode (pk_of sk)) args.(p2_key_id) 7 Report.Text s1 = (0, s2).
Proof.
  assert (Hpol : parse_trusted_policy (hex_encode (pk_of sk)) args.(p2_key_id) 7 = Ok policy) by (vm_compute; reflexivity).
  assert (Hpk : policy.(public_key_sec1) = pk_of sk) by reflexivity.
  assert (Hfl : 7 <= args.(p2_release_counter)) by (vm_compute; discriminate).
  exact (provision_then_verify host host_calm os_faultless host_works args keyed (path "safe" "app") image sk
    SignedWitness.key_id (hex_encode (pk_of sk)) 7 policy Report.Text keyed_ok eq_refl eq_refl Hpol Hpk Hfl).
Defined.

Abbreviation recovering := (command_recover_v2 host (path "boot" "app") None (path "safe" "app") (path "safe" "app.dfim")
  (hex_encode (pk_of sk)) (hex_encode SignedWitness.key_id) 7 Report.Json_ shell).

Lemma recover_exit_zero_witness : exists policy image sidecar v,
  let request := {| Recovery.target := path "boot" "app"; target_sidecar := path "boot" "app.dfim";
    Recovery.recovery_image := path "safe" "app"; Recovery.recovery_sidecar := path "safe" "app.dfim"; Recovery.policy := policy |} in
  parse_trusted_policy (hex_encode (pk_of sk)) (hex_encode SignedWitness.key_id) 7 = Ok policy /\
  authorised request (fs_of shell) image sidecar v /\
  (true = true -> forall after, crash (fs_of (snd recovering)) after -> agrees after (with_both request image sidecar V)) /\
  (snd recovering).(audit) = [] ++ audit_line host (Audit.security 1700000000000 Audit.RecoveryV2 Audit.Success
    (os_bytes (path "boot" "app")) (Some v.(vs_release_counter)) (Some v.(vs_boot).(vb_merkle_root))).
Proof.
  assert (Hz : fst recovering = 0) by (vm_compute; reflexivity).
  pose proof (eq_trans (surjective_pairing recovering) (f_equal (fun z => (z, snd recovering)) Hz)) as Hrun.
  assert (Hne : path "boot" "app" <> path "boot" "app.dfim") by discriminate.
  exact (recover_exit_zero host (path "boot" "app") None (path "safe" "app") (path "safe" "app.dfim") (hex_encode (pk_of sk))
    (hex_encode SignedWitness.key_id) 7 Report.Json_ shell (snd recovering) V host_calm eq_refl eq_refl
    Hne s0_settled eq_refl Hrun).
Defined.

(** A dry run on a host that also extends PCRs. *)
Definition dry : Cli := {|
  cli_command := Some (CProvisionV2 (path "safe" "app") None (path "keys" "k") (hex_encode SignedWitness.key_id) 9 true false);
  cli_target := None; cli_output := None; cli_dry_run := false; cli_extend_tpm := false; cli_format := txt "json" |}.

Lemma read_only_commands_witness :
  let run := main host DeviceWitness.driver os_bytes (fun k => Z.of_nat k) (Some (Continues, None)) dry (keyed, DeviceWitness.device) in
  fst run = 0 /\ fs_of (fst (snd run)) = fs_of keyed /\ snd (snd run) = DeviceWitness.device.
Proof.
  split; [vm_compute; reflexivity|].
  exact (read_only_commands host host_calm DeviceWitness.driver os_bytes (fun k => Z.of_nat k) (Some (Continues, None)) dry
    (keyed, DeviceWitness.device) eq_refl).
Defined.
End CommandsWitness.
