(* ===== verification/Text.v ===== *)
(** * Text: what the management API uses of [str]

    [split] on a character, [join], [replace], [strip_prefix], [trim_start_matches] and
    [trim], on text as its bytes.  All patterns of the sources are ASCII, so that no match
    lies inside the encoding of another character.  The lemmas are the round trips of
    splitting and joining. *)

From stdpp Require Import base list numbers option strings.
From Stdlib Require Import ZArith Lia Strings.Byte.
From S2P Require Import Prelude Json Shell.

Abbreviation text := (list byte).

(** [s.split(c)] *)
Fixpoint split_on (c : byte) (s : text) : list text :=
  match s with
  | [] => [[]]
  | b :: s' =>
      if Byte.eqb b c then [] :: split_on c s'
      else match split_on c s' with
           | p :: ps => (b :: p) :: ps
           | [] => [[b]]
           end
  end.

(** [parts.join(sep)] *)
Fixpoint join (sep : text) (parts : list text) : text :=
  match parts with
  | [] => []
  | [p] => p
  | p :: parts => p ++ sep ++ join sep parts
  end.

(** [s.replace(c, by)] for a character *)
Definition replace_char (c : byte) (by_ : text) (s : text) : text :=
  concat (map (fun b => if Byte.eqb b c then by_ else [b]) s).

(** [s.strip_prefix(p)] *)
Definition strip_prefix (p s : text) : option text :=
  if starts_with s p then Some (drop (length p) s) else None.

(** [s.trim_start_matches(p)]: each removal shortens [s], whose length is the fuel *)
Fixpoint trim_matches (fuel : nat) (p s : text) : text :=
  match fuel with
  | O => s
  | S fuel => match strip_prefix p s with Some s' => trim_matches fuel p s' | None => s end
  end.

Definition trim_start_matches (p s : text) : text := trim_matches (length s) p s.

(** [s.replace(p, by)] for a non-empty pattern: matches from left to right, without overlap *)
Fixpoint replace_matches (fuel : nat) (p by_ s : text) : text :=
  match fuel with
  | O => s
  | S fuel =>
      match strip_prefix p s with
      | Some s' => by_ ++ replace_matches fuel p by_ s'
      | None => match s with [] => [] | b :: s' => b :: replace_matches fuel p by_ s' end
      end
  end.

Definition replace_str (p by_ s : text) : text := replace_matches (S (length s)) p by_ s.

(** [s.trim()] of a string, which is well-formed UTF-8 *)
Definition str_trim (s : text) : text :=
  match utf8_chars s with Some cs => concat (map snd (trim cs)) | None => s end.

Definition without (c : byte) (s : text) : bool := forallb (fun b => negb (Byte.eqb b c)) s.

Lemma byte_eqb_refl c : Byte.eqb c c = true.
Proof. by apply Byte.byte_dec_lb. Qed.

Lemma without_cons c b s : without c (b :: s) = true <-> Byte.eqb b c = false /\ without c s = true.
Proof. unfold without. cbn [forallb]. by rewrite andb_true_iff, negb_true_iff. Qed.

Lemma split_on_without c s : without c s = true -> split_on c s = [s].
Proof.
  induction s as [|b s IH]; [done|]. intros [Hb Hs]%without_cons. cbn [split_on]. by rewrite Hb, IH.
Qed.

Lemma split_on_app c p s : without c p = true -> split_on c (p ++ c :: s) = p :: split_on c s.
Proof.
  induction p as [|b p IH]; intros Hp; cbn [app split_on]; [by rewrite byte_eqb_refl|].
  apply without_cons in Hp as [Hb Hp]. by rewrite Hb, IH.
Qed.

Lemma split_on_nonempty c s : split_on c s <> [].
Proof. destruct s as [|b s]; cbn [split_on]; [done|]. destruct (Byte.eqb b c); [done|]. by destruct (split_on c s). Qed.

Lemma split_on_parts c s : Forall (fun p => without c p = true) (split_on c s).
Proof.
  induction s as [|b s IH]; cbn [split_on]; [by repeat constructor|].
  destruct (Byte.eqb b c) eqn:E; [by constructor|].
  destruct (split_on c s) as [|p ps]; inversion IH; subst.
  - constructor; [| done]. by apply without_cons.
  - constructor; [by apply without_cons | done].
Qed.

(** Splitting loses nothing. *)
Lemma join_split c s : join [c] (split_on c s) = s.
Proof.
  induction s as [|b s IH]; [done|]. cbn [split_on]. pose proof (split_on_nonempty c s).
  destruct (Byte.eqb b c) eqn:E.
  - apply Byte.byte_dec_bl in E as ->. rewrite <- IH at 2. by destruct (split_on c s).
  - rewrite <- IH at 2. destruct (split_on c s) as [|p [|q ps]]; done.
Qed.

Lemma split_join c parts : parts <> [] -> Forall (fun p => without c p = true) parts -> split_on c (join [c] parts) = parts.
Proof.
  intros Hne Hall. induction Hall as [|p parts Hp Hall IH]; [done|].
  destruct parts as [|q parts]; [by apply split_on_without|].
  change (join [c] (p :: q :: parts)) with (p ++ c :: join [c] (q :: parts)). rewrite split_on_app by done. by rewrite IH.
Qed.

Lemma trim_matches_none p s : starts_with s p = false -> trim_start_matches p s = s.
Proof. intros Hs. unfold trim_start_matches. destruct (length s); [done|]. cbn [trim_matches]. unfold strip_prefix. by rewrite Hs. Qed.

Lemma prefix_starts p s : starts_with (p ++ s) p = true.
Proof. induction p as [|b p IH]; cbn [app starts_with]; [by destruct s|]. by rewrite byte_eqb_refl, IH. Qed.

Lemma trim_start_matches_once p s : p <> [] -> starts_with s p = false -> trim_start_matches p (p ++ s) = s.
Proof.
  intros Hp Hs. unfold trim_start_matches. rewrite length_app. destruct p as [|b p]; [done|].
  cbn [length Nat.add trim_matches]. unfold strip_prefix at 1. rewrite prefix_starts, drop_app_length.
  destruct (length p + length s)%nat; [done|]. cbn [trim_matches]. unfold strip_prefix. by rewrite Hs.
Qed.

Lemma without_app c s t : without c (s ++ t) = without c s && without c t.
Proof. apply forallb_app. Qed.

Lemma strip_prefix_app p s : strip_prefix p (p ++ s) = Some s.
Proof. unfold strip_prefix. rewrite prefix_starts. by rewrite drop_app_length. Qed.

(** ** Decimal numbers *)

Lemma dec_loop_digits fuel n : 0 <= n -> forallb is_digit (dec_loop fuel n) = true.
Proof.
  revert n. induction fuel as [|fuel IH]; intros n Hn; [done|]. cbn [dec_loop]. destruct (Z.ltb_spec n 10).
  - cbn. by destruct (digit_facts n) as [-> _]; [lia|].
  - rewrite forallb_app, IH by (apply Z.div_pos; lia). cbn.
    by destruct (digit_facts (n mod 10)) as [-> _]; [apply Z.mod_pos_bound|].
Qed.

Lemma digits_without c s : is_digit c = false -> forallb is_digit s = true -> without c s = true.
Proof.
  intros Hc Hs. unfold without. apply forallb_forall. intros b Hb.
  apply (proj1 (forallb_forall _ _) Hs) in Hb. apply negb_true_iff, not_true_iff_false.
  intros ->%byte_eqb_eq. congruence.
Qed.

Lemma to_string_without c n : is_digit c = false -> 0 <= n -> without c (to_string n) = true.
Proof. intros Hc Hn. by apply digits_without, dec_loop_digits. Qed.

(** A decimal number that is the whole text *)
Definition read_number (s : list byte) : option Z :=
  match read_digits 0 s with (n, []) => Some n | _ => None end.

Definition u64 (z : Z) : Prop := 0 <= z <= U64_MAX.

Lemma u64_digits n : u64 n -> 0 <= n < 10 ^ 39.
Proof. unfold u64, U64_MAX. lia. Qed.

Lemma read_number_to_string n : u64 n -> read_number (to_string n) = Some n.
Proof.
  intros Hn. unfold read_number. rewrite <- (app_nil_r (to_string n)).
  rewrite read_to_string; [done|by apply u64_digits|done].
Qed.
