(* ===== verification/Auth.v ===== *)
(** * Auth: accounts and tokens of the management API

    Models [dfim_management_api/src/auth.rs].  The state is the [OnceLock] with the
    fallback key.  The environment, the random generator and the clock are arguments; the
    crates [hmac], [base64] and [serde_json] are the class [TokenOps], what is relied on
    [TokenLaws].

    The theorems describe every accepted token, and follow a session from the login to
    the claims that the server reads back. *)

From stdpp Require Import base list numbers option strings.
From Stdlib Require Import ZArith Lia Strings.Byte.
From S2P Require Import Prelude Crypto Json Shell Text.

Definition MIN_JWT_SECRET_LEN : Z := 32.
Definition TOKEN_EXPIRY_SECS : Z := 86400.

Record Claims := {
  sub : text;
  tenant : text;
  role : text;
  exp : Z;
  iat : Z
}.

Record LoginRequest := { username : text; password : text }.

Record TokenResponse := {
  access_token : text;
  token_type : text;
  expires_in : Z;
  t_role : text;
  t_tenant : text
}.

Record UserIdentity := { id_role : text; id_tenant : text }.

(** [Hmac::<Sha256>::new_from_slice] with the tag of a message, the URL-safe base64 engine
    without padding, and [serde_json] on the claims and on the fixed header *)
Class TokenOps := {
  hmac_new : text -> outcome text (text -> text);
  b64_encode : text -> text;
  b64_decode : text -> outcome text text;
  claims_to_json : Claims -> option text;
  claims_of_json : text -> outcome text Claims;
  header_to_json : option text
}.

(** The bytes of the URL-safe alphabet *)
Definition b64_char (b : byte) : bool :=
  let v := b2z b in
  ((0x30 <=? v) && (v <=? 0x39)) || ((0x41 <=? v) && (v <=? 0x5A)) || ((0x61 <=? v) && (v <=? 0x7A)) ||
  (v =? 0x2D) || (v =? 0x5F).

Definition claims_wf (c : Claims) : Prop := 0 <= c.(exp) <= U64_MAX /\ 0 <= c.(iat) <= U64_MAX.

Class TokenLaws `{TokenOps} : Prop := {
  hmac_any_key : forall k, exists mac, hmac_new k = Ok mac;
  b64_roundtrip : forall d, b64_decode (b64_encode d) = Ok d;
  b64_alphabet : forall d, forallb b64_char (b64_encode d) = true;
  claims_roundtrip : forall c, claims_wf c -> exists j, claims_to_json c = Some j /\ claims_of_json j = Ok c
}.

(** The environment variables, and what the random generator returns when it is asked *)
Record AuthEnv := {
  env_var : text -> option text;
  random_key : option text
}.

(** [SystemTime::now().duration_since(UNIX_EPOCH)] in seconds *)
Definition unix_secs (clock : Z) : outcome text Z :=
  if clock <? 0 then Err (txt "second time provided was later than self") else Ok clock.

Abbreviation Auth := (stm (option text) text).

Section model.
Context `{HashOps} `{TokenOps}.
Context (env : AuthEnv).

(** [FALLBACK.get_or_init] *)
Definition fallback_key : Auth text :=
  st ← get;
  match st with
  | Some key => mret key
  | None =>
      key ← lift (unwrap env.(random_key));
      put (Some key) ;;
      mret key
  end.

Definition jwt_secret : Auth text :=
  match env.(env_var) (txt "DFIM_JWT_SECRET") with
  | Some secret =>
      let secret := str_trim secret in
      if MIN_JWT_SECRET_LEN <=? zlen secret then mret secret else fallback_key
  | None => fallback_key
  end.

Definition tenant_from_env (key : text) : text := default (txt "default") (env.(env_var) key).

(** One block of [configured_accounts] *)
Definition account (user pass tenant_key role_name : text) : list (text * text * UserIdentity) :=
  match env.(env_var) user, env.(env_var) pass with
  | Some u, Some p =>
      if negb (bytes_eqb u []) && negb (bytes_eqb p [])
      then [(u, p, {| id_role := role_name; id_tenant := tenant_from_env tenant_key |})]
      else []
  | _, _ => []
  end.

Definition configured_accounts : list (text * text * UserIdentity) :=
  account (txt "DFIM_ADMIN_USER") (txt "DFIM_ADMIN_PASSWORD") (txt "DFIM_ADMIN_TENANT") (txt "admin") ++
  account (txt "DFIM_OPERATOR_USER") (txt "DFIM_OPERATOR_PASSWORD") (txt "DFIM_OPERATOR_TENANT") (txt "operator") ++
  account (txt "DFIM_READONLY_USER") (txt "DFIM_READONLY_PASSWORD") (txt "DFIM_READONLY_TENANT") (txt "readonly").

Definition resolve_identity (accounts : list (text * text * UserIdentity)) (user pass : text) : option UserIdentity :=
  fold_left (fun matched '(u, p, identity) =>
    let user_eq := (zlen u =? zlen user) && ct_eq u user in
    let pass_eq := (zlen p =? zlen pass) && ct_eq p pass in
    if user_eq && pass_eq then Some identity else matched) accounts None.

Definition validate_credentials (user pass : text) : option UserIdentity :=
  resolve_identity configured_accounts user pass.

Definition base64_encode_json (json : option text) : text := b64_encode (default [] json).

Definition base64_decode_json (b64 : text) : outcome text Claims :=
  bytes ← b64_decode b64;
  claims_of_json bytes.

Definition DOT : byte := x2e.

Definition issue_token (clock : Z) (user role_name tenant_name : text) : Auth text :=
  now ← lift (unix_secs clock);
  expiry ← lift (add_usize now TOKEN_EXPIRY_SECS);
  let claims := {| sub := user; tenant := tenant_name; role := role_name; exp := expiry; iat := now |} in
  let header := base64_encode_json header_to_json in
  let payload := base64_encode_json (claims_to_json claims) in
  let signing_input := header ++ [DOT] ++ payload in
  secret ← jwt_secret;
  mac ← lift (hmac_new secret);
  let signature := b64_encode (mac signing_input) in
  mret (header ++ [DOT] ++ payload ++ [DOT] ++ signature).

Definition verify_jwt (clock : Z) (token : text) : Auth Claims :=
  let token := trim_start_matches (txt "Bearer ") token in
  match split_on DOT token with
  | [p0; p1; p2] =>
      let signing_input := p0 ++ [DOT] ++ p1 in
      secret ← jwt_secret;
      mac ← lift (hmac_new secret);
      let expected := mac signing_input in
      provided ← lift (b64_decode p2);
      if negb (zlen expected =? zlen provided) || negb (ct_eq expected provided)
      then lift (Err (txt "Invalid signature"))
      else
        claims ← lift (base64_decode_json p1);
        now ← lift (unix_secs clock);
        if claims.(exp) <? now then lift (Err (txt "Token expired")) else mret claims
  | _ => lift (Err (txt "Invalid token format"))
  end.

Definition login (clock : Z) (req : LoginRequest) : Auth TokenResponse :=
  identity ← lift (ok_or (validate_credentials req.(username) req.(password)) (txt "Invalid credentials"));
  token ← issue_token clock req.(username) identity.(id_role) identity.(id_tenant);
  mret {| access_token := token; token_type := txt "Bearer"; expires_in := TOKEN_EXPIRY_SECS;
          t_role := identity.(id_role); t_tenant := identity.(id_tenant) |}.
End model.

(** ** Keys *)

(** What the code guarantees about keys: 32 random bytes, or a secret that is long enough. *)
Definition env_wf (env : AuthEnv) : Prop := forall k, env.(random_key) = Some k -> zlen k = 32.
Definition state_wf (st : option text) : Prop := forall k, st = Some k -> zlen k = 32.

Section proofs.
Context `{HashLaws} `{TokenLaws}.
Context (env : AuthEnv).

Lemma fallback_key_Ok st k st' : env_wf env -> state_wf st -> fallback_key env st = (Ok k, st') ->
  zlen k = 32 /\ state_wf st' /\ fallback_key env st' = (Ok k, st').
Proof.
  intros He Hst Hk. unfold fallback_key in Hk. rewrite stm_get in Hk. destruct st as [key|].
  - injection Hk as -> <-. split; [by apply Hst|]. by split.
  - rewrite stm_lift in Hk. destruct (env.(random_key)) as [key|] eqn:Hr; [| done].
    injection Hk as -> <-. split; [by apply He|]. split; [| done]. intros k' [= <-]. by apply He.
Qed.

(** A key is never shorter than 32 bytes, and stays the key. *)
Lemma jwt_secret_Ok st k st' : env_wf env -> state_wf st -> jwt_secret env st = (Ok k, st') ->
  MIN_JWT_SECRET_LEN <= zlen k /\ state_wf st' /\ jwt_secret env st' = (Ok k, st').
Proof.
  intros He Hst Hk. unfold jwt_secret in Hk |- *.
  assert (Hf : fallback_key env st = (Ok k, st') -> MIN_JWT_SECRET_LEN <= zlen k /\ state_wf st' /\ fallback_key env st' = (Ok k, st')).
  { intros Hf. destruct (fallback_key_Ok st k st' He Hst Hf) as (-> & ? & ?). done. }
  destruct (env.(env_var) _) as [secret|]; [| by apply Hf].
  destruct (MIN_JWT_SECRET_LEN <=? zlen (str_trim secret)) eqn:E; [| by apply Hf].
  injection Hk as <- <-. split; [by apply Z.leb_le|]. by split.
Qed.

(** ** Tokens *)

Lemma unix_secs_Ok clock t : unix_secs clock = Ok t <-> t = clock /\ 0 <= clock.
Proof. unfold unix_secs. destruct (clock <? 0) eqn:E; [split; [done | lia] |]. split; [intros [= ->]; lia | by intros [-> _]]. Qed.

(** What the signature and expiry checks accept, for the three parts of a token *)
Lemma verify_parts_Ok clock k mac p0 p1 p2 (st : option text) c st' : hmac_new k = Ok mac ->
  (provided ← lift (b64_decode p2);
   if negb (zlen (mac (p0 ++ [DOT] ++ p1)) =? zlen provided) || negb (ct_eq (mac (p0 ++ [DOT] ++ p1)) provided)
   then lift (Err (txt "Invalid signature"))
   else
     claims ← lift (base64_decode_json p1);
     now ← lift (unix_secs clock);
     if claims.(exp) <? now then lift (Err (txt "Token expired")) else mret claims) st = (Ok c, st') <->
  st' = st /\ b64_decode p2 = Ok (mac (p0 ++ [DOT] ++ p1)) /\ base64_decode_json p1 = Ok c /\ 0 <= clock <= c.(exp).
Proof.
  intros _. rewrite stm_lift. destruct (b64_decode p2) as [provided|e|]; [| naive_solver..].
  destruct (decide (mac (p0 ++ [DOT] ++ p1) = provided)) as [Heq|Hne].
  2:{ assert (ct_eq (mac (p0 ++ [DOT] ++ p1)) provided = false) as -> by (by apply ct_eq_false).
      rewrite orb_true_r. split; [done|]. intros (_ & [= ->] & _). done. }
  rewrite Heq, ct_eq_refl, Z.eqb_refl. cbn [negb orb]. rewrite stm_lift.
  destruct (base64_decode_json p1) as [claims|e|]; [| naive_solver..].
  rewrite stm_lift. pose proof (unix_secs_Ok clock) as Hu. destruct (unix_secs clock) as [t|e|].
  - destruct (proj1 (Hu t) eq_refl) as [-> Hc].
    destruct (claims.(exp) <? clock) eqn:E.
    + split; [done|]. intros (_ & _ & [= ->] & ?). lia.
    + split; [intros [= -> ->]; split_and!; (done || lia)|]. by intros (-> & _ & [= ->] & _).
  - split; [done|]. intros (_ & _ & _ & Hc). by pose proof (proj2 (Hu clock) (conj eq_refl (proj1 Hc))).
  - split; [done|]. intros (_ & _ & _ & Hc). by pose proof (proj2 (Hu clock) (conj eq_refl (proj1 Hc))).
Qed.

Lemma three_parts s p0 p1 p2 : split_on DOT s = [p0; p1; p2] <->
  s = p0 ++ [DOT] ++ p1 ++ [DOT] ++ p2 /\ without DOT p0 = true /\ without DOT p1 = true /\ without DOT p2 = true.
Proof.
  split.
  - intros Hs. pose proof (join_split DOT s) as Hj. pose proof (split_on_parts DOT s) as Hp. rewrite Hs in Hj, Hp.
    rewrite <- Hj. repeat (apply Forall_cons in Hp as [? Hp]). done.
  - intros (-> & H0' & H1' & H2'). cbn [app]. by rewrite !split_on_app, split_on_without.
Qed.

Lemma verify_jwt_Ok clock tok st c st' : 
  verify_jwt env clock tok st = (Ok c, st') <->
  exists k mac p0 p1 p2, jwt_secret env st = (Ok k, st') /\ hmac_new k = Ok mac /\
    trim_start_matches (txt "Bearer ") tok = p0 ++ [DOT] ++ p1 ++ [DOT] ++ p2 /\
    (without DOT p0 = true /\ without DOT p1 = true /\ without DOT p2 = true) /\
    b64_decode p2 = Ok (mac (p0 ++ [DOT] ++ p1)) /\ base64_decode_json p1 = Ok c /\ 0 <= clock <= c.(exp).
Proof.
  unfold verify_jwt. set (s := trim_start_matches (txt "Bearer ") tok).
  split.
  - intros Hv. destruct (split_on DOT s) as [|p0 [|p1 [|p2 [|]]]] eqn:Hs; try done.
    apply three_parts in Hs as [-> Hw]. apply stm_bind_Ok in Hv as (k & st1 & Hk & Hv).
    apply stm_bind_Ok in Hv as (mac & st2 & [Hm ->]%stm_lift_Ok & Hv).
    apply (verify_parts_Ok clock k) in Hv as (-> & ? & ? & ?); [| done]. by exists k, mac, p0, p1, p2.
  - intros (k & mac & p0 & p1 & p2 & Hk & Hm & Hs & Hw & Hrest).
    rewrite (proj2 (three_parts s p0 p1 p2) (conj Hs Hw)).
    rewrite (stm_step _ _ _ _ _ Hk). rewrite stm_lift, Hm. by apply (verify_parts_Ok clock k).
Qed.

(** C25: A token is accepted exactly when it has three parts, the third is the base64 of the MAC of
    the first two under the server's key, the second decodes to the claims, and they have
    not expired.  The key has at least 32 bytes.  Nothing the header says (its algorithm,
    say) matters. *)
Theorem jwt_verify_exact clock tok st c : env_wf env -> state_wf st ->
  fst (verify_jwt env clock tok st) = Ok c <->
  exists k mac p0 p1 p2, fst (jwt_secret env st) = Ok k /\ MIN_JWT_SECRET_LEN <= zlen k /\ hmac_new k = Ok mac /\
    trim_start_matches (txt "Bearer ") tok = p0 ++ [DOT] ++ p1 ++ [DOT] ++ p2 /\
    (without DOT p0 = true /\ without DOT p1 = true /\ without DOT p2 = true) /\
    b64_decode p2 = Ok (mac (p0 ++ [DOT] ++ p1)) /\ base64_decode_json p1 = Ok c /\ 0 <= clock <= c.(exp).
Proof.
  intros He Hst. split.
  - intros Hv. destruct (verify_jwt env clock tok st) as [r st'] eqn:E. cbn [fst] in Hv. subst r.
    apply verify_jwt_Ok in E as (k & mac & p0 & p1 & p2 & Hk & Hrest).
    exists k, mac, p0, p1, p2. rewrite Hk. split; [done|]. split; [| done]. by destruct (jwt_secret_Ok st k st' He Hst Hk).
  - intros (k & mac & p0 & p1 & p2 & Hk & _ & Hrest). destruct (jwt_secret env st) as [r st'] eqn:E. cbn [fst] in Hk. subst r.
    rewrite (proj2 (verify_jwt_Ok clock tok st c st')); [done|]. by exists k, mac, p0, p1, p2.
Qed.

(** ** Sessions *)

(** The identity of a user: that of the last account with this name and password *)
Definition identity_of (accounts : list (text * text * UserIdentity)) (user pass : text) : option UserIdentity :=
  last (snd <$> filter (fun a => a.1 = (user, pass)) accounts).

Lemma resolve_identity_spec accounts user pass : resolve_identity accounts user pass = identity_of accounts user pass.
Proof.
  unfold resolve_identity, identity_of. induction accounts as [|[[u p] i] accounts IH] using rev_ind; [done|].
  rewrite fold_left_app, filter_app, fmap_app, last_app. cbn [fold_left]. rewrite IH. rewrite filter_cons, filter_nil.
  destruct (decide ((u, p) = (user, pass))) as [[= -> ->]|Hne]; cbn [fst].
  - rewrite !ct_eq_refl, !Z.eqb_refl, decide_True by done. done.
  - rewrite decide_False by done. cbn [fmap list_fmap last].
    destruct (decide (u = user)) as [->|Hu].
    + assert (ct_eq p pass = false) as -> by (apply ct_eq_false; congruence). by rewrite !andb_false_r.
    + assert (ct_eq u user = false) as -> by (by apply ct_eq_false). by rewrite !andb_false_r.
Qed.

Lemma starts_with_all (P : byte -> bool) p : forall l, forallb P l = true -> starts_with l p = true -> forallb P p = true.
Proof.
  induction p as [|b p IH]; intros l Hl Hs; [done|]. destruct l as [|a l]; [done|]. cbn [starts_with forallb] in *.
  apply andb_prop in Hl as [Ha Hl]. apply andb_prop in Hs as [Hab%Byte.byte_dec_bl Hs]. subst a.
  rewrite Ha. by eapply IH.
Qed.

Lemma b64_without_dot s : forallb b64_char s = true -> without DOT s = true.
Proof.
  induction s as [|b s IH]; [done|]. cbn [forallb]. intros [Hb Hs]%andb_prop. apply without_cons. split; [| by apply IH].
  destruct (Byte.eqb b DOT) eqn:E; [| done]. apply Byte.byte_dec_bl in E as ->. done.
Qed.

Definition token_char (b : byte) : bool := b64_char b || Byte.eqb b DOT.

Lemma b64_token s : forallb b64_char s = true -> forallb token_char s = true.
Proof.
  rewrite !forallb_forall. intros Hs b Hb. unfold token_char. by rewrite (Hs b Hb).
Qed.

(** The token over the claims [c]: header, payload and tag under a key *)
Definition token_of (mac : text -> text) (j : text) : text :=
  let h := base64_encode_json header_to_json in
  let p := base64_encode_json (Some j) in
  h ++ [DOT] ++ p ++ [DOT] ++ b64_encode (mac (h ++ [DOT] ++ p)).

(** What the verifier makes of a token with a valid tag: only its expiry counts. *)
Lemma signed_token_verdict c j k mac st st' later : claims_to_json c = Some j -> claims_of_json j = Ok c ->
  jwt_secret env st = (Ok k, st') -> hmac_new k = Ok mac -> 0 <= later ->
  verify_jwt env later (txt "Bearer " ++ token_of mac j) st =
    (if c.(exp) <? later then Err (txt "Token expired") else Ok c, st').
Proof.
  intros Hj Hj' Hk Hm Hl. unfold token_of. set (h := base64_encode_json header_to_json). set (p := base64_encode_json (Some j)).
  assert (Hh : forallb b64_char h = true) by apply b64_alphabet. assert (Hp : forallb b64_char p = true) by apply b64_alphabet.
  pose proof (b64_alphabet (mac (h ++ [DOT] ++ p))) as Hs. unfold verify_jwt. rewrite trim_start_matches_once.
  2:{ done. }
  2:{ apply not_true_is_false. intros Hsw. assert (forallb token_char (txt "Bearer ") = true); [| done].
      eapply starts_with_all; [| exact Hsw]. rewrite !forallb_app, (b64_token h Hh), (b64_token p Hp), (b64_token _ Hs). done. }
  rewrite (proj2 (three_parts _ h p (b64_encode (mac (h ++ [DOT] ++ p)))))
    by (split; [done|]; split_and!; by apply b64_without_dot).
  rewrite (stm_step _ _ _ _ _ Hk), stm_lift, Hm, stm_lift, b64_roundtrip, Z.eqb_refl, ct_eq_refl. cbn [negb orb].
  rewrite stm_lift. unfold base64_decode_json, p, base64_encode_json. cbn [default from_option id]. rewrite b64_roundtrip, ok_bind, Hj'.
  rewrite stm_lift, (proj2 (unix_secs_Ok later later)) by done. by destruct (c.(exp) <? later).
Qed.

(** The token that [issue_token] writes, and what the verifier makes of it *)
Lemma issued_token_verifies clock user r t st k st' later :
  jwt_secret env st = (Ok k, st') -> jwt_secret env st' = (Ok k, st') ->
  0 <= clock -> clock + TOKEN_EXPIRY_SECS <= U64_MAX -> 0 <= later <= clock + TOKEN_EXPIRY_SECS ->
  exists token, issue_token env clock user r t st = (Ok token, st') /\
    verify_jwt env later (txt "Bearer " ++ token) st' =
      (Ok {| sub := user; tenant := t; role := r; exp := clock + TOKEN_EXPIRY_SECS; iat := clock |}, st').
Proof.
  intros Hk Hk' Hc Hmax Hl. destruct (hmac_any_key k) as [mac Hm].
  set (c := {| sub := user; tenant := t; role := r; exp := clock + TOKEN_EXPIRY_SECS; iat := clock |}).
  destruct (claims_roundtrip c) as (j & Hj & Hj').
  { unfold claims_wf; cbn [exp iat c]. unfold TOKEN_EXPIRY_SECS in *. lia. }
  exists (token_of mac j). split.
  - unfold issue_token. rewrite stm_lift, (proj2 (unix_secs_Ok clock clock)) by done.
    rewrite stm_lift. unfold add_usize. replace (clock + TOKEN_EXPIRY_SECS <=? USIZE_MAX) with true by (symmetry; by apply Z.leb_le).
    fold c. rewrite Hj. rewrite (stm_step _ _ _ _ _ Hk). rewrite stm_lift, Hm. done.
  - rewrite (signed_token_verdict c j k mac st' st' later Hj Hj' Hk' Hm) by lia.
    replace (c.(exp) <? later) with false; [done|]. symmetry. apply Z.ltb_ge. cbn [exp c]. lia.
Qed.

(** C26: Logging in.  Without a matching account the answer is "Invalid credentials" and nothing
    changes; with one, the token the client gets is accepted until it expires, 24 hours
    later and not after, and carries the user's name and the tenant and role of the last
    account that matches, whatever the client sends. *)
Theorem login_session clock req st k st' : env_wf env -> state_wf st ->
  jwt_secret env st = (Ok k, st') -> 0 <= clock -> clock + TOKEN_EXPIRY_SECS <= U64_MAX ->
  match identity_of (configured_accounts env) req.(username) req.(password) with
  | None => login env clock req st = (Err (txt "Invalid credentials"), st)
  | Some i => exists token,
      login env clock req st =
        (Ok {| access_token := token; token_type := txt "Bearer"; expires_in := TOKEN_EXPIRY_SECS;
               t_role := i.(id_role); t_tenant := i.(id_tenant) |}, st') /\
      forall later, clock <= later ->
        let c := {| sub := req.(username); tenant := i.(id_tenant); role := i.(id_role);
                    exp := clock + TOKEN_EXPIRY_SECS; iat := clock |} in
        fst (verify_jwt env later (txt "Bearer " ++ token) st') = Ok c <-> later <= clock + TOKEN_EXPIRY_SECS
  end.
Proof.
  intros He Hst Hk Hc Hmax. destruct (jwt_secret_Ok st k st' He Hst Hk) as (_ & _ & Hk').
  destruct (identity_of _ _ _) as [i|] eqn:Hi.
  - destruct (issued_token_verifies clock req.(username) i.(id_role) i.(id_tenant) st k st' clock Hk Hk' Hc Hmax)
      as (token & Ht & _); [unfold TOKEN_EXPIRY_SECS; lia|].
    exists token. split.
    + unfold login, validate_credentials. rewrite resolve_identity_spec, Hi. rewrite stm_lift. cbn [ok_or].
      by rewrite (stm_step _ _ _ _ _ Ht).
    + intros later Hl c. split.
      * intros Hv. destruct (verify_jwt env later (txt "Bearer " ++ token) st') as [r st2] eqn:E. cbn [fst] in Hv. subst r.
        apply verify_jwt_Ok in E as (? & ? & ? & ? & ? & _ & _ & _ & _ & _ & _ & Hb). cbn [exp c] in Hb. lia.
      * intros Hle. destruct (issued_token_verifies clock req.(username) i.(id_role) i.(id_tenant) st k st' later Hk Hk' Hc Hmax)
          as (token' & Ht' & Hv'); [lia|]. assert (token' = token) as -> by congruence. by rewrite Hv'.
  - unfold login, validate_credentials. rewrite resolve_identity_spec, Hi. done.
Qed.
End proofs.

(** ** Concrete functions that satisfy the laws *)

Module ToyToken.

(** Two letters per byte *)
Fixpoint encode (d : text) : text :=
  match d with
  | [] => []
  | b :: d => z2b (0x41 + b2z b / 16) :: z2b (0x41 + b2z b mod 16) :: encode d
  end.

Fixpoint decode (s : text) : outcome text text :=
  match s with
  | [] => Ok []
  | a :: b :: s => d ← decode s; Ok (z2b ((b2z a - 0x41) * 16 + (b2z b - 0x41)) :: d)
  | _ => Err (txt "odd length")
  end.

(** Strings with a mark before every byte and a terminator; numbers at their width *)
Fixpoint put_str (s : text) (r : text) : text :=
  match s with [] => x00 :: r | b :: s => x01 :: b :: put_str s r end.

Fixpoint take_str (s : text) : option (text * text) :=
  match s with
  | x00 :: r => Some ([], r)
  | _ :: b :: s => p ← take_str s; Some (b :: p.1, p.2)
  | _ => None
  end.

Definition of_claims (c : Claims) : text :=
  put_str c.(sub) (put_str c.(tenant) (put_str c.(role) (le_encode 8 c.(exp) ++ le_encode 8 c.(iat)))).

Definition to_claims (s : text) : outcome text Claims :=
  match (p ← take_str s; q ← take_str p.2; r ← take_str q.2; Some (p.1, q.1, r)) with
  | Some (a, b, r) =>
      Ok {| sub := a; tenant := b; role := r.1; exp := le_decode (take 8 r.2); iat := le_decode (drop 8 r.2) |}
  | None => Err (txt "bad claims")
  end.

Definition ops : TokenOps := {|
  hmac_new k := Ok (fun m => Toy.toy_digest (k ++ m));
  b64_encode := encode;
  b64_decode := decode;
  claims_to_json c := Some (of_claims c);
  claims_of_json := to_claims;
  header_to_json := Some (txt "{}")
|}.

Lemma take_put_str s r : take_str (put_str s r) = Some (s, r).
Proof. induction s as [|b s IH]; cbn [put_str take_str]; [done|]. by rewrite IH. Qed.

Lemma toy_token_laws : @TokenLaws ops.
Proof.
  split; cbn [hmac_new b64_encode b64_decode claims_to_json claims_of_json ops].
  - intros k. by eexists.
  - induction d as [|b d IH]; [done|]. cbn [encode decode]. rewrite IH, ok_bind. do 2 f_equal. by destruct b.
  - induction d as [|b d IH]; [done|]. cbn [encode forallb]. rewrite IH. by destruct b.
  - intros c [He Hi]. exists (of_claims c). split; [done|]. unfold of_claims, to_claims.
    rewrite take_put_str. cbn [mbind option_bind fst snd]. rewrite take_put_str. cbn [mbind option_bind fst snd].
    rewrite take_put_str. cbn [mbind option_bind fst snd].
    rewrite take_app_length', drop_app_length' by (by rewrite length_le_encode).
    unfold U64_MAX in *. rewrite !le_decode_encode_small by (cbn [Z.of_nat]; lia). by destruct c.
Qed.

Definition env : AuthEnv := {|
  env_var key :=
    if bytes_eqb key (txt "DFIM_OPERATOR_USER") then Some (txt "ops")
    else if bytes_eqb key (txt "DFIM_OPERATOR_PASSWORD") then Some (txt "pw")
    else if bytes_eqb key (txt "DFIM_OPERATOR_TENANT") then Some (txt "acme")
    else None;
  random_key := Some (replicate 32 x2a)
|}.
End ToyToken.

(** An operator logs in at second 1000; the token verifies an hour later. *)
Lemma login_session_witness :
  exists token st,
    fst (@login Toy.hash ToyToken.ops ToyToken.env 1000 {| username := txt "ops"; password := txt "pw" |} None) =
      Ok {| access_token := token; token_type := txt "Bearer"; expires_in := 86400; t_role := txt "operator"; t_tenant := txt "acme" |} /\
    fst (@verify_jwt Toy.hash ToyToken.ops ToyToken.env 4600 (txt "Bearer " ++ token) st) =
      Ok {| sub := txt "ops"; tenant := txt "acme"; role := txt "operator"; exp := 87400; iat := 1000 |}.
Proof.
  pose proof (@login_session Toy.hash toy_hash_laws ToyToken.ops ToyToken.toy_token_laws ToyToken.env 1000
    {| username := txt "ops"; password := txt "pw" |} None (replicate 32 x2a) (Some (replicate 32 x2a))) as Hs.
  assert (He : env_wf ToyToken.env) by (by intros k [= <-]).
  assert (Hst : state_wf None) by done.
  specialize (Hs He Hst eq_refl ltac:(lia) ltac:(unfold TOKEN_EXPIRY_SECS, U64_MAX; lia)).
  assert (Hi : identity_of (configured_accounts ToyToken.env) (txt "ops") (txt "pw") =
    Some {| id_role := txt "operator"; id_tenant := txt "acme" |}) by reflexivity.
  cbn [username password] in Hs. rewrite Hi in Hs. destruct Hs as (token & Hl & Hv).
  exists token, (Some (replicate 32 x2a)). rewrite Hl. split; [reflexivity|].
  exact (proj2 (Hv 4600 ltac:(lia)) ltac:(unfold TOKEN_EXPIRY_SECS; lia)).
Defined.

(** A token made by hand with the server's key is accepted. *)
Lemma jwt_verify_exact_witness :
  let k := replicate 32 x2a in
  let c := {| sub := txt "a"; tenant := txt "t"; role := txt "admin"; exp := 50; iat := 0 |} in
  let p := ToyToken.encode (ToyToken.of_claims c) in
  let token := txt "h" ++ [DOT] ++ p ++ [DOT] ++ ToyToken.encode (Toy.toy_digest (k ++ txt "h" ++ [DOT] ++ p)) in
  fst (@verify_jwt Toy.hash ToyToken.ops ToyToken.env 50 token None) = Ok c.
Proof.
  intros k c p token. apply (@jwt_verify_exact Toy.hash toy_hash_laws ToyToken.ops ToyToken.env).
  - by intros k' [= <-].
  - done.
  - exists k, (fun m => Toy.toy_digest (k ++ m)), (txt "h"), p, (ToyToken.encode (Toy.toy_digest (k ++ txt "h" ++ [DOT] ++ p))).
    split; [reflexivity|]. split; [unfold MIN_JWT_SECRET_LEN, zlen, k; rewrite length_replicate; lia|]. split; [reflexivity|].
    split; [vm_compute; reflexivity|]. split; [split; [reflexivity|]; split; vm_compute; reflexivity|].
    split; [apply (@b64_roundtrip ToyToken.ops ToyToken.toy_token_laws)|]. split; [vm_compute; reflexivity|]. cbn [exp c]. lia.
Defined.
