(* ===== verification/RateLimit.v ===== *)
(** * RateLimit: the request limiter of the management API

    Models [dfim_management_api/src/ratelimit.rs].  [TokenBucket] counts in binary64, as the
    source does, on a clock in nanoseconds.  The limiter keeps one map per shard, each
    behind its own lock; every operation takes the write lock of the shard it works on, so
    that it is one step of the model.  The hash that chooses the shard ([DefaultHasher],
    whose algorithm the standard library leaves open) is a parameter.

    The specification is one bucket per address, [PerIp].  The theorems show that sharding
    is invisible, and that in one instant a client gets at most [burst] requests through,
    and exactly [burst] when it was not known before. *)

From stdpp Require Import base list numbers option strings gmap.
From Stdlib Require Import ZArith Lia Floats.SpecFloat.
From S2P Require Import Prelude Float64.

Definition SHARD_COUNT : Z := 64.

(** [std::net::IpAddr] *)
Inductive IpAddr :=
| V4 (bits : Z)
| V6 (bits : Z).

#[export] Instance IpAddr_eq_dec : EqDecision IpAddr.
Proof. solve_decision. Defined.

#[export] Instance IpAddr_countable : Countable IpAddr.
Proof.
  refine (inj_countable' (fun a => match a with V4 b => inl b | V6 b => inr b end)
    (fun s => match s with inl b => V4 b | inr b => V6 b end) _).
  by intros [].
Defined.

(** [Duration::as_secs_f64] of a duration in nanoseconds *)
Definition as_secs_f64 (nanos : Z) : f64 :=
  f64_add (f64_of (nanos / 1000000000)) (f64_div (f64_of (nanos mod 1000000000)) (f64_of 1000000000)).

(** [Instant::duration_since], which saturates at zero *)
Definition duration_since (now earlier : Z) : Z := Z.max 0 (now - earlier).

Record TokenBucket := {
  tokens : f64;
  last_refill : Z;
  rate : f64;
  max_tokens : f64
}.

(** [TokenBucket::new] at the instant [now] *)
Definition bucket_new (rate burst : f64) (now : Z) : TokenBucket :=
  {| tokens := burst; last_refill := now; rate := rate; max_tokens := burst |}.

Definition try_consume (now : Z) (b : TokenBucket) : bool * TokenBucket :=
  let elapsed := as_secs_f64 (duration_since now b.(last_refill)) in
  let t := f64_min (f64_add b.(tokens) (f64_mul elapsed b.(rate))) b.(max_tokens) in
  if f64_ge t (f64_of 1)
  then (true, {| tokens := f64_sub t (f64_of 1); last_refill := now; rate := b.(rate); max_tokens := b.(max_tokens) |})
  else (false, {| tokens := t; last_refill := now; rate := b.(rate); max_tokens := b.(max_tokens) |}).

Abbreviation Shard := (gmap IpAddr TokenBucket).

Record RateLimiter := {
  shards : list Shard;
  rl_rate : f64;
  rl_burst : f64
}.

(** [RateLimiter::new] *)
Definition limiter_new (rate burst : Z) : RateLimiter :=
  {| shards := array ∅ SHARD_COUNT; rl_rate := f64_of rate; rl_burst := f64_of burst |}.

Definition shard_count (l : RateLimiter) : Z := zlen l.(shards).

(** The two outcomes of an operation: a reply, or a panic *)
Abbreviation Limiter A := (stm RateLimiter Empty_set A).

Section model.
(** the [u64] that [DefaultHasher] gives for an address *)
Context (hash : IpAddr -> Z).

Definition shard_index {E} (l : RateLimiter) (ip : IpAddr) : outcome E Z :=
  if zlen l.(shards) =? 0 then Panic else Ok (hash ip mod zlen l.(shards)).

Definition with_shards (l : RateLimiter) (s : list Shard) : RateLimiter :=
  {| shards := s; rl_rate := l.(rl_rate); rl_burst := l.(rl_burst) |}.

(** [created] is the clock when a new bucket is made, [now] when it is asked *)
Definition check (ip : IpAddr) (created now : Z) : Limiter bool :=
  l ← get;
  i ← lift (shard_index l ip);
  buckets ← lift (index l.(shards) i);
  let bucket := default (bucket_new l.(rl_rate) l.(rl_burst) created) (buckets !! ip) in
  let '(allowed, bucket) := try_consume now bucket in
  s ← lift (store l.(shards) i (<[ip := bucket]> buckets));
  put (with_shards l s) ;;
  mret allowed.

Definition tokens_remaining (ip : IpAddr) : Limiter f64 :=
  l ← get;
  i ← lift (shard_index l ip);
  buckets ← lift (index l.(shards) i);
  mret (default l.(rl_burst) (tokens <$> buckets !! ip)).

Definition retained (max_age now : Z) (b : TokenBucket) : bool := duration_since now b.(last_refill) <? max_age.

Definition cleanup (max_age now : Z) : Limiter unit :=
  modify (fun l => with_shards l ((filter (fun kb => retained max_age now kb.2 = true)) <$> l.(shards))).

Definition tracked_ips : Limiter Z :=
  l ← get;
  mret (foldr (fun s n => Z.of_nat (size s) + n) 0 l.(shards)).

(** The operations as data, with what they answer *)
Inductive Op :=
| Check (ip : IpAddr) (created now : Z)
| TokensRemaining (ip : IpAddr)
| Cleanup (max_age now : Z)
| TrackedIps.

Inductive Reply :=
| Allowed (b : bool)
| Tokens (t : f64)
| Cleaned
| Tracked (n : Z).

Definition run_op (op : Op) : Limiter Reply :=
  match op with
  | Check ip created now => b ← check ip created now; mret (Allowed b)
  | TokensRemaining ip => t ← tokens_remaining ip; mret (Tokens t)
  | Cleanup max_age now => cleanup max_age now ;; mret Cleaned
  | TrackedIps => n ← tracked_ips; mret (Tracked n)
  end.

Fixpoint run (ops : list Op) : Limiter (list Reply) :=
  match ops with
  | [] => mret []
  | op :: ops => r ← run_op op; rs ← run ops; mret (r :: rs)
  end.
End model.

(** ** The specification: one bucket per address *)

Module PerIp.
Section spec.
Context (rt burst : f64).

Definition check (ip : IpAddr) (created now : Z) (m : Shard) : bool * Shard :=
  let '(allowed, b) := try_consume now (default (bucket_new rt burst created) (m !! ip)) in
  (allowed, <[ip := b]> m).

Definition step (op : Op) (m : Shard) : Reply * Shard :=
  match op with
  | Check ip created now => let '(b, m) := check ip created now m in (Allowed b, m)
  | TokensRemaining ip => (Tokens (default burst (tokens <$> m !! ip)), m)
  | Cleanup max_age now => (Cleaned, filter (fun kb => retained max_age now kb.2 = true) m)
  | TrackedIps => (Tracked (Z.of_nat (size m)), m)
  end.

Fixpoint run (ops : list Op) (m : Shard) : list Reply * Shard :=
  match ops with
  | [] => ([], m)
  | op :: ops => let '(r, m) := step op m in let '(rs, m) := run ops m in (r :: rs, m)
  end.
End spec.
End PerIp.

(** ** Sharding is invisible *)

Section refinement.
Context (hash : IpAddr -> Z) (rt burst : f64).

Definition shard_of (ip : IpAddr) : nat := Z.to_nat (hash ip mod SHARD_COUNT).

(** The shards of [l] together are the map [m]; every address is in its own shard. *)
Record represents (l : RateLimiter) (m : Shard) : Prop := {
  rep_length : length l.(shards) = Z.to_nat SHARD_COUNT;
  rep_rate : l.(rl_rate) = rt;
  rep_burst : l.(rl_burst) = burst;
  rep_home : forall i s ip b, l.(shards) !! i = Some s -> s !! ip = Some b -> i = shard_of ip;
  rep_lookup : forall ip, m !! ip = l.(shards) !! shard_of ip ≫= fun s => s !! ip
}.

Lemma shard_of_lt ip : (shard_of ip < Z.to_nat SHARD_COUNT)%nat.
Proof. unfold shard_of, SHARD_COUNT. pose proof (Z.mod_pos_bound (hash ip) 64). lia. Qed.

Lemma shard_index_Ok {E} l m ip : represents l m ->
  @shard_index hash E l ip = Ok (Z.of_nat (shard_of ip)).
Proof.
  intros R. unfold shard_index, zlen. rewrite (rep_length _ _ R). change (Z.of_nat (Z.to_nat SHARD_COUNT)) with SHARD_COUNT.
  cbn [SHARD_COUNT Z.eqb]. unfold shard_of. rewrite Z2Nat.id; [done|].
  pose proof (Z.mod_pos_bound (hash ip) SHARD_COUNT). unfold SHARD_COUNT in *. lia.
Qed.

Lemma home_shard l m ip : represents l m ->
  exists s, l.(shards) !! shard_of ip = Some s /\ m !! ip = s !! ip /\
    forall E, @index E _ l.(shards) (Z.of_nat (shard_of ip)) = Ok s.
Proof.
  intros R. destruct (lookup_lt_is_Some_2 l.(shards) (shard_of ip)) as [s Hs].
  { rewrite (rep_length _ _ R). apply shard_of_lt. }
  exists s. split; [done|]. split; [by rewrite (rep_lookup _ _ R), Hs|].
  intros E. unfold index. rewrite (proj2 (Z.leb_le _ _) (Nat2Z.is_nonneg (shard_of ip))). by rewrite Nat2Z.id, Hs.
Qed.

(** Writing one bucket *)
Lemma represents_insert l m ip b s : represents l m -> l.(shards) !! shard_of ip = Some s ->
  represents (with_shards l (<[shard_of ip := <[ip := b]> s]> l.(shards))) (<[ip := b]> m).
Proof.
  intros R Hs. pose proof (rep_length _ _ R) as Hlen. pose proof (shard_of_lt ip).
  constructor; cbn [with_shards shards rl_rate rl_burst].
  - by rewrite length_insert.
  - apply R.
  - apply R.
  - intros i s' ip' b' Hi Hb. apply list_lookup_insert_Some in Hi as [(<- & <- & _)|[_ Hi]]; [| by eapply rep_home].
    destruct (decide (ip' = ip)) as [->|Hne]; [done|]. rewrite lookup_insert_ne in Hb by done. by eapply rep_home.
  - intros ip'. destruct (decide (ip' = ip)) as [->|Hne].
    + rewrite lookup_insert_eq, list_lookup_insert_eq by lia. simpl. by rewrite lookup_insert_eq.
    + rewrite lookup_insert_ne by done. rewrite (rep_lookup _ _ R).
      destruct (decide (shard_of ip' = shard_of ip)) as [E|E].
      * rewrite E, list_lookup_insert_eq by lia. rewrite Hs. simpl. by rewrite lookup_insert_ne.
      * by rewrite list_lookup_insert_ne.
Qed.

Lemma represents_filter l m (P : IpAddr * TokenBucket -> Prop) `{forall x, Decision (P x)} : represents l m ->
  represents (with_shards l (filter P <$> l.(shards))) (filter P m).
Proof.
  intros R. constructor; cbn [with_shards shards rl_rate rl_burst].
  - rewrite length_fmap. apply R.
  - apply R.
  - apply R.
  - intros i s ip b Hi Hb. apply list_lookup_fmap_Some in Hi as (s' & -> & Hs').
    apply map_lookup_filter_Some in Hb as [Hb _]. by eapply rep_home.
  - intros ip. rewrite list_lookup_fmap. rewrite map_lookup_filter, (rep_lookup _ _ R).
    destruct (l.(shards) !! shard_of ip) as [s|]; [| done]. simpl. by rewrite map_lookup_filter.
Qed.

(** The number of addresses is the sum over the shards. *)
Lemma size_shards (ss : list Shard) (home : IpAddr -> nat) : forall (m : Shard) k,
  (forall i s ip b, ss !! i = Some s -> s !! ip = Some b -> (k + i)%nat = home ip) ->
  (forall ip b, m !! ip = Some b <-> exists i s, ss !! i = Some s /\ s !! ip = Some b) ->
  foldr (fun s n => Z.of_nat (size s) + n) 0 ss = Z.of_nat (size m).
Proof.
  induction ss as [|s ss IH]; intros m k Hhome Hm; cbn [foldr].
  { replace m with (∅ : Shard); [by rewrite map_size_empty|]. symmetry. apply map_empty. intros ip.
    destruct (m !! ip) as [b|] eqn:Hb; [| done]. apply Hm in Hb as (i & s & Hi & _). done. }
  assert (Hsub : s ⊆ m).
  { apply map_subseteq_spec. intros ip b Hb. apply Hm. exists 0%nat, s. done. }
  assert (Hdiff : foldr (fun s n => Z.of_nat (size s) + n) 0 ss = Z.of_nat (size (m ∖ s))).
  { apply (IH _ (S k)).
    - intros i s' ip b Hi Hb. rewrite <- (Hhome (S i) s' ip b Hi Hb). lia.
    - intros ip b. rewrite lookup_difference_Some, Hm. split.
      + intros [(i & s' & Hi & Hb) Hn]. destruct i as [|i]; [| by exists i, s']. simpl in Hi. simplify_eq.
      + intros (i & s' & Hi & Hb). split; [by exists (S i), s'|].
        destruct (s !! ip) as [b'|] eqn:Hs; [| done].
        pose proof (Hhome 0%nat s ip b' eq_refl Hs). pose proof (Hhome (S i) s' ip b Hi Hb). lia. }
  rewrite Hdiff. rewrite <- (map_difference_union s m Hsub) at 2.
  rewrite map_size_disj_union by (apply map_disjoint_spec; intros ? ? ? ? [_ ?]%lookup_difference_Some; congruence). lia.
Qed.

Lemma run_op_refines op l m : represents l m ->
  exists l', run_op hash op l = (Ok (fst (PerIp.step rt burst op m)), l') /\ represents l' (snd (PerIp.step rt burst op m)).
Proof.
  intros R. destruct op as [ip created now|ip|max_age now|]; cbn [run_op PerIp.step].
  - destruct (home_shard l m ip R) as (s & Hs & Hm & Hix).
    unfold check, PerIp.check, mbind, stm_bind, get, lift. rewrite (shard_index_Ok l m ip R), Hix, Hm, (rep_rate _ _ R), (rep_burst _ _ R).
    destruct (try_consume now _) as [allowed b].
    unfold store. replace (_ && _) with true by (pose proof (lookup_lt_Some _ _ _ Hs); unfold zlen; lia).
    rewrite Nat2Z.id. eexists. split; [reflexivity|]. by apply represents_insert.
  - destruct (home_shard l m ip R) as (s & Hs & Hm & Hix).
    unfold tokens_remaining, mbind, stm_bind, get, lift. rewrite (shard_index_Ok l m ip R), Hix, Hm, (rep_burst _ _ R).
    by exists l.
  - eexists. split; [reflexivity|]. by apply represents_filter.
  - exists l. split; [| done]. unfold tracked_ips, mbind, stm_bind, get. do 2 f_equal.
    rewrite (size_shards l.(shards) shard_of m 0); [done | |].
    + intros i s ip b Hi Hb. simpl. by eapply (rep_home _ _ R).
    + intros ip b. rewrite (rep_lookup _ _ R). rewrite bind_Some. split.
      * intros (s & Hs & Hb). by exists (shard_of ip), s.
      * intros (i & s & Hi & Hb). rewrite (rep_home _ _ R i s ip b Hi Hb) in Hi. by exists s.
Qed.

Lemma run_refines ops : forall l m, represents l m ->
  exists l', run hash ops l = (Ok (fst (PerIp.run rt burst ops m)), l') /\ represents l' (snd (PerIp.run rt burst ops m)).
Proof.
  induction ops as [|op ops IH]; intros l m R; cbn [run PerIp.run]; [by exists l|].
  destruct (run_op_refines op l m R) as (l1 & H1 & R1). destruct (PerIp.step rt burst op m) as [r m1].
  cbn [fst snd] in *. destruct (IH l1 m1 R1) as (l2 & H2 & R2). destruct (PerIp.run rt burst ops m1) as [rs m2].
  cbn [fst snd] in *. exists l2. split; [| done]. rewrite (stm_step _ _ _ _ _ H1). by rewrite (stm_step _ _ _ _ _ H2).
Qed.
End refinement.

Lemma new_represents hash r b : represents hash (f64_of r) (f64_of b) (limiter_new r b) ∅.
Proof.
  constructor; try done.
  - intros i s ip bk Hi Hb. apply lookup_replicate in Hi as [-> _]. done.
  - intros ip. rewrite lookup_empty. cbn [limiter_new shards]. unfold array. rewrite lookup_replicate_2; [done|].
    apply shard_of_lt.
Qed.

(** The sharded limiter cannot be told apart from one bucket per address: whatever the
    hash function, every sequence of requests, queries and clean-ups gets the replies of
    the specification, and nothing panics. *)
Theorem sharded_limiter_refines hash rate burst ops :
  fst (run hash ops (limiter_new rate burst)) = Ok (fst (PerIp.run (f64_of rate) (f64_of burst) ops ∅)).
Proof.
  destruct (run_refines hash (f64_of rate) (f64_of burst) ops _ _ (new_represents hash rate burst)) as (l & -> & _). done.
Qed.

(** ** How many requests one instant admits *)

Section burst.
Context (rate_ burst : Z) (Hrate : 0 <= rate_ <= U32_MAX) (Hburst : 0 <= burst <= U32_MAX).

Record bucket_ok (b : TokenBucket) : Prop := {
  ok_tokens : nonneg b.(tokens) = true;
  ok_below : fval b.(tokens) <= fval b.(max_tokens);
  ok_rate : b.(rate) = f64_of rate_;
  ok_max : b.(max_tokens) = f64_of burst
}.

Definition all_ok (m : Shard) : Prop := forall ip b, m !! ip = Some b -> bucket_ok b.

Lemma of_u32 n : 0 <= n <= U32_MAX -> nonneg (f64_of n) = true /\ fval (f64_of n) = n * unit_one.
Proof. intros Hn. apply f64_of_exact. unfold U32_MAX in Hn. lia. Qed.

Lemma as_secs_benign d : 0 <= d -> benign (as_secs_f64 d).
Proof.
  intros Hd. unfold as_secs_f64. apply benign_add.
  - destruct (f64_of_nonneg (d / 1000000000)); [apply Z.div_pos; lia | by split; [| left]].
  - pose proof (Z.mod_pos_bound d 1000000000 ltac:(lia)).
    destruct (of_u32 (d mod 1000000000)) as [Hn _]; [unfold U32_MAX; lia|].
    destruct (f64_div_nonneg (f64_of (d mod 1000000000)) (f64_of 1000000000)); [done | done | done |].
    by split; [| left].
Qed.

Definition refill (now : Z) (b : TokenBucket) : f64 :=
  f64_min (f64_add b.(tokens) (f64_mul (as_secs_f64 (duration_since now b.(last_refill))) b.(rate))) b.(max_tokens).

(** The whole tokens in a bucket at an instant *)
Definition budget (now : Z) (b : TokenBucket) : Z := fval (refill now b) / unit_one.

Lemma refill_ok now b : bucket_ok b ->
  nonneg (refill now b) = true /\ 0 <= fval (refill now b) <= burst * unit_one.
Proof.
  intros [Ht Hle Hr Hm]. unfold refill. destruct (of_u32 burst Hburst) as [Hn Hv].
  destruct (benign_min (f64_add b.(tokens) (f64_mul (as_secs_f64 (duration_since now b.(last_refill))) b.(rate))) b.(max_tokens)) as [H1 H2].
  - apply benign_add; [by apply nonneg_benign|]. apply benign_mul; [apply as_secs_benign; unfold duration_since; lia|].
    rewrite Hr. apply nonneg_benign, of_u32, Hrate.
  - by rewrite Hm.
  - split; [done|]. split; [by apply nonneg_fval|]. etransitivity; [exact H2|]. by rewrite Hm, Hv.
Qed.

Lemma unit_one_pos : 0 < unit_one.
Proof. apply Z.pow_pos_nonneg; lia. Qed.

(** One request: admitted exactly when a whole token is there, which it takes. *)
Lemma try_consume_spec now b : bucket_ok b ->
  bucket_ok (snd (try_consume now b)) /\ last_refill (snd (try_consume now b)) = now /\
  fst (try_consume now b) = (1 <=? budget now b) /\
  fval (tokens (snd (try_consume now b))) = fval (refill now b) - (if 1 <=? budget now b then unit_one else 0).
Proof.
  intros Hb. pose proof unit_one_pos as Hu. destruct (refill_ok now b Hb) as (Hn & Hl & Hh).
  destruct (of_u32 burst Hburst) as [Hbn Hbv]. destruct Hb as [Ht Hle Hr Hm].
  unfold try_consume. fold (refill now b).
  assert (Hge : f64_ge (refill now b) (f64_of 1) = (1 <=? budget now b)).
  { rewrite f64_ge_spec by done. assert (fval (f64_of 1) = unit_one) as -> by reflexivity.
    unfold budget. apply eq_bool_prop_intro. rewrite !Is_true_true, !Z.leb_le. split; intros.
    - apply Z.div_le_lower_bound; lia.
    - pose proof (Z.mul_div_le (fval (refill now b)) unit_one Hu). nia. }
  rewrite Hge. destruct (1 <=? budget now b) eqn:E; cbn [fst snd tokens last_refill].
  - destruct (f64_sub_one (refill now b)) as [Hsn Hsv]; [done | |].
    { split.
      - apply Z.leb_le in E. unfold budget in E. pose proof (Z.mul_div_le (fval (refill now b)) unit_one Hu). nia.
      - unfold U32_MAX in Hburst. nia. }
    split_and!; [| done.. | lia]. constructor; cbn [tokens max_tokens rate]; [done | rewrite Hm, Hbv; lia | done..].
  - split_and!; [| done.. | lia]. constructor; cbn [tokens max_tokens rate]; [done | rewrite Hm, Hbv; lia | done..].
Qed.

(** Asked again at the same instant, a bucket has not refilled. *)
Lemma refill_same b : bucket_ok b -> refill b.(last_refill) b = b.(tokens).
Proof.
  intros [Ht Hle Hr Hm]. destruct (of_u32 rate_ Hrate) as [Hrn _]. destruct (of_u32 burst Hburst) as [Hbn _].
  unfold refill, duration_since. rewrite Z.sub_diag. change (as_secs_f64 (0 `max` 0)) with (S754_zero false).
  rewrite Hr, f64_mul_zero, f64_add_zero by done. apply f64_min_id; [done | by rewrite Hm | done].
Qed.

Lemma budget_bounds now b : bucket_ok b -> 0 <= budget now b <= burst.
Proof.
  intros Hb. pose proof unit_one_pos. destruct (refill_ok now b Hb) as (_ & Hl & Hh). unfold budget.
  split; [apply Z.div_pos; lia|]. apply Z.div_le_upper_bound; lia.
Qed.

Lemma budget_after now b : bucket_ok b ->
  budget now (snd (try_consume now b)) = budget now b - (if 1 <=? budget now b then 1 else 0).
Proof.
  intros Hb. destruct (try_consume_spec now b Hb) as (Hok & Hlast & _ & Hv). pose proof unit_one_pos.
  unfold budget at 1. rewrite <- Hlast at 1. rewrite refill_same, Hv by done.
  destruct (1 <=? budget now b); unfold budget; [| by rewrite !Z.sub_0_r].
  replace (fval (refill now b) - unit_one) with (fval (refill now b) + (-1) * unit_one) by lia.
  rewrite Z.div_add by lia. lia.
Qed.

Lemma bucket_new_ok now : bucket_ok (bucket_new (f64_of rate_) (f64_of burst) now).
Proof. destruct (of_u32 burst Hburst) as [Hn _]. by constructor; cbn. Qed.

Lemma budget_new now : budget now (bucket_new (f64_of rate_) (f64_of burst) now) = burst.
Proof.
  unfold budget. pose proof (refill_same (bucket_new _ _ now) (bucket_new_ok now)) as E. cbn [bucket_new last_refill tokens] in E.
  rewrite E.
  destruct (of_u32 burst Hburst) as [_ ->]. apply Z.div_mul. pose proof unit_one_pos. lia.
Qed.

Lemma step_all_ok op m : all_ok m -> all_ok (snd (PerIp.step (f64_of rate_) (f64_of burst) op m)).
Proof.
  intros Hm. destruct op as [ip created now|ip|max_age now|]; cbn [PerIp.step]; [| done | | done].
  - unfold PerIp.check. destruct (try_consume now _) as [allowed b] eqn:E. cbn [snd].
    intros ip' b' [[-> <-]|[_ Hb']]%lookup_insert_Some; [| by eapply Hm].
    replace b with (snd (try_consume now (default (bucket_new (f64_of rate_) (f64_of burst) created) (m !! ip')))) by (by rewrite E).
    apply try_consume_spec. destruct (m !! ip') eqn:Hl; [by eapply Hm | apply bucket_new_ok].
  - intros ip b [Hb _]%map_lookup_filter_Some. by eapply Hm.
Qed.

Lemma run_all_ok ops : forall m, all_ok m -> all_ok (snd (PerIp.run (f64_of rate_) (f64_of burst) ops m)).
Proof.
  induction ops as [|op ops IH]; intros m Hm; cbn [PerIp.run]; [done|].
  pose proof (step_all_ok op m Hm) as H1. destruct (PerIp.step _ _ op m) as [r m1].
  specialize (IH m1 H1). by destruct (PerIp.run _ _ ops m1).
Qed.

(** What is left for an address in the specification *)
Definition left_for (now : Z) (ip : IpAddr) (m : Shard) : Z :=
  budget now (default (bucket_new (f64_of rate_) (f64_of burst) now) (m !! ip)).

Definition at_instant (now : Z) (reqs : list IpAddr) : list Op := (fun ip => Check ip now now) <$> reqs.

(** The requests of [ip] among [reqs], and those of them that were admitted *)
Fixpoint asked (ip : IpAddr) (reqs : list IpAddr) : Z :=
  match reqs with
  | [] => 0
  | a :: reqs => (if decide (a = ip) then 1 else 0) + asked ip reqs
  end.

Fixpoint granted (ip : IpAddr) (reqs : list IpAddr) (replies : list Reply) : Z :=
  match reqs, replies with
  | a :: reqs, r :: replies =>
      (if decide (a = ip) then match r with Allowed true => 1 | _ => 0 end else 0) + granted ip reqs replies
  | _, _ => 0
  end.

Lemma default_ok now ip m : all_ok m -> bucket_ok (default (bucket_new (f64_of rate_) (f64_of burst) now) (m !! ip)).
Proof. intros Hm. destruct (m !! ip) eqn:Hl; [by eapply Hm | apply bucket_new_ok]. Qed.

Lemma asked_nonneg ip reqs : 0 <= asked ip reqs.
Proof. induction reqs as [|a reqs IH]; cbn [asked]; [lia|]. destruct (decide (a = ip)); lia. Qed.

Lemma granted_exact now ip reqs : forall m, all_ok m ->
  granted ip reqs (fst (PerIp.run (f64_of rate_) (f64_of burst) (at_instant now reqs) m)) =
    Z.min (asked ip reqs) (left_for now ip m).
Proof.
  induction reqs as [|a reqs IH]; intros m Hm.
  { cbn [granted asked]. pose proof (budget_bounds now _ (default_ok now ip m Hm)). unfold left_for. simpl. lia. }
  cbn [at_instant fmap list_fmap PerIp.run PerIp.step granted asked]. unfold PerIp.check.
  pose proof (default_ok now a m Hm) as Hb.
  pose proof (step_all_ok (Check a now now) m Hm) as Hok. cbn [PerIp.step] in Hok. unfold PerIp.check in Hok.
  destruct (try_consume_spec now _ Hb) as (_ & _ & Hadm & _). pose proof (budget_after now _ Hb) as Hafter.
  pose proof (budget_bounds now _ Hb) as Hbd. fold (left_for now a m) in Hadm, Hafter, Hbd.
  destruct (try_consume now _) as [allowed b]. cbn [fst snd] in *.
  specialize (IH (<[a := b]> m) Hok). unfold at_instant in IH.
  destruct (PerIp.run _ _ _ (<[a := b]> m)) as [rs m2]. cbn [fst] in *. rewrite IH. unfold left_for at 1.
  pose proof (asked_nonneg ip reqs).
  destruct (decide (a = ip)) as [->|Hne].
  - rewrite lookup_insert_eq. cbn [default from_option id]. rewrite Hafter, Hadm.
    destruct (1 <=? left_for now ip m) eqn:E; lia.
  - rewrite lookup_insert_ne by done. fold (left_for now ip m). lia.
Qed.

Lemma run_untracked ip ops : forall m, (forall c n, Check ip c n ∉ ops) -> m !! ip = None ->
  snd (PerIp.run (f64_of rate_) (f64_of burst) ops m) !! ip = None.
Proof.
  induction ops as [|op ops IH]; intros m Hno Hm; cbn [PerIp.run]; [done|].
  assert (H1 : snd (PerIp.step (f64_of rate_) (f64_of burst) op m) !! ip = None).
  { destruct op as [a c n|a|c n|]; cbn [PerIp.step]; [| done | | done].
    - unfold PerIp.check. destruct (try_consume n _). cbn [snd]. rewrite lookup_insert_ne; [done|].
      intros ->. apply (Hno c n). by left.
    - cbn [snd]. rewrite map_lookup_filter. by rewrite Hm. }
  destruct (PerIp.step _ _ op m) as [r m1]. cbn [snd] in H1.
  specialize (IH m1 (fun c n Hin => Hno c n (list_elem_of_further _ _ _ Hin)) H1). by destruct (PerIp.run _ _ ops m1).
Qed.
End burst.

Lemma per_ip_run_app rt b ops1 ops2 m :
  fst (PerIp.run rt b (ops1 ++ ops2) m) =
    fst (PerIp.run rt b ops1 m) ++ fst (PerIp.run rt b ops2 (snd (PerIp.run rt b ops1 m))).
Proof.
  revert m. induction ops1 as [|op ops IH]; intros m; cbn [app PerIp.run]; [done|].
  destruct (PerIp.step rt b op m) as [r m1]. specialize (IH m1).
  destruct (PerIp.run rt b (ops ++ ops2) m1), (PerIp.run rt b ops m1). cbn [fst snd] in *. by rewrite IH.
Qed.

Lemma per_ip_run_length rt b ops m : length (fst (PerIp.run rt b ops m)) = length ops.
Proof.
  revert m. induction ops as [|op ops IH]; intros m; cbn [PerIp.run]; [done|].
  destruct (PerIp.step rt b op m) as [r m1]. specialize (IH m1). destruct (PerIp.run rt b ops m1). cbn [fst length] in *. by rewrite IH.
Qed.

(** After any history, whatever mix of clients asks in one instant: a client gets at most
    [burst] of its requests through, and exactly the first [burst] when it had not asked
    before.  The tokens are counted in binary64 without rounding. *)
Theorem instant_burst_bound hash rate burst history now reqs ip :
  0 <= rate <= U32_MAX -> 0 <= burst <= U32_MAX ->
  exists past present,
    fst (run hash (history ++ at_instant now reqs) (limiter_new rate burst)) = Ok (past ++ present) /\
    length past = length history /\ length present = length reqs /\
    granted ip reqs present <= Z.min (asked ip reqs) burst /\
    ((forall c n, Check ip c n ∉ history) -> granted ip reqs present = Z.min (asked ip reqs) burst).
Proof.
  intros Hr Hb.
  destruct (run_refines hash (f64_of rate) (f64_of burst) (history ++ at_instant now reqs) _ _ (new_represents hash rate burst))
    as (l & -> & _).
  eexists _, _. split; [cbn [fst]; rewrite per_ip_run_app; reflexivity|]. rewrite !per_ip_run_length.
  set (m := snd (PerIp.run (f64_of rate) (f64_of burst) history ∅)).
  assert (Hm : all_ok rate burst m) by (apply run_all_ok; [done | done | intros ? ?; by rewrite lookup_empty]).
  rewrite (granted_exact rate burst Hr Hb now ip reqs m Hm).
  pose proof (budget_bounds rate burst Hr Hb now _ (default_ok rate burst Hb now ip m Hm)) as Hle.
  fold (left_for rate burst now ip m) in Hle.
  split; [done|]. split; [unfold at_instant; apply length_fmap|]. split; [lia|]. intros Hno.
  unfold left_for. unfold m. rewrite run_untracked; [| done | apply lookup_empty]. cbn [default].
  change (from_option id ?d None) with d. by rewrite budget_new.
Qed.

(** Seven requests of two clients in one instant against a burst of two: each gets two through. *)
Lemma instant_burst_bound_witness :
  exists past present,
    fst (run (fun _ => 7) (at_instant 5 (replicate 4 (V4 1) ++ replicate 3 (V6 2))) (limiter_new 1000 2)) = Ok (past ++ present) /\
    granted (V6 2) (replicate 4 (V4 1) ++ replicate 3 (V6 2)) present = 2.
Proof.
  destruct (instant_burst_bound (fun _ => 7) 1000 2 [] 5 (replicate 4 (V4 1) ++ replicate 3 (V6 2)) (V6 2))
    as (past & present & Hrun & _ & _ & _ & Hex); [unfold U32_MAX; lia.. |].
  exists past, present. split; [exact Hrun|]. rewrite Hex; [reflexivity|]. intros c n Hin. by apply not_elem_of_nil in Hin.
Defined.
