(* ===== verification/Siem.v ===== *)
(** * Siem: the event formats of the management API

    Models [dfim_management_api/src/siem.rs]: the five serializers behind the trait
    [SiemSerializer], the factory and [format_batch].  What the serializers hand to
    [serde_json] is a tree in serde's data model, [Ser]; its text, and the date formats of
    [chrono], are parameters.  A time is in nanoseconds since 1970.

    The theorems show that a batch of lines splits back into its events, that the CEF
    extension escapes its message, and two limits: the CEF header does not, and the
    syslog priority is off by six. *)

From stdpp Require Import base list numbers option strings.
From Stdlib Require Import ZArith Lia Strings.Byte.
From S2P Require Import Prelude Float64 Json Telemetry Text.

(** The serde data model, as far as the sources use it *)
#[warnings="-register-all"] Inductive Ser :=
| SNull
| SBool (b : bool)
| SInt (n : Z)
| SFloat (x : f64)
| SStr (s : text)
| SSeq (l : list Ser)
| SMap (entries : list (text * Ser))
| SStruct (fields : list (text * Ser)).

(** [serde_json::to_string]; of [chrono], the serialized form of a time,
    [DateTime::to_rfc3339] and [DateTime::format] to the millisecond; and
    [str::to_uppercase] *)
Class SiemOps := {
  json_text : Ser -> option text;
  serde_time : Z -> text;
  to_rfc3339 : Z -> text;
  format_millis : Z -> text;
  to_uppercase : text -> text
}.

(** The compact writer puts no line break into its output, and never fails on a tree
    without maps whose keys are not strings. *)
Class SiemLaws `{SiemOps} : Prop := {
  json_text_total : forall v, exists s, json_text v = Some s;
  json_text_one_line : forall v s, json_text v = Some s -> without x0a s = true
}.

Inductive SiemFormat := SplunkHec | ElasticEcs | SentinelCef | Rfc5424Syslog | Ndjson.

#[export] Instance SiemFormat_eq_dec : EqDecision SiemFormat.
Proof. solve_decision. Defined.

Record DfimSiemEvent := {
  event_id : text;
  event_type : text;
  severity : text;
  asset_id : text;
  message : text;
  host_name : text;
  timestamp : Z;
  outcome : text;
  merkle_root : option text;
  tampered_blocks : option Z;
  fec_corrected : option Z;
  rollback_counter : option Z;
  attestation_verified : option bool;
  enforcement_action : option text
}.

(** [DateTime::timestamp_millis] *)
Definition timestamp_millis (t : Z) : Z := t / 1000000.

Definition to_string_i64 (n : Z) : text := if n <? 0 then txt "-" ++ to_string (- n) else to_string n.
Definition bool_str (b : bool) : text := if b then txt "true" else txt "false".

Definition opt {A} (f : A -> Ser) (o : option A) : Ser := match o with Some a => f a | None => SNull end.

(** The last six members of the event, as both JSON formats repeat them *)
Definition details (e : DfimSiemEvent) : list (text * Ser) :=
  [(txt "merkle_root", opt SStr e.(merkle_root)); (txt "tampered_blocks", opt SInt e.(tampered_blocks));
   (txt "fec_corrected", opt SInt e.(fec_corrected)); (txt "rollback_counter", opt SInt e.(rollback_counter));
   (txt "attestation_verified", opt SBool e.(attestation_verified)); (txt "enforcement_action", opt SStr e.(enforcement_action))].

(** [event.asset_id.strip_prefix("sha256:").unwrap_or(&event.asset_id)] *)
Definition asset_hash (e : DfimSiemEvent) : text := default e.(asset_id) (strip_prefix (txt "sha256:") e.(asset_id)).

(** The severity tables of the formats: [critical], [high], [medium], [low], anything else *)
Definition severity_num (critical high medium low other : Z) (e : DfimSiemEvent) : Z :=
  if bytes_eqb e.(severity) (txt "critical") then critical
  else if bytes_eqb e.(severity) (txt "high") then high
  else if bytes_eqb e.(severity) (txt "medium") then medium
  else if bytes_eqb e.(severity) (txt "low") then low
  else other.

Section model.
Context `{SiemOps}.

Definition splunk_value (e : DfimSiemEvent) : Ser :=
  SMap [(txt "time", SFloat (f64_div (f64_of (timestamp_millis e.(timestamp))) (f64_of 1000)));
        (txt "host", SStr e.(host_name));
        (txt "source", SStr (txt "dfim://integrity"));
        (txt "sourcetype", SStr (txt "dfim:" ++ replace_char x2e (txt ":") e.(event_type)));
        (txt "index", SStr (txt "dfim_security"));
        (txt "event", SMap ([(txt "event_id", SStr e.(event_id)); (txt "event_type", SStr e.(event_type));
                             (txt "severity", SStr e.(severity)); (txt "asset_id", SStr e.(asset_id));
                             (txt "message", SStr e.(message)); (txt "outcome", SStr e.(outcome))] ++ details e))].

Definition ecs_value (e : DfimSiemEvent) : Ser :=
  SMap [(txt "@timestamp", SStr (to_rfc3339 e.(timestamp)));
        (txt "ecs", SMap [(txt "version", SStr (txt "8.11.0"))]);
        (txt "event", SMap [(txt "kind", SStr (txt "alert")); (txt "category", SStr (txt "intrusion_detection"));
                            (txt "type", SStr (txt "change")); (txt "severity", SInt (severity_num 9 7 5 3 1 e));
                            (txt "action", SStr (replace_char x2e (txt "_") (replace_str (txt "dfim.") [] e.(event_type))));
                            (txt "outcome", SStr e.(outcome))]);
        (txt "host", SMap [(txt "name", SStr e.(host_name))]);
        (txt "file", SMap [(txt "hash", SMap [(txt "sha256", SStr (asset_hash e))]);
                           (txt "integrity", SMap [(txt "status", SStr (if bytes_eqb e.(outcome) (txt "success") then txt "verified" else txt "tampered"));
                                                   (txt "policy", SStr (txt "dfim-protected-scope"))])]);
        (txt "dfim", SMap ((txt "event_id", SStr e.(event_id)) :: details e));
        (txt "message", SStr e.(message))].

(** The message in the CEF extension *)
Definition cef_escape (s : text) : text := replace_char x3d [x5c; x3d] (replace_char x5c [x5c; x5c] s).

Definition BAR : byte := x7c.

Definition cef_text (e : DfimSiemEvent) : text :=
  txt "CEF:0|DFIM|Firmware Integrity Matrix|0.1.0|" ++
  to_uppercase (replace_char x2e (txt "_") e.(event_type)) ++ [BAR] ++ e.(message) ++ [BAR] ++
  to_string (severity_num 10 8 5 3 1 e) ++ [BAR] ++
  txt "src=0.0.0.0 shost=" ++ e.(host_name) ++ txt " fileHash=" ++ asset_hash e ++
  txt " cs1=" ++ default (txt "block") e.(enforcement_action) ++
  txt ".cs1Label=EnforcementAction cs2=NIST-800-193.cs2Label=ComplianceStandard cn1=" ++ to_string (default 0 e.(tampered_blocks)) ++
  txt ".cn1Label=TamperedBlockCount cn2=" ++ to_string (default 0 e.(fec_corrected)) ++
  txt ".cn2Label=FecCorrectedCount start=" ++ to_string_i64 (timestamp_millis e.(timestamp)) ++
  txt " externalId=" ++ e.(event_id) ++ txt " msg=" ++ cef_escape e.(message).

(** The priority value of a syslog line *)
Definition syslog_pri (e : DfimSiemEvent) : Z := 134 + severity_num 2 4 5 6 7 e.

Definition syslog_sd (e : DfimSiemEvent) : text :=
  raw "dfim@48577 event_type='" ++ e.(event_type) ++ raw "' severity='" ++ e.(severity) ++ raw "' asset_id='" ++ e.(asset_id) ++
  raw "' merkle_root='" ++ default (txt "-") e.(merkle_root) ++
  raw "' tampered_blocks='" ++ to_string (default 0 e.(tampered_blocks)) ++
  raw "' fec_corrected='" ++ to_string (default 0 e.(fec_corrected)) ++
  raw "' rollback_counter='" ++ to_string (default 0 e.(rollback_counter)) ++
  raw "' attestation_verified='" ++ bool_str (default false e.(attestation_verified)) ++ raw "'".

Definition syslog_text (e : DfimSiemEvent) : text :=
  txt "<" ++ to_string (syslog_pri e) ++ txt ">1 " ++ format_millis e.(timestamp) ++ txt " " ++ e.(host_name) ++
  txt " dfim-integrity " ++ txt "12345" ++ txt " ALERT [" ++ syslog_sd e ++ txt "] " ++ e.(message).

(** The derived [Serialize] of the event *)
Definition event_value (e : DfimSiemEvent) : Ser :=
  SStruct ([(txt "event_id", SStr e.(event_id)); (txt "event_type", SStr e.(event_type)); (txt "severity", SStr e.(severity));
            (txt "asset_id", SStr e.(asset_id)); (txt "message", SStr e.(message)); (txt "host_name", SStr e.(host_name));
            (txt "timestamp", SStr (serde_time e.(timestamp))); (txt "outcome", SStr e.(outcome))] ++ details e).

(** The trait [SiemSerializer] *)
Record SiemSerializer := {
  format : SiemFormat;
  serialize : DfimSiemEvent -> text;
  content_type : text
}.

Definition SplunkHecSerializer : SiemSerializer :=
  {| format := SplunkHec; content_type := txt "application/json"; serialize e := default [] (json_text (splunk_value e)) |}.
Definition ElasticEcsSerializer : SiemSerializer :=
  {| format := ElasticEcs; content_type := txt "application/json"; serialize e := default [] (json_text (ecs_value e)) |}.
Definition SentinelCefSerializer : SiemSerializer :=
  {| format := SentinelCef; content_type := txt "text/plain"; serialize := cef_text |}.
Definition Rfc5424SyslogSerializer : SiemSerializer :=
  {| format := Rfc5424Syslog; content_type := txt "text/plain"; serialize := syslog_text |}.
Definition NdjsonSerializer : SiemSerializer :=
  {| format := Ndjson; content_type := txt "application/x-ndjson"; serialize e := default [] (json_text (event_value e)) |}.

Definition get_serializer (f : SiemFormat) : SiemSerializer :=
  match f with
  | SplunkHec => SplunkHecSerializer
  | ElasticEcs => ElasticEcsSerializer
  | SentinelCef => SentinelCefSerializer
  | Rfc5424Syslog => Rfc5424SyslogSerializer
  | Ndjson => NdjsonSerializer
  end.

Definition format_batch (s : SiemSerializer) (events : list DfimSiemEvent) : text :=
  match s.(format) with
  | Ndjson => join [x0a] (map s.(serialize) events)
  | _ => default [] (json_text (SSeq (map (fun e => SStr (s.(serialize) e)) events)))
  end.
End model.

(** ** Batches *)

(** A batch in the default format is one line per event: splitting it at the line breaks
    gives back the serialized events in order, and nothing an event holds can add or
    remove a line. *)
Theorem ndjson_batch_lines `{SiemLaws} events : events <> [] ->
  split_on x0a (format_batch (get_serializer Ndjson) events) = map (serialize NdjsonSerializer) events.
Proof.
  intros Hne. cbn [get_serializer format_batch format NdjsonSerializer]. apply split_join; [by destruct events|].
  apply Forall_forall. intros line Hin. apply list_elem_of_In, in_map_iff in Hin as (e & <- & _). cbn [serialize NdjsonSerializer].
  destruct (json_text_total (event_value e)) as [s Hs]. rewrite Hs. by eapply json_text_one_line.
Qed.

Definition toy_siem : SiemOps :=
  {| json_text v := Some (txt "{}"); serde_time t := txt "t"; to_rfc3339 t := txt "t"; format_millis t := txt "t"; to_uppercase s := s |}.

Definition sample : DfimSiemEvent := {|
  event_id := txt "1"; event_type := txt "dfim.integrity.alert"; severity := txt "critical"; asset_id := txt "sha256:ab";
  message := txt "Integrity failure: a|0|b"; host_name := txt "node"; timestamp := 0; outcome := txt "open"; merkle_root := None;
  tampered_blocks := None; fec_corrected := None; rollback_counter := None; attestation_verified := None; enforcement_action := None |}.

Lemma ndjson_batch_lines_witness :
  split_on x0a (@format_batch toy_siem (@get_serializer toy_siem Ndjson) [sample; sample]) = [txt "{}"; txt "{}"].
Proof.
  apply (@ndjson_batch_lines toy_siem).
  - split; [by eexists|]. by intros v s [= <-].
  - done.
Defined.

(** ** CEF *)

(** A reader of an extension value: an escaped character stands for itself, a bare [=]
    would start the next key. *)
Fixpoint cef_unescape (s : text) : option text :=
  match s with
  | [] => Some []
  | x5c :: c :: s => r ← cef_unescape s; Some (c :: r)
  | [x5c] => None
  | x3d :: _ => None
  | c :: s => r ← cef_unescape s; Some (c :: r)
  end.

Definition cef_char (b : byte) : text :=
  if Byte.eqb b x5c then [x5c; x5c] else if Byte.eqb b x3d then [x5c; x3d] else [b].

Lemma cef_escape_chars s : cef_escape s = concat (map cef_char s).
Proof.
  unfold cef_escape, replace_char. induction s as [|b s IH]; [done|]. cbn [map concat].
  rewrite map_app, concat_app, IH. f_equal. unfold cef_char. by destruct b.
Qed.

Lemma cef_unescape_char b r : cef_unescape (cef_char b ++ r) = (r' ← cef_unescape r; Some (b :: r')).
Proof. by destruct b. Qed.

(** The message of the extension survives: no text in it can start another key. *)
Theorem cef_message_roundtrip s : cef_unescape (cef_escape s) = Some s.
Proof.
  rewrite cef_escape_chars. induction s as [|b s IH]; [done|]. cbn [map concat]. by rewrite cef_unescape_char, IH.
Qed.

(** The header is not escaped.  A message [a|n|b] makes a reader of the header see [a] as the
    event's name and [n], not the event's severity, as its severity. *)
Theorem cef_header_forged `{SiemOps} (e : DfimSiemEvent) a n b :
  without BAR (to_uppercase (replace_char x2e (txt "_") e.(event_type))) = true ->
  without BAR a = true -> without BAR n = true ->
  e.(message) = a ++ [BAR] ++ n ++ [BAR] ++ b ->
  split_on BAR (cef_text e) !! 5%nat = Some a /\ split_on BAR (cef_text e) !! 6%nat = Some n.
Proof.
  intros Hu Ha Hn Hm. unfold cef_text. rewrite Hm.
  set (rest := _ ++ to_string _ ++ _).
  change (txt "CEF:0|DFIM|Firmware Integrity Matrix|0.1.0|" ++ ?x) with
    (txt "CEF:0" ++ BAR :: txt "DFIM" ++ BAR :: txt "Firmware Integrity Matrix" ++ BAR :: txt "0.1.0" ++ BAR :: x).
  rewrite <- !app_assoc. cbn [app].
  do 4 (rewrite split_on_app by reflexivity). rewrite split_on_app by done. rewrite split_on_app by done.
  rewrite split_on_app by done. done.
Qed.

Lemma cef_header_forged_witness :
  split_on BAR (@cef_text toy_siem sample) !! 5%nat = Some (txt "Integrity failure: a") /\
  split_on BAR (@cef_text toy_siem sample) !! 6%nat = Some (txt "0").
Proof. apply (@cef_header_forged toy_siem sample _ _ (txt "b")); reflexivity. Defined.

(** ** Syslog *)

(** The priority of a syslog line is facility times eight plus severity.  Every line decodes to
    facility 17, not the documented 16, and to a severity two below the table's. *)
Theorem syslog_priority_shifted (e : DfimSiemEvent) :
  syslog_pri e / 8 = 17 /\ syslog_pri e mod 8 = severity_num 2 4 5 6 7 e - 2.
Proof. unfold syslog_pri, severity_num. repeat (destruct (bytes_eqb _ _); [done|]). done. Qed.
