(* ===== verification/ApiAudit.v ===== *)
(** * ApiAudit: the audit trail of the management API

    Models [dfim_management_api/src/audit.rs]: the entry, the logger behind its mutex and
    [audit_mutation].  [writeln!] hands the text and the line break to [write_all] one after the
    other; a [write_all] that fails has written some of its bytes, and the logger drops the
    error.  Threads that log at the same time are a step relation in which any thread may
    come next and only the lock orders them.

    [audit_lines]: as long as no write fails, the file is at every moment the lines of the
    entries in the order in which they took the lock, plus a part of the line being
    written; and it reads back.  [audit_torn_line]: after a failed write the next entry is
    lost as well, because it continues the torn line. *)

From stdpp Require Import base list numbers option strings relations gmap.
From Stdlib Require Import ZArith Lia Strings.Byte.
From S2P Require Import Prelude Float64 Json Text Siem.

Record AuditEntry := {
  timestamp : Z;
  user : text;
  tenant : text;
  action : text;
  resource : text;
  status : Z;
  ip : text;
  user_agent : text;
  duration_ms : f64
}.

(** Where [AuditLogger] writes *)
Inductive Sink := AuditFile (path : text) | Stdout.

Definition logger_new (open_append : text -> bool) (path : text) : option Sink :=
  if open_append path then Some (AuditFile path) else None.

Definition to_stdout : Sink := Stdout.

(** What a [write_all] does: it writes everything, or fails after the first [n] bytes. *)
Inductive Fault := Written | FailedAfter (n : nat).

Definition write_all (f : Fault) (piece file : text) : bool * text :=
  match f with
  | Written => (true, file ++ piece)
  | FailedAfter n => (false, file ++ take n piece)
  end.

Section model.
Context `{SiemOps}.

(** [derive(Serialize)] *)
Definition entry_value (e : AuditEntry) : Ser :=
  SStruct [(txt "timestamp", SStr (serde_time e.(timestamp))); (txt "user", SStr e.(user)); (txt "tenant", SStr e.(tenant));
           (txt "action", SStr e.(action)); (txt "resource", SStr e.(resource)); (txt "status", SInt e.(status));
           (txt "ip", SStr e.(ip)); (txt "user_agent", SStr e.(user_agent)); (txt "duration_ms", SFloat e.(duration_ms))].

(** The pieces of [writeln!(w, ...)] *)
Definition pieces (e : AuditEntry) : list text :=
  match json_text (entry_value e) with
  | Some json => [json; [x0a]]
  | None => []
  end.

(** [write_fmt]: the first failure ends it. *)
Fixpoint write_pieces (faults : list Fault) (ps : list text) (file : text) : text :=
  match ps with
  | [] => file
  | p :: ps =>
      match write_all (default Written (head faults)) p file with
      | (true, file) => write_pieces (tail faults) ps file
      | (false, file) => file
      end
  end.

Definition log (faults : list Fault) (e : AuditEntry) (file : text) : text := write_pieces faults (pieces e) file.

(** [audit_mutation]: the clock is read once, the address is printed. *)
Definition audit_entry (now : Z) (user tenant action resource : text) (status : Z) (ip user_agent : text) (duration_ms : f64) :
    AuditEntry :=
  {| timestamp := now; user := user; tenant := tenant; action := action; resource := resource; status := status; ip := ip;
     user_agent := user_agent; duration_ms := duration_ms |}.

Definition audit_mutation (faults : list Fault) (now : Z) (user tenant action resource : text) (status : Z) (ip user_agent : text)
    (duration_ms : f64) (file : text) : text :=
  log faults (audit_entry now user tenant action resource status ip user_agent duration_ms) file.

(** ** Threads *)

Definition Tid := nat.

(** The file, the entries each thread has still to log, the holder of the lock with the
    pieces it has still to write, and the entries whose lock was taken, in order *)
Record Trail := {
  file : text;
  queue : Tid -> list AuditEntry;
  held : option (Tid * list text);
  taken : list (Tid * AuditEntry)
}.

Definition dequeue (q : Tid -> list AuditEntry) (t : Tid) : Tid -> list AuditEntry :=
  fun u => if bool_decide (u = t) then tail (q u) else q u.

(** [log], one action at a time; the label is what a write does. *)
Inductive astep : Fault -> Trail -> Trail -> Prop :=
| a_lock f q tk t e es : q t = e :: es ->
    astep Written {| file := f; queue := q; held := None; taken := tk |}
          {| file := f; queue := dequeue q t; held := Some (t, pieces e); taken := tk ++ [(t, e)] |}
| a_write fault f q t p ps tk ok f' : write_all fault p f = (ok, f') ->
    astep fault {| file := f; queue := q; held := Some (t, p :: ps); taken := tk |}
          {| file := f'; queue := q; held := Some (t, if ok then ps else []); taken := tk |}
| a_unlock f q t tk :
    astep Written {| file := f; queue := q; held := Some (t, []); taken := tk |}
          {| file := f; queue := q; held := None; taken := tk |}.

Definition line (e : AuditEntry) : text := concat (pieces e).
Definition start (f : text) (q : Tid -> list AuditEntry) : Trail := {| file := f; queue := q; held := None; taken := [] |}.
Definition of_thread (t : Tid) (l : list (Tid * AuditEntry)) : list AuditEntry := snd <$> filter (fun te => te.1 = t) l.
End model.

Section proofs.
Context `{SiemLaws}.
Context (f0 : text) (q0 : Tid -> list AuditEntry).

(** The unwritten pieces are the end of the last line. *)
Definition trail_ok (a : Trail) : Prop :=
  a.(file) ++ concat (from_option snd [] a.(held)) = f0 ++ concat (line ∘ snd <$> a.(taken)) /\
  (forall t, of_thread t a.(taken) ++ a.(queue) t = q0 t).

Lemma log_clean e f : log [] e f = f ++ line e.
Proof.
  unfold log, line, pieces. destruct (json_text _) as [j|]; cbn; [|by rewrite app_nil_r]. by rewrite <-(assoc_L (++)), ?app_nil_r.
Qed.

Lemma of_thread_snoc t u e l : of_thread t (l ++ [(u, e)]) = of_thread t l ++ (if bool_decide (u = t) then [e] else []).
Proof.
  unfold of_thread. rewrite filter_app, fmap_app. f_equal. rewrite filter_cons. cbn. by repeat case_decide; repeat case_bool_decide.
Qed.

Lemma astep_ok a b : astep Written a b -> trail_ok a -> trail_ok b.
Proof.
  intros Hs [Hf Hq]. inversion Hs as [f q tk t e es Ht|fault f q t p ps tk ok f' Hw|f q t tk]; subst; unfold trail_ok;
    cbn [file queue held taken from_option snd concat] in *.
  - split.
    + rewrite app_nil_r in Hf. rewrite fmap_app, concat_app, (assoc_L (++)), <-Hf. f_equal. cbn. by rewrite app_nil_r.
    + intros u. rewrite of_thread_snoc, <-(Hq u), <-(assoc_L (++)). f_equal. unfold dequeue.
      repeat case_bool_decide; subst; try done. by rewrite Ht.
  - injection Hw as <- <-. split; [|done]. by rewrite <-Hf, <-(assoc_L (++)).
  - done.
Qed.

Lemma json_no_newline v j : json_text v = Some j -> no_newline j = true.
Proof.
  intros Hw%json_text_one_line. unfold without, no_newline in *. rewrite forallb_forall in *. intros c Hc.
  cbn [bytes_eqb]. rewrite andb_true_r. by apply Hw.
Qed.

(** The texts of the entries, one a line *)
Lemma lines_split es : split_lines [] (concat (line <$> es)) = (fun j => j ++ [x0a]) <$> omap (json_text ∘ entry_value) es.
Proof.
  induction es as [|e es IH]; [done|]. cbn [fmap list_fmap concat omap list_omap]. unfold line at 1, pieces, compose.
  destruct (json_text_total (entry_value e)) as [j Hj]. rewrite Hj. cbn [concat]. rewrite app_nil_r, <-(assoc_L (++)).
  cbn [app]. rewrite split_lines_app by (by apply (json_no_newline _ _ Hj)). by rewrite IH.
Qed.
End proofs.

Section theorems.
Context `{SiemLaws}.

(** C31: The audit trail under concurrent requests.  For any number of threads that log any
    entries to a trail that holds [f0], in every interleaving in which no write fails: the
    file together with the unwritten rest of the current line is [f0] followed by the lines of
    the entries in the order in which they took the lock; the entries of every thread
    are taken in their order and none is taken twice; and when nobody holds the lock,
    a trail that began empty reads back as exactly the texts of the entries. *)
Theorem audit_lines f0 q0 a : rtc (astep Written) (start f0 q0) a ->
  a.(file) ++ concat (from_option snd [] a.(held)) = f0 ++ concat (line ∘ snd <$> a.(taken)) /\
  (forall t, of_thread t a.(taken) ++ a.(queue) t = q0 t) /\
  (a.(held) = None -> f0 = [] -> split_lines [] a.(file) = (fun j => j ++ [x0a]) <$> omap (json_text ∘ entry_value) (snd <$> a.(taken))).
Proof.
  intros Hr. assert (Hok : trail_ok f0 q0 a).
  { assert (Hi : trail_ok f0 q0 (start f0 q0)) by (split; [done|by intros]). revert Hi. induction Hr; [done|].
    intros Hi. apply IHHr. by eapply astep_ok. }
  destruct Hok as [Hf Hq]. split; [done|]. split; [done|]. intros Hh ->. rewrite Hh in Hf. cbn in Hf.
  rewrite app_nil_r in Hf. by rewrite Hf, list_fmap_compose, lines_split.
Qed.

(** One call without contention appends the line; a write of the text that fails after [n] bytes,
    with no report to the caller, makes the next entry unreadable too: the two share a line. *)
Theorem audit_torn_line e1 e2 j1 j2 n f : json_text (entry_value e1) = Some j1 -> json_text (entry_value e2) = Some j2 ->
  log [] e1 f = f ++ j1 ++ [x0a] /\
  split_lines [] (log [] e2 (log [FailedAfter n] e1 [])) = [take n j1 ++ j2 ++ [x0a]].
Proof.
  intros H1 H2. split; [rewrite log_clean; unfold line, pieces; by rewrite H1|].
  rewrite log_clean. unfold log, line, pieces. rewrite H1, H2. cbn. rewrite (assoc_L (++)).
  rewrite split_lines_app; [cbn; by rewrite <-(assoc_L (++))|].
  rewrite no_newline_app, (json_no_newline _ _ H2), andb_true_r. pose proof (json_no_newline _ _ H1) as Hn.
  rewrite <-(take_drop n j1), no_newline_app in Hn. by apply andb_true_iff in Hn as [Hn _].
Qed.
End theorems.

Module ApiAuditWitness.
#[local] Existing Instance toy_siem.

#[local] Instance toy_siem_laws : SiemLaws.
Proof. split; [by eexists|]. by intros v s [= <-]. Qed.

Definition entry (u : text) : AuditEntry :=
  audit_entry 0 u (txt "acme") (txt "DELETE") (txt "/v1/assets/a1") 200 (txt "10.0.0.1") (txt "curl") (f64_of 3).
Definition q0 (t : Tid) : list AuditEntry := match t with 0%nat => [entry (txt "ann"); entry (txt "eve")] | 1%nat => [entry (txt "bob")] | _ => [] end.

(** The second thread comes first and the first one is half way through its line. *)
Lemma audit_lines_witness :
  let a := {| file := txt "{}" ++ [x0a] ++ txt "{}"; queue := dequeue (dequeue q0 1%nat) 0%nat; held := Some (0%nat, [[x0a]]);
              taken := [(1%nat, entry (txt "bob")); (0%nat, entry (txt "ann"))] |} in
  a.(file) ++ concat (from_option snd [] a.(held)) = [] ++ concat (line ∘ snd <$> a.(taken)) /\
  (forall t, of_thread t a.(taken) ++ a.(queue) t = q0 t) /\
  (a.(held) = None -> ([] : text) = [] -> split_lines [] a.(file) = (fun j => j ++ [x0a]) <$> omap (json_text ∘ entry_value) (snd <$> a.(taken))).
Proof.
  intros a. apply (audit_lines [] q0 a).
  eapply rtc_l; [by eapply (a_lock _ _ _ 1%nat)|]. do 2 (eapply rtc_l; [by eapply (a_write Written)|]). eapply rtc_l; [apply a_unlock|].
  eapply rtc_l; [by eapply (a_lock _ _ _ 0%nat)|]. eapply rtc_l; [by eapply (a_write Written)|]. apply rtc_refl.
Defined.
End ApiAuditWitness.
