(* ===== verification/Db.v ===== *)
(** * Db: the tables of the management API and the statements on them

    Models [dfim_management_api/src/db.rs].  A database has the four tables of [migrate],
    each the list of its rows; the primary keys are those of the [CREATE TABLE] statements.
    Every SQL statement of the source is a constructor of [Query], its meaning a case of
    [execute].  The server is a parameter: it may lose any statement, before or after it
    took effect, returns rows without [ORDER BY] in any order, and rounds times.

    A function that talks to the database is a [prog]: a tree of statements, so that
    several requests can be interleaved statement by statement.  [all_queries] says what
    a program may ever send; the lemmas turn it into what a run can change and what it can
    depend on. *)

From stdpp Require Import base list numbers option strings sorting relations.
From Stdlib Require Import ZArith Lia Strings.Byte.
From S2P Require Import Prelude Json Text.

(** ** Rows *)

Record AssetRecord := {
  a_asset_id : text;
  a_display_name : text;
  a_asset_kind : text;
  a_host_name : text;
  a_status : text;
  a_integrity_hash : option text;
  a_last_verified : Z;
  a_enrolled_at : Z;
  a_policy_id : option text;
  a_tenant_id : text
}.

Record PolicyRecord := {
  p_policy_id : text;
  p_name : text;
  p_version : Z;
  p_enforcement_mode : text;
  p_tenant_id : text
}.

Record NodeRecord := {
  n_node_id : text;
  n_host_name : text;
  n_platform : text;
  n_status : text;
  n_last_seen : Z;
  n_asset_count : Z
}.

Record AlertRecord := {
  l_alert_id : text;
  l_severity : text;
  l_asset_id : text;
  l_message : text;
  l_timestamp : Z;
  l_acknowledged : bool;
  l_tenant_id : text
}.

Record FleetSummaryRaw := {
  total_assets : Z;
  healthy : Z;
  tampered : Z;
  blocked : Z;
  pending : Z;
  total_nodes : Z;
  total_policies : Z;
  active_alerts : Z
}.

(** [FleetSummaryRaw::default()] *)
Definition summary_default : FleetSummaryRaw := {|
  total_assets := 0; healthy := 0; tampered := 0; blocked := 0; pending := 0; total_nodes := 0; total_policies := 0;
  active_alerts := 0 |}.

Record Db := {
  assets : list AssetRecord;
  policies : list PolicyRecord;
  nodes : list NodeRecord;
  alerts : list AlertRecord
}.

Definition set_assets (d : Db) (l : list AssetRecord) : Db :=
  {| assets := l; policies := d.(policies); nodes := d.(nodes); alerts := d.(alerts) |}.
Definition set_policies (d : Db) (l : list PolicyRecord) : Db :=
  {| assets := d.(assets); policies := l; nodes := d.(nodes); alerts := d.(alerts) |}.
Definition set_nodes (d : Db) (l : list NodeRecord) : Db :=
  {| assets := d.(assets); policies := d.(policies); nodes := l; alerts := d.(alerts) |}.
Definition set_alerts (d : Db) (l : list AlertRecord) : Db :=
  {| assets := d.(assets); policies := d.(policies); nodes := d.(nodes); alerts := l |}.

(** ** The server *)

Inductive SqlError := UniqueViolation | RowNotFound | NegativeLimit | ConnectionLost | Configuration.

(** What happens to the n-th statement *)
Inductive Fate :=
| Runs
| Lost (applied : bool).

Record Server := {
  fate : nat -> Fate;
  (** the order in which the rows that a statement selects come out, before any sorting: SQL
      promises none, so every permutation of the selected rows is the choice of some server *)
  arrange : forall A, nat -> list A -> list A;
  (** the resolution of [TIMESTAMPTZ] *)
  stored_time : Z -> Z
}.

Definition server_wf (s : Server) : Prop := forall A n (l : list A), Permutation (s.(arrange) A n l) l.

Definition count {A} (p : A -> bool) (l : list A) : Z := zlen (List.filter p l).

Definition not_before {A} (key : A -> Z) (a b : A) : Prop := key b <= key a.

#[export] Instance not_before_dec {A} (key : A -> Z) a b : Decision (not_before key a b).
Proof. unfold not_before. apply _. Defined.

(** [ORDER BY key DESC] *)
Definition order_by_desc {A} (key : A -> Z) (l : list A) : list A := merge_sort (not_before key) l.

(** ** Statements *)

Inductive Query : Type -> Type :=
| CountAssets (tenant : text) : Query Z
| SelectAssets (tenant : text) (status host kind : option text) : Query (list AssetRecord)
| SelectAsset (id tenant : text) : Query (option AssetRecord)
| SelectHosts (tenant : text) (ids : list text) : Query (list (text * text))
| InsertAsset (a : AssetRecord) : Query unit
| SeedAsset (a : AssetRecord) : Query unit
| UpdateStatus (status : text) (verified : Z) (id tenant : text) : Query unit
| DeleteAsset (id tenant : text) : Query Z
| CountPolicies (tenant : text) : Query Z
| SelectPolicies (tenant : text) : Query (list PolicyRecord)
| InsertPolicy (p : PolicyRecord) : Query unit
| SeedPolicy (p : PolicyRecord) : Query unit
| CountNodes : Query Z
| SelectNodes : Query (list NodeRecord)
| UpsertNode (n : NodeRecord) : Query unit
| CountAlerts (tenant : text) : Query Z
| SelectAlerts (tenant : text) (limit : Z) : Query (list AlertRecord)
| InsertAlert (a : AlertRecord) : Query unit
| SetAcknowledged (id tenant : text) : Query unit
| SelectAlert (id tenant : text) : Query AlertRecord
| Summary (tenant : text) : Query FleetSummaryRaw.

(** [tenant_id = $1] *)
Definition row_of {A} (tenant_id : A -> text) (t : text) (a : A) : bool := bytes_eqb (tenant_id a) t.
Abbreviation of_tenant := (row_of a_tenant_id).
Abbreviation policy_of := (row_of p_tenant_id).
Abbreviation alert_of := (row_of l_tenant_id).

Definition has_asset (id : text) (d : Db) : bool := existsb (fun a => bytes_eqb a.(a_asset_id) id) d.(assets).
Definition has_policy (id tenant : text) (d : Db) : bool :=
  existsb (fun p => bytes_eqb p.(p_policy_id) id && policy_of tenant p) d.(policies).
Definition has_node (id : text) (d : Db) : bool := existsb (fun n => bytes_eqb n.(n_node_id) id) d.(nodes).
Definition has_alert (id : text) (d : Db) : bool := existsb (fun a => bytes_eqb a.(l_alert_id) id) d.(alerts).

(** [column = $n], where the condition is there *)
Definition matches (o : option text) (column : text) : bool :=
  match o with Some v => bytes_eqb column v | None => true end.

Section server.
Context (s : Server).

Definition stored_asset (a : AssetRecord) : AssetRecord :=
  {| a_asset_id := a.(a_asset_id); a_display_name := a.(a_display_name); a_asset_kind := a.(a_asset_kind);
     a_host_name := a.(a_host_name); a_status := a.(a_status); a_integrity_hash := a.(a_integrity_hash);
     a_last_verified := s.(stored_time) a.(a_last_verified); a_enrolled_at := s.(stored_time) a.(a_enrolled_at);
     a_policy_id := a.(a_policy_id); a_tenant_id := a.(a_tenant_id) |}.

Definition with_status (st : text) (t : Z) (a : AssetRecord) : AssetRecord :=
  {| a_asset_id := a.(a_asset_id); a_display_name := a.(a_display_name); a_asset_kind := a.(a_asset_kind);
     a_host_name := a.(a_host_name); a_status := st; a_integrity_hash := a.(a_integrity_hash);
     a_last_verified := s.(stored_time) t; a_enrolled_at := a.(a_enrolled_at);
     a_policy_id := a.(a_policy_id); a_tenant_id := a.(a_tenant_id) |}.

Definition stored_alert (a : AlertRecord) : AlertRecord :=
  {| l_alert_id := a.(l_alert_id); l_severity := a.(l_severity); l_asset_id := a.(l_asset_id); l_message := a.(l_message);
     l_timestamp := s.(stored_time) a.(l_timestamp); l_acknowledged := a.(l_acknowledged); l_tenant_id := a.(l_tenant_id) |}.

Definition acknowledged (a : AlertRecord) : AlertRecord :=
  {| l_alert_id := a.(l_alert_id); l_severity := a.(l_severity); l_asset_id := a.(l_asset_id); l_message := a.(l_message);
     l_timestamp := a.(l_timestamp); l_acknowledged := true; l_tenant_id := a.(l_tenant_id) |}.

Definition stored_node (n : NodeRecord) : NodeRecord :=
  {| n_node_id := n.(n_node_id); n_host_name := n.(n_host_name); n_platform := n.(n_platform); n_status := n.(n_status);
     n_last_seen := s.(stored_time) n.(n_last_seen); n_asset_count := n.(n_asset_count) |}.

(** [DO UPDATE SET last_seen = $5, status = 'online'] *)
Definition seen_again (n old : NodeRecord) : NodeRecord :=
  {| n_node_id := old.(n_node_id); n_host_name := old.(n_host_name); n_platform := old.(n_platform); n_status := txt "online";
     n_last_seen := s.(stored_time) n.(n_last_seen); n_asset_count := old.(n_asset_count) |}.

Definition is_asset (id tenant : text) (a : AssetRecord) : bool := bytes_eqb a.(a_asset_id) id && of_tenant tenant a.
Definition is_alert (id tenant : text) (a : AlertRecord) : bool := bytes_eqb a.(l_alert_id) id && alert_of tenant a.

(** The n-th statement, when it runs *)
Definition execute {A} (n : nat) (q : Query A) (d : Db) : outcome SqlError A * Db :=
  match q with
  | CountAssets t => (Ok (count (of_tenant t) d.(assets)), d)
  | SelectAssets t st h k =>
      (Ok (order_by_desc a_last_verified (s.(arrange) _ n (List.filter (fun a =>
        of_tenant t a && matches st a.(a_status) && matches h a.(a_host_name) && matches k a.(a_asset_kind)) d.(assets)))), d)
  | SelectAsset id t => (Ok (head (s.(arrange) _ n (List.filter (is_asset id t) d.(assets)))), d)
  | SelectHosts t ids =>
      (Ok (map (fun a => (a.(a_asset_id), a.(a_host_name))) (s.(arrange) _ n (List.filter (fun a =>
        of_tenant t a && existsb (bytes_eqb a.(a_asset_id)) ids) d.(assets)))), d)
  | InsertAsset a =>
      if has_asset a.(a_asset_id) d then (Err UniqueViolation, d)
      else (Ok tt, set_assets d (d.(assets) ++ [stored_asset a]))
  | SeedAsset a =>
      if has_asset a.(a_asset_id) d then (Ok tt, d) else (Ok tt, set_assets d (d.(assets) ++ [stored_asset a]))
  | UpdateStatus st v id t =>
      (Ok tt, set_assets d (map (fun a => if is_asset id t a then with_status st v a else a) d.(assets)))
  | DeleteAsset id t =>
      (Ok (count (is_asset id t) d.(assets)), set_assets d (List.filter (fun a => negb (is_asset id t a)) d.(assets)))
  | CountPolicies t => (Ok (count (policy_of t) d.(policies)), d)
  | SelectPolicies t => (Ok (s.(arrange) _ n (List.filter (policy_of t) d.(policies))), d)
  | InsertPolicy p =>
      if has_policy p.(p_policy_id) p.(p_tenant_id) d then (Err UniqueViolation, d)
      else (Ok tt, set_policies d (d.(policies) ++ [p]))
  | SeedPolicy p =>
      if has_policy p.(p_policy_id) p.(p_tenant_id) d then (Ok tt, d) else (Ok tt, set_policies d (d.(policies) ++ [p]))
  | CountNodes => (Ok (zlen d.(nodes)), d)
  | SelectNodes => (Ok (order_by_desc n_last_seen (s.(arrange) _ n d.(nodes))), d)
  | UpsertNode nd =>
      if has_node nd.(n_node_id) d
      then (Ok tt, set_nodes d (map (fun o => if bytes_eqb o.(n_node_id) nd.(n_node_id) then seen_again nd o else o) d.(nodes)))
      else (Ok tt, set_nodes d (d.(nodes) ++ [stored_node nd]))
  | CountAlerts t => (Ok (count (alert_of t) d.(alerts)), d)
  | SelectAlerts t limit =>
      if limit <? 0 then (Err NegativeLimit, d)
      else (Ok (take (Z.to_nat limit) (order_by_desc l_timestamp (s.(arrange) _ n (List.filter (alert_of t) d.(alerts))))), d)
  | InsertAlert a =>
      if has_alert a.(l_alert_id) d then (Err UniqueViolation, d)
      else (Ok tt, set_alerts d (d.(alerts) ++ [stored_alert a]))
  | SetAcknowledged id t => (Ok tt, set_alerts d (map (fun a => if is_alert id t a then acknowledged a else a) d.(alerts)))
  | SelectAlert id t => (ok_or (head (s.(arrange) _ n (List.filter (is_alert id t) d.(alerts)))) RowNotFound, d)
  | Summary t =>
      let by_status st := count (fun a => of_tenant t a && bytes_eqb a.(a_status) st) d.(assets) in
      (Ok {| total_assets := count (of_tenant t) d.(assets); healthy := by_status (txt "healthy");
             tampered := by_status (txt "tampered"); blocked := by_status (txt "blocked"); pending := by_status (txt "pending");
             total_nodes := zlen d.(nodes); total_policies := count (policy_of t) d.(policies);
             active_alerts := count (fun a => alert_of t a && negb a.(l_acknowledged)) d.(alerts) |}, d)
  end.

Definition answer {A} (n : nat) (q : Query A) (d : Db) : outcome SqlError A * Db :=
  match s.(fate) n with
  | Runs => execute n q d
  | Lost applied => (Err ConnectionLost, if applied then snd (execute n q d) else d)
  end.
End server.

(** ** Programs *)

Inductive prog (A : Type) : Type :=
| Ret (a : A)
| Do {B : Type} (q : Query B) (k : outcome SqlError B -> prog A).
Arguments Ret {A} a.
Arguments Do {A B} q k.

#[export] Instance prog_ret : MRet prog := fun A a => Ret a.

Fixpoint prog_bind {A B} (f : A -> prog B) (p : prog A) : prog B :=
  match p with
  | Ret a => f a
  | Do q k => Do q (fun r => prog_bind f (k r))
  end.

#[export] Instance prog_mbind : MBind prog := @prog_bind.

(** One statement, and a computation that may have failed before ([?]) *)
Definition stmt {A} (q : Query A) : prog (outcome SqlError A) := Do q Ret.

Definition and_then {A B E} (r : outcome E A) (f : A -> prog (outcome E B)) : prog (outcome E B) :=
  match r with Ok a => f a | Err e => Ret (Err e) | Panic => Ret Panic end.

(** [unwrap_or] *)
Definition unwrap_or {A E} (r : outcome E A) (d : A) : A := match r with Ok a => a | _ => d end.

(** Running a program alone *)
Fixpoint run {A} (s : Server) (p : prog A) (n : nat) (d : Db) : A * (nat * Db) :=
  match p with
  | Ret a => (a, (n, d))
  | Do q k => let '(r, d') := answer s n q d in run s (k r) (S n) d'
  end.

(** What a program may ever send, whatever the answers *)
Fixpoint all_queries {A} (P : forall B, Query B -> Prop) (p : prog A) : Prop :=
  match p with
  | Ret _ => True
  | Do q k => P _ q /\ forall r, all_queries P (k r)
  end.

(** ** The functions of the module *)

Definition connect (database_url : option text) (reachable : text -> bool) : outcome SqlError unit :=
  match database_url with
  | None => Err Configuration
  | Some url => if reachable url then Ok tt else Err ConnectionLost
  end.

Definition demo_asset (now : Z) (id name kind host status : text) : AssetRecord :=
  {| a_asset_id := id; a_display_name := name; a_asset_kind := kind; a_host_name := host; a_status := status;
     a_integrity_hash := None; a_last_verified := now; a_enrolled_at := now; a_policy_id := None;
     a_tenant_id := txt "default" |}.

Definition demo (now : Z) : list AssetRecord :=
  [demo_asset now (txt "sha256:bootmgfw") (txt "bootmgfw.efi") (txt "WindowsBootManager") (txt "node-01") (txt "healthy");
   demo_asset now (txt "sha256:vmlinuz") (txt "vmlinuz") (txt "LinuxKernel") (txt "node-02") (txt "healthy");
   demo_asset now (txt "sha256:systemd") (txt "systemd") (txt "InitSystem") (txt "node-03") (txt "healthy");
   demo_asset now (txt "sha256:sshd") (txt "sshd") (txt "SSHDaemon") (txt "node-01") (txt "healthy")].

Fixpoint seed (rows : list AssetRecord) : prog (outcome SqlError unit) :=
  match rows with
  | [] => mret (Ok tt)
  | a :: rows => r ← stmt (SeedAsset a); and_then r (fun _ => seed rows)
  end.

(** [migrate], on the tables that the [CREATE TABLE] statements left *)
Definition migrate (now : Z) : prog (outcome SqlError unit) :=
  c ← stmt (CountAssets (txt "default"));
  and_then c (fun count =>
    if count =? 0 then
      r ← seed (demo now);
      and_then r (fun _ =>
        stmt (SeedPolicy {| p_policy_id := txt "default-policy"; p_name := txt "Enterprise Baseline"; p_version := 1;
                            p_enforcement_mode := txt "protected-scope"; p_tenant_id := txt "default" |}))
    else mret (Ok tt)).

Definition some_count (r : outcome SqlError Z) : outcome SqlError (option Z) := Some <$> r.

Definition count_assets (tenant : text) : prog (outcome SqlError (option Z)) := r ← stmt (CountAssets tenant); mret (some_count r).
Definition count_policies (tenant : text) : prog (outcome SqlError (option Z)) := r ← stmt (CountPolicies tenant); mret (some_count r).
Definition count_nodes : prog (outcome SqlError (option Z)) := r ← stmt CountNodes; mret (some_count r).
Definition count_alerts (tenant : text) : prog (outcome SqlError (option Z)) := r ← stmt (CountAlerts tenant); mret (some_count r).

(** The statement that [list_assets] chooses: only five of the eight combinations filter *)
Definition asset_query (tenant : text) (status host kind : option text) : Query (list AssetRecord) :=
  match status, host, kind with
  | Some _, Some _, Some _ => SelectAssets tenant status host kind
  | Some _, Some _, None => SelectAssets tenant status host None
  | Some _, None, None => SelectAssets tenant status None None
  | None, Some _, None => SelectAssets tenant None host None
  | _, _, _ => SelectAssets tenant None None None
  end.

(** [skip(offset as usize).take(limit as usize)], stopping at the end of the list *)
Definition page {A} (limit offset : Z) (all : list A) : list A :=
  let rest := drop (Z.to_nat (Z.min (as_u64 offset) (zlen all))) all in
  take (Z.to_nat (Z.min (as_u64 limit) (zlen rest))) rest.

Definition page_of {A} (limit offset : Z) (r : outcome SqlError (list A)) : outcome SqlError (list A) :=
  match r with Ok all => Ok (page limit offset all) | Err e => Err e | Panic => Panic end.

Definition list_assets (tenant : text) (limit offset : Z) (status host kind : option text) :
    prog (outcome SqlError (list AssetRecord)) :=
  r ← stmt (asset_query tenant status host kind);
  mret (page_of limit offset r).

Definition get_asset (tenant id : text) : prog (option AssetRecord) :=
  r ← stmt (SelectAsset id tenant);
  mret (match r with Ok o => o | _ => None end).

(** The rows, the last one first: a [HashMap] keeps the last value of a key *)
Definition host_names_for_assets (tenant : text) (ids : list text) : prog (list (text * text)) :=
  match ids with
  | [] => mret []
  | _ => r ← stmt (SelectHosts tenant ids); mret (reverse (unwrap_or r []))
  end.

Definition insert_asset (a : AssetRecord) : prog (outcome SqlError unit) := stmt (InsertAsset a).

Definition update_asset_status (tenant id status : text) (verified : Z) : prog (outcome SqlError unit) :=
  stmt (UpdateStatus status verified id tenant).

Definition delete_asset (tenant id : text) : prog (outcome SqlError unit) :=
  r ← stmt (DeleteAsset id tenant);
  mret (n ← r; if n =? 0 then Err RowNotFound else Ok tt).

Definition list_policies (tenant : text) : prog (outcome SqlError (list PolicyRecord)) := stmt (SelectPolicies tenant).
Definition insert_policy (p : PolicyRecord) : prog (outcome SqlError unit) := stmt (InsertPolicy p).
Definition list_nodes : prog (outcome SqlError (list NodeRecord)) := stmt SelectNodes.
Definition insert_node (n : NodeRecord) : prog (outcome SqlError unit) := stmt (UpsertNode n).
Definition list_alerts (tenant : text) (limit : Z) : prog (outcome SqlError (list AlertRecord)) := stmt (SelectAlerts tenant limit).
Definition insert_alert (a : AlertRecord) : prog (outcome SqlError unit) := stmt (InsertAlert a).

Definition acknowledge_alert (tenant id : text) : prog (outcome SqlError AlertRecord) :=
  r ← stmt (SetAcknowledged id tenant);
  and_then r (fun _ => stmt (SelectAlert id tenant)).

Definition fleet_summary (tenant : text) : prog (outcome SqlError FleetSummaryRaw) := stmt (Summary tenant).

(** ** Rows of one tenant *)

Section rows.
Context {A : Type} (ten : A -> text).
Abbreviation mine := (row_of ten).

Lemma mine_other t t' a : t <> t' -> mine t a = true -> mine t' a = false.
Proof. unfold row_of. intros Hne Ht. apply not_true_is_false. intros Ht'. apply bytes_eqb_eq in Ht, Ht'. congruence. Qed.

Lemma filter_and (p c : A -> bool) l : List.filter (fun a => p a && c a) l = List.filter c (List.filter p l).
Proof.
  induction l as [|a l IH]; [done|]. cbn [List.filter]. destruct (p a); cbn [andb List.filter]; rewrite IH; [| done].
  by destruct (c a).
Qed.

Lemma filter_and_r (p c : A -> bool) l : List.filter (fun a => c a && p a) l = List.filter c (List.filter p l).
Proof. rewrite <- filter_and. apply filter_ext. intros a. apply andb_comm. Qed.

(** An update of [t]'s rows, seen by another tenant and by [t] *)
Lemma update_other t t' (c : A -> bool) (g : A -> A) l : t <> t' -> (forall a, ten (g a) = ten a) ->
  List.filter (mine t') (map (fun a => if c a && mine t a then g a else a) l) = List.filter (mine t') l.
Proof.
  intros Hne Hg. induction l as [|a l IH]; [done|]. cbn [map List.filter]. rewrite IH.
  destruct (c a && mine t a) eqn:E; [| done]. apply andb_prop in E as [_ E].
  assert (mine t' (g a) = mine t' a) as -> by (unfold row_of; by rewrite Hg).
  by rewrite (mine_other t t' a Hne E).
Qed.

Lemma update_own t (c : A -> bool) (g : A -> A) l : (forall a, ten (g a) = ten a) ->
  List.filter (mine t) (map (fun a => if c a && mine t a then g a else a) l) =
    map (fun a => if c a then g a else a) (List.filter (mine t) l).
Proof.
  intros Hg. induction l as [|a l IH]; [done|]. cbn [map List.filter].
  assert (Hm : mine t (if c a && mine t a then g a else a) = mine t a).
  { destruct (c a && mine t a); [| done]. unfold row_of. by rewrite Hg. }
  rewrite Hm, IH. destruct (mine t a) eqn:E; [| done]. by rewrite andb_true_r.
Qed.

(** Deleting [t]'s rows *)
Lemma delete_other t t' (c : A -> bool) l : t <> t' ->
  List.filter (mine t') (List.filter (fun a => negb (c a && mine t a)) l) = List.filter (mine t') l.
Proof.
  intros Hne. induction l as [|a l IH]; [done|]. cbn [List.filter].
  destruct (c a && mine t a) eqn:E; cbn [negb List.filter]; rewrite IH; [| done].
  apply andb_prop in E as [_ E]. by rewrite (mine_other t t' a Hne E).
Qed.

Lemma delete_own t (c : A -> bool) l :
  List.filter (mine t) (List.filter (fun a => negb (c a && mine t a)) l) =
    List.filter (fun a => negb (c a)) (List.filter (mine t) l).
Proof.
  induction l as [|a l IH]; [done|]. cbn [List.filter]. destruct (mine t a) eqn:E.
  - rewrite andb_true_r. destruct (c a) eqn:Ec; cbn [negb List.filter]; rewrite ?E, ?Ec; cbn [negb]; by rewrite IH.
  - rewrite andb_false_r. cbn [negb List.filter]. by rewrite E, IH.
Qed.

Lemma append_other t' l a : ten a <> t' -> List.filter (mine t') (l ++ [a]) = List.filter (mine t') l.
Proof.
  intros Hne. rewrite List.filter_app. cbn [List.filter].
  assert (mine t' a = false) as -> by (apply not_true_is_false; unfold row_of; by intros ?%bytes_eqb_eq).
  apply app_nil_r.
Qed.

Lemma append_own t l a : ten a = t -> List.filter (mine t) (l ++ [a]) = List.filter (mine t) l ++ [a].
Proof.
  intros <-. rewrite List.filter_app. cbn [List.filter].
  assert (mine (ten a) a = true) as -> by (by apply bytes_eqb_eq). done.
Qed.

Lemma existsb_own t (c : A -> bool) l : existsb (fun a => c a && mine t a) l = existsb c (List.filter (mine t) l).
Proof.
  induction l as [|a l IH]; [done|]. cbn [existsb List.filter]. rewrite IH.
  destruct (mine t a) eqn:E; cbn [existsb]; [by rewrite andb_true_r | by rewrite andb_false_r].
Qed.
End rows.

(** ** What a statement touches *)

(** The tenant whose rows a statement works on; the table of nodes has no tenants *)
Definition owner {A} (q : Query A) : option text :=
  match q with
  | CountAssets t | SelectAssets t _ _ _ | SelectAsset _ t | SelectHosts t _ | UpdateStatus _ _ _ t | DeleteAsset _ t
  | CountPolicies t | SelectPolicies t | CountAlerts t | SelectAlerts t _ | SetAcknowledged _ t | SelectAlert _ t
  | Summary t => Some t
  | InsertAsset a | SeedAsset a => Some a.(a_tenant_id)
  | InsertPolicy p | SeedPolicy p => Some p.(p_tenant_id)
  | InsertAlert a => Some a.(l_tenant_id)
  | CountNodes | SelectNodes | UpsertNode _ => None
  end.

Definition writes {A} (q : Query A) : bool :=
  match q with
  | InsertAsset _ | SeedAsset _ | UpdateStatus _ _ _ _ | DeleteAsset _ _ | InsertPolicy _ | SeedPolicy _ | UpsertNode _
  | InsertAlert _ | SetAcknowledged _ _ => true
  | _ => false
  end.

(** What a tenant can see *)
Definition view (t : text) (d : Db) : list AssetRecord * list PolicyRecord * list AlertRecord :=
  (List.filter (of_tenant t) d.(assets), List.filter (policy_of t) d.(policies), List.filter (alert_of t) d.(alerts)).

Definition agree (t : text) (d1 d2 : Db) : Prop := view t d1 = view t d2 /\ d1.(nodes) = d2.(nodes).

Lemma agree_refl t d : agree t d d.
Proof. done. Qed.

Section statements.
Context (s : Server).

Lemma execute_reads {A} n (q : Query A) d : writes q = false -> snd (execute s n q d) = d.
Proof. destruct q; try done. cbn [execute]. intros _. by destruct (limit <? 0). Qed.

Lemma answer_reads {A} n (q : Query A) d : writes q = false -> snd (answer s n q d) = d.
Proof.
  intros Hq. unfold answer. destruct (s.(fate) n) as [|[]]; [by apply execute_reads | by apply execute_reads | done].
Qed.

Lemma view_assets t d l : List.filter (of_tenant t) l = List.filter (of_tenant t) d.(assets) -> view t (set_assets d l) = view t d.
Proof. intros Hl. unfold view. cbn [set_assets assets policies alerts]. by rewrite Hl. Qed.

Lemma view_policies t d l : List.filter (policy_of t) l = List.filter (policy_of t) d.(policies) -> view t (set_policies d l) = view t d.
Proof. intros Hl. unfold view. cbn [set_policies assets policies alerts]. by rewrite Hl. Qed.

Lemma view_alerts t d l : List.filter (alert_of t) l = List.filter (alert_of t) d.(alerts) -> view t (set_alerts d l) = view t d.
Proof. intros Hl. unfold view. cbn [set_alerts assets policies alerts]. by rewrite Hl. Qed.

(** A statement leaves the rows of every other tenant alone. *)
Lemma execute_other {A} n (q : Query A) d t : owner q <> Some t -> view t (snd (execute s n q d)) = view t d.
Proof.
  intros Ho. destruct (writes q) eqn:Hw; [| by rewrite execute_reads].
  destruct q; try done; cbn [execute owner] in *.
  - destruct (has_asset _ _); [done|]. apply view_assets. apply append_other. intros E. apply Ho. f_equal. exact E.
  - destruct (has_asset _ _); [done|]. apply view_assets. apply append_other. intros E. apply Ho. f_equal. exact E.
  - apply view_assets. apply update_other; [congruence | done].
  - apply view_assets. apply delete_other. congruence.
  - destruct (has_policy _ _ _); [done|]. apply view_policies. apply append_other. intros E. apply Ho. f_equal. exact E.
  - destruct (has_policy _ _ _); [done|]. apply view_policies. apply append_other. intros E. apply Ho. f_equal. exact E.
  - by destruct (has_node _ _).
  - destruct (has_alert _ _); [done|]. apply view_alerts. apply append_other. intros E. apply Ho. f_equal. exact E.
  - apply view_alerts. apply update_other; [congruence | done].
Qed.

Lemma answer_other {A} n (q : Query A) d t : owner q <> Some t -> view t (snd (answer s n q d)) = view t d.
Proof. intros Ho. unfold answer. destruct (s.(fate) n) as [|[]]; [by apply execute_other.. | done]. Qed.

(** The keys that a statement needs to be free *)
Definition same_keys {A} (q : Query A) (d1 d2 : Db) : Prop :=
  match q with
  | InsertAsset a | SeedAsset a => has_asset a.(a_asset_id) d1 = has_asset a.(a_asset_id) d2
  | InsertAlert a => has_alert a.(l_alert_id) d1 = has_alert a.(l_alert_id) d2
  | _ => True
  end.

Lemma view_eq t d1 d2 : view t d1 = view t d2 ->
  List.filter (of_tenant t) d1.(assets) = List.filter (of_tenant t) d2.(assets) /\
  List.filter (policy_of t) d1.(policies) = List.filter (policy_of t) d2.(policies) /\
  List.filter (alert_of t) d1.(alerts) = List.filter (alert_of t) d2.(alerts).
Proof. by intros [= ? ? ?]. Qed.

Lemma has_policy_agree id t d1 d2 : view t d1 = view t d2 -> has_policy id t d1 = has_policy id t d2.
Proof. intros (_ & Hp & _)%view_eq. unfold has_policy. by rewrite !existsb_own, Hp. Qed.

Lemma agree_assets t d1 d2 l1 l2 : agree t d1 d2 -> List.filter (of_tenant t) l1 = List.filter (of_tenant t) l2 ->
  agree t (set_assets d1 l1) (set_assets d2 l2).
Proof. intros [(_ & Hp & Ha)%view_eq Hn] Hl. split; [| done]. unfold view. cbn. by rewrite Hl, Hp, Ha. Qed.

Lemma agree_policies t d1 d2 l1 l2 : agree t d1 d2 -> List.filter (policy_of t) l1 = List.filter (policy_of t) l2 ->
  agree t (set_policies d1 l1) (set_policies d2 l2).
Proof. intros [(Ha & _ & Hl')%view_eq Hn] Hl. split; [| done]. unfold view. cbn. by rewrite Hl, Ha, Hl'. Qed.

Lemma agree_alerts t d1 d2 l1 l2 : agree t d1 d2 -> List.filter (alert_of t) l1 = List.filter (alert_of t) l2 ->
  agree t (set_alerts d1 l1) (set_alerts d2 l2).
Proof. intros [(Ha & Hp & _)%view_eq Hn] Hl. split; [| done]. unfold view. cbn. by rewrite Hl, Ha, Hp. Qed.

Lemma agree_nodes t d1 d2 l1 l2 : agree t d1 d2 -> l1 = l2 -> agree t (set_nodes d1 l1) (set_nodes d2 l2).
Proof. by intros [Hv _] ->. Qed.

(** A statement on behalf of a tenant cannot tell apart two databases that agree on what
    the tenant sees, except by a key that another tenant holds. *)
Lemma execute_agree {A} n (q : Query A) t d1 d2 : owner q = Some t \/ owner q = None ->
  agree t d1 d2 -> same_keys q d1 d2 ->
  fst (execute s n q d1) = fst (execute s n q d2) /\ agree t (snd (execute s n q d1)) (snd (execute s n q d2)).
Proof.
  intros Ho [Hv Hn] Hk. pose proof (view_eq t d1 d2 Hv) as (Ha & Hp & Hl).
  assert (Hag : agree t d1 d2) by done.
  destruct q; cbn [owner] in Ho; (destruct Ho as [Ho|Ho]; [simplify_eq | try discriminate Ho]); cbn [execute same_keys fst snd] in *.
  - unfold count. by rewrite Ha.
  - split; [| done]. do 3 f_equal. rewrite !(filter_and _ (fun a => matches kind _)), !(filter_and _ (fun a => matches host _)),
      !(filter_and _ (fun a => matches status _)). by rewrite Ha.
  - split; [| done]. do 3 f_equal. unfold is_asset. by rewrite !filter_and_r, Ha.
  - split; [| done]. do 3 f_equal. by rewrite !filter_and, Ha.
  - rewrite Hk. destruct (has_asset _ d2); [done|]. split; [done|]. apply agree_assets; [done|]. by rewrite !append_own, Ha.
  - rewrite Hk. destruct (has_asset _ d2); [done|]. split; [done|]. apply agree_assets; [done|]. by rewrite !append_own, Ha.
  - split; [done|]. apply agree_assets; [done|]. unfold is_asset. by rewrite !update_own, Ha.
  - split; [unfold count, is_asset; by rewrite !filter_and_r, Ha|]. apply agree_assets; [done|]. unfold is_asset. by rewrite !delete_own, Ha.
  - unfold count. by rewrite Hp.
  - by rewrite Hp.
  - rewrite (has_policy_agree _ _ d1 d2 (proj1 Hag)). destruct (has_policy _ _ d2); [done|]. split; [done|].
    apply agree_policies; [done|]. by rewrite !append_own, Hp.
  - rewrite (has_policy_agree _ _ d1 d2 (proj1 Hag)). destruct (has_policy _ _ d2); [done|]. split; [done|].
    apply agree_policies; [done|]. by rewrite !append_own, Hp.
  - by rewrite Hn.
  - by rewrite Hn.
  - unfold has_node. rewrite Hn. destruct (existsb _ _); (split; [done|]; apply agree_nodes; [done|]; by rewrite ?Hn).
  - unfold count. by rewrite Hl.
  - destruct (limit <? 0); [done|]. by rewrite Hl.
  - rewrite Hk. destruct (has_alert _ d2); [done|]. split; [done|]. apply agree_alerts; [done|]. by rewrite !append_own, Hl.
  - split; [done|]. apply agree_alerts; [done|]. unfold is_alert. by rewrite !update_own, Hl.
  - split; [| done]. do 3 f_equal. unfold is_alert. by rewrite !filter_and_r, Hl.
  - split; [| done]. do 2 f_equal; unfold count; rewrite ?filter_and; congruence.
Qed.

Lemma answer_agree {A} n (q : Query A) t d1 d2 : owner q = Some t \/ owner q = None ->
  agree t d1 d2 -> same_keys q d1 d2 ->
  fst (answer s n q d1) = fst (answer s n q d2) /\ agree t (snd (answer s n q d1)) (snd (answer s n q d2)).
Proof.
  intros Ho Ha Hk. destruct (execute_agree n q t d1 d2 Ho Ha Hk). unfold answer. by destruct (s.(fate) n) as [|[]].
Qed.
End statements.

(** ** Keys held by others *)

Definition foreign {A} (ten : A -> text) (t : text) (a : A) : bool := negb (row_of ten t a).

Definition others (t : text) (d : Db) : list AssetRecord * list AlertRecord :=
  (List.filter (foreign a_tenant_id t) d.(assets), List.filter (foreign l_tenant_id t) d.(alerts)).

(** Whether another tenant has an asset, or an alert, with this key *)
Definition foreign_asset (t id : text) (d : Db) : bool := existsb (fun a => bytes_eqb a.(a_asset_id) id) (others t d).1.
Definition foreign_alert (t id : text) (d : Db) : bool := existsb (fun a => bytes_eqb a.(l_alert_id) id) (others t d).2.

Section foreign_rows.
Context {A : Type} (ten : A -> text).

Lemma existsb_split t (c : A -> bool) l :
  existsb c l = existsb c (List.filter (row_of ten t) l) || existsb c (List.filter (foreign ten t) l).
Proof.
  unfold foreign. induction l as [|a l IH]; [done|]. cbn [existsb List.filter]. rewrite IH.
  destruct (row_of ten t a); cbn [negb existsb]; [by rewrite orb_assoc|].
  rewrite !orb_assoc. f_equal. apply orb_comm.
Qed.

Lemma foreign_append t l a : ten a = t -> List.filter (foreign ten t) (l ++ [a]) = List.filter (foreign ten t) l.
Proof.
  intros <-. rewrite List.filter_app. cbn [List.filter]. unfold foreign at 2, row_of. rewrite bytes_eqb_refl. apply app_nil_r.
Qed.

Lemma foreign_update t (c : A -> bool) (g : A -> A) l : (forall a, ten (g a) = ten a) ->
  List.filter (foreign ten t) (map (fun a => if c a && row_of ten t a then g a else a) l) = List.filter (foreign ten t) l.
Proof.
  intros Hg. induction l as [|a l IH]; [done|]. cbn [map List.filter]. rewrite IH.
  destruct (c a && row_of ten t a) eqn:E; [| done]. apply andb_prop in E as [_ E].
  assert (foreign ten t (g a) = foreign ten t a) as -> by (unfold foreign, row_of; by rewrite Hg).
  unfold foreign. by rewrite E.
Qed.

Lemma foreign_delete t (c : A -> bool) l :
  List.filter (foreign ten t) (List.filter (fun a => negb (c a && row_of ten t a)) l) = List.filter (foreign ten t) l.
Proof.
  induction l as [|a l IH]; [done|]. cbn [List.filter].
  destruct (c a && row_of ten t a) eqn:E; cbn [negb List.filter]; rewrite IH; [| done].
  apply andb_prop in E as [_ E]. unfold foreign at 2. by rewrite E.
Qed.
End foreign_rows.

Lemma has_asset_split id t d :
  has_asset id d = existsb (fun a => bytes_eqb a.(a_asset_id) id) (view t d).1.1 || foreign_asset t id d.
Proof. apply existsb_split. Qed.

Lemma has_alert_split id t d :
  has_alert id d = existsb (fun a => bytes_eqb a.(l_alert_id) id) (view t d).2 || foreign_alert t id d.
Proof. apply existsb_split. Qed.

(** A statement on behalf of [t] leaves the rows of the others as they are. *)
Lemma execute_others {A} s n (q : Query A) d t : owner q = Some t \/ owner q = None ->
  others t (snd (execute s n q d)) = others t d.
Proof.
  intros Ho. destruct (writes q) eqn:Hw; [| by rewrite execute_reads].
  unfold others. destruct q; try done; cbn [owner] in Ho; (destruct Ho as [Ho|Ho]; [simplify_eq | try discriminate Ho]); cbn [execute].
  - destruct (has_asset _ _); [done|]. cbn. by rewrite foreign_append.
  - destruct (has_asset _ _); [done|]. cbn. by rewrite foreign_append.
  - cbn. unfold is_asset. by rewrite foreign_update.
  - cbn. unfold is_asset. by rewrite foreign_delete.
  - by destruct (has_policy _ _ _).
  - by destruct (has_policy _ _ _).
  - by destruct (has_node _ _).
  - destruct (has_alert _ _); [done|]. cbn. by rewrite foreign_append.
  - cbn. unfold is_alert. by rewrite foreign_update.
Qed.

Lemma answer_others {A} s n (q : Query A) d t : owner q = Some t \/ owner q = None ->
  others t (snd (answer s n q d)) = others t d.
Proof. intros Ho. unfold answer. destruct (s.(fate) n) as [|[]]; [by apply execute_others.. | done]. Qed.

(** ** Programs *)

Lemma all_queries_bind {A B} P (p : prog A) (f : A -> prog B) :
  all_queries P p -> (forall a, all_queries P (f a)) -> all_queries P (p ≫= f).
Proof.
  intros Hp Hf. unfold mbind, prog_mbind. induction p as [a|C q k IH]; cbn [prog_bind all_queries]; [by apply Hf|].
  destruct Hp as [Hq Hk]. split; [done|]. intros r. by apply IH.
Qed.

Lemma all_queries_stmt {A} (P : forall B, Query B -> Prop) (q : Query A) : P _ q -> all_queries P (stmt q).
Proof. by intros ?. Qed.

Lemma all_queries_and_then {A B E} P (r : outcome E A) (f : A -> prog (outcome E B)) :
  (forall a, all_queries P (f a)) -> all_queries P (and_then r f).
Proof. intros Hf. destruct r; cbn; auto. Qed.

Lemma all_queries_mono {A} (P Q : forall B, Query B -> Prop) (p : prog A) :
  (forall B q, P B q -> Q B q) -> all_queries P p -> all_queries Q p.
Proof. intros HPQ. induction p as [a|C q k IH]; cbn [all_queries]; [done|]. intros [Hq Hk]. split; [by apply HPQ|]. auto. Qed.

(** What every statement of a program preserves, the program preserves. *)
Lemma run_preserves {A} s (P : forall B, Query B -> Prop) (I : Db -> Prop) :
  (forall B (q : Query B) n d, P B q -> I d -> I (snd (answer s n q d))) ->
  forall (p : prog A) n d, all_queries P p -> I d -> I (snd (snd (run s p n d))).
Proof.
  intros Hstep p. induction p as [a|C q k IH]; intros n d Hp Hd; cbn [run all_queries] in *; [done|].
  destruct Hp as [Hq Hk]. pose proof (Hstep _ q n d Hq Hd) as Hd'. destruct (answer s n q d) as [r d']. by apply IH.
Qed.

(** The keys that a program may insert are free, or taken, in both databases alike. *)
Definition keys_agree (t : text) (d1 d2 : Db) {A} (q : Query A) : Prop :=
  match q with
  | InsertAsset a | SeedAsset a => foreign_asset t a.(a_asset_id) d1 = foreign_asset t a.(a_asset_id) d2
  | InsertAlert a => foreign_alert t a.(l_alert_id) d1 = foreign_alert t a.(l_alert_id) d2
  | _ => True
  end.

Definition acts_for (t : text) (d1 d2 : Db) {A} (q : Query A) : Prop :=
  (owner q = Some t \/ owner q = None) /\ keys_agree t d1 d2 q.

Lemma run_agree {A} s t d1 d2 (p : prog A) : all_queries (fun B => @acts_for t d1 d2 B) p ->
  forall n e1 e2, agree t e1 e2 -> others t e1 = others t d1 -> others t e2 = others t d2 ->
  let r1 := run s p n e1 in let r2 := run s p n e2 in
  fst r1 = fst r2 /\ agree t (snd (snd r1)) (snd (snd r2)).
Proof.
  induction p as [a|C q k IH]; intros Hp n e1 e2 Ha H1 H2; cbn [run all_queries] in *; [done|].
  destruct Hp as [[Ho Hkeys] Hk].
  assert (Hsame : same_keys q e1 e2).
  { pose proof Ha as [Hv _]. destruct q; try done; cbn [same_keys keys_agree] in *;
      rewrite ?(has_asset_split _ t), ?(has_alert_split _ t), Hv; f_equal; unfold foreign_asset, foreign_alert in *; congruence. }
  destruct (answer_agree s n q t e1 e2 Ho Ha Hsame) as [Hr Ha'].
  pose proof (answer_others s n q e1 t Ho) as Ho1. pose proof (answer_others s n q e2 t Ho) as Ho2.
  destruct (answer s n q e1) as [r1 e1'], (answer s n q e2) as [r2 e2']. cbn [fst snd] in *. subst r2.
  apply IH; [done | done | congruence | congruence].
Qed.

(** ** Interleavings *)

(** Several programs on one database: any of them takes the next statement. *)
Definition Pool (R : Type) : Type := list (prog R) * nat * Db.

Inductive step {R} (s : Server) : Pool R -> Pool R -> Prop :=
| Step ps i B (q : Query B) k n d :
    ps !! i = Some (Do q k) ->
    step s (ps, n, d) (<[i := k (fst (answer s n q d))]> ps, S n, snd (answer s n q d)).

Lemma steps_preserve {R} s (P : forall B, Query B -> Prop) (I : Db -> Prop) :
  (forall B (q : Query B) n d, P B q -> I d -> I (snd (answer s n q d))) ->
  forall (c c' : Pool R), rtc (step s) c c' -> Forall (all_queries P) c.1.1 -> I c.2 ->
    Forall (all_queries P) c'.1.1 /\ I c'.2.
Proof.
  intros Hstep c c' Hsteps. induction Hsteps as [c|c1 c2 c3 H12 _ IH]; intros Hp Hd; [done|].
  inversion H12 as [ps i B q k n d Hi Heq1 Heq2]; subst. cbn [fst snd] in *. pose proof (Forall_lookup_1 _ _ _ _ Hp Hi) as [Hq Hk].
  apply IH; [| by apply Hstep]. by apply Forall_insert.
Qed.

(** ** Primary keys *)

Record db_wf (d : Db) : Prop := {
  asset_keys : NoDup (map a_asset_id d.(assets));
  policy_keys : NoDup (map (fun p => (p.(p_policy_id), p.(p_tenant_id))) d.(policies));
  node_keys : NoDup (map n_node_id d.(nodes));
  alert_keys : NoDup (map l_alert_id d.(alerts))
}.

Section keys.
Context {A K : Type} (key : A -> K).

Lemma NoDup_append l a : NoDup (map key l) -> key a ∉ map key l -> NoDup (map key (l ++ [a])).
Proof.
  intros Hl Ha. rewrite map_app. apply NoDup_app. split; [done|]. split; [| apply NoDup_singleton].
  intros k Hk ->%list_elem_of_singleton. done.
Qed.

Lemma map_update_key (c : A -> bool) (g : A -> A) l : (forall a, key (g a) = key a) ->
  map key (map (fun a => if c a then g a else a) l) = map key l.
Proof. intros Hg. rewrite map_map. apply map_ext. intros a. by destruct (c a). Qed.

Lemma NoDup_filter_key (c : A -> bool) l : NoDup (map key l) -> NoDup (map key (List.filter c l)).
Proof.
  induction l as [|a l IH]; [done|]. cbn [map]. intros [Ha Hl]%NoDup_cons. cbn [List.filter]. destruct (c a); [| by apply IH].
  cbn [map]. apply NoDup_cons. split; [| by apply IH]. intros Hin. apply Ha.
  apply list_elem_of_In, in_map_iff in Hin as (b & <- & [Hb _]%filter_In). by apply list_elem_of_In, in_map.
Qed.

Lemma key_free (c : A -> bool) l k : existsb c l = false -> (forall a, key a = k -> c a = true) -> k ∉ map key l.
Proof.
  intros Hc Hk Hin. apply list_elem_of_In, in_map_iff in Hin as (a & <- & Ha).
  assert (existsb c l = true); [| congruence]. apply existsb_exists. exists a. split; [done | by apply Hk].
Qed.
End keys.

(** No statement breaks a primary key. *)
Lemma execute_wf {A} s n (q : Query A) d : db_wf d -> db_wf (snd (execute s n q d)).
Proof.
  intros Hd. destruct (writes q) eqn:Hw; [| by rewrite execute_reads]. pose proof Hd as [Ha Hp Hn Hl].
  destruct q; try done; cbn [execute].
  - destruct (has_asset _ _) eqn:E; [done|]. split; cbn; try done. apply NoDup_append; [done|].
    eapply key_free; [exact E|]. intros b Hb. apply bytes_eqb_eq. done.
  - destruct (has_asset _ _) eqn:E; [done|]. split; cbn; try done. apply NoDup_append; [done|].
    eapply key_free; [exact E|]. intros b Hb. apply bytes_eqb_eq. done.
  - split; cbn; try done. by rewrite map_update_key.
  - split; cbn; try done. by apply NoDup_filter_key.
  - destruct (has_policy _ _ _) eqn:E; [done|]. split; cbn; try done. apply (NoDup_append (fun p => (p.(p_policy_id), p.(p_tenant_id)))); [done|].
    eapply key_free; [exact E|]. intros b Hb. injection Hb as E1 E2. unfold row_of. rewrite <- E1, <- E2. by rewrite !bytes_eqb_refl.
  - destruct (has_policy _ _ _) eqn:E; [done|]. split; cbn; try done. apply (NoDup_append (fun p => (p.(p_policy_id), p.(p_tenant_id)))); [done|].
    eapply key_free; [exact E|]. intros b Hb. injection Hb as E1 E2. unfold row_of. rewrite <- E1, <- E2. by rewrite !bytes_eqb_refl.
  - destruct (has_node _ _) eqn:E; split; cbn; try done; [by rewrite map_update_key|].
    apply NoDup_append; [done|]. eapply key_free; [exact E|]. intros b Hb. apply bytes_eqb_eq. done.
  - destruct (has_alert _ _) eqn:E; [done|]. split; cbn; try done. apply NoDup_append; [done|].
    eapply key_free; [exact E|]. intros b Hb. apply bytes_eqb_eq. done.
  - split; cbn; try done. by rewrite map_update_key.
Qed.

Lemma answer_wf {A} s n (q : Query A) d : db_wf d -> db_wf (snd (answer s n q d)).
Proof. intros Hd. unfold answer. destruct (s.(fate) n) as [|[]]; [by apply execute_wf.. | done]. Qed.
