(* ===== verification/Api.v ===== *)
(** * Api: the requests of the management API

    Models [dfim_management_api/src/main.rs] and [metrics.rs]: the guard (rate limit, token,
    role), the router with its layers, and every handler.  A request first passes the
    guard, which works on the limiter and the token key ([Front]), and becomes a program of
    SQL statements ([Db.prog]) that ends in a response; programs of different requests
    interleave.  What [axum] extracts from a request (bodies, query strings, path
    segments) is parsed by the functions of [Wire], which answer with the status of the
    rejection when they fail.

    The theorems describe what passes the guard, and show that tenants are isolated from
    each other in every interleaving, what each role can change, and what the
    verification of an asset does. *)

From stdpp Require Import base list numbers option strings sorting relations gmap.
From Stdlib Require Import ZArith Lia Strings.Byte Floats.SpecFloat.
From S2P Require Import Siem RateLimit Auth Db.
From S2P Require Import Prelude Crypto Float64 Json Text.

(** ** Requests and responses *)

Inductive Method := GET | HEAD | POST | PUT | DELETE | OPTIONS | OtherMethod.

#[export] Instance Method_eq_dec : EqDecision Method.
Proof. solve_decision. Defined.

Record Request := {
  method : Method;
  path : text;
  (** the header [Authorization], when it is there and is visible ASCII *)
  authorization : option text;
  peer : IpAddr;
  query_string : text;
  content : text
}.

Record PaginationParams := {
  pg_offset : option Z;
  pg_limit : option Z;
  pg_status : option text;
  pg_host : option text;
  pg_kind : option text
}.

Record SiemExportParams := { ex_format : option text; ex_limit : option Z }.

Record EnrollAssetRequest := {
  e_asset_id : text;
  e_display_name : text;
  e_asset_kind : text;
  e_host_name : text;
  e_policy_id : option text;
  e_integrity_hash : option text
}.

Record FleetSummary := {
  fs_raw : FleetSummaryRaw;
  integrity_coverage_pct : f64
}.

Record HealthResponse := {
  h_status : text;
  h_version : text;
  uptime_seconds : Z;
  asset_count : option Z;
  policy_count : option Z;
  alert_count : option Z;
  node_count : option Z
}.

Inductive Body :=
| Empty
| ErrorResponse (error : text) (code : Z)
| HealthBody (h : HealthResponse)
| TokenBody (t : TokenResponse)
| SummaryBody (s : FleetSummary)
| AssetBody (a : AssetRecord)
| AssetsBody (l : list AssetRecord)
| DeletedBody (id : text)
| PolicyBody (p : PolicyRecord)
| PoliciesBody (l : list PolicyRecord)
| NodeBody (n : NodeRecord)
| NodesBody (l : list NodeRecord)
| AlertBody (a : AlertRecord)
| AlertsBody (l : list AlertRecord)
| TextBody (content_type body : text).

Record Response := { status : Z; body : Body }.

Definition respond (code : Z) (b : Body) : Response := {| status := code; body := b |}.

Definition api_error (code : Z) (msg : text) : Response := respond code (ErrorResponse msg code).

Definition OK_200 : Z := 200.
Definition CREATED : Z := 201.
Definition BAD_REQUEST : Z := 400.
Definition UNAUTHORIZED : Z := 401.
Definition FORBIDDEN : Z := 403.
Definition NOT_FOUND : Z := 404.
Definition METHOD_NOT_ALLOWED : Z := 405.
Definition CONFLICT : Z := 409.
Definition PAYLOAD_TOO_LARGE : Z := 413.
Definition TOO_MANY_REQUESTS : Z := 429.
Definition INTERNAL_SERVER_ERROR : Z := 500.

(** [axum]'s extractors; the error is the status of the rejection.  A body of type
    [HashMap<String, String>] is the lookup in it. *)
Record Wire := {
  parse_login : text -> outcome Z LoginRequest;
  parse_enroll : text -> outcome Z EnrollAssetRequest;
  parse_map : text -> outcome Z (text -> option text);
  parse_page : text -> outcome Z PaginationParams;
  parse_export : text -> outcome Z SiemExportParams;
  parse_segment : text -> outcome Z text
}.

(** What one request finds: the monotonic clock when the limiter makes and asks a bucket,
    the system clock in seconds, the readings of [Utc::now] in nanoseconds, and the
    random identifier *)
Record Moment := {
  m_created : Z;
  m_asked : Z;
  m_clock : Z;
  utc_now : nat -> Z;
  new_uuid : text
}.

(** The counters of [metrics.rs] *)
Record Metrics := { request_count : Z; error_count : Z; m_asset_count : Z; m_alert_count : Z }.

Record Config := {
  auth_env : AuthEnv;
  wire : Wire;
  addr_hash : IpAddr -> Z;
  start_time : Z;
  pkg_version : text;
  openapi : text;
  metrics : Metrics;
  sql_text : SqlError -> text
}.

(** The part of the application state outside the database *)
Record Front := { limiter : RateLimiter; token_key : option text }.

(** [str::parse::<u32>] *)
Definition parse_u32 (s : text) : option Z :=
  let digits := default s (strip_prefix (txt "+") s) in
  let n := fold_left (fun n d => n * 10 + (b2z d - 0x30)) digits 0 in
  if negb (bytes_eqb digits []) && forallb is_digit digits && (n <=? U32_MAX) then Some n else None.

Definition u32_setting (env : AuthEnv) (key : text) (otherwise : Z) : Z :=
  default otherwise (v ← env.(env_var) key; parse_u32 v).

(** [AppState::new]: both [expect]s panic *)
Definition app_state_new (env : AuthEnv) (reachable : text -> bool) (now : Z) : prog (outcome Empty_set Front) :=
  match connect (env.(env_var) (txt "DATABASE_URL")) reachable with
  | Ok _ =>
      r ← migrate now;
      Ret (match r with
           | Ok _ => Ok {| limiter := limiter_new (u32_setting env (txt "DFIM_RATE_LIMIT") 1000) (u32_setting env (txt "DFIM_RATE_BURST") 10000);
                           token_key := None |}
           | _ => Panic
           end)
  | _ => Ret Panic
  end.

Definition sanitize (input : text) : text :=
  replace_char x27 (txt "&#x27;") (replace_char x22 (txt "&quot;") (replace_char x3e (txt "&gt;")
    (replace_char x3c (txt "&lt;") (replace_char x26 (txt "&amp;") input)))).

Definition authorize (role : text) (m : Method) (path : text) : bool :=
  if bytes_eqb role (txt "admin") then true
  else if bytes_eqb role (txt "operator") then
    if bool_decide (m = DELETE) then false
    else if bytes_eqb path (txt "/v1/policies") && bool_decide (m = POST) then false
    else true
  else if bytes_eqb role (txt "readonly") then bool_decide (m = GET)
  else false.

(** ** Metrics *)

Definition increment_requests (m : Metrics) : Metrics :=
  {| request_count := as_u64 (m.(request_count) + 1); error_count := m.(error_count); m_asset_count := m.(m_asset_count); m_alert_count := m.(m_alert_count) |}.
Definition increment_errors (m : Metrics) : Metrics :=
  {| request_count := m.(request_count); error_count := as_u64 (m.(error_count) + 1); m_asset_count := m.(m_asset_count); m_alert_count := m.(m_alert_count) |}.
Definition set_asset_count (n : Z) (m : Metrics) : Metrics :=
  {| request_count := m.(request_count); error_count := m.(error_count); m_asset_count := n; m_alert_count := m.(m_alert_count) |}.
Definition set_alert_count (n : Z) (m : Metrics) : Metrics :=
  {| request_count := m.(request_count); error_count := m.(error_count); m_asset_count := m.(m_asset_count); m_alert_count := n |}.

(** One metric: its help line, its type line and its value *)
Definition metric (name help kind : text) (labels value : text) : text :=
  txt "# HELP " ++ name ++ txt " " ++ help ++ [x0a] ++ txt "# TYPE " ++ name ++ txt " " ++ kind ++ [x0a] ++
  name ++ labels ++ txt " " ++ value ++ [x0a].

Definition metrics_text (m : Metrics) : text :=
  metric (txt "dfim_http_requests_total") (txt "Total HTTP requests") (txt "counter") [] (to_string m.(request_count)) ++
  metric (txt "dfim_http_errors_total") (txt "Total HTTP errors") (txt "counter") [] (to_string m.(error_count)) ++
  metric (txt "dfim_assets_total") (txt "Total enrolled assets") (txt "gauge") [] (to_string m.(m_asset_count)) ++
  metric (txt "dfim_alerts_active") (txt "Active security alerts") (txt "gauge") [] (to_string m.(m_alert_count)) ++
  metric (txt "dfim_uptime_seconds") (txt "API uptime") (txt "gauge") [] (to_string 0) ++
  metric (txt "dfim_build_info") (txt "Build metadata") (txt "gauge") ([x7b] ++ txt "version=" ++ [QUOTE] ++ txt "1.0.0" ++ [QUOTE] ++
    txt ",phase=" ++ [QUOTE] ++ txt "5" ++ [QUOTE] ++ [x7d]) (txt "1").

Definition metrics_handler (m : Metrics) : Response := respond OK_200 (TextBody (txt "text/plain; version=0.0.4") (metrics_text m)).

(** ** Handlers *)

Section handlers.
Context (cfg : Config) (mo : Moment).

(** [tokio::try_join!] of the four counts; all or none.  The source polls them concurrently; they
    only read, and are taken here in the order written.  The counts are those of the tenant
    "default", whoever asks. *)
Definition health_check : prog Response :=
  let uptime := Z.max (Z.quot (mo.(utc_now) 0%nat - cfg.(start_time)) 1000000000) 0 in
  a ← count_assets (txt "default");
  all ← and_then a (fun a =>
    p ← count_policies (txt "default");
    and_then p (fun p =>
      l ← count_alerts (txt "default");
      and_then l (fun l =>
        n ← count_nodes;
        mret (m ← n; Ok (a, p, l, m)))));
  let '(a, p, l, n) := unwrap_or all (None, None, None, None) in
  mret (respond OK_200 (HealthBody {| h_status := txt "operational"; h_version := cfg.(pkg_version); uptime_seconds := uptime;
                                      asset_count := a; policy_count := p; alert_count := l; node_count := n |})).

Definition coverage (raw : FleetSummaryRaw) : f64 :=
  let total := f64_of raw.(total_assets) in
  if f64_gt total (f64_of 0) then f64_mul (f64_div (f64_of raw.(healthy)) total) (f64_of 100) else f64_of 0.

Definition fleet_summary (c : Claims) : prog Response :=
  r ← Db.fleet_summary c.(tenant);
  let raw := unwrap_or r summary_default in
  mret (respond OK_200 (SummaryBody {| fs_raw := raw; integrity_coverage_pct := coverage raw |})).

Definition list_assets (c : Claims) (p : PaginationParams) : prog Response :=
  let limit := Z.min (default 100 p.(pg_limit)) 1000 in
  let offset := default 0 p.(pg_offset) in
  r ← Db.list_assets c.(tenant) limit offset p.(pg_status) p.(pg_host) p.(pg_kind);
  mret (respond OK_200 (AssetsBody (unwrap_or r []))).

Definition get_asset (c : Claims) (id : text) : prog Response :=
  o ← Db.get_asset c.(tenant) id;
  mret (match o with
        | Some a => respond OK_200 (AssetBody a)
        | None => api_error NOT_FOUND (txt "Asset not found")
        end).

Definition enrolled (c : Claims) (req : EnrollAssetRequest) : AssetRecord :=
  {| a_asset_id := sanitize req.(e_asset_id); a_display_name := sanitize req.(e_display_name);
     a_asset_kind := sanitize req.(e_asset_kind); a_host_name := sanitize req.(e_host_name); a_status := txt "pending";
     a_integrity_hash := req.(e_integrity_hash); a_last_verified := mo.(utc_now) 0%nat; a_enrolled_at := mo.(utc_now) 1%nat;
     a_policy_id := match req.(e_policy_id) with Some p => Some p | None => Some (txt "default-policy") end;
     a_tenant_id := c.(tenant) |}.

Definition enroll_asset (c : Claims) (req : EnrollAssetRequest) : prog Response :=
  let record := enrolled c req in
  r ← insert_asset record;
  mret (match r with
        | Ok _ => respond CREATED (AssetBody record)
        | Err e => api_error CONFLICT (cfg.(sql_text) e)
        | Panic => api_error CONFLICT []
        end).

Definition reviewed (a : AssetRecord) (st : text) (t : Z) : AssetRecord :=
  {| a_asset_id := a.(a_asset_id); a_display_name := a.(a_display_name); a_asset_kind := a.(a_asset_kind);
     a_host_name := a.(a_host_name); a_status := st; a_integrity_hash := a.(a_integrity_hash); a_last_verified := t;
     a_enrolled_at := a.(a_enrolled_at); a_policy_id := a.(a_policy_id); a_tenant_id := a.(a_tenant_id) |}.

Definition failure_alert (c : Claims) (id : text) (a : AssetRecord) : AlertRecord :=
  {| l_alert_id := mo.(new_uuid); l_severity := txt "critical"; l_asset_id := id;
     l_message := txt "Integrity failure: " ++ a.(a_display_name); l_timestamp := mo.(utc_now) 1%nat; l_acknowledged := false;
     l_tenant_id := c.(tenant) |}.

(** [body.get("integrity_hash").filter(|h| !h.is_empty())] *)
Definition provided_hash (b : text -> option text) : option text :=
  match b (txt "integrity_hash") with
  | Some h => if bytes_eqb h [] then None else Some h
  | None => None
  end.

Definition hash_matches (a : AssetRecord) (h : text) : bool :=
  match a.(a_integrity_hash) with Some e => bytes_eqb e h | None => false end.

Definition verify_asset (c : Claims) (id : text) (b : text -> option text) : prog Response :=
  o ← Db.get_asset c.(tenant) id;
  match o with
  | None => mret (api_error NOT_FOUND (txt "Asset not found"))
  | Some a =>
      match provided_hash b with
      | None => mret (api_error BAD_REQUEST (txt "integrity_hash is required"))
      | Some h =>
          let verified := mo.(utc_now) 0%nat in
          st ← (if hash_matches a h then mret (txt "healthy")
                else _ ← insert_alert (failure_alert c id a); mret (txt "tampered"));
          r ← update_asset_status c.(tenant) id st verified;
          mret (match r with
                | Ok _ => respond OK_200 (AssetBody (reviewed a st verified))
                | _ => api_error INTERNAL_SERVER_ERROR (txt "Update failed")
                end)
      end
  end.

Definition delete_asset (c : Claims) (id : text) : prog Response :=
  r ← Db.delete_asset c.(tenant) id;
  mret (match r with
        | Ok _ => respond OK_200 (DeletedBody id)
        | _ => api_error NOT_FOUND (txt "Asset not found")
        end).

Definition list_policies (c : Claims) : prog Response :=
  r ← Db.list_policies c.(tenant);
  mret (respond OK_200 (PoliciesBody (unwrap_or r []))).

Definition create_policy (c : Claims) (b : text -> option text) : prog Response :=
  let policy := {| p_policy_id := default mo.(new_uuid) (b (txt "policy_id")); p_name := default (txt "Unnamed") (b (txt "name"));
                   p_version := 1; p_enforcement_mode := txt "protected-scope"; p_tenant_id := c.(tenant) |} in
  r ← insert_policy policy;
  mret (match r with
        | Ok _ => respond CREATED (PolicyBody policy)
        | Err e => api_error CONFLICT (cfg.(sql_text) e)
        | Panic => api_error CONFLICT []
        end).

Definition list_nodes : prog Response :=
  r ← Db.list_nodes;
  mret (respond OK_200 (NodesBody (unwrap_or r []))).

Definition register_node (b : text -> option text) : prog Response :=
  let node := {| n_node_id := default mo.(new_uuid) (b (txt "node_id")); n_host_name := default (txt "unknown") (b (txt "host_name"));
                 n_platform := default (txt "linux") (b (txt "platform")); n_status := txt "online";
                 n_last_seen := mo.(utc_now) 0%nat; n_asset_count := 0 |} in
  r ← insert_node node;
  mret (match r with
        | Ok _ => respond CREATED (NodeBody node)
        | Err e => api_error CONFLICT (cfg.(sql_text) e)
        | Panic => api_error CONFLICT []
        end).

Definition list_alerts (c : Claims) (p : PaginationParams) : prog Response :=
  r ← Db.list_alerts c.(tenant) (default 100 p.(pg_limit));
  mret (respond OK_200 (AlertsBody (unwrap_or r []))).

Definition acknowledge_alert (c : Claims) (id : text) : prog Response :=
  r ← Db.acknowledge_alert c.(tenant) id;
  mret (match r with
        | Ok a => respond OK_200 (AlertBody a)
        | _ => api_error NOT_FOUND (txt "Alert not found")
        end).

Definition login_handler (req : LoginRequest) `{HashOps} `{TokenOps} : stm (option text) Empty_set Response := fun st =>
  match login cfg.(auth_env) mo.(m_clock) req st with
  | (Ok t, st) => (Ok (respond OK_200 (TokenBody t)), st)
  | (Err e, st) => (Ok (api_error UNAUTHORIZED e), st)
  | (Panic, st) => (Panic, st)
  end.
End handlers.

(** ** The export of alerts *)

Definition siem_format (name : text) : option SiemFormat :=
  let named s := bytes_eqb name (txt s) in
  if named "splunk_hec" || named "splunk" then Some SplunkHec
  else if named "elastic" || named "ecs" then Some ElasticEcs
  else if named "sentinel" || named "cef" then Some SentinelCef
  else if named "syslog" || named "rfc5424" then Some Rfc5424Syslog
  else if named "ndjson" || named "json" then Some Ndjson
  else None.

(** The host of an asset among the rows, or the empty name *)
Definition host_of (rows : list (text * text)) (id : text) : text :=
  match List.find (fun r => bytes_eqb r.1 id) rows with Some r => r.2 | None => [] end.

Definition alert_event (hosts : list (text * text)) (a : AlertRecord) : DfimSiemEvent :=
  {| event_id := a.(l_alert_id); event_type := txt "dfim.integrity.alert"; Siem.severity := a.(l_severity);
     Siem.asset_id := a.(l_asset_id); Siem.message := a.(l_message); Siem.host_name := host_of hosts a.(l_asset_id);
     Siem.timestamp := a.(l_timestamp); Siem.outcome := if a.(l_acknowledged) then txt "acknowledged" else txt "open";
     Siem.merkle_root := None; Siem.tampered_blocks := None; Siem.fec_corrected := None; Siem.rollback_counter := None;
     Siem.attestation_verified := None; Siem.enforcement_action := None |}.

Definition unknown_format (name : text) : text :=
  txt "Unknown SIEM format '" ++ sanitize name ++ txt "'; expected one of: splunk_hec, elastic, sentinel, syslog, ndjson".

(** The asset ids are collected through a [HashSet]: each once, in some order, which the
    query does not depend on. *)
Definition siem_export `{SiemOps} (c : Claims) (p : SiemExportParams) : prog Response :=
  let name := default (txt "ndjson") p.(ex_format) in
  match siem_format name with
  | None => mret (api_error BAD_REQUEST (unknown_format name))
  | Some f =>
      let limit := Z.max 1 (Z.min (default 500 p.(ex_limit)) 5000) in
      r ← Db.list_alerts c.(tenant) limit;
      let rows := unwrap_or r [] in
      hosts ← host_names_for_assets c.(tenant) (remove_dups (map l_asset_id rows));
      let serializer := get_serializer f in
      mret (respond OK_200 (TextBody (content_type serializer) (format_batch serializer (map (alert_event hosts) rows))))
  end.

(** ** The guard *)

Inductive Gate :=
| Next (claims : option Claims)
| Refuse (r : Response)
| Crashed.

Section service.
Context `{HashOps} `{TokenOps} `{SiemOps}.
Context (cfg : Config).

Definition guard_middleware (mo : Moment) (req : Request) (f : Front) : Gate * Front :=
  if bytes_eqb req.(path) (txt "/health") || bytes_eqb req.(path) (txt "/metrics") then (Next None, f)
  else
    match check cfg.(addr_hash) req.(peer) mo.(m_created) mo.(m_asked) f.(limiter) with
    | (Ok true, l) =>
        let f := {| limiter := l; token_key := f.(token_key) |} in
        if negb (bytes_eqb req.(path) (txt "/openapi.json")) && negb (bytes_eqb req.(path) (txt "/v1/auth/login")) then
          let auth_header := default [] req.(authorization) in
          if bytes_eqb auth_header [] then (Refuse (api_error UNAUTHORIZED (txt "Authentication required")), f)
          else
            match verify_jwt cfg.(auth_env) mo.(m_clock) auth_header f.(token_key) with
            | (Ok claims, key) =>
                let f := {| limiter := l; token_key := key |} in
                if negb (authorize claims.(role) req.(method) req.(path))
                then (Refuse (api_error FORBIDDEN (txt "Insufficient role")), f)
                else (Next (Some claims), f)
            | (Err _, key) => (Refuse (api_error UNAUTHORIZED (txt "Invalid token")), {| limiter := l; token_key := key |})
            | (Panic, key) => (Crashed, {| limiter := l; token_key := key |})
            end
        else (Next None, f)
    | (Ok false, l) =>
        (Refuse (api_error TOO_MANY_REQUESTS (txt "Rate limit exceeded")), {| limiter := l; token_key := f.(token_key) |})
    | (_, l) => (Crashed, {| limiter := l; token_key := f.(token_key) |})
    end.

(** ** The router *)

Inductive Endpoint :=
| Health | MetricsPage | OpenApi | Login | Fleet | Assets | Asset (segment : text) | Enroll | VerifyAsset (segment : text)
| Policies | Nodes | RegisterNode | Alerts | Acknowledge (segment : text) | SiemExport.

#[export] Instance Endpoint_eq_dec : EqDecision Endpoint.
Proof. solve_decision. Defined.

Definition SLASH : byte := x2f.

(** Fixed paths before those with a variable segment, which is not empty *)
Definition route (p : text) : option Endpoint :=
  let named s := bytes_eqb p (txt s) in
  if named "/health" then Some Health
  else if named "/metrics" then Some MetricsPage
  else if named "/openapi.json" then Some OpenApi
  else if named "/v1/auth/login" then Some Login
  else if named "/v1/fleet/summary" then Some Fleet
  else if named "/v1/assets" then Some Assets
  else if named "/v1/assets/enroll" then Some Enroll
  else if named "/v1/policies" then Some Policies
  else if named "/v1/nodes" then Some Nodes
  else if named "/v1/nodes/register" then Some RegisterNode
  else if named "/v1/alerts" then Some Alerts
  else if named "/v1/siem/export" then Some SiemExport
  else
    match split_on SLASH p with
    | [root; v; a; x] =>
        if bytes_eqb root [] && bytes_eqb v (txt "v1") && bytes_eqb a (txt "assets") && negb (bytes_eqb x []) then Some (Asset x) else None
    | [root; v; a; x; y] =>
        if bytes_eqb root [] && bytes_eqb v (txt "v1") && negb (bytes_eqb x []) then
          if bytes_eqb a (txt "assets") && bytes_eqb y (txt "verify") then Some (VerifyAsset x)
          else if bytes_eqb a (txt "alerts") && bytes_eqb y (txt "acknowledge") then Some (Acknowledge x)
          else None
        else None
    | _ => None
    end.

Definition extracted {A} (r : outcome Z A) (k : A -> prog Response) : prog Response :=
  match r with Ok a => k a | Err code => mret (respond code Empty) | Panic => mret (respond INTERNAL_SERVER_ERROR Empty) end.

(** [Extension(claims)] *)
Definition with_claims (claims : option Claims) (k : Claims -> prog Response) : prog Response :=
  match claims with Some c => k c | None => mret (respond INTERNAL_SERVER_ERROR Empty) end.

Definition not_allowed : prog Response := mret (respond METHOD_NOT_ALLOWED Empty).

(** The handler of an endpoint, apart from the login *)
Definition endpoint (mo : Moment) (claims : option Claims) (req : Request) (m : Method) (e : Endpoint) : prog Response :=
  let w := cfg.(wire) in
  match e, m with
  | Health, GET => health_check cfg mo
  | MetricsPage, GET => mret (metrics_handler cfg.(metrics))
  | OpenApi, GET => mret (respond OK_200 (TextBody (txt "application/json") cfg.(openapi)))
  | Fleet, GET => with_claims claims fleet_summary
  | Assets, GET => with_claims claims (fun c => extracted (w.(parse_page) req.(query_string)) (list_assets c))
  | Asset x, GET => with_claims claims (fun c => extracted (w.(parse_segment) x) (get_asset c))
  | Asset x, DELETE => with_claims claims (fun c => extracted (w.(parse_segment) x) (delete_asset c))
  | Enroll, POST => with_claims claims (fun c => extracted (w.(parse_enroll) req.(content)) (enroll_asset cfg mo c))
  | VerifyAsset x, PUT => with_claims claims (fun c => extracted (w.(parse_segment) x) (fun id =>
      extracted (w.(parse_map) req.(content)) (verify_asset mo c id)))
  | Policies, GET => with_claims claims list_policies
  | Policies, POST => with_claims claims (fun c => extracted (w.(parse_map) req.(content)) (create_policy cfg mo c))
  | Nodes, GET => list_nodes
  | RegisterNode, POST => extracted (w.(parse_map) req.(content)) (register_node cfg mo)
  | Alerts, GET => with_claims claims (fun c => extracted (w.(parse_page) req.(query_string)) (list_alerts c))
  | Acknowledge x, POST => with_claims claims (fun c => extracted (w.(parse_segment) x) (acknowledge_alert c))
  | SiemExport, GET => with_claims claims (fun c => extracted (w.(parse_export) req.(query_string)) (siem_export c))
  | _, _ => not_allowed
  end.

Definition BODY_LIMIT : Z := 10 * 1024 * 1024.

(** A [HEAD] request is a [GET] whose response loses its body. *)
Definition routed (mo : Moment) (claims : option Claims) (req : Request) (e : Endpoint) : prog Response :=
  match req.(method) with
  | HEAD => r ← endpoint mo claims req GET e; mret (respond r.(status) Empty)
  | m => endpoint mo claims req m e
  end.

(** The layers inside the guard: CORS, which answers every [OPTIONS] request, the size
    limit of the body, and the routes. *)
Definition inner (mo : Moment) (claims : option Claims) (req : Request) (key : option text) : outcome Empty_set (prog Response) * option text :=
  if bool_decide (req.(method) = OPTIONS) then (Ok (Ret (respond OK_200 Empty)), key)
  else if BODY_LIMIT <? zlen req.(content) then (Ok (Ret (respond PAYLOAD_TOO_LARGE Empty)), key)
  else
    match route req.(path) with
    | None => (Ok (Ret (respond NOT_FOUND Empty)), key)
    | Some Login =>
        if bool_decide (req.(method) = POST) then
          match cfg.(wire).(parse_login) req.(content) with
          | Ok creds => let '(r, key) := login_handler cfg mo creds key in (Ret <$> r, key)
          | Err code => (Ok (Ret (respond code Empty)), key)
          | Panic => (Panic, key)
          end
        else (Ok not_allowed, key)
    | Some e => (Ok (routed mo claims req e), key)
    end.

(** A request: the program it becomes, unless the task panics *)
Definition serve (mo : Moment) (req : Request) (f : Front) : outcome Empty_set (prog Response) * Front :=
  match guard_middleware mo req f with
  | (Next claims, f) =>
      let '(p, key) := inner mo claims req f.(token_key) in
      (p, {| limiter := f.(limiter); token_key := key |})
  | (Refuse r, f) => (Ok (Ret r), f)
  | (Crashed, f) => (Panic, f)
  end.
End service.

(** ** What the handlers send *)

(** What the handler of an endpoint may ask the database for, on behalf of [c] *)
Definition permitted (cfg : Config) (mo : Moment) (c : Claims) (req : Request) (m : Method) (e : Endpoint) (B : Type) (q : Query B) : Prop :=
  (owner q = Some c.(tenant) \/ owner q = None) /\ (writes q = true -> m <> GET) /\
  match q with
  | DeleteAsset _ _ => m = DELETE
  | InsertPolicy _ => m = POST /\ e = Policies
  | SeedAsset _ | SeedPolicy _ => False
  | InsertAsset a => exists r, cfg.(wire).(parse_enroll) req.(content) = Ok r /\ a.(a_asset_id) = sanitize r.(e_asset_id)
  | InsertAlert a => a.(l_alert_id) = mo.(new_uuid)
  | _ => True
  end.

(** Decomposing a program into its statements *)
Ltac queries :=
  repeat first
    [ progress intros
    | apply all_queries_bind
    | apply all_queries_and_then
    | apply all_queries_stmt
    | exact I
    | match goal with
      | |- all_queries _ (match ?x with _ => _ end) => destruct x eqn:?
      | |- all_queries _ (if ?x then _ else _) => destruct x eqn:?
      | |- all_queries _ (let '(_, _) := ?x in _) => destruct x
      end ].

Section proofs.
Context `{HashOps} `{TokenOps} `{SiemOps}.
Context (cfg : Config).

Lemma all_queries_extracted {A} P (r : outcome Z A) (k : A -> prog Response) :
  (forall a, r = Ok a -> all_queries P (k a)) -> all_queries P (extracted r k).
Proof. intros Hk. destruct r; cbn; auto. Qed.

Lemma asset_query_permitted mo c req e status_ host kind :
  permitted cfg mo c req GET e _ (asset_query c.(tenant) status_ host kind).
Proof. destruct status_, host, kind; unfold permitted; cbn; auto. Qed.

Lemma endpoint_permitted mo c req m e : e <> Health ->
  all_queries (permitted cfg mo c req m e) (endpoint cfg mo (Some c) req m e).
Proof.
  intros He. destruct e, m; try done; cbn [endpoint with_claims];
    try (apply all_queries_extracted; intros ? Hparse); try (apply all_queries_extracted; intros ? Hparse');
    unfold fleet_summary, list_assets, get_asset, enroll_asset, delete_asset, list_policies, create_policy, list_nodes,
      register_node, list_alerts, acknowledge_alert, siem_export, verify_asset, Db.fleet_summary, Db.list_assets, Db.get_asset, Db.delete_asset,
      Db.list_policies, Db.list_nodes, Db.list_alerts, Db.acknowledge_alert, insert_asset, insert_policy, insert_node, insert_alert,
      update_asset_status, host_names_for_assets; queries; try (by (unfold permitted; cbn; auto)).
  - apply asset_query_permitted.
  - unfold permitted; cbn. split_and!; [by left | done | by exists a].
Qed.

Definition effective (m : Method) : Method := match m with HEAD => GET | m => m end.

Lemma routed_permitted mo c req e : e <> Health ->
  all_queries (permitted cfg mo c req (effective req.(method)) e) (routed cfg mo (Some c) req e).
Proof.
  intros He. unfold routed. pose proof (endpoint_permitted mo c req (effective req.(method)) e He) as Hp.
  destruct (req.(method)); cbn [effective] in *; try exact Hp. apply all_queries_bind; [exact Hp | by intros].
Qed.

(** ** What passes the guard *)

Definition public (p : text) : bool :=
  bytes_eqb p (txt "/health") || bytes_eqb p (txt "/metrics") || bytes_eqb p (txt "/openapi.json") || bytes_eqb p (txt "/v1/auth/login").

(** The request carries a token that the server accepts, with these claims. *)
Definition bears (mo : Moment) (req : Request) (f : Front) (c : Claims) : Prop :=
  exists h, req.(authorization) = Some h /\ fst (verify_jwt cfg.(auth_env) mo.(m_clock) h f.(token_key)) = Ok c.

Lemma guard_next mo req f cl f' : guard_middleware cfg mo req f = (Next cl, f') ->
  if public req.(path) then cl = None
  else fst (check cfg.(addr_hash) req.(peer) mo.(m_created) mo.(m_asked) f.(limiter)) = Ok true /\
    exists c, cl = Some c /\ bears mo req f c /\ authorize c.(role) req.(method) req.(path) = true.
Proof.
  unfold guard_middleware, public, bears.
  destruct (bytes_eqb req.(path) (txt "/health") || bytes_eqb req.(path) (txt "/metrics")); cbn [orb]; [by intros [= <- _]|].
  destruct (check _ _ _ _ _) as [[[]| |] l]; try done.
  destruct (bytes_eqb req.(path) (txt "/openapi.json")); cbn [negb andb orb]; [by intros [= <- _]|].
  destruct (bytes_eqb req.(path) (txt "/v1/auth/login")); cbn [negb andb orb]; [by intros [= <- _]|].
  destruct (req.(authorization)) as [h|]; cbn [default from_option id].
  2:{ done. }
  destruct (bytes_eqb h []); [done|]. cbn [token_key].
  destruct (verify_jwt _ _ _ _) as [[c|e|] key] eqn:Hv; [| done..].
  destruct (authorize c.(role) req.(method) req.(path)) eqn:Ha; cbn [negb]; [| done]. intros [= <- _].
  split; [done|]. exists c. split; [done|]. split; [| done]. exists h. by rewrite Hv.
Qed.

Lemma guard_refuse mo req f r f' : guard_middleware cfg mo req f = (Refuse r, f') ->
  status r ∈ [UNAUTHORIZED; FORBIDDEN; TOO_MANY_REQUESTS].
Proof.
  unfold guard_middleware. destruct (_ || _); [done|]. destruct (check _ _ _ _ _) as [[[]| |] l]; try done.
  - destruct (_ && _); [| done]. destruct (bytes_eqb _ []); [intros [= <- _]; set_solver|].
    destruct (verify_jwt _ _ _ _) as [[c|e|] key]; [| intros [= <- _]; set_solver | done].
    destruct (negb _); [intros [= <- _]; set_solver | done].
  - intros [= <- _]. set_solver.
Qed.

Lemma route_health p : route p = Some Health -> p = txt "/health".
Proof.
  unfold route. destruct (bytes_eqb p (txt "/health")) eqn:E; [intros _; by apply bytes_eqb_eq|].
  repeat (destruct (bytes_eqb p _); [done|]).
  destruct (split_on SLASH p) as [|? [|? [|? [|? [|? [|]]]]]]; try done; repeat (destruct (_ && _)); done.
Qed.

(** What the health check reads: the numbers of rows of the tenant "default", and of nodes *)
Definition health_query {B} (q : Query B) : Prop :=
  match q with
  | CountAssets t | CountPolicies t | CountAlerts t => t = txt "default"
  | CountNodes => True
  | _ => False
  end.

Definition default_counts (d : Db) : Z * Z * Z :=
  (count (of_tenant (txt "default")) d.(assets), count (policy_of (txt "default")) d.(policies),
   count (alert_of (txt "default")) d.(alerts)).

Lemma health_reads {B} (q : Query B) : health_query q -> writes q = false.
Proof. by destruct q. Qed.

(** A program of such statements changes nothing, and depends on those numbers only. *)
Lemma run_health {A} s (p : prog A) n d1 d2 : all_queries (@health_query) p ->
  default_counts d1 = default_counts d2 -> d1.(nodes) = d2.(nodes) ->
  fst (run s p n d1) = fst (run s p n d2) /\ snd (snd (run s p n d1)) = d1 /\ snd (snd (run s p n d2)) = d2.
Proof.
  intros Hp Hc Hn. revert n. induction p as [a|B q k IH]; intros n; [done|]. destruct Hp as [Hq Hk]. cbn [run].
  pose proof (answer_reads s n q d1 (health_reads q Hq)) as Hd1. pose proof (answer_reads s n q d2 (health_reads q Hq)) as Hd2.
  assert (Hr : fst (answer s n q d1) = fst (answer s n q d2)).
  { unfold answer. destruct (s.(fate) n) as [|[]]; [|done..]. injection Hc as Ha Hpo Hal.
    destruct q; try done; cbn [execute fst health_query] in *; subst; by rewrite ?Ha, ?Hpo, ?Hal, ?Hn. }
  destruct (answer s n q d1) as [r1 e1], (answer s n q d2) as [r2 e2]. cbn [fst snd] in *. subst. by apply IH.
Qed.

(** The four paths that need no token *)
Lemma public_program mo req key p key' : public req.(path) = true -> inner cfg mo None req key = (Ok p, key') ->
  (exists r, p = Ret r) \/ (req.(path) = txt "/health" /\ all_queries (@health_query) p).
Proof.
  unfold public, inner. intros Hp. destruct (bool_decide _); [intros [= <- _]; left; by eexists|].
  destruct (_ <? _); [intros [= <- _]; left; by eexists|].
  rewrite !orb_true_iff, !bytes_eqb_eq in Hp. destruct Hp as [[[Hp|Hp]|Hp]|Hp]; rewrite Hp.
  - change (route (txt "/health")) with (Some Health). cbv iota beta. intros [= <- _]. right. split; [done|].
    unfold routed. destruct (req.(method)); cbn [endpoint]; try exact I; unfold health_check, count_assets, count_policies, count_alerts, count_nodes;
      queries; done.
  - change (route (txt "/metrics")) with (Some MetricsPage). cbv iota beta. intros [= <- _]. left.
    unfold routed. destruct (req.(method)); by eexists.
  - change (route (txt "/openapi.json")) with (Some OpenApi). cbv iota beta. intros [= <- _]. left.
    unfold routed. destruct (req.(method)); by eexists.
  - change (route (txt "/v1/auth/login")) with (Some Login). cbv iota beta.
    destruct (bool_decide _); [| intros [= <- _]; left; by eexists].
    destruct (parse_login _ _) as [creds|code|]; [| intros [= <- _]; left; by eexists | done].
    destruct (login_handler cfg mo creds key) as [[r| |] key2]; [| done..]. intros [= <- _]. left. by eexists.
Qed.

(** Every request ends in one of these: a response without a statement, the reads of the
    health check, or a handler on behalf of the bearer of an accepted token. *)
Lemma serve_cases mo req f p f' : serve cfg mo req f = (Ok p, f') ->
  (exists r, p = Ret r) \/
  (req.(path) = txt "/health" /\ all_queries (@health_query) p) \/
  (exists c e, bears mo req f c /\ authorize c.(role) req.(method) req.(path) = true /\ route req.(path) = Some e /\
    e <> Health /\ all_queries (permitted cfg mo c req (effective req.(method)) e) p).
Proof.
  unfold serve. destruct (guard_middleware cfg mo req f) as [[cl|r|] f1] eqn:Hg; [| intros [= <- _]; left; by eexists | done].
  apply guard_next in Hg. destruct (inner cfg mo cl req f1.(token_key)) as [q key] eqn:Hin. intros [= -> _].
  destruct (public req.(path)) eqn:Hpub.
  { subst cl. destruct (public_program mo req _ p key Hpub Hin) as [Hr|Hr]; [by left | by right; left]. }
  destruct Hg as (_ & c & -> & Hb & Ha). unfold inner in Hin.
  destruct (bool_decide _); [injection Hin as <- _; left; by eexists|].
  destruct (_ <? _); [injection Hin as <- _; left; by eexists|].
  destruct (route req.(path)) as [e|] eqn:Hr; [| injection Hin as <- _; left; by eexists].
  assert (He : e <> Health).
  { intros ->. apply route_health in Hr. unfold public in Hpub. by rewrite Hr in Hpub. }
  destruct (decide (e = Login)) as [->|Hl].
  { unfold route in Hr. exfalso. revert Hr Hpub. unfold public.
    destruct (bytes_eqb req.(path) (txt "/v1/auth/login")); [by rewrite orb_true_r|].
    repeat (destruct (bytes_eqb req.(path) _); [done|]).
    destruct (split_on SLASH req.(path)) as [|? [|? [|? [|? [|? [|]]]]]]; try done; repeat (destruct (_ && _)); done. }
  right; right. exists c, e. split_and!; try done.
  assert (p = routed cfg mo (Some c) req e) as -> by (destruct e; try done; injection Hin; congruence).
  by apply routed_permitted.
Qed.

(** C23: Outside the four public paths the database is reached only through the guard: either the
    request is answered with status 401, 403 or 429 without a single statement, or the
    limiter admitted it, it bears an accepted token, and the token's role allows the method
    on the path. *)
Theorem protected_requests mo req f p f' : public req.(path) = false -> serve cfg mo req f = (Ok p, f') ->
  (exists r, p = Ret r /\ status r ∈ [UNAUTHORIZED; FORBIDDEN; TOO_MANY_REQUESTS]) \/
  (fst (check cfg.(addr_hash) req.(peer) mo.(m_created) mo.(m_asked) f.(limiter)) = Ok true /\
   exists c, bears mo req f c /\ authorize c.(role) req.(method) req.(path) = true).
Proof.
  intros Hpub. unfold serve. destruct (guard_middleware cfg mo req f) as [[cl|r|] f1] eqn:Hg; [| | done].
  - apply guard_next in Hg. rewrite Hpub in Hg. destruct Hg as (Hl & c & _ & Hb & Ha). intros _. right. split; [done|]. by exists c.
  - apply guard_refuse in Hg. intros [= <- _]. left. by exists r.
Qed.

(** ** Tenants *)

(** A program of a request whose bearer, if any, satisfies [Q] *)
Definition requested (Q : Claims -> Prop) (p : prog Response) : Prop :=
  exists mo req f f', serve cfg mo req f = (Ok p, f') /\ forall c, bears mo req f c -> Q c.

Lemma requested_queries Q (P : forall B, Query B -> Prop) p : requested Q p ->
  (forall B q, writes q = false -> P B q) ->
  (forall mo c req e B q, Q c -> authorize c.(role) req.(method) req.(path) = true -> route req.(path) = Some e ->
     permitted cfg mo c req (effective req.(method)) e B q -> P B q) ->
  all_queries P p.
Proof.
  intros (mo & req & f & f' & Hs & Hq) Hread Hperm.
  destruct (serve_cases mo req f p f' Hs) as [[r ->]|[[_ Hr]|(c & e & Hb & Ha & Hr & _ & Hall)]]; [done | |].
  - eapply all_queries_mono; [| exact Hr]. intros B q Hh. by apply Hread, health_reads.
  - eapply all_queries_mono; [| exact Hall]. intros B q. by apply Hperm; [apply Hq|..].
Qed.

(** C21: In every interleaving of any requests, on any server, the rows of a tenant stay as they are
    unless some request bears a token of that tenant; and the primary keys hold. *)
Theorem tenant_isolation s t ps n d ps' n' d' :
  Forall (requested (fun c => c.(tenant) <> t)) ps -> rtc (step s) (ps, n, d) (ps', n', d') ->
  view t d' = view t d /\ (db_wf d -> db_wf d').
Proof.
  intros Hps Hsteps. split.
  - apply (steps_preserve s (fun B q => writes q = true -> owner q <> Some t) (fun e => view t e = view t d)) in Hsteps; [apply Hsteps | | | done].
    + intros B q k e Hq He. rewrite <- He. destruct (writes q) eqn:Hw; [by apply answer_other, Hq|]. by rewrite answer_reads.
    + cbn. eapply Forall_impl; [exact Hps|]. intros p Hp. apply (requested_queries _ _ _ Hp); [by intros B q -> |].
      intros mo c req e B q Hc _ _ [[Ho|Ho] _] _; rewrite Ho; congruence.
  - intros Hwf. apply (steps_preserve s (fun _ _ => True) db_wf) in Hsteps; [apply Hsteps | | | done].
    + intros B q k e _. apply answer_wf.
    + cbn. apply Forall_forall. intros p _. by induction p.
Qed.

(** The keys of other tenants that a request may run into *)
Definition keys_alike (mo : Moment) (req : Request) (t : text) (d1 d2 : Db) : Prop :=
  (forall r, cfg.(wire).(parse_enroll) req.(content) = Ok r ->
     foreign_asset t (sanitize r.(e_asset_id)) d1 = foreign_asset t (sanitize r.(e_asset_id)) d2) /\
  foreign_alert t mo.(new_uuid) d1 = foreign_alert t mo.(new_uuid) d2.

(** C22: What a tenant is answered, and what becomes of its rows, in a given state of the guard and
    on a given server, depends on its own rows, on the nodes, which all tenants share, and on
    two things more: whether another tenant holds the primary key of the asset that the request
    enrols or the identifier drawn for a new alert; and, for the health check, which answers
    everyone with them, how many assets, policies and alerts the tenant "default" has.  Two
    databases that agree on all that give the same response and still agree on the rows of the
    tenant and the nodes.  The order of rows that a statement does not sort is the server's
    choice for the rows that it selects. *)
Theorem tenant_noninterference s mo req f p f' c n d1 d2 :
  serve cfg mo req f = (Ok p, f') -> bears mo req f c ->
  agree c.(tenant) d1 d2 -> keys_alike mo req c.(tenant) d1 d2 ->
  (req.(path) = txt "/health" -> default_counts d1 = default_counts d2) ->
  let r1 := run s p n d1 in let r2 := run s p n d2 in
  fst r1 = fst r2 /\ agree c.(tenant) (snd (snd r1)) (snd (snd r2)).
Proof.
  intros Hs Hb Ha [Hk1 Hk2] Hcount.
  destruct (serve_cases mo req f p f' Hs) as [[r ->]|[[Hh Hall]|(c' & e & Hb' & _ & _ & _ & Hall)]]; [done | |].
  { destruct (run_health s p n d1 d2 Hall (Hcount Hh) (proj2 Ha)) as (Hr & Hd1 & Hd2). cbv zeta. by rewrite Hd1, Hd2. }
  assert (c' = c) as ->.
  { destruct Hb as (h & Hh & Hv), Hb' as (h' & Hh' & Hv'). congruence. }
  apply (run_agree s c.(tenant) d1 d2); try done. eapply all_queries_mono; [| exact Hall].
  intros B q (Ho & _ & Hq). split; [done|]. destruct q; try done; cbn [keys_agree].
  - destruct Hq as (r & Hr & ->). by apply Hk1.
  - by rewrite Hq.
Qed.

(** ** Roles *)

Lemma route_policies p : route p = Some Policies -> p = txt "/v1/policies".
Proof.
  unfold route. destruct (bytes_eqb p (txt "/v1/policies")) eqn:E; [intros _; by apply bytes_eqb_eq|].
  repeat (destruct (bytes_eqb p _); [done|]).
  destruct (split_on SLASH p) as [|? [|? [|? [|? [|? [|]]]]]]; try done; repeat (destruct (_ && _)); done.
Qed.

Lemma authorize_readonly m p : authorize (txt "readonly") m p = true -> m = GET.
Proof. unfold authorize. cbn. by intros ?%bool_decide_eq_true. Qed.

Lemma authorize_operator m p : authorize (txt "operator") m p = true -> m <> DELETE /\ ~ (p = txt "/v1/policies" /\ m = POST).
Proof.
  unfold authorize. change (bytes_eqb (txt "operator") (txt "admin")) with false.
  change (bytes_eqb (txt "operator") (txt "operator")) with true. cbv iota.
  case_bool_decide; [done|]. destruct (bytes_eqb p (txt "/v1/policies")) eqn:E; cbn [andb].
  - case_bool_decide; [done|]. intros _. naive_solver.
  - apply bytes_eqb_neq in E. intros _. naive_solver.
Qed.

(** Every asset is still there, under its key and tenant. *)
Definition assets_kept (d d' : Db) : Prop :=
  forall a, a ∈ d.(assets) -> exists a', a' ∈ d'.(assets) /\ a'.(a_asset_id) = a.(a_asset_id) /\ a'.(a_tenant_id) = a.(a_tenant_id).

Lemma execute_keeps {B} s n (q : Query B) d d0 :
  match q with DeleteAsset _ _ | InsertPolicy _ | SeedPolicy _ => False | _ => True end ->
  policies d = policies d0 /\ assets_kept d0 d ->
  policies (snd (execute s n q d)) = policies d0 /\ assets_kept d0 (snd (execute s n q d)).
Proof.
  intros Hq [Hp Ha]. destruct (writes q) eqn:Hw; [| by rewrite execute_reads].
  assert (Hadd : forall x, assets_kept d0 (set_assets d (d.(assets) ++ [x]))).
  { intros x a Hin. destruct (Ha a Hin) as (a' & Hin' & Hk). exists a'. split; [| done]. cbn. set_solver. }
  destruct q; try done; cbn [execute].
  - destruct (has_asset _ _); (split; [exact Hp|]); [exact Ha | apply Hadd].
  - destruct (has_asset _ _); (split; [exact Hp|]); [exact Ha | apply Hadd].
  - split; [exact Hp|]. intros x Hin. destruct (Ha x Hin) as (a' & Hin' & Hk).
    exists (if is_asset id tenant a' then with_status s status0 verified a' else a'). split.
    + cbn. apply list_elem_of_In. apply in_map_iff. exists a'. split; [done | by apply list_elem_of_In].
    + by destruct (is_asset id tenant a').
  - destruct (has_node _ _); (split; [exact Hp | exact Ha]).
  - destruct (has_alert _ _); (split; [exact Hp | exact Ha]).
Qed.

(** C24: Roles, in every interleaving of requests without tokens or with tokens of these roles only:
    under "readonly" the database does not change at all; under "operator" and "readonly"
    no policy changes and no asset disappears or moves to another tenant. *)
Theorem role_limits s ps n d ps' n' d' : rtc (step s) (ps, n, d) (ps', n', d') ->
  (Forall (requested (fun c => c.(role) = txt "readonly")) ps -> d' = d) /\
  (Forall (requested (fun c => c.(role) = txt "operator" \/ c.(role) = txt "readonly")) ps ->
     d'.(policies) = d.(policies) /\ assets_kept d d').
Proof.
  intros Hsteps. split; intros Hps.
  - apply (steps_preserve s (fun B q => writes q = false) (fun e => e = d)) in Hsteps; [apply Hsteps | | | done].
    + intros B q k e Hq ->. by rewrite answer_reads.
    + eapply Forall_impl; [exact Hps|]. intros p Hp. apply (requested_queries _ _ _ Hp); [done|].
      intros mo c req e B q Hc Ha _ (_ & Hw & _). rewrite Hc in Ha. apply authorize_readonly in Ha. rewrite Ha in Hw.
      destruct (writes q); [| done]. by destruct Hw.
  - set (P := fun B (q : Query B) => match q with DeleteAsset _ _ | InsertPolicy _ | SeedPolicy _ => False | _ => True end).
    apply (steps_preserve s P (fun e => e.(policies) = d.(policies) /\ assets_kept d e)) in Hsteps; [apply Hsteps | | |].
    + intros B q k e Hq He. unfold answer. destruct (s.(fate) k) as [|[]]; [by apply execute_keeps.. | done].
    + eapply Forall_impl; [exact Hps|]. intros p Hp. apply (requested_queries _ _ _ Hp); [by intros B []|].
      intros mo c req e B q Hc Ha Hr (_ & Hw & Hq).
      assert (Hm : req.(method) <> DELETE /\ ~ (req.(path) = txt "/v1/policies" /\ req.(method) = POST)).
      { destruct Hc as [Hc|Hc]; rewrite Hc in Ha; [by apply authorize_operator|]. apply authorize_readonly in Ha. by rewrite Ha; split; [| intros []]. }
      destruct Hm as [Hd Hpol]. destruct q; try done; cbn.
      * by destruct (req.(method)).
      * destruct Hq as [Hq ->]. apply Hpol. split; [by apply route_policies | by destruct (req.(method))].
    + split; [done|]. intros a Ha. by exists a.
Qed.
End proofs.

(** ** Verifying and enrolling assets, on a server that loses nothing *)

Definition reliable (s : Server) : Prop := forall n, s.(fate) n = Runs.

Section requests.
Context (s : Server) (Hs : server_wf s) (Hrel : reliable s).

Lemma answer_reliable {B} n (q : Query B) d : answer s n q d = execute s n q d.
Proof. unfold answer. by rewrite Hrel. Qed.

(** A condition that only rows with one key meet selects at most one row. *)
Lemma filter_unique {A K} (key : A -> K) (p : A -> bool) k l : NoDup (map key l) -> (forall a, p a = true -> key a = k) ->
  List.filter p l = match List.find p l with Some a => [a] | None => [] end.
Proof.
  intros Hnd Hp. induction l as [|a l IH]; [done|]. cbn [map] in Hnd. apply NoDup_cons in Hnd as [Ha Hnd].
  cbn [List.filter List.find]. destruct (p a) eqn:E; [| by apply IH]. f_equal.
  rewrite IH by done. destruct (List.find p l) as [b|] eqn:Hf; [| done]. exfalso. apply Ha.
  apply List.find_some in Hf as [Hin Hb]. rewrite (Hp a E), <- (Hp b Hb). by apply list_elem_of_In, in_map.
Qed.

Lemma is_asset_key id t a : is_asset id t a = true -> a.(a_asset_id) = id.
Proof. intros [Hid _]%andb_prop. by apply bytes_eqb_eq. Qed.

Lemma arrange_single {A} n (o : option A) :
  s.(arrange) A n (match o with Some a => [a] | None => [] end) = match o with Some a => [a] | None => [] end.
Proof.
  destruct o as [a|].
  - pose proof (Hs A n [a]) as Hp. apply Permutation_sym, Permutation_length_1_inv in Hp. done.
  - pose proof (Hs A n []) as Hp. by apply Permutation_sym, Permutation_nil in Hp.
Qed.

Lemma select_asset n id t d : db_wf d ->
  execute s n (SelectAsset id t) d = (Ok (List.find (is_asset id t) d.(assets)), d).
Proof.
  intros [Ha _ _ _]. cbn [execute]. rewrite (filter_unique a_asset_id (is_asset id t) id); [| done | apply is_asset_key].
  rewrite arrange_single. by destruct (List.find _ _).
Qed.

Lemma run_get_asset c id n d : db_wf d ->
  run s (get_asset c id) n d =
    (match List.find (is_asset id c.(tenant)) d.(assets) with
     | Some a => respond OK_200 (AssetBody a)
     | None => api_error NOT_FOUND (txt "Asset not found")
     end, (S n, d)).
Proof.
  intros Hd. unfold get_asset, Db.get_asset, stmt, mbind, prog_mbind. cbn [prog_bind run].
  by rewrite answer_reliable, select_asset.
Qed.

(** The rows of one asset with a new status *)
Definition restated (d : Db) (t id st : text) (verified : Z) : Db :=
  set_assets d (map (fun a => if is_asset id t a then with_status s st verified a else a) d.(assets)).

(** Verifying an asset, completely.  An unknown asset is answered with 404 and a missing or empty
    hash with 400, and nothing changes.  A hash equal to the enrolled one makes the asset
    healthy and raises no alert; any other hash, and every hash when none was enrolled,
    makes it tampered and raises one critical alert for the tenant. *)
Theorem verify_asset_exact mo c id b n d : db_wf d -> has_alert mo.(new_uuid) d = false ->
  let t := c.(tenant) in let verified := mo.(utc_now) 0%nat in
  run s (verify_asset mo c id b) n d =
    match List.find (is_asset id t) d.(assets) with
    | None => (api_error NOT_FOUND (txt "Asset not found"), (S n, d))
    | Some a =>
        match provided_hash b with
        | None => (api_error BAD_REQUEST (txt "integrity_hash is required"), (S n, d))
        | Some h =>
            if bool_decide (a.(a_integrity_hash) = Some h)
            then (respond OK_200 (AssetBody (reviewed a (txt "healthy") verified)),
                  (S (S n), restated d t id (txt "healthy") verified))
            else (respond OK_200 (AssetBody (reviewed a (txt "tampered") verified)),
                  (S (S (S n)), restated (set_alerts d (d.(alerts) ++ [stored_alert s (failure_alert mo c id a)])) t id (txt "tampered") verified))
        end
    end.
Proof.
  intros Hd Hu t verified. unfold verify_asset, Db.get_asset, stmt, mbind, prog_mbind. cbn [prog_bind run].
  rewrite answer_reliable, select_asset by done. fold t. destruct (List.find (is_asset id t) d.(assets)) as [a|]; [| done].
  unfold mret, prog_ret. cbn [prog_bind run]. destruct (provided_hash b) as [h|]; [| done].
  assert (Hm : hash_matches a h = bool_decide (a.(a_integrity_hash) = Some h)).
  { unfold hash_matches. destruct a.(a_integrity_hash) as [e|]; [| by rewrite bool_decide_eq_false_2].
    destruct (bytes_eqb e h) eqn:E; symmetry.
    - apply bool_decide_eq_true. by apply bytes_eqb_eq in E as ->.
    - apply bool_decide_eq_false. apply bytes_eqb_neq in E. congruence. }
  rewrite Hm. case_bool_decide; cbn [prog_bind mret prog_ret run insert_alert stmt update_asset_status].
  - by rewrite answer_reliable.
  - rewrite !answer_reliable. cbn [execute failure_alert l_alert_id]. rewrite Hu. rewrite answer_reliable. done.
Qed.

(** Enrolling an asset and asking for it.  A key in use, by whichever tenant, is a conflict and
    nothing changes.  A free one is stored, and then found under the key as it was stored,
    with the characters [&<>] and both quotes replaced: under a key that contains one of
    them the client does not find the asset it enrolled. *)
Theorem enroll_then_get cfg mo c req n d : db_wf d ->
  let r := run s (enroll_asset cfg mo c req) n d in
  let d' := snd (snd r) in
  if has_asset (sanitize req.(e_asset_id)) d
  then fst r = api_error CONFLICT (cfg.(sql_text) UniqueViolation) /\ d' = d
  else fst r = respond CREATED (AssetBody (enrolled mo c req)) /\
    (forall k, fst (run s (get_asset c (sanitize req.(e_asset_id))) k d') =
       respond OK_200 (AssetBody (stored_asset s (enrolled mo c req)))) /\
    (forall k id, id <> sanitize req.(e_asset_id) ->
       fst (run s (get_asset c id) k d') = fst (run s (get_asset c id) k d)).
Proof.
  intros Hd r d'. pose proof (execute_wf s n (InsertAsset (enrolled mo c req)) d Hd) as Hd'.
  assert (Hr : r = run s (enroll_asset cfg mo c req) n d) by done.
  assert (He : d' = snd (execute s n (InsertAsset (enrolled mo c req)) d)).
  { unfold d', r, enroll_asset, insert_asset, stmt, mbind, prog_mbind. cbn [prog_bind run]. rewrite answer_reliable.
    by destruct (execute s n _ d). }
  revert Hr. unfold r, enroll_asset, insert_asset, stmt, mbind, prog_mbind. cbn [prog_bind run]. rewrite answer_reliable. intros _.
  rewrite <- He in Hd'. revert He Hd'. cbn [execute enrolled a_asset_id].
  destruct (has_asset (sanitize req.(e_asset_id)) d) eqn:Hh; cbn [fst snd mret prog_ret run]; intros He Hd'; [done|].
  split; [done|]. assert (Hassets : d'.(assets) = d.(assets) ++ [stored_asset s (enrolled mo c req)]) by (by rewrite He).
  assert (Hfind : forall id, List.find (is_asset id c.(tenant)) d'.(assets) =
    match List.find (is_asset id c.(tenant)) d.(assets) with
    | Some a => Some a
    | None => if is_asset id c.(tenant) (stored_asset s (enrolled mo c req)) then Some (stored_asset s (enrolled mo c req)) else None
    end).
  { intros id. rewrite Hassets. generalize (assets d). induction l as [|a l IH]; [done|]. cbn [app List.find]. by destruct (is_asset _ _ a). }
  split.
  - intros k. rewrite run_get_asset by done. cbn [fst]. rewrite Hfind.
    assert (List.find (is_asset (sanitize req.(e_asset_id)) c.(tenant)) d.(assets) = None) as ->.
    { destruct (List.find _ _) as [a|] eqn:Hf; [| done]. apply List.find_some in Hf as [Hin Ha]. exfalso.
      assert (has_asset (sanitize req.(e_asset_id)) d = true); [| congruence].
      apply existsb_exists. exists a. split; [done|]. by apply andb_prop in Ha as [? _]. }
    unfold is_asset, row_of. cbn [stored_asset enrolled a_asset_id a_tenant_id]. by rewrite !bytes_eqb_refl.
  - intros k id Hne. rewrite !run_get_asset by done. cbn [fst]. rewrite Hfind.
    assert (is_asset id c.(tenant) (stored_asset s (enrolled mo c req)) = false) as ->; [| by destruct (List.find _ _)].
    apply andb_false_iff. left. apply bytes_eqb_neq. cbn. congruence.
Qed.
End requests.

(** ** Pages *)

Lemma page_length {A} limit offset (l : list A) : zlen (page limit offset l) <= as_u64 limit.
Proof.
  unfold page. set (rest := drop _ l). pose proof (Z.mod_pos_bound limit (2 ^ 64) ltac:(lia)) as Hb. fold (as_u64 limit) in Hb.
  unfold zlen at 1. rewrite length_take. unfold zlen. lia.
Qed.

Lemma page_sub {A} limit offset (l : list A) a : a ∈ page limit offset l -> a ∈ l.
Proof.
  unfold page. intros Hin. eapply elem_of_sublist; [| apply sublist_drop]. eapply elem_of_sublist; [exact Hin | apply sublist_take].
Qed.

Lemma page_all {A} limit (l : list A) : zlen l <= as_u64 limit -> page limit 0 l = l.
Proof.
  intros Hl. unfold page. change (as_u64 0) with 0. rewrite (Z.min_l 0 (zlen l)) by (unfold zlen; lia). cbn [Z.to_nat].
  rewrite drop_0. apply take_ge. unfold zlen in *. lia.
Qed.

Lemma selected_rows s n tn st h k d l : server_wf s -> fst (execute s n (SelectAssets tn st h k) d) = Ok l ->
  Permutation l (List.filter (fun a => of_tenant tn a && matches st a.(a_status) && matches h a.(a_host_name) && matches k a.(a_asset_kind)) d.(assets)).
Proof.
  intros Hs. cbn [execute fst]. intros [= <-]. unfold order_by_desc. rewrite (merge_sort_Permutation (not_before a_last_verified)). apply Hs.
Qed.

(** A page of assets holds only rows of the bearer's tenant, at most 1000 of them when the limit is
    not negative.  A negative limit passes the cap: on a server that loses nothing the
    answer is the whole table of the tenant (as long as it has fewer than [2^63] rows). *)
Theorem asset_pages s c p n d : server_wf s ->
  exists l, fst (run s (list_assets c p) n d) = respond OK_200 (AssetsBody l) /\
    (forall a, a ∈ l -> a ∈ d.(assets) /\ a.(a_tenant_id) = c.(tenant)) /\
    (0 <= default 100 p.(pg_limit) -> zlen l <= Z.min (default 100 p.(pg_limit)) 1000) /\
    (reliable s -> p = {| pg_offset := None; pg_limit := Some (-1); pg_status := None; pg_host := None; pg_kind := None |} ->
     zlen d.(assets) < 2 ^ 63 -> Permutation l (List.filter (of_tenant c.(tenant)) d.(assets))).
Proof.
  intros Hs. unfold list_assets, Db.list_assets, stmt, mbind, prog_mbind. cbn [prog_bind run].
  set (q := asset_query _ _ _ _).
  assert (Hq : exists st h k, q = SelectAssets c.(tenant) st h k).
  { unfold q, asset_query. destruct (pg_status p), (pg_host p), (pg_kind p); by eexists _, _, _. }
  destruct Hq as (st & h & k & Hq). unfold answer.
  destruct (s.(fate) n) as [|applied] eqn:Hf.
  2:{ exists []. unfold mret, prog_ret. cbn [run prog_bind page_of unwrap_or fst]. split; [done|]. split; [by intros a Hin%not_elem_of_nil|].
      split; [intros; unfold zlen; cbn; lia|]. intros Hrel. by rewrite Hrel in Hf. }
  rewrite Hq. pose proof (selected_rows s n c.(tenant) st h k d) as Hsel.
  destruct (execute s n (SelectAssets c.(tenant) st h k) d) as [r d'] eqn:He. cbn [fst] in Hsel.
  assert (exists l, r = Ok l) as [l ->] by (cbn [execute] in He; injection He as <- _; by eexists).
  specialize (Hsel l Hs eq_refl). exists (page (Z.min (default 100 (pg_limit p)) 1000) (default 0 (pg_offset p)) l).
  unfold mret, prog_ret. cbn [run prog_bind page_of unwrap_or fst]. split; [done|]. split; [| split].
  - intros a Hin%page_sub. rewrite Hsel in Hin. apply list_elem_of_In, filter_In in Hin as [Hin Ha].
    split; [by apply list_elem_of_In|]. rewrite !andb_true_iff in Ha. apply bytes_eqb_eq. apply Ha.
  - intros Hl. etransitivity; [apply page_length|]. unfold as_u64. rewrite Z.mod_small by lia. done.
  - intros _ -> Hlen. cbn [pg_limit pg_offset default]. unfold q in Hq. cbn in Hq. injection Hq as <- <- <-.
    assert (Hsame : Permutation l (List.filter (of_tenant c.(tenant)) d.(assets))).
    { rewrite Hsel. apply Permutation_refl'. apply filter_ext. intros a. cbn [matches]. by rewrite !andb_true_r. }
    rewrite page_all; [done|]. assert (Hu : as_u64 (default 100 (Some (-1)) `min` 1000) = 2 ^ 64 - 1) by reflexivity. cbn [default from_option] in Hu. rewrite Hu.
    unfold zlen in *. rewrite (Permutation_length Hsame). pose proof (List.filter_length_le (of_tenant c.(tenant)) d.(assets)). lia.
Qed.

(** ** A concrete service *)

Module ToyApi.

Definition server : Server := {| fate n := Runs; arrange A n l := l; stored_time t := t |}.

Definition toy_wire : Wire := {|
  parse_login s := Ok {| username := s; password := s |};
  parse_enroll s := Ok {| e_asset_id := s; e_display_name := s; e_asset_kind := txt "kernel"; e_host_name := txt "node";
                          e_policy_id := None; e_integrity_hash := Some (txt "aa") |};
  parse_map s := Ok (fun k => if bytes_eqb k (txt "integrity_hash") then Some s else None);
  parse_page s := Ok {| pg_offset := None; pg_limit := None; pg_status := None; pg_host := None; pg_kind := None |};
  parse_export s := Ok {| ex_format := None; ex_limit := None |};
  parse_segment s := Ok s
|}.

Definition config : Config := {|
  auth_env := ToyToken.env; wire := toy_wire; addr_hash a := 3; start_time := 0; pkg_version := txt "1"; openapi := txt "{}";
  metrics := {| request_count := 0; error_count := 0; m_asset_count := 0; m_alert_count := 0 |}; sql_text e := txt "sql" |}.

Definition key : text := replicate 32 x2a.
Definition front : Front := {| limiter := limiter_new 10 10; token_key := Some key |}.

Definition moment : Moment := {| m_created := 0; m_asked := 0; m_clock := 1000; utc_now n := Z.of_nat n; new_uuid := txt "u1" |}.

Definition claims (r : text) : Claims := {| sub := txt "ops"; tenant := txt "acme"; role := r; exp := 87400; iat := 1000 |}.

Definition token (r : text) : text :=
  let h := ToyToken.encode (txt "{}") in
  let p := ToyToken.encode (ToyToken.of_claims (claims r)) in
  h ++ [DOT] ++ p ++ [DOT] ++ ToyToken.encode (Toy.toy_digest (key ++ h ++ [DOT] ++ p)).

Definition request (m : Method) (p : text) (r content : text) : Request :=
  {| method := m; path := p; authorization := Some (token r); peer := V4 1; query_string := []; content := content |}.

Definition enrol : Request := request POST (txt "/v1/assets/enroll") (txt "operator") (txt "x1").
Definition listing : Request := request GET (txt "/v1/assets") (txt "readonly") [].

Definition asset (id t : text) : AssetRecord :=
  {| a_asset_id := id; a_display_name := id; a_asset_kind := txt "kernel"; a_host_name := txt "node"; a_status := txt "pending";
     a_integrity_hash := Some (txt "aa"); a_last_verified := 0; a_enrolled_at := 0; a_policy_id := None; a_tenant_id := t |}.

Definition db : Db :=
  {| assets := [asset (txt "a1") (txt "acme"); asset (txt "b1") (txt "bank")]; policies := []; nodes := []; alerts := [] |}.

Definition enrol_program : prog Response :=
  routed (H1 := toy_siem) config moment (Some (claims (txt "operator"))) enrol Enroll.
Definition listing_program : prog Response :=
  routed (H1 := toy_siem) config moment (Some (claims (txt "readonly"))) listing Assets.

Definition toy_serve := @serve Toy.hash ToyToken.ops toy_siem config moment.

Lemma enrol_served : exists f, toy_serve enrol front = (Ok enrol_program, f).
Proof.
  unfold toy_serve, serve.
  assert (Hg : fst (@guard_middleware Toy.hash ToyToken.ops config moment enrol front) = Next (Some (claims (txt "operator"))))
    by (vm_compute; reflexivity).
  destruct (guard_middleware _ _ _ _) as [g f]. cbn [fst] in Hg. subst g. eexists. reflexivity.
Qed.

Lemma listing_served : exists f, toy_serve listing front = (Ok listing_program, f).
Proof.
  unfold toy_serve, serve.
  assert (Hg : fst (@guard_middleware Toy.hash ToyToken.ops config moment listing front) = Next (Some (claims (txt "readonly"))))
    by (vm_compute; reflexivity).
  destruct (guard_middleware _ _ _ _) as [g f]. cbn [fst] in Hg. subst g. eexists. reflexivity.
Qed.

Lemma token_verifies r : r = txt "operator" \/ r = txt "readonly" ->
  fst (@verify_jwt Toy.hash ToyToken.ops ToyToken.env 1000 (token r) (Some key)) = Ok (claims r).
Proof. intros [->| ->]; vm_compute; reflexivity. Qed.

Lemma bears_token m p r content : r = txt "operator" \/ r = txt "readonly" ->
  @bears Toy.hash ToyToken.ops config moment (request m p r content) front (claims r).
Proof. intros Hr. exists (token r). split; [done|]. by apply token_verifies. Qed.

Lemma bears_only m p r content c : r = txt "operator" \/ r = txt "readonly" ->
  @bears Toy.hash ToyToken.ops config moment (request m p r content) front c -> c = claims r.
Proof.
  intros Hr (h & Hh & Hv). injection Hh as <-. pose proof (token_verifies r Hr) as Hv'.
  change (token_key front) with (Some key) in Hv. change (m_clock moment) with 1000 in Hv. cbn [auth_env config] in Hv. congruence.
Qed.

Lemma enrol_step : step server ([enrol_program], 0%nat, db)
  ([Ret (respond CREATED (AssetBody (enrolled moment (claims (txt "operator"))
     {| e_asset_id := txt "x1"; e_display_name := txt "x1"; e_asset_kind := txt "kernel"; e_host_name := txt "node"; e_policy_id := None;
        e_integrity_hash := Some (txt "aa") |})))], 1%nat,
   set_assets db (db.(assets) ++ [enrolled moment (claims (txt "operator"))
     {| e_asset_id := txt "x1"; e_display_name := txt "x1"; e_asset_kind := txt "kernel"; e_host_name := txt "node"; e_policy_id := None;
        e_integrity_hash := Some (txt "aa") |}])).
Proof. exact (Step server [enrol_program] 0%nat _ _ _ 0%nat db eq_refl). Qed.
End ToyApi.

Lemma requested_enrol (Q : Claims -> Prop) : Q (ToyApi.claims (txt "operator")) ->
  @requested Toy.hash ToyToken.ops toy_siem ToyApi.config Q ToyApi.enrol_program.
Proof.
  intros HQ. destruct ToyApi.enrol_served as [f Hf]. exists ToyApi.moment, ToyApi.enrol, ToyApi.front, f. split; [exact Hf|].
  intros c Hc. apply ToyApi.bears_only in Hc as ->; [done | by left].
Qed.

(** An operator of [acme] enrols an asset: [bank] sees nothing of it. *)
Lemma tenant_isolation_witness :
  view (txt "bank") (set_assets ToyApi.db (ToyApi.db.(assets) ++ [enrolled ToyApi.moment (ToyApi.claims (txt "operator"))
     {| e_asset_id := txt "x1"; e_display_name := txt "x1"; e_asset_kind := txt "kernel"; e_host_name := txt "node"; e_policy_id := None;
        e_integrity_hash := Some (txt "aa") |}])) = view (txt "bank") ToyApi.db.
Proof.
  refine (proj1 (@tenant_isolation Toy.hash ToyToken.ops toy_siem ToyApi.config ToyApi.server (txt "bank") [ToyApi.enrol_program]
    0%nat ToyApi.db _ _ _ _ (rtc_once _ _ ToyApi.enrol_step))).
  apply Forall_singleton, requested_enrol. vm_compute. discriminate.
Defined.

(** The listing of [acme] is the same whatever [bank] has. *)
Lemma tenant_noninterference_witness :
  fst (run ToyApi.server ToyApi.listing_program 0 ToyApi.db) =
  fst (run ToyApi.server ToyApi.listing_program 0 (set_assets ToyApi.db [ToyApi.asset (txt "a1") (txt "acme")])).
Proof.
  destruct (ToyApi.listing_served) as [f Hf].
  refine (proj1 (@tenant_noninterference Toy.hash ToyToken.ops toy_siem ToyApi.config ToyApi.server ToyApi.moment ToyApi.listing ToyApi.front
    ToyApi.listing_program f (ToyApi.claims (txt "readonly")) 0%nat ToyApi.db _ Hf _ _ _ _)).
  - apply ToyApi.bears_token. by right.
  - split; vm_compute; reflexivity.
  - split; [| reflexivity]. intros r [= <-]. vm_compute. reflexivity.
  - discriminate.
Defined.

Lemma role_limits_witness :
  assets_kept ToyApi.db (set_assets ToyApi.db (ToyApi.db.(assets) ++ [enrolled ToyApi.moment (ToyApi.claims (txt "operator"))
     {| e_asset_id := txt "x1"; e_display_name := txt "x1"; e_asset_kind := txt "kernel"; e_host_name := txt "node"; e_policy_id := None;
        e_integrity_hash := Some (txt "aa") |}])).
Proof.
  refine (proj2 (proj2 (@role_limits Toy.hash ToyToken.ops toy_siem ToyApi.config ToyApi.server [ToyApi.enrol_program]
    0%nat ToyApi.db _ _ _ (rtc_once _ _ ToyApi.enrol_step)) _)).
  apply Forall_singleton, requested_enrol. by left.
Defined.

(** Without a token the enrolment is refused. *)
Lemma protected_requests_witness :
  let req := {| method := POST; path := txt "/v1/assets/enroll"; authorization := None; peer := V4 1; query_string := []; content := [] |} in
  (exists r, Ret (api_error UNAUTHORIZED (txt "Authentication required")) = Ret r /\ status r ∈ [UNAUTHORIZED; FORBIDDEN; TOO_MANY_REQUESTS]) \/
  (fst (check (fun _ => 3) (V4 1) 0 0 (limiter_new 10 10)) = Ok true /\
   exists c, @bears Toy.hash ToyToken.ops ToyApi.config ToyApi.moment req ToyApi.front c /\ authorize c.(role) POST (txt "/v1/assets/enroll") = true).
Proof.
  intros req. refine (@protected_requests Toy.hash ToyToken.ops toy_siem ToyApi.config ToyApi.moment req ToyApi.front _
    (snd (ToyApi.toy_serve req ToyApi.front)) _ _); vm_compute; reflexivity.
Defined.

Lemma toy_server_wf : server_wf ToyApi.server.
Proof. by intros A n l. Qed.

Lemma toy_db_wf : db_wf ToyApi.db.
Proof. split; cbn; repeat constructor; set_solver. Qed.

(** The wrong hash for the asset of [acme] *)
Lemma verify_asset_exact_witness :
  status (fst (run ToyApi.server (verify_asset ToyApi.moment (ToyApi.claims (txt "operator")) (txt "a1")
    (fun k => if bytes_eqb k (txt "integrity_hash") then Some (txt "bb") else None)) 0 ToyApi.db)) = 200.
Proof.
  rewrite (verify_asset_exact ToyApi.server toy_server_wf (fun n => eq_refl) ToyApi.moment (ToyApi.claims (txt "operator")) (txt "a1")
    (fun k => if bytes_eqb k (txt "integrity_hash") then Some (txt "bb") else None) 0%nat ToyApi.db toy_db_wf eq_refl).
  vm_compute. reflexivity.
Defined.

(** An identifier with an ampersand is stored under another key. *)
Lemma enroll_then_get_witness :
  let req := {| e_asset_id := txt "r&d"; e_display_name := txt "r"; e_asset_kind := txt "kernel"; e_host_name := txt "node"; e_policy_id := None;
                e_integrity_hash := Some (txt "aa") |} in
  let c := ToyApi.claims (txt "operator") in
  let d' := snd (snd (run ToyApi.server (enroll_asset ToyApi.config ToyApi.moment c req) 0 ToyApi.db)) in
  fst (run ToyApi.server (get_asset c (txt "r&d")) 1 d') = fst (run ToyApi.server (get_asset c (txt "r&d")) 1 ToyApi.db).
Proof.
  intros req c d'.
  pose proof (enroll_then_get ToyApi.server toy_server_wf (fun n => eq_refl) ToyApi.config ToyApi.moment c req 0%nat ToyApi.db toy_db_wf) as He.
  cbv zeta in He. assert (Hh : has_asset (sanitize req.(e_asset_id)) ToyApi.db = false) by (vm_compute; reflexivity).
  rewrite Hh in He. apply (proj2 (proj2 He) 1%nat (txt "r&d")). vm_compute. discriminate.
Defined.

Lemma asset_pages_witness :
  exists l, fst (run ToyApi.server (list_assets (ToyApi.claims (txt "readonly"))
      {| pg_offset := None; pg_limit := Some (-1); pg_status := None; pg_host := None; pg_kind := None |}) 0 ToyApi.db) =
    respond OK_200 (AssetsBody l) /\ Permutation l [ToyApi.asset (txt "a1") (txt "acme")].
Proof.
  destruct (asset_pages ToyApi.server (ToyApi.claims (txt "readonly"))
    {| pg_offset := None; pg_limit := Some (-1); pg_status := None; pg_host := None; pg_kind := None |} 0%nat ToyApi.db toy_server_wf)
    as (l & Hr & _ & _ & Hall).
  exists l. split; [exact Hr|]. apply Hall; [by intros n | done | vm_compute; reflexivity].
Defined.
