(* ===== verification/ApiDoc.v ===== *)
(** * ApiDoc: the interface document and the start of the management API

    Models [dfim_management_api/src/openapi.rs], whose document is a constant, and [main] of
    [main.rs], which opens the log, builds the state, announces what it serves and listens.
    The members of a JSON object are listed in the order of the source.

    [openapi_routes] compares the document with the router of [Api]: which documented
    operations are served, which are not, and which served operations the document
    leaves out.  [server_start_exact] says when the service starts and on what. *)

From stdpp Require Import base list numbers option strings.
From Stdlib Require Import ZArith Lia Strings.Byte.
From S2P Require Import Siem RateLimit Auth Db Api ApiAudit.
From S2P Require Import Prelude Crypto Json Text.

Definition str (s : string) : Ser := SStr (txt s).
Definition obj (members : list (string * Ser)) : Ser := SMap (prod_map txt id <$> members).

Definition openapi_paths : Ser :=
  obj [
    ("/health",
      obj [("get", obj [("summary", str "Health check"); ("tags", SSeq [str "Health"]);
      ("responses", obj [("200", obj [("description", str "OK")])])])]);
    ("/v1/fleet/summary",
      obj [("get", obj [("summary", str "Fleet-wide integrity summary"); ("tags", SSeq [str "Fleet"]);
      ("responses", obj [("200", obj [("description", str "OK")])])])]);
    ("/v1/assets",
      obj [("get", obj [("summary", str "List enrolled assets"); ("tags", SSeq [str "Assets"]);
      ("parameters", SSeq [obj [("name", str "status"); ("in", str "query");
      ("schema", obj [("type", str "string")])]; obj [("name", str "host"); ("in", str "query");
      ("schema", obj [("type", str "string")])]; obj [("name", str "kind"); ("in", str "query");
      ("schema", obj [("type", str "string")])]; obj [("name", str "offset"); ("in", str "query");
      ("schema", obj [("type", str "integer")])]; obj [("name", str "limit"); ("in", str "query");
      ("schema", obj [("type", str "integer")])]]);
      ("responses", obj [("200", obj [("description", str "Asset list")])])])]);
    ("/v1/assets/enroll",
      obj [("post", obj [("summary", str "Enroll new protected asset"); ("tags", SSeq [str "Assets"]);
      ("requestBody", obj [("content", obj [("application/json", obj [("schema", obj [("type", str "object");
      ("properties", obj [("asset_id", obj [("type", str "string")]); ("display_name", obj [("type", str "string")]);
      ("asset_kind", obj [("type", str "string")]); ("host_name", obj [("type", str "string")]);
      ("policy_id", obj [("type", str "string")]); ("integrity_hash", obj [("type", str "string")])])])])])]);
      ("responses", obj [("201", obj [("description", str "Enrolled")]);
      ("409", obj [("description", str "Already enrolled")])])])]);
    ("/v1/assets/{asset_id}",
      obj [("get", obj [("summary", str "Get asset detail"); ("tags", SSeq [str "Assets"]);
      ("parameters", SSeq [obj [("name", str "asset_id"); ("in", str "path"); ("required", SBool true);
      ("schema", obj [("type", str "string")])]]); ("responses", obj [("200", obj [("description", str "OK")])])]);
      ("delete", obj [("summary", str "Remove asset"); ("tags", SSeq [str "Assets"]);
      ("parameters", SSeq [obj [("name", str "asset_id"); ("in", str "path"); ("required", SBool true);
      ("schema", obj [("type", str "string")])]]);
      ("responses", obj [("200", obj [("description", str "Deleted")])])])]);
    ("/v1/assets/{asset_id}/verify",
      obj [("put", obj [("summary", str "Verify asset integrity"); ("tags", SSeq [str "Assets"]);
      ("parameters", SSeq [obj [("name", str "asset_id"); ("in", str "path"); ("required", SBool true);
      ("schema", obj [("type", str "string")])]]); ("responses", obj [("200", obj [("description", str "OK")])])])]);
    ("/v1/policies",
      obj [("get", obj [("summary", str "List enforcement policies"); ("tags", SSeq [str "Policies"]);
      ("responses", obj [("200", obj [("description", str "OK")])])]); ("post", obj [("summary", str "Create policy");
      ("tags", SSeq [str "Policies"]); ("responses", obj [("201", obj [("description", str "Created")])])])]);
    ("/v1/policies/{policy_id}",
      obj [("get", obj [("summary", str "Get policy detail"); ("tags", SSeq [str "Policies"]);
      ("parameters", SSeq [obj [("name", str "policy_id"); ("in", str "path"); ("required", SBool true);
      ("schema", obj [("type", str "string")])]]); ("responses", obj [("200", obj [("description", str "OK")])])])]);
    ("/v1/nodes",
      obj [("get", obj [("summary", str "List registered nodes"); ("tags", SSeq [str "Nodes"]);
      ("responses", obj [("200", obj [("description", str "OK")])])])]);
    ("/v1/nodes/register",
      obj [("post", obj [("summary", str "Register agent node"); ("tags", SSeq [str "Nodes"]);
      ("responses", obj [("201", obj [("description", str "Registered")])])])]);
    ("/v1/alerts",
      obj [("get", obj [("summary", str "List security alerts"); ("tags", SSeq [str "Alerts"]);
      ("responses", obj [("200", obj [("description", str "OK")])])])]);
    ("/v1/alerts/{alert_id}/acknowledge",
      obj [("post", obj [("summary", str "Acknowledge alert"); ("tags", SSeq [str "Alerts"]);
      ("parameters", SSeq [obj [("name", str "alert_id"); ("in", str "path"); ("required", SBool true);
      ("schema", obj [("type", str "string")])]]); ("responses", obj [("200", obj [("description", str "OK")])])])]);
    ("/v1/siem/export",
      obj [("get", obj [("summary", str "Export recent integrity alerts as SIEM events"); ("tags", SSeq [str "SIEM"]);
      ("parameters", SSeq [obj [("name", str "format"); ("in", str "query"); ("schema", obj [("type", str "string");
      ("enum", SSeq [str "ndjson"; str "splunk_hec"; str "elastic"; str "sentinel"; str "syslog"])]);
      ("description", str "Output format (default: ndjson)")]; obj [("name", str "limit"); ("in", str "query");
      ("schema", obj [("type", str "integer"); ("minimum", SInt 1); ("maximum", SInt 5000)]);
      ("description", str "Max events to export (default: 500)")]]);
      ("responses", obj [("200", obj [("description", str "Serialized SIEM events; Content-Type varies by format")]);
      ("400", obj [("description", str "Unknown format")])])])]);
    ("/v1/telemetry",
      obj [("get", obj [("summary", str "Query telemetry"); ("tags", SSeq [str "Telemetry"]);
      ("responses", obj [("200", obj [("description", str "OK")])])])]);
    ("/v1/telemetry/ingest",
      obj [("post", obj [("summary", str "Ingest telemetry events"); ("tags", SSeq [str "Telemetry"]);
      ("responses", obj [("200", obj [("description", str "OK")])])])])
  ].

Definition openapi_spec : Ser :=
  obj [
    ("openapi", str "3.1.0");
    ("info", obj [("title", str "DFIM Management API"); ("version", str "1.0.0");
      ("description", str "DFIM Central Fleet Integrity Management — Phase 1 Productization (P1-M2/P1-M4)");
      ("contact", obj [("name", str "DFIM Engineering")]); ("license", obj [("name", str "Apache 2.0")])]);
    ("servers", SSeq [obj [("url", str "/"); ("description", str "Local")]]);
    ("paths", openapi_paths);
    ("tags", SSeq [obj [("name", str "Health")]; obj [("name", str "Fleet")]; obj [("name", str "Assets")];
      obj [("name", str "Policies")]; obj [("name", str "Nodes")]; obj [("name", str "Alerts")];
      obj [("name", str "SIEM")]; obj [("name", str "Telemetry")]]);
    ("security", SSeq [obj [("ApiKeyAuth", SSeq [])]]);
    ("components", obj [("securitySchemes", obj [("ApiKeyAuth", obj [("type", str "apiKey"); ("in", str "header");
      ("name", str "X-API-Key")])])])
  ].

(** ** The document, read *)

Definition members (v : Ser) : list (text * Ser) := match v with SMap l => l | _ => [] end.

Definition member (k : string) (v : Ser) : option Ser := snd <$> List.find (fun kv => bytes_eqb kv.1 (txt k)) (members v).

Definition method_named (s : text) : option Method :=
  if bytes_eqb s (txt "get") then Some GET
  else if bytes_eqb s (txt "post") then Some POST
  else if bytes_eqb s (txt "put") then Some PUT
  else if bytes_eqb s (txt "delete") then Some DELETE
  else None.

(** The path templates with their methods *)
Definition operations (doc : Ser) : list (text * Method) :=
  '(p, v) ← from_option members [] (member "paths" doc);
  omap (fun '(m, _) => (p,.) <$> method_named m) (members v).

(** A template with [x] for its variable *)
Definition fill (template x : text) : text :=
  join [SLASH] ((fun seg => if starts_with seg (txt "{") then x else seg) <$> split_on SLASH template).

(** The values of the parameter [format] of the export *)
Definition documented_formats : list text :=
  default [] (v ← member "paths" openapi_spec; v ← member "/v1/siem/export" v; v ← member "get" v; v ← member "parameters" v;
    match v with
    | SSeq (p :: _) => v ← member "schema" p; v ← member "enum" v;
        match v with SSeq l => Some (omap (fun x => match x with SStr s => Some s | _ => None end) l) | _ => None end
    | _ => None
    end).

(** What may stand for a variable of a template: a segment that is not [enroll], which is a
    path of its own *)
Definition segment (x : text) : Prop := x <> [] /\ without SLASH x = true /\ x <> txt "enroll".

(** The methods of an endpoint *)
Definition answers (e : Endpoint) (m : Method) : bool :=
  match e, m with
  | (Health | MetricsPage | OpenApi | Fleet | Assets | Asset _ | Policies | Nodes | Alerts | SiemExport), GET => true
  | (Login | Enroll | Policies | RegisterNode | Acknowledge _), POST => true
  | VerifyAsset _, PUT => true
  | Asset _, DELETE => true
  | _, _ => false
  end.

(** Documented and not served *)
Definition unserved : list text := [txt "/v1/policies/{policy_id}"; txt "/v1/telemetry"; txt "/v1/telemetry/ingest"].

(** Served and not documented *)
Definition undocumented (e : Endpoint) : bool := match e with Login | MetricsPage | OpenApi => true | _ => false end.

(** ** The service *)

Inductive LogTarget := ApiLog | FallbackLog.

(** The transport of the accepted connections *)
Inductive Transport := Tcp | Tls.

(** What [main] finds: the files it can open, the files that are there, the addresses it
    can bind, and what [AppState::new] finds *)
Record Host := {
  log_opens : bool;
  fallback_creates : bool;
  audit_opens : text -> bool;
  file_exists : text -> bool;
  binds : text -> bool;
  environment : AuthEnv;
  database : text -> bool;
  start_now : Z
}.

Record Service := {
  log_target : LogTarget;
  audit : Sink;
  bind_addr : text;
  transport : Transport;
  announced : list text;
  front : Front
}.

Definition AUDIT_PATH : text := txt "/var/log/dfim/audit.jsonl".

(** [AuditLogger::new(...).unwrap_or_else(...)] of [AppState::new] *)
Definition audit_logger (h : Host) : Sink := default to_stdout (logger_new h.(audit_opens) AUDIT_PATH).

Definition setting (h : Host) (key : string) (otherwise : string) : text :=
  default (txt otherwise) (h.(environment).(env_var) (txt key)).

Definition use_tls (h : Host) : bool := h.(file_exists) (setting h "DFIM_TLS_DIR" "/etc/dfim/tls" ++ txt "/cert.pem").

Definition announcements (h : Host) (addr : text) : list text :=
  [txt "Listening on " ++ addr; txt "PostgreSQL: connected"; txt "Auth: JWT enforced (401 without token)"; txt "Rate Limiting: ACTIVE";
   txt "TLS: " ++ (if use_tls h then txt "ENABLED" else txt "DISABLED — run scripts/gen_tls.sh");
   txt "Audit log: /var/log/dfim/audit.jsonl"; txt "Metrics: /metrics"].

(** The log of last resort is opened with [unwrap]. *)
Definition open_log (h : Host) : outcome Empty_set LogTarget :=
  if h.(log_opens) then Ok ApiLog else if h.(fallback_creates) then Ok FallbackLog else Panic.

(** [main], up to the first connection: [axum::serve] runs on the listener itself. *)
Definition main (h : Host) : prog (outcome Empty_set Service) :=
  match open_log h with
  | Ok target =>
      r ← app_state_new h.(environment) h.(database) h.(start_now);
      Ret (match r with
           | Ok f =>
               let addr := setting h "DFIM_API_BIND" "0.0.0.0:3000" in
               if h.(binds) addr then
                 Ok {| log_target := target; audit := audit_logger h; bind_addr := addr; transport := Tcp;
                       announced := announcements h addr; front := f |}
               else Panic
           | _ => Panic
           end)
  | _ => Ret Panic
  end.

(** ** The document and the router *)

Lemma named_split p s segs : split_on SLASH p = segs -> segs <> split_on SLASH s -> bytes_eqb p s = false.
Proof. intros <- Hne. apply bytes_eqb_neq. by intros ->. Qed.

Lemma split_filled pre x post : without SLASH x = true -> Forall (fun s => without SLASH s = true) (pre ++ post) ->
  split_on SLASH (join [SLASH] (pre ++ x :: post)) = pre ++ x :: post.
Proof.
  intros Hx Hf. apply split_join; [by destruct pre|]. apply Forall_app in Hf as [H1 H2]. apply Forall_app. split; [done|]. by constructor.
Qed.

(** The path of a filled template has the segments [pre], [x] and [post]; no fixed path has. *)
Ltac route_filled t pre x post :=
  let Hne := fresh "Hne" in let Hw := fresh "Hw" in let He := fresh "He" in let Hs := fresh "Hs" in let p := fresh "p" in
  intros (Hne & Hw & He); apply bytes_eqb_neq in Hne; vm_compute in He;
  assert (Hs := split_filled pre x post Hw ltac:(by repeat constructor));
  change (join _ _) with (fill (txt t) x) in Hs; generalize dependent (fill (txt t) x);
  intros p Hs; unfold route; rewrite Hs;
  rewrite !(named_split p (txt _) _ Hs) by (vm_compute; congruence); cbn; by rewrite ?Hne.

Lemma fill_asset x : segment x -> route (fill (txt "/v1/assets/{asset_id}") x) = Some (Asset x).
Proof. route_filled "/v1/assets/{asset_id}" [[]; txt "v1"; txt "assets"] x (@nil text). Qed.

Lemma fill_verify x : segment x -> route (fill (txt "/v1/assets/{asset_id}/verify") x) = Some (VerifyAsset x).
Proof. route_filled "/v1/assets/{asset_id}/verify" [[]; txt "v1"; txt "assets"] x [txt "verify"]. Qed.

Lemma fill_acknowledge x : segment x -> route (fill (txt "/v1/alerts/{alert_id}/acknowledge") x) = Some (Acknowledge x).
Proof. route_filled "/v1/alerts/{alert_id}/acknowledge" [[]; txt "v1"; txt "alerts"] x [txt "acknowledge"]. Qed.

Lemma fill_policy x : segment x -> route (fill (txt "/v1/policies/{policy_id}") x) = None.
Proof. route_filled "/v1/policies/{policy_id}" [[]; txt "v1"; txt "policies"] x (@nil text). Qed.

(** A path that is routed, with the methods of its endpoint, is a documented one. *)
Definition documented (p : text) (m : Method) : Prop :=
  exists t x, (t, m) ∈ operations openapi_spec /\ p = fill t x.

Lemma documented_by t x p m : bool_decide ((t, m) ∈ operations openapi_spec) = true -> p = fill t x -> documented p m.
Proof. intros Hin%bool_decide_eq_true ->. by exists t, x. Qed.

Lemma routed_documented p e m : route p = Some e -> answers e m = true -> undocumented e = false -> documented p m.
Proof.
  intros Hr Ha Hu. unfold route in Hr.
  repeat match type of Hr with (if bytes_eqb p (txt ?s) then _ else _) = _ =>
    destruct (bytes_eqb p (txt s)) eqn:Hp;
    [apply bytes_eqb_eq in Hp; injection Hr as <-; try done; destruct m; try done; by apply (documented_by (txt s) [])|clear Hp] end.
  pose proof (join_split SLASH p) as Hp.
  destruct (split_on SLASH p) as [|root [|v [|a [|x [|y [|]]]]]]; try done.
  - destruct (_ && _) eqn:Hc in Hr; [|done]. rewrite !andb_true_iff, !bytes_eqb_eq in Hc. destruct Hc as [[[-> ->] ->] _].
    injection Hr as <-. destruct m; try done; by apply (documented_by (txt "/v1/assets/{asset_id}") x).
  - destruct (_ && _) eqn:Hc in Hr; [|done]. rewrite !andb_true_iff, !bytes_eqb_eq in Hc. destruct Hc as [[-> ->] _].
    destruct (bytes_eqb a _ && _) eqn:Hv in Hr.
    { rewrite !andb_true_iff, !bytes_eqb_eq in Hv. destruct Hv as [-> ->]. injection Hr as <-.
      destruct m; try done; by apply (documented_by (txt "/v1/assets/{asset_id}/verify") x). }
    clear Hv. destruct (bytes_eqb a _ && _) eqn:Hv in Hr; [|done].
    rewrite !andb_true_iff, !bytes_eqb_eq in Hv. destruct Hv as [-> ->]. injection Hr as <-.
    destruct m; try done; by apply (documented_by (txt "/v1/alerts/{alert_id}/acknowledge") x).
Qed.

(** The documented operations *)
Lemma operations_listed : operations openapi_spec =
  [(txt "/health", GET); (txt "/v1/fleet/summary", GET); (txt "/v1/assets", GET); (txt "/v1/assets/enroll", POST);
   (txt "/v1/assets/{asset_id}", GET); (txt "/v1/assets/{asset_id}", DELETE); (txt "/v1/assets/{asset_id}/verify", PUT);
   (txt "/v1/policies", GET); (txt "/v1/policies", POST); (txt "/v1/policies/{policy_id}", GET); (txt "/v1/nodes", GET);
   (txt "/v1/nodes/register", POST); (txt "/v1/alerts", GET); (txt "/v1/alerts/{alert_id}/acknowledge", POST);
   (txt "/v1/siem/export", GET); (txt "/v1/telemetry", GET); (txt "/v1/telemetry/ingest", POST)].
Proof. by vm_compute. Qed.

(** What the router does with a documented operation *)
Definition as_documented (op : text * Method) : Prop :=
  forall x, segment x ->
    if bool_decide (op.1 ∈ unserved) then route (fill op.1 x) = None
    else exists e, route (fill op.1 x) = Some e /\ answers e op.2 = true.

Lemma as_documented_all : Forall as_documented (operations openapi_spec).
Proof.
  rewrite operations_listed.
  assert (Hn : forall op, bool_decide (op.1 ∈ unserved) = true -> (forall x, segment x -> route (fill op.1 x) = None) -> as_documented op).
  { intros op Hb Hx x Hs. rewrite Hb. by apply Hx. }
  assert (Hy : forall op, bool_decide (op.1 ∈ unserved) = false ->
    (forall x, segment x -> exists e, route (fill op.1 x) = Some e /\ answers e op.2 = true) -> as_documented op).
  { intros op Hb Hx x Hs. rewrite Hb. by apply Hx. }
  repeat (apply Forall_cons_2; [|]); [..|apply Forall_nil_2];
    lazymatch goal with
    | |- as_documented (txt "/v1/assets/{asset_id}", _) => by apply Hy; [vm_compute|intros x Hx; eexists; split; [by apply fill_asset|]]
    | |- as_documented (txt "/v1/assets/{asset_id}/verify", _) => by apply Hy; [vm_compute|intros x Hx; eexists; split; [by apply fill_verify|]]
    | |- as_documented (txt "/v1/alerts/{alert_id}/acknowledge", _) =>
        by apply Hy; [vm_compute|intros x Hx; eexists; split; [by apply fill_acknowledge|]]
    | |- as_documented (txt "/v1/policies/{policy_id}", _) => by apply Hn; [vm_compute|exact fill_policy]
    | |- as_documented (txt "/v1/telemetry", _) => by apply Hn; [vm_compute|intros x _; vm_compute]
    | |- as_documented (txt "/v1/telemetry/ingest", _) => by apply Hn; [vm_compute|intros x _; vm_compute]
    | |- _ => by apply Hy; [vm_compute|intros x _; eexists; split; vm_compute]
    end.
Qed.

Section service.
Context `{HashOps} `{TokenOps} `{SiemOps}.
Context (cfg : Config) (mo : Moment) (c : Claims) (req : Request).

(** The extractors of [axum] answer with 400, 413, 415 or 422. *)
Definition extractors_ok : Prop :=
  let w := cfg.(wire) in
  (forall s, w.(parse_enroll) s <> Err METHOD_NOT_ALLOWED) /\ (forall s, w.(parse_map) s <> Err METHOD_NOT_ALLOWED) /\
  (forall s, w.(parse_page) s <> Err METHOD_NOT_ALLOWED) /\ (forall s, w.(parse_export) s <> Err METHOD_NOT_ALLOWED) /\
  (forall s, w.(parse_segment) s <> Err METHOD_NOT_ALLOWED).

Lemma extracted_allowed {A} (r : outcome Z A) k : r <> Err METHOD_NOT_ALLOWED -> (forall a, k a <> not_allowed) -> extracted r k <> not_allowed.
Proof. intros Hr Hk. destruct r as [a|e|]; cbn [extracted]; [apply Hk| |done]. intros [= ->]. by apply Hr. Qed.

(** [answers] is the method table of the router. *)
Lemma endpoint_methods m e : extractors_ok -> e <> Login ->
  (answers e m = false <-> endpoint cfg mo (Some c) req m e = not_allowed).
Proof.
  intros (He & Hm & Hp & Hx & Hs) Hl. split.
  - by destruct e, m.
  - destruct e, m; try done; cbn [answers endpoint with_claims]; intros Hd; exfalso; revert Hd;
      repeat (apply extracted_allowed; [by auto|intros ?]); try done.
    unfold siem_export. by destruct (siem_format _).
Qed.
End service.

Lemma run_bind {A B} s (p : prog A) (k : A -> prog B) : forall n d,
  run s (p ≫= k) n d = let '(a, (n, d)) := run s p n d in run s (k a) n d.
Proof. induction p as [a|C q kk IH]; intros n d; [done|]. cbn. destruct (answer _ _ _ _) as [r d']. apply IH. Qed.

Section theorems.

(** The document and the router.  Every operation of the OpenAPI document is served at its
    path with its method, for every value of the path variable (other than [enroll], a
    fixed path), except [/v1/policies/{policy_id}] and the two telemetry paths,
    which no route matches; conversely every path and method that the router answers is in the document,
    except the login, [/metrics] and the document itself; and the formats it
    lists for the export are those the export knows, each of them once. *)
Theorem openapi_routes :
  (forall t m x, (t, m) ∈ operations openapi_spec -> segment x ->
     if bool_decide (t ∈ unserved) then route (fill t x) = None
     else exists e, route (fill t x) = Some e /\ answers e m = true) /\
  (forall p e m, route p = Some e -> answers e m = true -> undocumented e = false -> documented p m) /\
  (siem_format <$> documented_formats) = Some <$> [Ndjson; SplunkHec; ElasticEcs; SentinelCef; Rfc5424Syslog].
Proof.
  split; [|split; [exact routed_documented|by vm_compute]].
  intros t m x Hin Hx. pose proof as_documented_all as Ha. rewrite Forall_forall in Ha. by apply (Ha (t, m)).
Qed.

(** An asset that is enrolled under the identifier [enroll] cannot be read or removed at its documented path:
    the fixed path of the enrolment takes precedence and refuses the method. *)
Theorem asset_named_enroll `{HashOps} `{TokenOps} `{SiemOps} cfg mo c req e :
  (enrolled mo c e).(a_asset_id) = txt "enroll" ->
  let p := fill (txt "/v1/assets/{asset_id}") (enrolled mo c e).(a_asset_id) in
  route p = Some Enroll /\
  endpoint cfg mo (Some c) req GET Enroll = not_allowed /\ endpoint cfg mo (Some c) req DELETE Enroll = not_allowed.
Proof. intros ->. split; [by vm_compute|done]. Qed.

(** When the service starts: a log can be opened, the database is reachable and migrated, and the address can be
    bound; and what it then is.  The connections are plain, also when the start announces TLS. *)
Theorem server_start_exact h s n d sv :
  let addr := setting h "DFIM_API_BIND" "0.0.0.0:3000" in
  (fst (run s (main h) n d) = Ok sv <->
   exists target f, open_log h = Ok target /\ fst (run s (app_state_new h.(environment) h.(database) h.(start_now)) n d) = Ok f /\
     h.(binds) addr = true /\
     sv = {| log_target := target; audit := audit_logger h; bind_addr := addr; transport := Tcp;
             announced := announcements h addr; front := f |}) /\
  (fst (run s (main h) n d) = Ok sv -> use_tls h = true -> txt "TLS: ENABLED" ∈ sv.(announced) /\ sv.(transport) = Tcp).
Proof.
  intros addr. assert (Hx : fst (run s (main h) n d) = Ok sv <->
   exists target f, open_log h = Ok target /\ fst (run s (app_state_new h.(environment) h.(database) h.(start_now)) n d) = Ok f /\
     h.(binds) addr = true /\
     sv = {| log_target := target; audit := audit_logger h; bind_addr := addr; transport := Tcp;
             announced := announcements h addr; front := f |}).
  { unfold main. destruct (open_log h) as [target|e|]; [| |]; [|naive_solver..]. rewrite run_bind.
    destruct (run s (app_state_new _ _ _) n d) as [[f|[]|] [n' d']]; cbn [fst snd run]; [|naive_solver].
    fold addr. destruct (binds h addr); naive_solver. }
  split; [exact Hx|]. intros (target & f & _ & _ & _ & ->)%Hx Ht. split; [|done].
  cbn [announced]. unfold announcements. rewrite Ht. repeat rewrite elem_of_cons. by right; right; right; right; left.
Qed.
End theorems.
