(* ===== verification/Plugin.v ===== *)
(** * Plugin: policy plugins and the sample policies

    Models [dfim_plugin_sdk/src/lib.rs].  The engine keeps the registered plugins and their
    statistics; [wasmtime] is the record [Wasm] of what its calls answer, [serde_json] and
    the two-decimal format of a float are parameters.  The memory that [evaluate] writes
    the input into is created by the host and given to no linker: no module imports it, so
    that a call cannot change it, and it is the same before and after the call.

    The theorems show that the engine's bookkeeping never panics, that a registered module
    has the hash of its manifest, that as a consequence of the unlinked memory an
    evaluation can only deny or fail, and what the sample policies decide.  The telecom
    policy, computed in binary64, agrees with exact arithmetic on its whole domain. *)

From stdpp Require Import base list numbers option strings gmap.
From Stdlib Require Import ZArith Lia Strings.Byte Floats.SpecFloat.
From S2P Require Import Prelude Crypto Float64 Json Text.

#[export] Instance byte_countable : Countable Byte.byte.
Proof. refine (inj_countable Byte.to_N Byte.of_N _). intros b. by destruct b. Defined.

Record PolicyInput := {
  pi_asset_id : text;
  asset_name : text;
  pi_asset_kind : text;
  pi_host_name : text;
  pi_merkle_root : option text;
  pi_rollback_counter : Z;
  pi_attestation_verified : bool;
  pi_fec_corrected : Z;
  pi_tampered_blocks : Z;
  metadata : gmap text text
}.

Definition input_wf (i : PolicyInput) : Prop :=
  0 <= i.(pi_rollback_counter) <= U64_MAX /\ 0 <= i.(pi_fec_corrected) <= U32_MAX /\ 0 <= i.(pi_tampered_blocks) <= U32_MAX.

Inductive PolicyDecision := Allow | Deny | AllowWithWarning | Escalate.

#[export] Instance PolicyDecision_eq_dec : EqDecision PolicyDecision.
Proof. solve_decision. Defined.

Record PolicyOutput := {
  decision : PolicyDecision;
  reason : text;
  risk_score : f64;
  evidence : list text;
  compliance_tags : list text
}.

Record PluginManifest := {
  plugin_id : text;
  pl_name : text;
  pl_version : text;
  author : text;
  description : text;
  industry : text;
  compliance : list text;
  wasm_sha256 : text
}.

Record PluginStats := {
  evaluations : Z;
  allows : Z;
  denies : Z;
  escalates : Z;
  avg_duration_us : f64;
  errors : Z
}.

Definition stats_default : PluginStats :=
  {| evaluations := 0; allows := 0; denies := 0; escalates := 0; avg_duration_us := f64_of 0; errors := 0 |}.

Inductive PluginError :=
| HashMismatch (expected actual : text)
| CompileFailed | PluginNotFound | FuelFailed | MemoryFailed | SerializeFailed | MemoryAccess | LinkFailed
| InstantiateFailed | NoEvaluate | BadOutput.

(** What the calls of [wasmtime] answer; [n] counts the evaluations, so that nothing is
    assumed to repeat.  [call] is the run of the exported function: its result, a trap with
    its text, or a panic of a host function. *)
Record Wasm := {
  Module_ : Type;
  from_binary : text -> option Module_;
  set_fuel : nat -> Z -> bool;
  memory_new : nat -> bool;
  func_wrap : nat -> bool;
  instantiate : nat -> Module_ -> bool;
  typed_func : nat -> Module_ -> bool;
  call : nat -> Module_ -> Z -> Z -> outcome text Z
}.

Class PolicyOps := {
  input_to_json : PolicyInput -> option text;
  output_of_json : text -> option PolicyOutput;
  fixed2 : f64 -> text
}.

(** A JSON text has no NUL byte; an empty text, and one that starts with a NUL byte, is not
    JSON. *)
Class PolicyLaws `{PolicyOps} : Prop := {
  json_no_nul : forall i s, input_to_json i = Some s -> without x00 s = true;
  json_not_empty : output_of_json [] = None;
  json_not_nul : forall s, output_of_json (x00 :: s) = None
}.

Record LoadedPlugin (w : Wasm) := { manifest : PluginManifest; module : w.(Module_) }.
Arguments manifest {w} _.
Arguments module {w} _.

Record PluginEngine (w : Wasm) := {
  registry : gmap text (LoadedPlugin w);
  stats : gmap text PluginStats
}.
Arguments registry {w} _.
Arguments stats {w} _.

Definition PAGE : Z := 65536.

(** [Memory::write] at offset 0 and [Memory::read] *)
Definition mem_write (mem src : text) : outcome PluginError text :=
  if zlen src <=? zlen mem then Ok (src ++ drop (length src) mem) else Err MemoryAccess.

Definition mem_read (mem : text) (offset len : Z) : outcome PluginError text :=
  if (0 <=? offset) && (offset + len <=? zlen mem)
  then Ok (take (Z.to_nat len) (drop (Z.to_nat offset) mem)) else Err MemoryAccess.

(** The host functions a module can import.  [memory] is what the module exports under that
    name; a key of negative length is a vector beyond the address space. *)
Definition dfim_log (ptr len : Z) : outcome PluginError unit := Ok tt.

Definition dfim_get_metadata (memory : option text) (key_ptr key_len : Z) : outcome PluginError Z :=
  mem ← unwrap memory;
  if key_len <? 0 then Panic else Ok 0.

(** The counters are [u64]; only the first can overflow, the others stay below it. *)
Definition set_stats {w} (e : PluginEngine w) (id : text) (s : PluginStats) : PluginEngine w :=
  {| registry := e.(registry); stats := <[id := s]> e.(stats) |}.

Definition with_evaluations (s : PluginStats) (n : Z) : PluginStats :=
  {| evaluations := n; allows := s.(allows); denies := s.(denies); escalates := s.(escalates);
     avg_duration_us := s.(avg_duration_us); errors := s.(errors) |}.
Definition add_error (s : PluginStats) : PluginStats :=
  {| evaluations := s.(evaluations); allows := s.(allows); denies := s.(denies); escalates := s.(escalates);
     avg_duration_us := s.(avg_duration_us); errors := s.(errors) + 1 |}.

(** The running average and the counter of the decision *)
Definition add_decision (elapsed_us : Z) (d : PolicyDecision) (s : PluginStats) : PluginStats :=
  {| evaluations := s.(evaluations);
     allows := s.(allows) + match d with Allow | AllowWithWarning => 1 | _ => 0 end;
     denies := s.(denies) + match d with Deny => 1 | _ => 0 end;
     escalates := s.(escalates) + match d with Escalate => 1 | _ => 0 end;
     avg_duration_us := f64_div (f64_add (f64_mul s.(avg_duration_us) (f64_of (s.(evaluations) - 1))) (f64_of elapsed_us))
                                (f64_of s.(evaluations));
     errors := s.(errors) |}.

Definition fallback (why : text) (mark : text) : PolicyOutput :=
  {| decision := Deny; reason := why; risk_score := f64_of 1; evidence := [mark]; compliance_tags := [] |}.

Definition FUEL : Z := 1000000000.

Section engine.
Context `{HashOps} `{PolicyOps}.
Context (w : Wasm).

(** [PluginEngine::new] *)
Definition engine_new : PluginEngine w := {| registry := ∅; stats := ∅ |}.

Definition register_plugin (m : PluginManifest) (wasm_bytes : text) : stm (PluginEngine w) PluginError unit :=
  let actual_hash := hex_encode (sha256 wasm_bytes) in
  if negb (bytes_eqb actual_hash m.(wasm_sha256)) then lift (Err (HashMismatch m.(wasm_sha256) actual_hash))
  else
    module ← lift (ok_or (w.(from_binary) wasm_bytes) CompileFailed);
    modify (fun e => {| registry := <[m.(plugin_id) := {| manifest := m; module := module |}]> e.(registry);
                        stats := <[m.(plugin_id) := default stats_default (e.(stats) !! m.(plugin_id))]> e.(stats) |}).

(** [bool] answers as errors *)
Definition ensure (b : bool) (err : PluginError) : outcome PluginError unit := if b then Ok tt else Err err.

(** From the store to the result pointer: the memory with the input, and what the call returned *)
Definition invoke (n : nat) (p : LoadedPlugin w) (input : PolicyInput) : outcome PluginError (text * outcome text Z) :=
  ensure (w.(set_fuel) n FUEL) FuelFailed ;;
  ensure (w.(memory_new) n) MemoryFailed ;;
  input_json ← ok_or (input_to_json input) SerializeFailed;
  mem ← mem_write (array x00 PAGE) input_json;
  ensure (w.(func_wrap) n) LinkFailed ;;
  ensure (w.(instantiate) n p.(module)) InstantiateFailed ;;
  ensure (w.(typed_func) n p.(module)) NoEvaluate ;;
  Ok (mem, w.(call) n p.(module) 0 (zlen input_json)).

(** The result behind a positive pointer: a four-byte length, then the JSON text *)
Definition read_result (mem : text) (result_ptr : Z) : outcome PluginError PolicyOutput :=
  len_buf ← mem_read mem result_ptr 4;
  let result_len := le_decode len_buf in
  result_buf ← mem_read mem (result_ptr + 4) (Z.min result_len 65536);
  ok_or (output_of_json result_buf) BadOutput.

(** [evaluate]; [n] and the elapsed time belong to this evaluation *)
Definition evaluate (n : nat) (elapsed_us : Z) (id : text) (input : PolicyInput) : stm (PluginEngine w) PluginError PolicyOutput :=
  e ← get;
  plugin ← lift (ok_or (e.(registry) !! id) PluginNotFound);
  s ← lift (unwrap (e.(stats) !! id));
  count ← lift (add_usize s.(evaluations) 1);
  let s := with_evaluations s count in
  put (set_stats e id s) ;;
  r ← lift (invoke n plugin input);
  let '(mem, result) := (r : text * outcome text Z) in
  match result with
  | Panic => lift Panic
  | Err trap =>
      put (set_stats e id (add_error s)) ;;
      mret (fallback (txt "Plugin error: " ++ trap) (txt "plugin-evaluation-failed"))
  | Ok result_ptr =>
      if 0 <? result_ptr then
        output ← lift (read_result mem result_ptr);
        put (set_stats e id (add_decision elapsed_us output.(decision) s)) ;;
        mret output
      else
        put (set_stats e id (add_error s)) ;;
        mret (fallback (txt "Plugin returned null result") (txt "null-result"))
  end.

Definition list_plugins (e : PluginEngine w) : list PluginManifest := manifest <$> (map_to_list e.(registry)).*2.
Definition get_stats (e : PluginEngine w) (id : text) : option PluginStats := e.(stats) !! id.
Definition all_stats (e : PluginEngine w) : gmap text PluginStats := e.(stats).

(** ** The sample policies *)

Definition evaluate_banking_policy (input : PolicyInput) : PolicyOutput :=
  let risk := f64_of 0 in
  let ev := [] in
  let '(risk, ev) := if negb input.(pi_attestation_verified) then (f64_add risk (f64_lit 4 10), ev ++ [txt "TPM attestation failed"]) else (risk, ev) in
  let '(risk, ev) := if 0 <? input.(pi_tampered_blocks)
    then (f64_add risk (f64_lit 5 10), ev ++ [to_string input.(pi_tampered_blocks) ++ txt " tampered blocks detected"]) else (risk, ev) in
  let '(risk, ev) := if 2 <? input.(pi_fec_corrected)
    then (f64_add risk (f64_lit 3 10), ev ++ [to_string input.(pi_fec_corrected) ++ txt " FEC corrections " ++ [xe2; x80; x94] ++ txt " possible attack"])
    else (risk, ev) in
  if f64_ge risk (f64_lit 5 10) then
    {| decision := Deny; reason := txt "PCI-DSS compliance: integrity failure (risk=" ++ fixed2 risk ++ txt ")";
       risk_score := f64_min risk (f64_of 1); evidence := ev; compliance_tags := [txt "PCI-DSS"; txt "SOX"] |}
  else if f64_gt risk (f64_of 0) then
    {| decision := AllowWithWarning; reason := txt "PCI-DSS: minor anomalies, monitoring escalated";
       risk_score := risk; evidence := ev; compliance_tags := [txt "PCI-DSS"] |}
  else
    {| decision := Allow; reason := txt "PCI-DSS compliant integrity verified"; risk_score := f64_of 0;
       evidence := [txt "all-checks-passed"]; compliance_tags := [txt "PCI-DSS"] |}.

Definition evaluate_defense_policy (input : PolicyInput) : PolicyOutput :=
  if negb input.(pi_attestation_verified) then
    {| decision := Deny; reason := txt "NIST 800-53: attestation chain broken"; risk_score := f64_of 1;
       evidence := [txt "CRITICAL: TPM attestation chain broken"]; compliance_tags := [txt "NIST-800-53"; txt "CMMC"; txt "ITAR"] |}
  else if 0 <? input.(pi_tampered_blocks) then
    {| decision := Deny; reason := txt "NIST 800-53: zero-tolerance tamper detection"; risk_score := f64_of 1;
       evidence := [to_string input.(pi_tampered_blocks) ++ txt " tampered blocks " ++ [xe2; x80; x94] ++ txt " possible APT"];
       compliance_tags := [txt "NIST-800-53"; txt "CMMC"] |}
  else
    {| decision := Allow; reason := txt "NIST 800-53 integrity verified"; risk_score := f64_of 0; evidence := [txt "all-cleared"];
       compliance_tags := [txt "NIST-800-53"; txt "CMMC"; txt "ITAR"] |}.

Definition telecom_risk (tampered fec : Z) (attested : bool) : f64 :=
  f64_add (f64_add (f64_mul (f64_of tampered) (f64_lit 15 100)) (f64_mul (f64_of fec) (f64_lit 5 100)))
          (if negb attested then f64_lit 3 10 else f64_of 0).

Definition telecom_decision (risk : f64) : PolicyDecision :=
  if f64_gt risk (f64_lit 5 10) then Deny
  else if f64_gt risk (f64_lit 2 10) then Escalate
  else if f64_gt risk (f64_lit 5 100) then AllowWithWarning
  else Allow.

Definition evaluate_telecom_policy (input : PolicyInput) : PolicyOutput :=
  let risk := telecom_risk input.(pi_tampered_blocks) input.(pi_fec_corrected) input.(pi_attestation_verified) in
  {| decision := telecom_decision risk; reason := txt "Telecom risk score: " ++ fixed2 risk; risk_score := f64_min risk (f64_of 1);
     evidence := [txt "block-errors=" ++ to_string input.(pi_tampered_blocks)]; compliance_tags := [txt "GDPR"; txt "NIS2"; txt "ePrivacy"] |}.
End engine.

(** ** The result that the host reads *)

Section results.
Context `{PolicyLaws}.

Lemma le_decode_zeros k : le_decode (replicate k x00) = 0.
Proof. induction k as [|k IH]; [done|]. cbn [replicate le_decode]. rewrite IH. done. Qed.

Lemma nonzero_byte b : Byte.eqb b x00 = false -> 1 <= b2z b.
Proof. destruct b; cbn; intros; (done || (unfold b2z; cbn; lia)). Qed.

(** Four bytes that are not NUL, read as a length, exceed the memory. *)
Lemma nonzero_length s : without x00 s = true -> length s = 4%nat -> 65536 < le_decode s.
Proof.
  intros Hs Hl. destruct s as [|a [|b [|c [|d [|]]]]]; try done.
  repeat (apply without_cons in Hs as [?%nonzero_byte Hs]). cbn [le_decode]. pose proof (b2z_range d). lia.
Qed.

Lemma without_sub c (s : text) i n : without c s = true -> without c (take n (drop i s)) = true.
Proof.
  unfold without. rewrite !forallb_forall. intros Hs b Hb. apply Hs.
  apply list_elem_of_In. apply list_elem_of_In in Hb. eapply elem_of_sublist; [| apply sublist_drop].
  eapply elem_of_sublist; [exact Hb | apply sublist_take].
Qed.

(** The memory holds the input and zeros; what a module points at is never a result. *)
Lemma read_result_fails input_json mem ptr : without x00 input_json = true -> zlen input_json <= PAGE ->
  mem = input_json ++ replicate (Z.to_nat PAGE - length input_json) x00 -> 0 < ptr ->
  forall out, read_result mem ptr <> Ok out.
Proof.
  intros Hnul Hlen Hmem Hptr out Hout. unfold read_result in Hout.
  assert (Hml : zlen mem = PAGE) by (rewrite Hmem; unfold zlen in *; rewrite length_app, length_replicate; unfold PAGE in *; lia).
  apply bind_Ok in Hout as (len_buf & Hlb & Hout). apply bind_Ok in Hout as (buf & Hb & Hout). apply ok_or_Ok in Hout.
  unfold mem_read in Hlb, Hb. rewrite Hml in Hlb, Hb.
  destruct ((0 <=? ptr) && (ptr + 4 <=? PAGE)) eqn:E1; [| done].
  destruct ((0 <=? ptr + 4) && (ptr + 4 + Z.min (le_decode len_buf) 65536 <=? PAGE)) eqn:E2; [| done].
  apply Ok_inj in Hlb, Hb. replace (Z.to_nat (ptr + 4)) with (Z.to_nat ptr + 4)%nat in Hb by lia. set (p := Z.to_nat ptr) in *.
  destruct (decide (length input_json <= p + 4)%nat) as [Hbeyond|Hin].
  - assert (Hz : exists j, drop (p + 4) mem = replicate j x00).
    { exists (Z.to_nat PAGE - length input_json - (p + 4 - length input_json))%nat. rewrite Hmem, drop_app_ge by lia. apply drop_replicate. }
    destruct Hz as [j Hj]. rewrite Hj, take_replicate in Hb. subst buf.
    destruct (Z.to_nat _ `min` j)%nat; cbn [replicate] in Hout; [by rewrite json_not_empty in Hout | by rewrite json_not_nul in Hout].
  - assert (Hsub : len_buf = take 4 (drop p input_json)).
    { rewrite <- Hlb, Hmem. rewrite drop_app_le by lia. rewrite take_app_le by (rewrite length_drop; lia). done. }
    assert (65536 < le_decode len_buf).
    { rewrite Hsub. apply nonzero_length; [by apply without_sub|]. rewrite length_take, length_drop. lia. }
    unfold PAGE in *. lia.
Qed.

Lemma mem_write_zeros s mem : mem_write (array x00 PAGE) s = Ok mem ->
  zlen s <= PAGE /\ mem = s ++ replicate (Z.to_nat PAGE - length s) x00.
Proof.
  unfold mem_write. destruct (zlen s <=? zlen (array x00 PAGE)) eqn:E; [| done]. intros [= <-].
  unfold array, zlen in *. rewrite length_replicate in E. apply Z.leb_le in E.
  split; [unfold PAGE in *; lia|]. by rewrite drop_replicate.
Qed.

Lemma invoke_Ok w n p input mem result : invoke w n p input = Ok (mem, result) ->
  exists json, input_to_json input = Some json /\ mem_write (array x00 PAGE) json = Ok mem /\
    result = w.(call) n p.(module) 0 (zlen json).
Proof.
  unfold invoke, ensure. destruct (set_fuel w n FUEL); [rewrite ok_bind | done]. destruct (memory_new w n); [rewrite ok_bind | done].
  intros (json & Hj%ok_or_Ok & Hr)%bind_Ok. apply bind_Ok in Hr as (m & Hm & Hr).
  destruct (func_wrap w n); [rewrite ok_bind in Hr | done]. destruct (instantiate w n p.(module)); [rewrite ok_bind in Hr | done].
  destruct (typed_func w n p.(module)); [rewrite ok_bind in Hr | done]. injection Hr as <- <-. by exists json.
Qed.

Lemma ensure_bind {A} b err (f : unit -> outcome PluginError A) Q :
  (b = true -> safe (f tt) Q) -> safe (ensure b err ≫= f) Q.
Proof. intros Hf. destruct b; [by apply Hf | exact I]. Qed.

Lemma invoke_no_panic w n p input : invoke w n p input <> Panic.
Proof.
  apply (safe_no_panic _ (fun _ => True)). unfold invoke. do 2 (apply ensure_bind; intros _). apply safe_bind.
  apply safe_ok_or. intros json _. apply safe_bind. unfold mem_write. destruct (zlen json <=? _); [| exact I]. cbn [safe].
  do 3 (apply ensure_bind; intros _). exact I.
Qed.

(** C34: No plugin can allow anything: whatever module is registered and whatever its function returns,
    an evaluation that returns an output denies.  The function never sees the input, and its
    result is looked for in the host's copy of the input. *)
Theorem plugin_only_denies w n elapsed id input e out e' :
  evaluate w n elapsed id input e = (Ok out, e') -> out.(decision) = Deny.
Proof.
  unfold evaluate. rewrite stm_get. intros Hev.
  apply stm_bind_Ok in Hev as (p & e1 & [_ ->]%stm_lift_Ok & Hev). apply stm_bind_Ok in Hev as (s & e2 & [_ ->]%stm_lift_Ok & Hev).
  apply stm_bind_Ok in Hev as (k & e3 & [_ ->]%stm_lift_Ok & Hev). apply stm_bind_Ok in Hev as (u & e4 & _ & Hev).
  apply stm_bind_Ok in Hev as ([mem result] & e5 & [Hi _]%stm_lift_Ok & Hev).
  apply invoke_Ok in Hi as (json & Hj & [Hlen Hmem]%mem_write_zeros & _).
  destruct result as [ptr|trap|]; [| | done].
  - destruct (0 <? ptr) eqn:Hp.
    + apply stm_bind_Ok in Hev as (o & e6 & [Ho _]%stm_lift_Ok & _). exfalso.
      apply (read_result_fails json mem ptr) in Ho; [done | by eapply json_no_nul | done | done | lia].
    + by injection Hev as <- _.
  - by injection Hev as <- _.
Qed.
End results.

(** ** The engine's bookkeeping *)

Section bookkeeping.
Context `{HashOps} `{PolicyOps}.
Context (w : Wasm).

Inductive reachable : PluginEngine w -> Prop :=
| reach_new : reachable (engine_new w)
| reach_register m bytes e : reachable e -> reachable (snd (register_plugin w m bytes e))
| reach_evaluate n us id input e : reachable e -> reachable (snd (evaluate w n us id input e)).

Record stats_ok (s : PluginStats) : Prop := {
  ok_counts : 0 <= s.(allows) /\ 0 <= s.(denies) /\ 0 <= s.(escalates) /\ 0 <= s.(errors);
  ok_sum : s.(allows) + s.(denies) + s.(escalates) + s.(errors) <= s.(evaluations) <= U64_MAX
}.

(** A registered plugin is filed under its id, was compiled from bytes with the hash of its
    manifest, and has statistics. *)
Record engine_ok (e : PluginEngine w) : Prop := {
  ok_plugins : forall id p, e.(registry) !! id = Some p ->
    p.(manifest).(plugin_id) = id /\ is_Some (e.(stats) !! id) /\
    exists bytes, w.(from_binary) bytes = Some p.(module) /\ hex_encode (sha256 bytes) = p.(manifest).(wasm_sha256);
  ok_stats : forall id s, e.(stats) !! id = Some s -> stats_ok s
}.

Lemma engine_ok_stats e id s : engine_ok e -> stats_ok s -> engine_ok (set_stats e id s).
Proof.
  intros [Hp Hst] Hs. split; cbn [set_stats registry stats].
  - intros id' p Hr. destruct (Hp id' p Hr) as (Hid & Hsome & Hb). split_and!; [done | | done].
    destruct (decide (id' = id)) as [->|]; [by rewrite lookup_insert_eq | by rewrite lookup_insert_ne].
  - intros id' s' [[<- <-]|[_ Hl]]%lookup_insert_Some; [done | by eapply Hst].
Qed.

Lemma register_ok m bytes e : engine_ok e -> engine_ok (snd (register_plugin w m bytes e)).
Proof.
  intros He. unfold register_plugin. destruct (bytes_eqb _ _) eqn:E; cbn [negb]; [| done]. rewrite stm_lift.
  destruct (w.(from_binary) bytes) as [md|] eqn:Hb; cbn [ok_or]; [| done]. apply bytes_eqb_eq in E.
  destruct He as [Hp Hst]. split; cbn [modify snd registry stats].
  - intros id p [[<- <-]|[Hne Hl]]%lookup_insert_Some; cbn [manifest module].
    + split_and!; [done | by rewrite lookup_insert_eq | by exists bytes].
    + destruct (Hp id p Hl) as (? & ? & ?). split_and!; [done | by rewrite lookup_insert_ne | done].
  - intros id s [[<- <-]|[_ Hl]]%lookup_insert_Some; [| by eapply Hst].
    destruct (e.(stats) !! plugin_id m) eqn:Hs; cbn [default from_option id]; [by eapply Hst|].
    split; cbn; unfold U64_MAX; lia.
Qed.

(** The states that an evaluation can leave, and when it panics *)
Lemma evaluate_ok n us id input e : engine_ok e ->
  engine_ok (snd (evaluate w n us id input e)) /\
  (fst (evaluate w n us id input e) = Panic -> exists p s, e.(registry) !! id = Some p /\ e.(stats) !! id = Some s /\
     (s.(evaluations) = U64_MAX \/ exists len, w.(call) n p.(module) 0 len = Panic)).
Proof.
  intros He. destruct (evaluate w n us id input e) as [r e'] eqn:Hev. cbn [fst snd]. revert Hev.
  unfold evaluate. rewrite stm_get, stm_lift. destruct (e.(registry) !! id) as [p|] eqn:Hp; cbn [ok_or]; [| by intros [= <- <-]].
  destruct (ok_plugins e He id p Hp) as (_ & [s Hs] & _). rewrite stm_lift, Hs. cbn [unwrap].
  pose proof (ok_stats e He id s Hs) as [Hc Hsum]. rewrite stm_lift. unfold add_usize, USIZE_MAX.
  destruct (s.(evaluations) + 1 <=? 2 ^ 64 - 1) eqn:Hlt.
  2:{ intros [= <- <-]. split; [done|]. intros _. exists p, s. split_and!; [done | done |]. left. apply Z.leb_gt in Hlt. unfold U64_MAX in *. lia. }
  apply Z.leb_le in Hlt. set (s1 := with_evaluations s (s.(evaluations) + 1)).
  assert (Hok : stats_ok s1) by (split; cbn; unfold U64_MAX; lia).
  assert (Hok' : stats_ok (add_error s1)) by (split; cbn; unfold U64_MAX; lia).
  unfold mbind at 1, stm_bind at 1. cbn [put]. rewrite stm_lift.
  destruct (invoke w n p input) as [[mem result]|err|] eqn:Hi.
  2:{ intros [= <- <-]. split; [by apply engine_ok_stats | done]. }
  2:{ destruct (invoke_no_panic w n p input Hi). }
  destruct result as [ptr|trap|].
  - destruct (0 <? ptr).
    + rewrite stm_lift. destruct (read_result mem ptr) as [out|err|] eqn:Hr; intros [= <- <-].
      * split; [| done]. apply engine_ok_stats; [done|]. split; cbn; destruct (decision out); unfold U64_MAX; lia.
      * split; [by apply engine_ok_stats | done].
      * exfalso. revert Hr. unfold read_result, mem_read.
        destruct (_ && _); [rewrite ok_bind | done]. destruct (_ && _); [rewrite ok_bind | done]. by destruct (output_of_json _).
    + intros [= <- <-]. split; [by apply engine_ok_stats | done].
  - intros [= <- <-]. split; [by apply engine_ok_stats | done].
  - intros [= <- <-]. apply invoke_Ok in Hi as (json & _ & _ & Hcall). split; [by apply engine_ok_stats|]. intros _.
    exists p, s. split_and!; [done | done |]. right. by exists (zlen json).
Qed.

Lemma reachable_ok e : reachable e -> engine_ok e.
Proof.
  induction 1 as [|m bytes e He IH|n us id input e He IH].
  - split; intros id ? Hl; cbn [engine_new registry stats] in Hl; by rewrite lookup_empty in Hl.
  - by apply register_ok.
  - by apply evaluate_ok.
Qed.

(** C36: Whatever is registered and evaluated, in any order: every plugin is filed under its id with
    statistics and was compiled from bytes that have the hash of its manifest; the counters
    of decisions and errors never exceed the number of evaluations; and the host panics in
    an evaluation only when the called module makes a host function panic (or after [2^64 - 1]
    evaluations). *)
Theorem engine_invariant e : reachable e ->
  engine_ok e /\ forall n us id input, fst (evaluate w n us id input e) = Panic ->
    exists p s, e.(registry) !! id = Some p /\ e.(stats) !! id = Some s /\
      (s.(evaluations) = U64_MAX \/ exists len, w.(call) n p.(module) 0 len = Panic).
Proof. intros He%reachable_ok. split; [done|]. intros n us id input. by apply evaluate_ok. Qed.
End bookkeeping.

(** A module that exports no memory makes the host panic by asking for metadata. *)
Theorem metadata_call_panics ptr len : dfim_get_metadata None ptr len = Panic.
Proof. done. Qed.

(** ** The sample policies *)

Section policies.
Context `{PolicyOps}.

(** The banking policy, by its three conditions: it denies tampered blocks and the combination of a
    failed attestation with more than two corrections, allows when none of the three holds,
    and allows with a warning a failed attestation alone or corrections alone. *)
Theorem banking_policy_exact input :
  (evaluate_banking_policy input).(decision) =
    if (0 <? input.(pi_tampered_blocks)) || (negb input.(pi_attestation_verified) && (2 <? input.(pi_fec_corrected))) then Deny
    else if input.(pi_attestation_verified) && negb (2 <? input.(pi_fec_corrected)) then Allow
    else AllowWithWarning.
Proof.
  unfold evaluate_banking_policy.
  destruct input.(pi_attestation_verified), (0 <? input.(pi_tampered_blocks)), (2 <? input.(pi_fec_corrected)); reflexivity.
Qed.

(** The defense policy looks at the attestation and the tampered blocks only. *)
Theorem defense_policy_exact input :
  (evaluate_defense_policy input).(decision) =
    if input.(pi_attestation_verified) && negb (0 <? input.(pi_tampered_blocks)) then Allow else Deny.
Proof.
  unfold evaluate_defense_policy. by destruct input.(pi_attestation_verified), (0 <? input.(pi_tampered_blocks)).
Qed.

(** The risk in hundredths, exactly *)
Definition exact_risk (tampered fec : Z) (attested : bool) : Z := 15 * tampered + 5 * fec + (if negb attested then 30 else 0).

Definition exact_decision (risk : Z) : PolicyDecision :=
  if 50 <? risk then Deny else if 20 <? risk then Escalate else if 5 <? risk then AllowWithWarning else Allow.

Definition case_ok (t f : Z) (a : bool) : bool :=
  bool_decide (telecom_decision (telecom_risk t f a) = exact_decision (exact_risk t f a)).

Definition row_ok (t f : Z) : bool := case_ok t f true && case_ok t f false.
Definition column_ok (t : Z) : bool := forallb (row_ok t) (range 0 65).

Lemma small_cases_hold : forallb column_ok (range 0 65) = true.
Proof. vm_compute. reflexivity. Qed.

Lemma forallb_range P b x : forallb P (range 0 b) = true -> 0 <= x < b -> P x = true.
Proof.
  intros Hall Hx. rewrite forallb_forall in Hall. apply Hall. unfold range. apply list_elem_of_In, list_elem_of_fmap.
  exists (Z.to_nat (x - 0)). split; [lia|]. apply elem_of_seq. lia.
Qed.

Lemma small_case t f a : 0 <= t < 65 -> 0 <= f < 65 ->
  telecom_decision (telecom_risk t f a) = exact_decision (exact_risk t f a).
Proof.
  intros Ht Hf. pose proof (forallb_range column_ok 65 t small_cases_hold Ht) as Hall.
  pose proof (forallb_range (row_ok t) 65 f Hall Hf) as [H1 H2]%andb_prop.
  destruct a; [apply (proj1 (bool_decide_eq_true _) H1) | apply (proj1 (bool_decide_eq_true _) H2)].
Qed.

Lemma lit_nonneg : nonneg (f64_lit 15 100) = true /\ nonneg (f64_lit 5 100) = true /\ nonneg (f64_lit 3 10) = true /\ nonneg (f64_lit 5 10) = true.
Proof. vm_compute. auto. Qed.

(** A product with a literal: never negative, and at least one for 65 or more units *)
Lemma weighted n lit : 0 <= n <= U32_MAX -> nonneg lit = true ->
  (nonneg (f64_mul (f64_of n) lit) = true \/ f64_mul (f64_of n) lit = S754_infinity false) /\
  (unit_one <= 65 * fval lit -> 65 <= n -> at_least 0 (f64_mul (f64_of n) lit)).
Proof.
  intros Hn Hl. destruct (f64_of_exact n) as [Hnn Hv]; [unfold U32_MAX in Hn; lia|]. split.
  - destruct (f64_mul_nonneg (f64_of n) lit Hnn Hl) as [V [->|[->|(m & e & E)]]]; [by left | by right | left]. by rewrite E in *.
  - intros Hlit H65. apply f64_mul_lower; [done | done | lia |]. rewrite Hv.
    change (2 ^ (0 + 2148)) with (2 ^ (1074 + 1074)). rewrite Z.pow_add_r by lia. fold unit_one.
    assert (Hu : 0 < unit_one) by (apply Z.pow_pos_nonneg; lia). pose proof (nonneg_fval lit Hl) as Hf.
    replace (n * unit_one * fval lit) with (n * fval lit * unit_one) by lia. apply Z.mul_le_mono_nonneg_r; [lia|].
    transitivity (65 * fval lit); [done|]. apply Z.mul_le_mono_nonneg_r; lia.
Qed.

Lemma large_risk t f a : 0 <= t <= U32_MAX -> 0 <= f <= U32_MAX -> 65 <= t \/ 65 <= f -> at_least 0 (telecom_risk t f a).
Proof.
  intros Ht Hf Hlarge. destruct lit_nonneg as (H15 & H5 & H3 & _). unfold telecom_risk.
  destruct (weighted t (f64_lit 15 100) Ht H15) as [Ht1 Ht2]. destruct (weighted f (f64_lit 5 100) Hf H5) as [Hf1 Hf2].
  apply f64_add_lower; [lia | | left; by destruct a].
  destruct Hlarge as [Hl|Hl].
  - apply f64_add_lower; [lia | apply Ht2; [vm_compute; discriminate | done] | done].
  - rewrite f64_add_comm. apply f64_add_lower; [lia | apply Hf2; [vm_compute; discriminate | done] | done].
Qed.

Lemma large_decision t f a : 0 <= t <= U32_MAX -> 0 <= f <= U32_MAX -> 65 <= t \/ 65 <= f ->
  f64_gt (telecom_risk t f a) (f64_lit 5 10) = true.
Proof.
  intros Ht Hf Hl. apply (at_least_gt 0); [by apply large_risk | apply lit_nonneg | vm_compute; reflexivity].
Qed.

(** The telecom policy scores with floating-point weights.  On every input its decision is the one
    that exact arithmetic in hundredths gives: no combination of counts falls on the wrong
    side of a threshold by rounding. *)
Theorem telecom_policy_exact input : input_wf input ->
  (evaluate_telecom_policy input).(decision) =
    exact_decision (exact_risk input.(pi_tampered_blocks) input.(pi_fec_corrected) input.(pi_attestation_verified)).
Proof.
  intros (_ & Hf & Ht). cbn [evaluate_telecom_policy decision].
  set (t := pi_tampered_blocks input) in *. set (f := pi_fec_corrected input) in *. set (a := pi_attestation_verified input).
  destruct (decide (t < 65 /\ f < 65)) as [[Hts Hfs]|Hlarge]; [apply small_case; lia|].
  unfold telecom_decision. rewrite large_decision by lia.
  unfold exact_decision, exact_risk. replace (50 <? _) with true; [done|]. symmetry. apply Z.ltb_lt. destruct (negb a); lia.
Qed.
End policies.

(** ** A concrete engine *)

Module ToyPlugin.

(** Modules are their bytes; the function returns a pointer into the input. *)
Definition wasm : Wasm := {|
  Module_ := text;
  from_binary b := Some b;
  set_fuel n f := true; memory_new n := true; func_wrap n := true; instantiate n m := true; typed_func n m := true;
  call n m a b := Ok 1
|}.

Definition ops : PolicyOps := {|
  input_to_json i := Some [x7b; x7d];
  output_of_json s := match s with
                      | [x7b; x7d] => Some {| decision := Allow; reason := []; risk_score := f64_of 0; evidence := []; compliance_tags := [] |}
                      | _ => None
                      end;
  fixed2 x := txt "0.00"
|}.

Lemma laws : @PolicyLaws ops.
Proof. split; [by intros i s [= <-] | done | done]. Qed.

Definition input : PolicyInput := {|
  pi_asset_id := txt "a"; asset_name := txt "n"; pi_asset_kind := txt "kernel"; pi_host_name := txt "h"; pi_merkle_root := None;
  pi_rollback_counter := 1; pi_attestation_verified := true; pi_fec_corrected := 4; pi_tampered_blocks := 2; metadata := ∅ |}.

Definition null_wasm : Wasm := {|
  Module_ := text;
  from_binary b := Some b;
  set_fuel n f := true; memory_new n := true; func_wrap n := true; instantiate n m := true; typed_func n m := true;
  call n m a b := Ok 0
|}.

Definition bytes : text := txt "module".
Definition manifest_ : PluginManifest := {|
  plugin_id := txt "p"; pl_name := []; pl_version := []; author := []; description := []; industry := []; compliance := [];
  wasm_sha256 := hex_encode (Toy.toy_digest bytes) |}.
Definition engine : PluginEngine null_wasm := snd (@register_plugin Toy.hash null_wasm manifest_ bytes (engine_new null_wasm)).
End ToyPlugin.

(** A module that returns a null pointer is answered with a denial. *)
Lemma plugin_only_denies_witness :
  exists out e', @evaluate ToyPlugin.ops ToyPlugin.null_wasm 0 5 (txt "p") ToyPlugin.input ToyPlugin.engine = (Ok out, e') /\ out.(decision) = Deny.
Proof.
  set (r := @evaluate ToyPlugin.ops ToyPlugin.null_wasm 0 5 (txt "p") ToyPlugin.input ToyPlugin.engine).
  assert (Hr : fst r = Ok (fallback (txt "Plugin returned null result") (txt "null-result"))) by (vm_compute; reflexivity).
  exists (fallback (txt "Plugin returned null result") (txt "null-result")), (snd r).
  assert (E : r = (Ok (fallback (txt "Plugin returned null result") (txt "null-result")), snd r)) by (rewrite <- Hr; apply surjective_pairing).
  split; [exact E|]. exact (@plugin_only_denies ToyPlugin.ops ToyPlugin.laws ToyPlugin.null_wasm 0%nat 5 (txt "p") ToyPlugin.input ToyPlugin.engine _ _ E).
Defined.

Lemma engine_invariant_witness : @engine_ok Toy.hash ToyPlugin.null_wasm ToyPlugin.engine.
Proof.
  apply (@engine_invariant Toy.hash ToyPlugin.ops ToyPlugin.null_wasm ToyPlugin.engine).
  apply (@reach_register Toy.hash ToyPlugin.ops), (@reach_new Toy.hash ToyPlugin.ops).
Defined.

(** Two tampered blocks and four corrections score 50 hundredths: exactly the threshold. *)
Lemma telecom_policy_exact_witness :
  (@evaluate_telecom_policy ToyPlugin.ops ToyPlugin.input).(decision) = Escalate.
Proof.
  rewrite (@telecom_policy_exact ToyPlugin.ops ToyPlugin.input); [reflexivity|].
  unfold input_wf, U64_MAX, U32_MAX. cbn. lia.
Defined.
