(* ===== verification/Btf.v ===== *)
(** * Btf: the offsets of kernel fields, from the BTF of the target kernel

    [dfim_linux_kernel/dfim-ebpf/build.rs].  The build script of the probe parses the type
    information of a kernel image, looks up five fields, and writes their offsets as
    constants that the probe is compiled with ([Offsets] of [Enforcement]).  The file and
    the environment are arguments; a failed [assert!] or [expect] is [Panic].

    The parser neither reads outside the file nor overflows nor loops, whatever the file
    holds ([parse_btf_total]); on a type section made of complete entries it computes the
    offsets that a reader of the entries would ([parse_btf_refines]), except that it takes
    two kinds of entries for four bytes per item too long ([btf_float_misread]); and the
    file it writes defines exactly the offsets it found ([offsets_written]). *)

From stdpp Require Import base list numbers option strings gmap.
From Stdlib Require Import ZArith Lia Strings.Byte.
From S2P Require Import Prelude Core Json Files Shell Text Enforcement.

Definition BTF_MAGIC : Z := 0xEB9F.
Definition DEFAULT_BTF_PATH : text := txt "/sys/kernel/btf/vmlinux".

Definition TARGETS : list (text * text) := [
  (txt "linux_binprm", txt "file");
  (txt "file", txt "f_inode");
  (txt "inode", txt "i_ino");
  (txt "inode", txt "i_sb");
  (txt "super_block", txt "s_dev")].

Definition UNVERIFIED_DEVELOPMENT_FALLBACK : list (text * text * Z) := [
  (txt "linux_binprm", txt "file", 64);
  (txt "file", txt "f_inode", 168);
  (txt "inode", txt "i_ino", 80);
  (txt "inode", txt "i_sb", 0);
  (txt "super_block", txt "s_dev", 0)].

Inductive BtfError :=
| ReadBtf | TooSmall | BadMagic (magic : Z) | Incomplete (found : nat) (off : Z) | MissingOffset
| TruncatedHeader | TruncatedMembers | StringRange (off : Z) | Unterminated (start : Z) | NotUtf8.

Abbreviation Parsed := (outcome BtfError).

(** [&data[a..]] *)
Definition from {A} (l : list A) (a : Z) : Parsed (list A) := slice l a (zlen l).

Definition read_u32 (bytes : list byte) : Parsed Z :=
  b ← slice bytes 0 4; Ok (le_decode b).

(** [iter().position(|&b| b == 0)] *)
Fixpoint position_nul (l : list byte) : option Z :=
  match l with
  | [] => None
  | b :: l => if b2z b =? 0 then Some 0 else p ← position_nul l; Some (1 + p)
  end.

Definition read_cstr (data : list byte) (str_base off : Z) : Parsed text :=
  if off =? 0 then Ok []
  else
    start ← add_usize str_base off;
    if start >=? zlen data then Err (StringRange off)
    else
      rest ← from data start;
      stop ← ok_or (p ← position_nul rest; Some (start + p)) (Unterminated start);
      bytes ← slice data start stop;
      match utf8_chars bytes with Some _ => Ok bytes | None => Err NotUtf8 end.

(** One member of a struct: its name and the byte offset *)
Definition parse_member (data : list byte) (base str_base : Z) (members : list (text * Z)) (i : Z) :
    Parsed (list (text * Z)) :=
  pos ← add_usize base (12 + i * 12);
  m ← from data pos;
  mname_off ← read_u32 m;
  m ← from data (pos + 8);
  moff ← read_u32 m;
  name ← read_cstr data str_base mname_off;
  Ok (members ++ [(name, Z.land moff 0xFFFFFF / 8)]).

(** The distance to the next entry for the kinds without members *)
Definition other_step (kind vlen : Z) : Z :=
  if (kind =? 1) || (kind =? 16) then 16
  else if kind =? 3 then 24
  else if kind =? 6 then 12 + vlen * 8
  else if kind =? 19 then 12 + vlen * 12
  else if kind =? 12 then 12
  else if kind =? 13 then 12 + vlen * 8
  else if (kind =? 14) || (kind =? 17) then 16
  else if kind =? 15 then 12 + vlen * 16
  else 12.

Definition parse_type (data : list byte) (base str_base : Z) : Parsed (Z * option text * list (text * Z)) :=
  limit ← add_usize base 8;
  if limit >? zlen data then Err TruncatedHeader
  else
    b ← from data base;
    name_off ← read_u32 b;
    b ← from data (base + 4);
    info ← read_u32 b;
    let kind := Z.land (Z.shiftr info 24) 0x1f in
    let vlen := Z.land info 0xFFFF in
    name ← read_cstr data str_base name_off;
    if (kind =? 4) || (kind =? 5) then
      limit ← add_usize base (12 + vlen * 12);
      if limit >? zlen data then Err TruncatedMembers
      else
        members ← foldM (parse_member data base str_base) [] (range 0 vlen);
        Ok (12 + vlen * 12, Some name, members)
    else Ok (other_step kind vlen, None, []).

Abbreviation Found := (gmap (text * text) Z).

(** The members of a struct that are wanted *)
Definition record_members (struct_name : text) (members : list (text * Z)) (found : Found) : Found :=
  fold_left (fun found t =>
    if bytes_eqb struct_name (fst t) then
      fold_left (fun found m => if bytes_eqb (fst m) (snd t) then <[t := snd m]> found else found) members found
    else found) TARGETS found.

(** The [while off < type_len] loop; it leaves early when every field is found. *)
Fixpoint type_loop (fuel : nat) (data : list byte) (type_base type_len str_base off : Z) (found : Found) : Parsed (Z * Found) :=
  match fuel with
  | O => Panic
  | S fuel =>
      if off <? type_len then
        base ← add_usize type_base off;
        t ← parse_type data base str_base;
        let '(step, struct_name, members) := t in
        let found := match struct_name with Some name => record_members name members found | None => found end in
        off ← add_usize off step;
        if Nat.eqb (size found) (length TARGETS) then Ok (off, found)
        else type_loop fuel data type_base type_len str_base off found
      else Ok (off, found)
  end.

(** A little-endian field of the header *)
Definition header_field (data : list byte) (a b : Z) : Parsed Z := f ← slice data a b; Ok (le_decode f).

Definition parse_btf (file : option (list byte)) : Parsed (list (text * text * Z)) :=
  data ← ok_or file ReadBtf;
  if zlen data <? 24 then Err TooSmall
  else
    magic ← header_field data 0 2;
    if negb (magic =? BTF_MAGIC) then Err (BadMagic magic)
    else
      hdr_len ← header_field data 4 8;
      type_off ← header_field data 8 12;
      type_len ← header_field data 12 16;
      str_off ← header_field data 16 20;
      str_base ← add_usize hdr_len str_off;
      type_base ← add_usize hdr_len type_off;
      r ← type_loop (S (length data)) data type_base type_len str_base 0 ∅;
      let '(off, found) := r in
      if negb (Nat.eqb (size found) (length TARGETS)) then Err (Incomplete (size found) off)
      else
        foldM (fun out t => offset ← ok_or (found !! t) MissingOffset; Ok (out ++ [(t, offset)])) [] TARGETS.

(** ** The generated file *)

(** [DFIM_ALLOW_UNVERIFIED_BTF_FALLBACK] is set *)
Definition chosen_offsets (file : option (list byte)) (allow_fallback : bool) : Parsed (list (text * text * Z)) :=
  match parse_btf file with
  | Ok offsets => Ok offsets
  | Err _ => if allow_fallback then Ok UNVERIFIED_DEVELOPMENT_FALLBACK else Panic
  | Panic => Panic
  end.

(** [str::to_uppercase] of an ASCII identifier *)
Definition upper (s : text) : text :=
  map (fun c => if (0x61 <=? b2z c) && (b2z c <=? 0x7a) then z2b (b2z c - 0x20) else c) s.

Definition const_name (struct_name field : text) : text := upper struct_name ++ txt "_" ++ upper field.

Definition const_line (t : text * text * Z) : text :=
  let '(struct_name, field, offset) := t in
  txt "pub const " ++ const_name struct_name field ++ txt ": usize = " ++ to_string offset ++ txt ";" ++ [x0a].

Definition body (offsets : list (text * text * Z)) : text :=
  fold_left (fun body t => body ++ const_line t) offsets
    (txt "// @generated by build.rs — do not edit" ++ [x0a; x0a]).

(** [main]: what it writes to [vmlinux_offsets.rs] *)
Definition build_main (out_dir : option text) (file : option (list byte)) (allow_fallback : bool) (written : bool) : Parsed text :=
  unwrap out_dir ;;
  offsets ← chosen_offsets file allow_fallback;
  if written then Ok (body offsets) else Panic.

(** ** Reading *)

Definition u32_at (data : list byte) (a : Z) : Z := le_decode (take 4 (drop (Z.to_nat a) data)).

Lemma u32_at_range data a : 0 <= u32_at data a < 2 ^ 32.
Proof.
  unfold u32_at. pose proof (le_decode_range (take 4 (drop (Z.to_nat a) data))) as Hr.
  split; [lia|]. eapply Z.lt_le_trans; [apply Hr|]. apply Z.pow_le_mono_r; [lia|].
  unfold zlen. rewrite length_take. lia.
Qed.

Lemma read_at {B} data a (f : Z -> Parsed B) : 0 <= a -> a + 4 <= zlen data ->
  (b ← from data a; x ← read_u32 b; f x) = f (u32_at data a).
Proof.
  intros Ha Hl. unfold from, read_u32. rewrite slice_drop, ok_bind by lia.
  rewrite slice_take by (unfold zlen in *; rewrite length_drop; lia). by rewrite ok_bind.
Qed.

Lemma add_ok {E} a b : a + b <= USIZE_MAX -> @add_usize E a b = Ok (a + b).
Proof. intros Hs. unfold add_usize. by rewrite (proj2 (Z.leb_le _ _) Hs). Qed.

Lemma position_nul_range l p : position_nul l = Some p -> 0 <= p < zlen l.
Proof.
  revert p. induction l as [|b l IH]; intros p Hp; [done|]. cbn [position_nul] in Hp. rewrite zlen_cons.
  pose proof (zlen_nonneg l). destruct (b2z b =? 0); [injection Hp as <-; lia|].
  destruct (position_nul l) as [q|]; [|done]. injection Hp as <-. specialize (IH q eq_refl). lia.
Qed.

Lemma land_mask x n : 0 <= n -> Z.land x (2 ^ n - 1) = x mod 2 ^ n.
Proof. intros Hn. rewrite Z.sub_1_r, <- Z.ones_equiv. by apply Z.land_ones. Qed.

(** [usize] sums of a few 32-bit numbers do not overflow. *)
Definition HUGE : Z := 2 ^ 40.

Lemma huge_add {E} a b : a <= HUGE -> b <= HUGE -> @add_usize E a b = Ok (a + b).
Proof. intros Ha Hb. apply add_ok. unfold HUGE, USIZE_MAX in *. lia. Qed.

Lemma read_cstr_safe data str_base off : 0 <= str_base <= HUGE -> 0 <= off <= HUGE -> safe (read_cstr data str_base off) (fun _ => True).
Proof.
  intros Hs Ho. unfold read_cstr. destruct (off =? 0); [done|]. rewrite huge_add, ok_bind by lia.
  destruct (_ >=? _) eqn:E; [done|]. rewrite Z.geb_leb in E. apply Z.leb_gt in E.
  unfold from. rewrite slice_drop, ok_bind by lia. apply safe_bind, safe_ok_or. intros stop Hp.
  destruct (position_nul _) as [p|] eqn:Ep; [|done]. injection Hp as <-. apply position_nul_range in Ep.
  unfold zlen in Ep. rewrite length_drop in Ep. apply safe_slice_bind; [unfold zlen in *; lia..|]. intros x _ _.
  by destruct (utf8_chars x).
Qed.

(** The offset of a member, in bytes: 24 bits of bits *)
Lemma member_offset_range m : 0 <= Z.land m 0xFFFFFF / 8 < 2 ^ 21.
Proof.
  change 0xFFFFFF with (2 ^ 24 - 1). rewrite land_mask by lia. pose proof (Z.mod_pos_bound m (2 ^ 24) ltac:(lia)).
  split; [apply Z.div_pos; lia|apply Z.div_lt_upper_bound; lia].
Qed.

Definition in_range (m : text * Z) : Prop := 0 <= snd m < 2 ^ 21.

Lemma parse_member_safe data base str_base vlen members i :
  0 <= base <= HUGE -> 0 <= str_base <= HUGE -> 0 <= vlen < 2 ^ 16 -> base + (12 + vlen * 12) <= zlen data -> 0 <= i < vlen ->
  Forall in_range members -> safe (parse_member data base str_base members i) (Forall in_range).
Proof.
  intros Hb Hs Hv Hl Hi Hm. unfold parse_member. rewrite huge_add, ok_bind by (unfold HUGE in *; lia).
  rewrite !read_at by lia. apply safe_bind. eapply safe_mono.
  - apply read_cstr_safe; [done|]. pose proof (u32_at_range data (base + (12 + i * 12))). unfold HUGE. lia.
  - intros name _. cbn. apply Forall_app. split; [done|]. apply Forall_singleton. apply member_offset_range.
Qed.

(** What an entry that is read without an error guarantees *)
Definition entry_ok (data : list byte) (base : Z) (t : Z * option text * list (text * Z)) : Prop :=
  let '(step, _, members) := t in 12 <= step < 2 ^ 21 /\ base + 8 <= zlen data /\ Forall in_range members.

Lemma other_step_range kind vlen : 0 <= vlen < 2 ^ 16 -> 12 <= other_step kind vlen < 2 ^ 21.
Proof. intros Hv. unfold other_step. repeat case_match; lia. Qed.

Lemma parse_type_safe data base str_base : 0 <= base <= HUGE -> 0 <= str_base <= HUGE ->
  safe (parse_type data base str_base) (entry_ok data base).
Proof.
  intros Hb Hs. unfold parse_type. rewrite huge_add, ok_bind by (unfold HUGE in *; lia).
  destruct (_ >? _) eqn:E; [done|]. rewrite Z.gtb_ltb in E. apply Z.ltb_ge in E.
  rewrite !read_at by lia. cbv zeta. set (info := u32_at data (base + 4)).
  assert (Hv : 0 <= Z.land info 0xFFFF < 2 ^ 16).
  { change 0xFFFF with (2 ^ 16 - 1). rewrite land_mask by lia. apply Z.mod_pos_bound. lia. }
  set (vlen := Z.land info 0xFFFF) in *. set (kind := Z.land _ 0x1f). clearbody vlen kind.
  apply safe_bind. eapply safe_mono.
  { apply read_cstr_safe; [done|]. pose proof (u32_at_range data base). unfold HUGE. lia. }
  intros name _. destruct ((kind =? 4) || (kind =? 5)).
  - rewrite huge_add, ok_bind by (unfold HUGE in *; lia). destruct (_ >? zlen data) eqn:E2; [done|].
    rewrite Z.gtb_ltb in E2. apply Z.ltb_ge in E2. apply safe_bind. eapply safe_mono.
    + apply (safe_foldM_range _ (fun _ => Forall in_range)); [lia|constructor|].
      intros i ms Hi Hms. by apply (parse_member_safe data base str_base vlen).
    + intros ms Hms. cbn. split_and!; [lia|lia|lia|done].
  - cbn. pose proof (other_step_range kind vlen Hv). split_and!; [lia|lia|lia|constructor].
Qed.

(** ** The loop *)

(** Only wanted fields are recorded. *)
Definition found_ok (found : Found) : Prop := forall t v, found !! t = Some v -> t ∈ TARGETS /\ 0 <= v < 2 ^ 21.

Lemma record_members_ok name members found : Forall in_range members -> found_ok found -> found_ok (record_members name members found).
Proof.
  intros Hm. unfold record_members.
  cut (forall ts found, (forall t, t ∈ ts -> t ∈ TARGETS) -> found_ok found -> found_ok (fold_left (fun found t =>
    if bytes_eqb name (fst t) then
      fold_left (fun found m => if bytes_eqb (fst m) (snd t) then <[t := snd m]> found else found) members found
    else found) ts found)); [by intros Hc; apply Hc|].
  induction ts as [|t ts IH]; intros f Hts Hf; [done|]. cbn [fold_left].
  apply IH; [intros u Hu; apply Hts; by right|]. destruct (bytes_eqb name (fst t)); [|done].
  specialize (Hts t (list_elem_of_here _ _)). clear IH. revert f Hf.
  induction Hm as [|m ms Hr Hm IH]; intros f Hf; [done|]. cbn [fold_left]. apply IH.
  destruct (bytes_eqb (fst m) (snd t)); [|done]. intros u v Hu.
  apply lookup_insert_Some in Hu as [[<- <-]|[_ Hu]]; [by split|by apply Hf].
Qed.

Lemma type_loop_safe fuel data type_base type_len str_base off found :
  0 <= type_base <= 2 ^ 33 -> 0 <= str_base <= 2 ^ 33 -> 0 <= type_len < 2 ^ 32 -> 0 <= off < 2 ^ 33 ->
  Z.max 0 (zlen data - (type_base + off)) < Z.of_nat fuel -> found_ok found ->
  safe (type_loop fuel data type_base type_len str_base off found) (fun r => found_ok (snd r)).
Proof.
  intros Ht Hs Hl. revert off found. induction fuel as [|fuel IH]; intros off found Ho Hf Hk; [lia|].
  cbn [type_loop]. destruct (Z.ltb_spec off type_len); [|done]. rewrite huge_add, ok_bind by (unfold HUGE in *; lia).
  apply safe_bind. eapply safe_mono; [apply parse_type_safe; unfold HUGE; lia|].
  intros [[step name] members] (Hstep & Hb & Hm).
  set (found' := match name with Some n => record_members n members found | None => found end).
  assert (Hk' : found_ok found') by (unfold found'; destruct name; [by apply record_members_ok|done]).
  rewrite huge_add, ok_bind by (unfold HUGE; lia). destruct (Nat.eqb _ _); [done|]. apply IH; [lia|lia|done].
Qed.

(** ** Specification: a type section as a list of entries

    The layout of the BTF documentation: a name, a word with the kind and the number of
    items, a size or type, and what the kind adds. *)

Record Entry := { e_name : Z; e_info : Z; e_rest : list byte }.

Definition e_kind (e : Entry) : Z := Z.land (Z.shiftr e.(e_info) 24) 0x1f.
Definition e_vlen (e : Entry) : Z := Z.land e.(e_info) 0xFFFF.

Definition added (kind vlen : Z) : Z :=
  if (kind =? 1) || (kind =? 14) || (kind =? 17) then 4
  else if kind =? 3 then 12
  else if (kind =? 4) || (kind =? 5) || (kind =? 15) || (kind =? 19) then 12 * vlen
  else if (kind =? 6) || (kind =? 13) then 8 * vlen
  else 0.

Definition entry_wf (e : Entry) : Prop :=
  0 <= e.(e_name) < 2 ^ 32 /\ 0 <= e.(e_info) < 2 ^ 32 /\ 1 <= e_kind e <= 19 /\
  zlen e.(e_rest) = 4 + added (e_kind e) (e_vlen e).

Definition entry_bytes (e : Entry) : list byte := le_encode 4 e.(e_name) ++ le_encode 4 e.(e_info) ++ e.(e_rest).

(** The two kinds whose length the parser gets wrong: data sections and floats *)
Definition plain_kind (e : Entry) : Prop := e_kind e <> 15 /\ e_kind e <> 16.

Section spec.
(** The string section *)
Context (names : Z -> Parsed text).

Definition read_member (e : Entry) (members : list (text * Z)) (i : Z) : Parsed (list (text * Z)) :=
  name ← names (u32_at e.(e_rest) (4 + i * 12));
  Ok (members ++ [(name, u32_at e.(e_rest) (4 + i * 12 + 8) mod 2 ^ 24 / 8)]).

Definition read_entry (e : Entry) : Parsed (option text * list (text * Z)) :=
  name ← names e.(e_name);
  if (e_kind e =? 4) || (e_kind e =? 5) then
    members ← foldM (read_member e) [] (range 0 (e_vlen e)); Ok (Some name, members)
  else Ok (None, []).

Fixpoint scan (found : Found) (es : list Entry) : Parsed Found :=
  match es with
  | [] => Ok found
  | e :: es =>
      r ← read_entry e;
      let found := match fst r with Some name => record_members name (snd r) found | None => found end in
      if Nat.eqb (size found) (length TARGETS) then Ok found else scan found es
  end.
End spec.

(** ** Refinement *)

Lemma u32_at_inside pre x post k : 0 <= k -> k + 4 <= zlen x -> u32_at (pre ++ x ++ post) (zlen pre + k) = u32_at x k.
Proof.
  intros Hk Hl. unfold u32_at. f_equal. unfold zlen in *.
  replace (Z.to_nat (Z.of_nat (length pre) + k)) with (length pre + Z.to_nat k)%nat by lia.
  rewrite drop_app_add, drop_app_le by lia. rewrite take_app_le; [done|]. rewrite length_drop. lia.
Qed.

Lemma u32_at_encoded n l : 0 <= n < 2 ^ 32 -> u32_at (le_encode 4 n ++ l) 0 = n.
Proof.
  intros Hn. unfold u32_at. change (drop (Z.to_nat 0) (le_encode 4 n ++ l)) with (le_encode 4 n ++ l).
  rewrite take_app_length' by (by rewrite length_le_encode). apply le_decode_encode_small. lia.
Qed.

Lemma zlen_entry e : zlen (entry_bytes e) = 8 + zlen e.(e_rest).
Proof. unfold entry_bytes. rewrite !zlen_app, !zlen_le_encode. lia. Qed.

Lemma entry_word e k : entry_wf e -> 0 <= k -> k + 4 <= zlen e.(e_rest) ->
  u32_at (entry_bytes e) (8 + k) = u32_at e.(e_rest) k.
Proof.
  intros He Hk Hl. unfold entry_bytes. rewrite app_assoc, <- (app_nil_r e.(e_rest)) at 1.
  replace 8 with (zlen (le_encode 4 (e_name e) ++ le_encode 4 (e_info e))) by by rewrite zlen_app, !zlen_le_encode.
  by apply u32_at_inside.
Qed.

Lemma entry_header e : entry_wf e -> u32_at (entry_bytes e) 0 = e.(e_name) /\ u32_at (entry_bytes e) 4 = e.(e_info).
Proof.
  intros (Hn & Hi & _). unfold entry_bytes. split; [by apply u32_at_encoded|].
  pose proof (u32_at_inside (le_encode 4 (e_name e)) (le_encode 4 (e_info e)) (e_rest e) 0) as Hw.
  rewrite !zlen_le_encode in Hw. change (Z.of_nat 4 + 0) with 4 in Hw. rewrite Hw by lia.
  rewrite <- (app_nil_r (le_encode 4 (e_info e))). by apply u32_at_encoded.
Qed.

Lemma e_vlen_range e : 0 <= e_vlen e < 2 ^ 16.
Proof. unfold e_vlen. change 0xFFFF with (2 ^ 16 - 1). rewrite land_mask by lia. apply Z.mod_pos_bound. lia. Qed.

(** The steps of the parser are the lengths of the entries. *)
Lemma step_exact e : entry_wf e -> plain_kind e ->
  (if (e_kind e =? 4) || (e_kind e =? 5) then 12 + e_vlen e * 12 else other_step (e_kind e) (e_vlen e)) = zlen (entry_bytes e).
Proof.
  intros (_ & _ & Hk & Hl) (H15 & H16). rewrite zlen_entry, Hl. unfold other_step, added.
  clear Hl. revert Hk H15 H16. generalize (e_kind e) as k. intros k Hk H15 H16.
  assert (Hc : k = 1 \/ k = 2 \/ k = 3 \/ k = 4 \/ k = 5 \/ k = 6 \/ k = 7 \/ k = 8 \/ k = 9 \/ k = 10 \/ k = 11 \/ k = 12 \/
    k = 13 \/ k = 14 \/ k = 17 \/ k = 18 \/ k = 19) by lia.
  destruct_or! Hc; subst k; cbn; lia.
Qed.

Lemma parse_member_entry data str_base pre e post members i :
  data = pre ++ entry_bytes e ++ post -> entry_wf e -> (e_kind e =? 4) || (e_kind e =? 5) = true ->
  zlen pre <= 2 ^ 34 -> 0 <= i < e_vlen e ->
  parse_member data (zlen pre) str_base members i = read_member (read_cstr data str_base) e members i.
Proof.
  intros Hd He Hk Hp Hi. pose proof (e_vlen_range e) as Hv. pose proof (zlen_nonneg pre).
  assert (Hr : zlen (e_rest e) = 4 + 12 * e_vlen e).
  { destruct He as (_ & _ & _ & ->). unfold added. by apply orb_true_iff in Hk as [Hk%Z.eqb_eq|Hk%Z.eqb_eq]; rewrite Hk. }
  assert (Hl : zlen data = zlen pre + (8 + zlen (e_rest e)) + zlen post) by (rewrite Hd, !zlen_app, zlen_entry; lia).
  pose proof (zlen_nonneg post). unfold parse_member. rewrite huge_add, ok_bind by (unfold HUGE; lia).
  rewrite !read_at by lia.
  assert (Hw : forall k, 0 <= k -> k + 4 <= zlen (e_rest e) -> u32_at data (zlen pre + (8 + k)) = u32_at (e_rest e) k).
  { intros k Hk0 Hk4. rewrite Hd, u32_at_inside by (rewrite ?zlen_entry; lia). by apply entry_word. }
  replace (zlen pre + (12 + i * 12) + 8) with (zlen pre + (8 + (4 + i * 12 + 8))) by lia.
  replace (zlen pre + (12 + i * 12)) with (zlen pre + (8 + (4 + i * 12))) by lia. rewrite !Hw by lia.
  unfold read_member. change 0xFFFFFF with (2 ^ 24 - 1). by rewrite land_mask by lia.
Qed.

Lemma foldM_ext {E A B} (f g : B -> A -> outcome E B) b l : (forall b a, a ∈ l -> f b a = g b a) -> foldM f b l = foldM g b l.
Proof.
  revert b. induction l as [|a l IH]; intros b Hfg; [done|]. cbn [foldM]. rewrite Hfg by by left.
  destruct (g b a); [|done..]. cbn. apply IH. intros b' a' Ha. apply Hfg. by right.
Qed.

Lemma parse_type_entry data str_base pre e post :
  data = pre ++ entry_bytes e ++ post -> entry_wf e -> plain_kind e -> zlen pre <= 2 ^ 34 ->
  parse_type data (zlen pre) str_base =
    (r ← read_entry (read_cstr data str_base) e; Ok (zlen (entry_bytes e), fst r, snd r)).
Proof.
  intros Hd He Hp Hh. pose proof (e_vlen_range e) as Hv. pose proof (zlen_nonneg pre). pose proof (zlen_nonneg post).
  pose proof (step_exact e He Hp) as Hstep. pose proof (zlen_nonneg (e_rest e)) as Hr0.
  assert (Hl : zlen data = zlen pre + zlen (entry_bytes e) + zlen post) by (rewrite Hd, !zlen_app; lia).
  rewrite zlen_entry in Hl. destruct (entry_header e He) as [Hn Hi].
  unfold parse_type. rewrite huge_add, ok_bind by (unfold HUGE; lia). rewrite Z.gtb_ltb, (proj2 (Z.ltb_ge _ _)) by lia.
  rewrite !read_at by lia. rewrite <- (Z.add_0_r (zlen pre)) at 1.
  rewrite Hd at 2. rewrite u32_at_inside, Hn by (rewrite ?zlen_entry; lia). 
  replace (u32_at data (zlen pre + 4)) with (e_info e)
    by (rewrite Hd, u32_at_inside, Hi by (rewrite ?zlen_entry; lia); done).
  cbv zeta. fold (e_kind e) (e_vlen e). unfold read_entry.
  destruct (read_cstr data str_base (e_name e)) as [name| |]; [|done..]. rewrite !ok_bind.
  destruct ((e_kind e =? 4) || (e_kind e =? 5)) eqn:Hk; [|by rewrite Hstep].
  rewrite huge_add, ok_bind by (unfold HUGE; lia). rewrite Z.gtb_ltb, (proj2 (Z.ltb_ge _ _)) by (rewrite zlen_entry in Hstep; lia).
  rewrite (foldM_ext _ (read_member (read_cstr data str_base) e)).
  - destruct (foldM _ _ _); [|done..]. rewrite !ok_bind. by rewrite Hstep.
  - intros ms i Hin%elem_of_range. by apply (parse_member_entry data str_base pre e post).
Qed.

Lemma type_loop_entries es data str_base type_base type_len post : 0 <= type_base <= 2 ^ 33 -> type_len < 2 ^ 32 ->
  Forall entry_wf es -> Forall plain_kind es ->
  forall fuel off pre found, data = pre ++ concat (map entry_bytes es) ++ post -> zlen pre = type_base + off ->
    0 <= off -> type_len = off + zlen (concat (map entry_bytes es)) -> (length es < fuel)%nat ->
    match scan (read_cstr data str_base) found es with
    | Ok f => exists off', type_loop fuel data type_base type_len str_base off found = Ok (off', f) /\
                (size f = length TARGETS \/ off' = type_len)
    | Err e => type_loop fuel data type_base type_len str_base off found = Err e
    | Panic => type_loop fuel data type_base type_len str_base off found = Panic
    end.
Proof.
  intros Hb Hl. induction es as [|e es IH]; intros Hwf Hpl [|fuel] off pre found Hd Hpre Ho Htl Hf; [simpl in Hf; lia| |simpl in Hf; lia|].
  { change (zlen (concat (map entry_bytes []))) with 0 in Htl. cbn [type_loop scan].
    rewrite (proj2 (Z.ltb_ge _ _)) by lia. exists off. split; [done|right; lia]. }
  inversion_clear Hwf as [|? ? He Hwf']. inversion_clear Hpl as [|? ? Hp Hpl'].
  cbn [map concat] in Hd, Htl. rewrite zlen_app in Htl. pose proof (zlen_nonneg (concat (map entry_bytes es))) as Hz.
  assert (He8 : 8 <= zlen (entry_bytes e)) by (rewrite zlen_entry; pose proof (zlen_nonneg (e_rest e)); lia).
  cbn [type_loop scan]. rewrite (proj2 (Z.ltb_lt _ _)) by lia. rewrite huge_add, ok_bind by (unfold HUGE; lia).
  rewrite <- app_assoc in Hd. rewrite <- Hpre, (parse_type_entry data str_base pre e _ Hd He Hp) by lia.
  destruct (read_entry (read_cstr data str_base) e) as [[name members]| |]; [|done..]. rewrite !ok_bind. cbn [fst snd].
  set (found' := match name with Some n => record_members n members found | None => found end).
  rewrite huge_add, ok_bind by (unfold HUGE; lia). destruct (Nat.eqb_spec (size found') (length TARGETS)) as [Hs|Hs].
  { exists (off + zlen (entry_bytes e)). split; [done|by left]. }
  apply (IH Hwf' Hpl' fuel _ (pre ++ entry_bytes e)); [by rewrite <- app_assoc|rewrite zlen_app; lia|lia|lia|simpl in Hf; lia].
Qed.

(** What is written: each wanted field with its offset *)
Definition listed (found : Found) : list (text * text * Z) := map (fun t => (t, default 0 (found !! t))) TARGETS.

Lemma all_found found : found_ok found -> size found = length TARGETS -> forall t, t ∈ TARGETS -> is_Some (found !! t).
Proof.
  intros Hf Hs t Ht. apply elem_of_dom.
  assert (Hd : dom found = list_to_set (C := gset (text * text)) TARGETS); [|rewrite Hd; by apply elem_of_list_to_set].
  apply set_subseteq_size_eq.
  - intros k [v Hv]%elem_of_dom. apply elem_of_list_to_set. by apply (Hf k v).
  - rewrite size_dom, Hs. by vm_compute.
Qed.

Lemma list_found found : found_ok found -> size found = length TARGETS ->
  foldM (fun out t => offset ← ok_or (found !! t) MissingOffset; Ok (out ++ [(t, offset)])) [] TARGETS = Ok (listed found).
Proof.
  intros Hf Hs. pose proof (all_found found Hf Hs) as Ha. unfold listed.
  cut (forall ts out, (forall t, t ∈ ts -> is_Some (found !! t)) ->
    foldM (fun out t => offset ← ok_or (found !! t) MissingOffset; Ok (out ++ [(t, offset)])) out ts =
      Ok (out ++ map (fun t => (t, default 0 (found !! t))) ts)); [intros Hc; by apply Hc|].
  clear. induction ts as [|t ts IH]; intros out Hts; [cbn; by rewrite app_nil_r|]. cbn [foldM map].
  destruct (Hts t (list_elem_of_here _ _)) as [v Hv]. rewrite Hv. cbn [ok_or default]. rewrite !ok_bind.
  rewrite IH by (intros u Hu; apply Hts; by right). by rewrite <- app_assoc.
Qed.

(** The header fields of a file *)
Lemma header_word data a b : b = a + 4 -> 0 <= a -> a + 4 <= zlen data -> header_field data a b = Ok (u32_at data a).
Proof.
  intros -> Ha Hl. unfold header_field, u32_at, slice.
  rewrite (proj2 (Z.leb_le 0 a)), (proj2 (Z.leb_le a (a + 4))), (proj2 (Z.leb_le (a + 4) _)) by lia. cbn [andb].
  rewrite ok_bind. by replace (a + 4 - a) with 4 by lia.
Qed.

Lemma header_magic data : 24 <= zlen data -> header_field data 0 2 = Ok (le_decode (take 2 data)).
Proof. intros Hl. unfold header_field. by rewrite slice_take by lia. Qed.

(** ** Theorems *)

(** The parser after the header: what remains to do once the loop has ended *)
Definition finish (r : Z * Found) : Parsed (list (text * text * Z)) :=
  if negb (Nat.eqb (size (snd r)) (length TARGETS)) then Err (Incomplete (size (snd r)) (fst r))
  else foldM (fun out t => offset ← ok_or (snd r !! t) MissingOffset; Ok (out ++ [(t, offset)])) [] TARGETS.

Lemma parse_btf_header data : 24 <= zlen data -> le_decode (take 2 data) = BTF_MAGIC ->
  parse_btf (Some data) =
    (type_loop (S (length data)) data (u32_at data 4 + u32_at data 8) (u32_at data 12) (u32_at data 4 + u32_at data 16) 0 ∅ ≫= finish).
Proof.
  intros Hl Hm. unfold parse_btf. cbn [ok_or]. rewrite ok_bind, (proj2 (Z.ltb_ge _ _)) by lia.
  rewrite header_magic, ok_bind, Hm by done. cbn [negb Z.eqb BTF_MAGIC Pos.eqb].
  rewrite (header_word data 4), (header_word data 8), (header_word data 12), (header_word data 16), !ok_bind by lia.
  pose proof (u32_at_range data 4). pose proof (u32_at_range data 8). pose proof (u32_at_range data 16).
  rewrite !huge_add, !ok_bind by (unfold HUGE; lia).
  destruct (type_loop _ _ _ _ _ _ _) as [[off found]| |]; reflexivity.
Qed.

(** What the parser guarantees on any file *)
Lemma parse_btf_safe file : safe (parse_btf file) (fun offsets =>
  map fst offsets = TARGETS /\ Forall (fun t => 0 <= snd t < 2 ^ 21) offsets).
Proof.
  destruct file as [data|]; [|done]. destruct (Z.ltb_spec (zlen data) 24) as [Hs|Hs].
  { unfold parse_btf. cbn [ok_or]. by rewrite ok_bind, (proj2 (Z.ltb_lt _ _)). }
  destruct (decide (le_decode (take 2 data) = BTF_MAGIC)) as [Hm|Hm].
  2: { unfold parse_btf. cbn [ok_or]. rewrite ok_bind, (proj2 (Z.ltb_ge _ _)) by lia.
       rewrite header_magic, ok_bind by done. by rewrite (proj2 (Z.eqb_neq _ _)). }
  rewrite parse_btf_header by done. pose proof (u32_at_range data 4). pose proof (u32_at_range data 8).
  pose proof (u32_at_range data 12). pose proof (u32_at_range data 16).
  pose proof (type_loop_safe (S (length data)) data (u32_at data 4 + u32_at data 8) (u32_at data 12)
    (u32_at data 4 + u32_at data 16) 0 ∅) as Hl. unfold safe in Hl.
  destruct (type_loop _ _ _ _ _ _ _) as [[off found]| |]; [|done|apply Hl; [lia..|unfold zlen; lia|done]].
  assert (Hok : found_ok found) by (apply Hl; [lia..|unfold zlen; lia|done]). rewrite ok_bind. unfold finish. cbn [fst snd].
  destruct (Nat.eqb_spec (size found) (length TARGETS)) as [Hn|]; [|done]. cbn [negb]. rewrite list_found by done.
  split; [done|]. unfold listed. apply Forall_forall. intros t (u & -> & Hu)%list_elem_of_fmap.
  destruct (all_found found Hok Hn u Hu) as [v Hv]. cbn [snd]. rewrite Hv. by apply (Hok u v).
Qed.

(** C40: The parser is total.  On every file, however corrupt, it ends without reading outside the
    file, without an overflow and without running out of the model's fuel (one round per
    byte; each round consumes at least twelve): the result is an error, or one offset below
    [2 ^ 21] for each of the five fields, in their order. *)
Theorem parse_btf_total file :
  match parse_btf file with
  | Ok offsets => map fst offsets = TARGETS /\ Forall (fun t => 0 <= snd t < 2 ^ 21) offsets
  | Err _ => True
  | Panic => False
  end.
Proof. apply (parse_btf_safe file). Qed.

(** C35: On a file whose type section is a sequence of complete entries, laid out as the BTF
    documentation says and without data sections and floats, the parser computes what a
    reader of the entries does: it goes through them in their order, records the offset of
    every wanted member of a struct or union of a wanted name, stops when all five are
    known, and reports how many are missing otherwise. *)
Theorem parse_btf_refines data es pre post :
  24 <= zlen data -> le_decode (take 2 data) = BTF_MAGIC ->
  data = pre ++ concat (map entry_bytes es) ++ post ->
  zlen pre = u32_at data 4 + u32_at data 8 -> zlen (concat (map entry_bytes es)) = u32_at data 12 ->
  Forall entry_wf es -> Forall plain_kind es ->
  parse_btf (Some data) =
    (found ← scan (read_cstr data (u32_at data 4 + u32_at data 16)) ∅ es;
     if Nat.eqb (size found) (length TARGETS) then Ok (listed found)
     else Err (Incomplete (size found) (zlen (concat (map entry_bytes es))))).
Proof.
  intros Hs Hm Hd Hpre Hlen Hwf Hpl. rewrite parse_btf_header by done.
  pose proof (u32_at_range data 4). pose proof (u32_at_range data 8). pose proof (u32_at_range data 12).
  pose proof (u32_at_range data 16).
  assert (Hes : (length es <= length data)%nat).
  { rewrite Hd, !length_app. clear. induction es as [|e es IH]; [simpl; lia|]. cbn [map concat length].
    rewrite length_app. pose proof (zlen_entry e) as He. pose proof (zlen_nonneg (e_rest e)). unfold zlen in *. lia. }
  pose proof (type_loop_entries es data (u32_at data 4 + u32_at data 16) (u32_at data 4 + u32_at data 8) (u32_at data 12) post
    ltac:(lia) ltac:(lia) Hwf Hpl (S (length data)) 0 pre ∅ Hd ltac:(lia) ltac:(lia) ltac:(lia) ltac:(lia)) as Hloop.
  pose proof (type_loop_safe (S (length data)) data (u32_at data 4 + u32_at data 8) (u32_at data 12)
    (u32_at data 4 + u32_at data 16) 0 ∅) as Hsafe. unfold safe in Hsafe.
  destruct (scan _ ∅ es) as [found| |]; [|by rewrite Hloop..]. destruct Hloop as (off & Hloop & Hoff).
  rewrite Hloop in Hsafe |- *. rewrite !ok_bind. unfold finish. cbn [fst snd] in *.
  destruct (Nat.eqb_spec (size found) (length TARGETS)) as [Hn|Hn]; cbn [negb].
  - apply list_found; [|done]. apply Hsafe; [lia..|unfold zlen; lia|done].
  - destruct Hoff as [?| ->]; [done|]. by rewrite Hlen.
Qed.

(** ** The generated constants *)

(** Reading a line of the generated file *)
Definition read_const (line : text) : option (text * Z) :=
  rest ← strip_prefix (txt "pub const ") line;
  match split_on x3a rest with
  | [name; rest] =>
      digits ← strip_prefix (txt " usize = ") rest;
      match read_digits 0 digits with (n, [x3b]) => Some (name, n) | _ => None end
  | _ => None
  end.

Definition read_consts (file : text) : list (text * Z) := omap read_const (split_on x0a file).

Definition const_value (name : text) (consts : list (text * Z)) : option Z :=
  snd <$> List.find (fun c => bytes_eqb (fst c) name) consts.

(** The constants as the probe is compiled with them ([include!] in [vmlinux.rs]) *)
Definition probe_offsets (consts : list (text * Z)) : option Offsets :=
  a ← const_value (txt "LINUX_BINPRM_FILE") consts;
  b ← const_value (txt "FILE_F_INODE") consts;
  c ← const_value (txt "INODE_I_INO") consts;
  d ← const_value (txt "INODE_I_SB") consts;
  e ← const_value (txt "SUPER_BLOCK_S_DEV") consts;
  Some {| LINUX_BINPRM_FILE := a; FILE_F_INODE := b; INODE_I_INO := c; INODE_I_SB := d; SUPER_BLOCK_S_DEV := e |}.

Lemma body_lines offsets acc :
  fold_left (fun body t => body ++ const_line t) offsets acc = acc ++ concat (map const_line offsets).
Proof.
  revert acc. induction offsets as [|t offsets IH]; intros acc; [symmetry; apply app_nil_r|].
  cbn [fold_left map concat]. by rewrite IH, <- app_assoc.
Qed.

Definition good_offset (t : text * text * Z) : Prop := fst t ∈ TARGETS /\ 0 <= snd t < 2 ^ 21.

(** The line without its end *)
Definition const_text (t : text * text * Z) : text :=
  txt "pub const " ++ const_name (fst (fst t)) (snd (fst t)) ++ txt ": usize = " ++ to_string (snd t) ++ txt ";".

Lemma name_without c t : t ∈ TARGETS -> c = x0a \/ c = x3a -> without c (const_name (fst t) (snd t)) = true.
Proof.
  intros Ht Hc. unfold TARGETS in Ht. rewrite !elem_of_cons in Ht. 
  destruct Ht as [->|[->|[->|[->|[->|[]%elem_of_nil]]]]]; destruct Hc as [-> | ->]; by vm_compute.
Qed.

Lemma const_text_line t : good_offset t -> without x0a (const_text t) = true /\
  read_const (const_text t) = Some (const_name (fst (fst t)) (snd (fst t)), snd t).
Proof.
  intros (Ht & Hv). destruct t as [t v]. cbn [fst snd] in *. unfold const_text. cbn [fst snd]. split.
  - rewrite !without_app, name_without, to_string_without by (done || lia || by left). done.
  - unfold read_const. rewrite strip_prefix_app. cbn [mbind option_bind].
    change (txt ": usize = " ++ to_string v ++ txt ";") with (x3a :: txt " usize = " ++ to_string v ++ txt ";").
    rewrite split_on_app by (apply name_without; [done|by right]).
    rewrite split_on_without by (rewrite !without_app, to_string_without by (done || lia); done).
    rewrite strip_prefix_app. cbn [mbind option_bind]. rewrite read_to_string; [done|lia|done].
Qed.

Lemma read_lines ts : Forall good_offset ts ->
  omap read_const (split_on x0a (concat (map const_line ts))) = map (fun t => (const_name (fst (fst t)) (snd (fst t)), snd t)) ts.
Proof.
  induction 1 as [|t ts Ht Hts IH]; [done|]. cbn [map concat]. destruct (const_text_line t Ht) as [Hw Hr].
  assert (Hc : const_line t = const_text t ++ [x0a]) by (destruct t as [[s f] v]; unfold const_line, const_text; cbn [fst snd]; by rewrite <- !app_assoc).
  rewrite Hc, <- app_assoc. cbn [app]. rewrite split_on_app by done. cbn [omap list_omap]. by rewrite Hr, IH.
Qed.

(** The probe is compiled with the offsets that were found.  When the build script succeeds, the
    file it writes defines the five constants of the probe and nothing else, and their
    values are those that the parser found in the kernel's BTF; the placeholder offsets are
    only written when the environment asks for them and the BTF could not be used. *)
Theorem offsets_written out_dir file allow written text : build_main out_dir file allow written = Ok text ->
  exists offsets o, read_consts text = map (fun t => (const_name (fst (fst t)) (snd (fst t)), snd t)) offsets /\
    map fst offsets = TARGETS /\ probe_offsets (read_consts text) = Some o /\
    map snd offsets = [o.(LINUX_BINPRM_FILE); o.(FILE_F_INODE); o.(INODE_I_INO); o.(INODE_I_SB); o.(SUPER_BLOCK_S_DEV)] /\
    (parse_btf file = Ok offsets \/ allow = true /\ (exists e, parse_btf file = Err e) /\ offsets = UNVERIFIED_DEVELOPMENT_FALLBACK).
Proof.
  unfold build_main. intros Hb. apply bind_Ok in Hb as (? & _ & Hb). apply bind_Ok in Hb as (offsets & Hc & Hb).
  destruct written; [|done]. injection Hb as <-. exists offsets.
  assert (Hsrc : parse_btf file = Ok offsets \/ allow = true /\ (exists e, parse_btf file = Err e) /\ offsets = UNVERIFIED_DEVELOPMENT_FALLBACK).
  { unfold chosen_offsets in Hc. destruct (parse_btf file) as [l|e|]; [left; congruence| |done].
    destruct allow; [|done]. right. injection Hc as <-. eauto. }
  assert (Hok : map fst offsets = TARGETS /\ Forall (fun t => 0 <= snd t < 2 ^ 21) offsets).
  { destruct Hsrc as [Hp|(_ & _ & ->)]; [pose proof (parse_btf_safe file) as Ht; by rewrite Hp in Ht|].
    split; [done|]. repeat constructor; by vm_compute. }
  destruct Hok as [Hn Hv]. assert (Hr : read_consts (body offsets) = map (fun t => (const_name (fst (fst t)) (snd (fst t)), snd t)) offsets).
  { unfold read_consts, body. rewrite body_lines, <- app_assoc. cbn [app]. rewrite split_on_app by (by vm_compute).
    change (split_on x0a (x0a :: ?l)) with ([] :: split_on x0a l).
    change (omap read_const (split_on x0a (concat (map const_line offsets))) = map (fun t => (const_name (fst (fst t)) (snd (fst t)), snd t)) offsets).
    apply read_lines. apply Forall_forall. intros t Ht. split; [rewrite <- Hn; by apply list_elem_of_fmap_2|].
    by apply (proj1 (Forall_forall _ _) Hv). }
  destruct offsets as [|[t1 v1] [|[t2 v2] [|[t3 v3] [|[t4 v4] [|[t5 v5] [|? ?]]]]]]; try done.
  injection Hn as -> -> -> -> ->. rewrite Hr. eexists. split_and!; [done|done|vm_compute; reflexivity|reflexivity|done].
Qed.

(** ** Concrete files *)

Module BtfWitness.

Definition strings : list byte :=
  concat (map (fun s => txt s ++ [x00]) ["linux_binprm"; "file"; "f_inode"; "inode"; "i_ino"; "i_sb"; "super_block"; "s_dev"]%string).

(** A struct of a name with members at bit offsets *)
Definition struct_entry (name : Z) (members : list (Z * Z)) : Entry :=
  {| e_name := name; e_info := 4 * 2 ^ 24 + zlen members;
     e_rest := le_encode 4 0 ++ concat (map (fun m => le_encode 4 (fst m) ++ le_encode 4 1 ++ le_encode 4 (8 * snd m)) members) |}.

Definition structs : list Entry := [
  struct_entry 1 [(14, 96)]; struct_entry 14 [(19, 40)]; struct_entry 27 [(33, 64); (39, 48)]; struct_entry 44 [(56, 16)]].

Definition float_entry : Entry := {| e_name := 0; e_info := 16 * 2 ^ 24; e_rest := le_encode 4 8 |}.

Definition types (es : list Entry) : list byte := concat (map entry_bytes es).

Definition header (es : list Entry) : list byte :=
  le_encode 2 BTF_MAGIC ++ [x01; x00] ++ le_encode 4 24 ++ le_encode 4 0 ++ le_encode 4 (zlen (types es)) ++
  le_encode 4 (zlen (types es)) ++ le_encode 4 (zlen strings + 1).

Definition file (es : list Entry) : list byte := header es ++ types es ++ [x00] ++ strings.

Definition found : list (text * text * Z) := combine TARGETS [96; 40; 64; 48; 16].

Lemma structs_wf : Forall entry_wf structs.
Proof. repeat constructor; by vm_compute. Qed.

Lemma structs_plain : Forall plain_kind structs.
Proof. repeat constructor; by vm_compute. Qed.

Lemma parse_btf_refines_witness : parse_btf (Some (file structs)) = Ok found.
Proof.
  rewrite (parse_btf_refines (file structs) structs (header structs) ([x00] ++ strings));
    [vm_compute; reflexivity|by vm_compute|by vm_compute|reflexivity|by vm_compute|by vm_compute|exact structs_wf|exact structs_plain].
Defined.

Lemma offsets_written_witness : exists o text, build_main (Some []) (Some (file structs)) false true = Ok text /\
  probe_offsets (read_consts text) = Some o /\ o.(FILE_F_INODE) = 40.
Proof.
  assert (Hb : build_main (Some []) (Some (file structs)) false true = Ok (body found)) by (vm_compute; reflexivity).
  destruct (offsets_written (Some []) (Some (file structs)) false true (body found) Hb)
    as (offsets & o & _ & _ & Ho & Hs & [Hp|[? _]]); [|done].
  exists o, (body found). split; [done|]. split; [done|].
  assert (Hq : parse_btf (Some (file structs)) = Ok found) by (vm_compute; reflexivity).
  rewrite Hq in Hp. injection Hp as <-. by injection Hs.
Defined.
End BtfWitness.

(** The parser steps over a float as if it had four bytes more, and over each item of a data
    section likewise.  A file that starts with a float and is otherwise the one above, in
    which a reader of the entries finds every field, is refused. *)
Theorem btf_float_misread :
  (forall vlen, other_step 16 vlen = 12 + added 16 vlen + 4) /\
  (forall vlen, other_step 15 vlen = 12 + added 15 vlen + 4 * vlen) /\
  let es := BtfWitness.float_entry :: BtfWitness.structs in
  Forall entry_wf es /\
  (f ← scan (read_cstr (BtfWitness.file es) (24 + zlen (BtfWitness.types es))) ∅ es; Ok (listed f)) = Ok BtfWitness.found /\
  exists e, parse_btf (Some (BtfWitness.file es)) = Err e.
Proof.
  split; [done|]. split; [intros vlen; cbn; lia|]. split_and!.
  - constructor; [by vm_compute|exact BtfWitness.structs_wf].
  - vm_compute. reflexivity.
  - eexists. vm_compute. reflexivity.
Qed.
