(* ===== verification/Build.v ===== *)
(** * Build: the build scripts that decide what is trusted

    [dfim_windows_uefi/build.rs] turns three variables of the build environment into the
    constants that the boot guard trusts ([DeploymentTrust] of [BootGuard]);
    [build-support/litcrypt_key.rs] chooses the key of the literal encryption;
    [dfim_linux_kernel/dfim-ebpf-user/build.rs] compiles the probe for the loader and
    leaves the object where the loader includes it.  A failed [assert!], [expect] or
    [panic!] is [Panic]: the build stops.

    [deployment_trust_exact] says which environments build and that the file holds exactly
    the key, the identifier and the floor that they spell; [built_machine_boots] composes
    it with the signing tool and the boot guard.  [crypto_key_exact] and
    [build_ebpf_exact] describe the other two scripts. *)

From stdpp Require Import base list numbers option strings.
From Stdlib Require Import ZArith Lia Strings.Byte.
From S2P Require Import Prelude Crypto Core Json Shell Text SignedManifest Rollback BootGuard.

(** ** The environment *)

(** [env::var_os], and [env::var], which also wants UTF-8 *)
Abbreviation Env := (text -> option text).

Definition var (env : Env) (name : text) : option text :=
  v ← env name; match utf8_chars v with Some _ => Some v | None => None end.

Abbreviation Script := (outcome Empty_set).

(** [str::parse::<u64>] *)
Definition parse_u64 (s : text) : option Z :=
  let digits := default s (strip_prefix (txt "+") s) in
  match digits with
  | [] => None
  | _ => n ← read_number digits; if n <=? U64_MAX then Some n else None
  end.

(** ** [dfim_windows_uefi/build.rs] *)

Module Trust.

Definition decode_nibble (value : byte) : Script Z :=
  let v := b2z value in
  if (0x30 <=? v) && (v <=? 0x39) then Ok (v - 0x30)
  else if (0x61 <=? v) && (v <=? 0x66) then Ok (v - 0x61 + 10)
  else if (0x41 <=? v) && (v <=? 0x46) then Ok (v - 0x41 + 10)
  else Panic.

Definition decode_hex_exact (env : Env) (n : Z) (name : text) : Script (list byte) :=
  text ← unwrap (var env name);
  if negb (zlen text =? n * 2) then Panic
  else
    foldM (fun output index_ =>
      c ← index text (index_ * 2); high ← decode_nibble c;
      c ← index text (index_ * 2 + 1); low ← decode_nibble c;
      store output index_ (z2b (Z.lor (Z.shiftl high 4) low))) (array x00 n) (range 0 n).

Definition PUBLIC_KEY_HEX : text := txt "DFIM_BOOT_PUBLIC_KEY_HEX".
Definition KEY_ID_HEX : text := txt "DFIM_BOOT_KEY_ID_HEX".
Definition MIN_RELEASE : text := txt "DFIM_BOOT_MIN_RELEASE".
Definition UEFI_APP : text := txt "CARGO_FEATURE_UEFI_APP".

(** The three constants *)
Definition constants (env : Env) : Script DeploymentTrust :=
  match env UEFI_APP with
  | Some _ =>
      public_key ← decode_hex_exact env 33 PUBLIC_KEY_HEX;
      first ← index public_key 0;
      if negb ((b2z first =? 2) || (b2z first =? 3)) then Panic
      else
        key_id ← decode_hex_exact env 16 KEY_ID_HEX;
        minimum_release ← unwrap (v ← var env MIN_RELEASE; parse_u64 v);
        if negb (minimum_release >? 0) then Panic
        else Ok {| BOOT_PUBLIC_KEY := public_key; BOOT_KEY_ID := key_id; BOOT_MIN_RELEASE := minimum_release |}
  | None => Ok {| BOOT_PUBLIC_KEY := array x00 33; BOOT_KEY_ID := array x00 16; BOOT_MIN_RELEASE := 0 |}
  end.

(** [{:?}] of an array of bytes *)
Definition debug_bytes (l : list byte) : text :=
  txt "[" ++ join (txt ", ") (map (fun b => to_string (b2z b)) l) ++ txt "]".

Definition generated (t : DeploymentTrust) : text :=
  txt "pub const BOOT_PUBLIC_KEY: [u8; 33] = " ++ debug_bytes t.(BOOT_PUBLIC_KEY) ++ txt ";" ++ [x0a] ++
  txt "pub const BOOT_KEY_ID: [u8; 16] = " ++ debug_bytes t.(BOOT_KEY_ID) ++ txt ";" ++ [x0a] ++
  txt "pub const BOOT_MIN_RELEASE: u64 = " ++ to_string t.(BOOT_MIN_RELEASE) ++ txt ";" ++ [x0a].

(** [main]: what it writes to [deployment_trust.rs]; [written] tells whether the write succeeds. *)
Definition main (env : Env) (written : bool) : Script text :=
  t ← constants env;
  unwrap (env (txt "OUT_DIR")) ;;
  if written then Ok (generated t) else Panic.
End Trust.

(** ** [build-support/litcrypt_key.rs] *)

Module CryptoKey.

Definition MIN_KEY_LEN : Z := 16.

Inductive KeyError := KeyFileUnreadable | KeyMissing.

(** [read_file]: [fs::read_to_string], which also wants UTF-8 *)
Definition resolve_crypto_key (env : Env) (read_file : text -> option text) : outcome KeyError text :=
  match var env (txt "DFIM_CRYPTO_KEY") with
  | Some key => Ok key
  | None =>
      match var env (txt "DFIM_CRYPTO_KEY_FILE") with
      | Some path => ok_or (read_file path) KeyFileUnreadable
      | None => Err KeyMissing
      end
  end.

(** The value of [LITCRYPT_ENCRYPT_KEY] that is handed to the compiler *)
Definition configure_litcrypt_key (env : Env) (read_file : text -> option text) : Script text :=
  match resolve_crypto_key env read_file with
  | Ok key =>
      if zlen key <? MIN_KEY_LEN then Panic
      else if existsb (fun b => Byte.eqb b x0a || Byte.eqb b x0d || Byte.eqb b x00) key then Panic
      else
        let trimmed := str_trim key in
        if zlen trimmed <? MIN_KEY_LEN then Panic else Ok trimmed
  | _ => Panic
  end.
End CryptoKey.

(** ** The trusted constants *)

Module TrustProofs.
Import Trust.

(** Errors that stop the script *)
Definition strict {E A} (m : outcome E A) : Script A := match m with Ok a => Ok a | _ => Panic end.

Lemma strict_bind {E A B} (m : outcome E A) (f : A -> outcome E B) (m' : Script A) (f' : A -> Script B) :
  m' = strict m -> (forall a, f' a = strict (f a)) -> (m' ≫= f') = strict (m ≫= f).
Proof. intros -> Hf. destruct m; [apply Hf|done..]. Qed.

Lemma strict_foldM {E A B} (f : B -> A -> outcome E B) (g : B -> A -> Script B) b l :
  (forall b a, g b a = strict (f b a)) -> foldM g b l = strict (foldM f b l).
Proof.
  intros Hg. revert b. induction l as [|a l IH]; intros b; [done|]. cbn [foldM]. by apply strict_bind.
Qed.

Lemma decode_nibble_same c : decode_nibble c = strict (decode_hex_nibble c).
Proof. unfold decode_nibble, decode_hex_nibble. by repeat case_match. Qed.

(** The script decodes hexadecimal text like the command line tool. *)
Lemma decode_same env n name : decode_hex_exact env n name =
  match var env name with Some t => strict (Shell.decode_hex_exact n t) | None => Panic end.
Proof.
  unfold decode_hex_exact, Shell.decode_hex_exact. destruct (var env name) as [t|]; [|done]. cbn [unwrap]. rewrite ok_bind.
  destruct (negb _); [done|]. apply strict_foldM. intros out i.
  assert (Hi : forall i, @index Empty_set _ t i = strict (@index CliError _ t i)).
  { intros j. unfold index. destruct (0 <=? j); [|done]. by destruct (t !! _). }
  apply strict_bind; [apply Hi|intros c]. apply strict_bind; [apply decode_nibble_same|intros high].
  apply strict_bind; [apply Hi|intros c']. apply strict_bind; [apply decode_nibble_same|intros low].
  unfold store. by destruct (_ && _).
Qed.

Lemma decode_Ok env n name bs : 0 <= n -> decode_hex_exact env n name = Ok bs <->
  exists t, var env name = Some t /\ zlen bs = n /\ map lower t = hex_encode bs.
Proof.
  intros Hn. rewrite decode_same. split.
  - destruct (var env name) as [t|]; [|done]. intros Hd. exists t. split; [done|]. apply decode_hex_spec; [done|].
    unfold strict in Hd. destruct (Shell.decode_hex_exact n t); congruence.
  - intros (t & -> & Hb). apply (decode_hex_spec n t bs Hn) in Hb. by rewrite Hb.
Qed.

(** What the types of the constants and the checks of the script guarantee *)
Definition trust_good (t : DeploymentTrust) : Prop :=
  zlen t.(BOOT_PUBLIC_KEY) = 33 /\ zlen t.(BOOT_KEY_ID) = 16 /\ 0 < t.(BOOT_MIN_RELEASE) <= U64_MAX /\
  (head t.(BOOT_PUBLIC_KEY) = Some x02 \/ head t.(BOOT_PUBLIC_KEY) = Some x03).

(** What an environment spells *)
Definition spells (env : Env) (t : DeploymentTrust) : Prop :=
  (exists v, var env PUBLIC_KEY_HEX = Some v /\ map lower v = hex_encode t.(BOOT_PUBLIC_KEY)) /\
  (exists v, var env KEY_ID_HEX = Some v /\ map lower v = hex_encode t.(BOOT_KEY_ID)) /\
  (exists v, var env MIN_RELEASE = Some v /\ parse_u64 v = Some t.(BOOT_MIN_RELEASE)).

Lemma parse_u64_le v n : parse_u64 v = Some n -> n <= U64_MAX.
Proof.
  unfold parse_u64. destruct (default _ _); [done|]. destruct (read_number _) as [m|]; [|done]. cbn [mbind option_bind].
  destruct (Z.leb_spec m U64_MAX); [|done]. by intros [= <-].
Qed.

Lemma constants_Ok env t : env UEFI_APP <> None -> constants env = Ok t <-> spells env t /\ trust_good t.
Proof.
  intros Hu. unfold constants. destruct (env UEFI_APP); [|done]. split.
  - intros Hc. apply bind_Ok in Hc as (pk & Hpk & Hc). apply decode_Ok in Hpk as (vp & Hvp & Hlp & Hmp); [|lia].
    apply bind_Ok in Hc as (first & Hfirst & Hc).
    destruct pk as [|c pk]; [done|]. rewrite index_0 in Hfirst. injection Hfirst as ->.
    destruct ((b2z first =? 2) || (b2z first =? 3)) eqn:Ef; cbn [negb] in Hc; [|done].
    apply bind_Ok in Hc as (id & Hid & Hc). apply decode_Ok in Hid as (vi & Hvi & Hli & Hmi); [|lia].
    apply bind_Ok in Hc as (rel & Hrel & Hc). destruct (var env MIN_RELEASE) as [vr|] eqn:Hvr; [|done].
    cbn [mbind option_bind] in Hrel. destruct (parse_u64 vr) as [r|] eqn:Hr; [|done]. injection Hrel as <-.
    destruct (Z.gtb_spec r 0); cbn [negb] in Hc; [|done]. injection Hc as <-. pose proof (parse_u64_le vr r Hr).
    split; [split_and!; eauto|]. split_and!; cbn; [done|done|lia|lia|].
    apply orb_true_iff in Ef as [Ef%Z.eqb_eq|Ef%Z.eqb_eq]; [left|right]; f_equal; by apply b2z_inj.
  - intros [((vp & Hvp & Hmp) & (vi & Hvi & Hmi) & (vr & Hvr & Hr)) (Hlp & Hli & Hrel & Hh)].
    rewrite (proj2 (decode_Ok env 33 PUBLIC_KEY_HEX (BOOT_PUBLIC_KEY t) ltac:(lia)) (ex_intro _ vp (conj Hvp (conj Hlp Hmp)))), ok_bind.
    rewrite (proj2 (decode_Ok env 16 KEY_ID_HEX (BOOT_KEY_ID t) ltac:(lia)) (ex_intro _ vi (conj Hvi (conj Hli Hmi)))).
    rewrite Hvr. cbn [mbind option_bind]. rewrite Hr. cbn [unwrap].
    destruct (BOOT_PUBLIC_KEY t) as [|c pk] eqn:Hpk; [by destruct Hh|]. rewrite index_0, ok_bind.
    replace ((b2z c =? 2) || (b2z c =? 3)) with true by (destruct Hh as [[= ->]|[= ->]]; done). cbn [negb].
    cbn [mbind outcome_bind]. destruct (Z.gtb_spec (BOOT_MIN_RELEASE t) 0); [|lia]. cbn [negb]. rewrite <- Hpk. by destruct t.
Qed.

(** ** Reading the generated file *)

Definition read_byte (s : text) : option byte :=
  n ← read_number (default s (strip_prefix (txt " ") s)); if n <=? 255 then Some (z2b n) else None.

Definition read_array (prefix line : text) : option (list byte) :=
  rest ← strip_prefix prefix line;
  match split_on x5d rest with
  | [numbers; [x3b]] => mapM read_byte (split_on x2c numbers)
  | _ => None
  end.

Definition read_trust (file : text) : option DeploymentTrust :=
  match split_on x0a file with
  | [l1; l2; l3; []] =>
      pk ← read_array (txt "pub const BOOT_PUBLIC_KEY: [u8; 33] = [") l1;
      id ← read_array (txt "pub const BOOT_KEY_ID: [u8; 16] = [") l2;
      rest ← strip_prefix (txt "pub const BOOT_MIN_RELEASE: u64 = ") l3;
      match read_digits 0 rest with
      | (n, [x3b]) => Some {| BOOT_PUBLIC_KEY := pk; BOOT_KEY_ID := id; BOOT_MIN_RELEASE := n |}
      | _ => None
      end
  | _ => None
  end.

Lemma byte_u64 b : u64 (b2z b).
Proof. pose proof (b2z_range b). unfold u64, U64_MAX. lia. Qed.

Lemma join_commas s l : join (txt ", ") (s :: l) = join [x2c] (s :: map (cons x20) l).
Proof.
  revert s. induction l as [|t l IH]; intros s; [done|].
  change (s ++ x2c :: x20 :: join (txt ", ") (t :: l) = s ++ x2c :: join [x2c] ((x20 :: t) :: map (cons x20) l)).
  do 2 f_equal. rewrite IH. by destruct l.
Qed.

Lemma byte_list_without c (l : list byte) : is_digit c = false -> c <> x2c -> c <> x20 ->
  without c (join (txt ", ") (map (fun b => to_string (b2z b)) l)) = true.
Proof.
  intros Hc H1 H2. induction l as [|b l IH]; [done|]. pose proof (b2z_range b).
  assert (Hs : forall d, c <> d -> Byte.eqb d c = false) by (intros d Hd; apply not_true_iff_false; intros ->%byte_eqb_eq; done).
  destruct l as [|b' l]; [apply to_string_without; [done|lia]|].
  change (without c (to_string (b2z b) ++ [x2c; x20] ++ join (txt ", ") (map (fun b => to_string (b2z b)) (b' :: l))) = true).
  rewrite !without_app, IH, (to_string_without c (b2z b) Hc) by lia. unfold without. cbn [forallb]. by rewrite !Hs.
Qed.

Lemma read_byte_plain b : read_byte (to_string (b2z b)) = Some b.
Proof.
  unfold read_byte. pose proof (b2z_range b). pose proof (to_string_without x20 (b2z b) eq_refl ltac:(lia)) as Hw.
  replace (strip_prefix (txt " ") (to_string (b2z b))) with (@None text).
  - cbn [default]. rewrite read_number_to_string by apply byte_u64. cbn [mbind option_bind].
    rewrite (proj2 (Z.leb_le _ _)) by lia. by rewrite z2b_b2z.
  - unfold strip_prefix. destruct (to_string (b2z b)) as [|c s]; [done|]. apply without_cons in Hw as [Hw _].
    cbn. destruct (Byte.eqb c x20) eqn:E; [congruence|]. by destruct c.
Qed.

Lemma read_byte_spaced b : read_byte (x20 :: to_string (b2z b)) = Some b.
Proof.
  unfold read_byte. change (strip_prefix (txt " ") (x20 :: to_string (b2z b))) with (Some (to_string (b2z b))). cbn [default from_option id].
  rewrite read_number_to_string by apply byte_u64. cbn [mbind option_bind]. pose proof (b2z_range b).
  rewrite (proj2 (Z.leb_le _ _)) by lia. by rewrite z2b_b2z.
Qed.

Lemma read_bytes l : l <> [] ->
  mapM read_byte (split_on x2c (join (txt ", ") (map (fun b => to_string (b2z b)) l))) = Some l.
Proof.
  intros Hl. destruct l as [|b l]; [done|]. cbn [map]. rewrite join_commas, split_join; [|done|].
  - apply mapM_Some. constructor; [apply read_byte_plain|]. rewrite map_map. apply Forall2_fmap_l, Forall_Forall2_diag, Forall_forall.
    intros x _. apply read_byte_spaced.
  - pose proof (b2z_range b). constructor; [apply to_string_without; [done|lia]|].
    apply Forall_map, Forall_map, Forall_forall. intros x _. pose proof (b2z_range x). apply without_cons.
    split; [done|]. apply to_string_without; [done|lia].
Qed.

Lemma read_debug prefix l : l <> [] -> read_array (prefix ++ txt "[") (prefix ++ debug_bytes l ++ txt ";") = Some l.
Proof.
  intros Hl. unfold read_array, debug_bytes. rewrite <- app_assoc, app_assoc, strip_prefix_app. cbn [mbind option_bind].
  rewrite <- app_assoc. change (txt "]" ++ txt ";") with (x5d :: txt ";").
  rewrite split_on_app by (by apply byte_list_without). rewrite split_on_without by done. by apply read_bytes.
Qed.

Lemma debug_line prefix l : without x0a prefix = true -> without x0a (prefix ++ debug_bytes l ++ txt ";") = true.
Proof.
  intros Hp. unfold debug_bytes. rewrite !without_app, Hp, byte_list_without by done. done.
Qed.

(** The generated file holds the constants. *)
Lemma read_generated t : trust_good t -> read_trust (generated t) = Some t.
Proof.
  intros (Hp & Hi & Hr & _). unfold read_trust, generated.
  set (p1 := txt "pub const BOOT_PUBLIC_KEY: [u8; 33] = "). set (p2 := txt "pub const BOOT_KEY_ID: [u8; 16] = ").
  assert (H1 : forall a b c d, p1 ++ a ++ b ++ [x0a] ++ c ++ d = (p1 ++ a ++ b) ++ x0a :: c ++ d) by (intros; by rewrite <- !app_assoc).
  assert (H2 : forall a b c, p2 ++ a ++ b ++ [x0a] ++ c = (p2 ++ a ++ b) ++ x0a :: c) by (intros; by rewrite <- !app_assoc).
  rewrite H1, split_on_app by (by apply debug_line). rewrite H2, split_on_app by (by apply debug_line).
  rewrite !app_assoc, <- (app_assoc _ (txt ";") [x0a]), <- !app_assoc.
  rewrite (app_assoc (txt "pub const BOOT_MIN_RELEASE: u64 = ")), (app_assoc _ (txt ";") [x0a]).
  rewrite split_on_app by (rewrite !without_app, to_string_without by (done || lia); done).
  change (split_on x0a []) with [@nil byte]. cbv iota.
  change (txt "pub const BOOT_PUBLIC_KEY: [u8; 33] = [") with (p1 ++ txt "[").
  change (txt "pub const BOOT_KEY_ID: [u8; 16] = [") with (p2 ++ txt "[").
  rewrite (read_debug p1 (BOOT_PUBLIC_KEY t)) by (intros He; rewrite He in Hp; done). cbn [mbind option_bind].
  rewrite (read_debug p2 (BOOT_KEY_ID t)) by (intros He; rewrite He in Hi; done). cbn [mbind option_bind].
  rewrite <- app_assoc, strip_prefix_app. cbn [mbind option_bind].
  rewrite read_to_string; [by destruct t|apply u64_digits; unfold u64; lia|done].
Qed.

(** The build decides the trust.  With the feature [uefi-app] the script succeeds exactly when
    the three variables spell, in hexadecimal of either case and in decimal, a compressed
    public key of 33 bytes, an identifier of 16 bytes and a floor between 1 and [2^64 - 1],
    and the output can be written; and then the file that it writes, read back as the
    constants it declares, is exactly that trust. *)
Theorem deployment_trust_exact env written : env UEFI_APP <> None ->
  (forall file, main env written = Ok file -> exists t, read_trust file = Some t /\ spells env t /\ trust_good t) /\
  (forall t, spells env t -> trust_good t -> env (txt "OUT_DIR") <> None -> written = true -> main env written = Ok (generated t)).
Proof.
  intros Hu. split.
  - intros file Hm. unfold main in Hm. apply bind_Ok in Hm as (t & Ht & Hm). apply bind_Ok in Hm as (? & _ & Hm).
    destruct written; [|done]. injection Hm as <-. apply constants_Ok in Ht as [Hs Hg]; [|done]. exists t.
    split_and!; [by apply read_generated|done|done].
  - intros t Hs Hg Ho ->. unfold main. rewrite (proj2 (constants_Ok env t Hu) (conj Hs Hg)), ok_bind.
    destruct (env (txt "OUT_DIR")); [done|done].
Qed.

Lemma parse_u64_to_string n : u64 n -> parse_u64 (to_string n) = Some n.
Proof.
  intros Hn. unfold parse_u64. destruct (dec_loop_head 39 n) as (c & l & He & Hc); [by apply u64_digits|lia|].
  assert (Hs : strip_prefix (txt "+") (to_string n) = None).
  { unfold to_string. rewrite He. unfold strip_prefix. cbn. by destruct c. }
  rewrite Hs. cbn [default from_option]. unfold to_string at 1. rewrite He.
  rewrite read_number_to_string by done. cbn [mbind option_bind]. destruct Hn. by rewrite (proj2 (Z.leb_le _ _)).
Qed.

Lemma lower_hex bs : map lower (hex_encode bs) = hex_encode bs.
Proof.
  induction bs as [|b bs IH]; [done|]. unfold hex_encode in *. cbn [map concat]. rewrite map_app, IH. f_equal.
  destruct b; vm_compute; reflexivity.
Qed.

(** The build writes the trust that the environment spells, and the file reads back. *)
Lemma built_trust env trust : env UEFI_APP <> None -> env (txt "OUT_DIR") <> None -> spells env trust -> trust_good trust ->
  main env true = Ok (generated trust) /\ read_trust (generated trust) = Some trust.
Proof.
  intros Hu Ho Hs Hg. split; [|by apply read_generated].
  unfold main. rewrite (proj2 (constants_Ok env trust Hu) (conj Hs Hg)), ok_bind. by destruct (env (txt "OUT_DIR")).
Qed.

(** From the build to the boot.  Build the guard with the hexadecimal public key and identifier
    of a signer and a release floor; sign an image and a rollback baseline with the tools of
    the same signer; put them on a machine.  Then the build succeeds, and the guard with the
    constants read from the generated file loads exactly that image, starts it and returns
    success. *)
Theorem built_machine_boots `{HashLaws} `{SigLaws} env fw image sk key_id compiled release floor blob payload attrs :
  env UEFI_APP <> None -> env (txt "OUT_DIR") <> None ->
  var env PUBLIC_KEY_HEX = Some (hex_encode (pk_of sk)) -> var env KEY_ID_HEX = Some (hex_encode key_id) ->
  var env MIN_RELEASE = Some (to_string compiled) ->
  sk_valid sk = true -> head (pk_of sk) = Some x02 \/ head (pk_of sk) = Some x03 -> zlen key_id = 16 ->
  build_signed_boot_sidecar_v2 image sk key_id release = Ok blob -> build_rollback_baseline key_id floor = Ok payload ->
  fw.(helpers_init) = true -> 1 <= zlen image <= MAX_IMAGE_BYTES -> zlen blob <= MAX_IMAGE_BYTES ->
  on_volume fw BOOTMGFW_PATH image -> on_volume fw BOOTMGFW_MANIFEST_PATH blob ->
  fw.(get_variable) = Some (payload, attrs) -> Z.land attrs 0x23 = 0x23 ->
  0 < compiled <= release -> 0 < floor <= release -> release < 2 ^ 64 ->
  fw.(load_image) image = true -> fw.(start_image) = true ->
  exists file trust, main env true = Ok file /\ read_trust file = Some trust /\
    run_boot_guard fw trust = Some ([LoadImage image; StartImage], Returned SUCCESS).
Proof.
  intros Hu Ho Hpk Hid Hmin Hsk Hh Hl Hb Hp Hi Hn Hbn Himg Hsc Hvar Hattr Hc Hf Hrel Hload Hstart.
  set (trust := {| BOOT_PUBLIC_KEY := pk_of sk; BOOT_KEY_ID := key_id; BOOT_MIN_RELEASE := compiled |}).
  assert (Hg : trust_good trust).
  { split_and!; cbn; [unfold zlen; by rewrite pk_of_length|done|lia|unfold U64_MAX; lia|done]. }
  assert (Hs : spells env trust).
  { split_and!; cbn; [by eauto using lower_hex|by eauto using lower_hex|].
    eexists. split; [done|]. apply parse_u64_to_string. unfold u64, U64_MAX. lia. }
  destruct (built_trust env trust Hu Ho Hs Hg) as [Hm Hr]. exists (generated trust), trust. split; [done|]. split; [done|].
  by apply (honest_boot fw trust image sk release floor blob payload attrs).
Qed.
End TrustProofs.

(** ** The key of the literal encryption *)

(** The build continues exactly with a key of at least 16 bytes, without line ends and NULs,
    that is still as long without the white space around it; the key that is used is the
    trimmed one. *)
Theorem crypto_key_exact env read_file k : CryptoKey.configure_litcrypt_key env read_file = Ok k <->
  exists key, CryptoKey.resolve_crypto_key env read_file = Ok key /\ CryptoKey.MIN_KEY_LEN <= zlen key /\
    without x0a key = true /\ without x0d key = true /\ without x00 key = true /\ k = str_trim key /\
    CryptoKey.MIN_KEY_LEN <= zlen k.
Proof.
  unfold CryptoKey.configure_litcrypt_key. destruct (CryptoKey.resolve_crypto_key env read_file) as [key|e|];
    [|split; [done|by intros (? & ? & _)]..].
  assert (He : existsb (fun b => Byte.eqb b x0a || Byte.eqb b x0d || Byte.eqb b x00) key =
    negb (without x0a key && without x0d key && without x00 key)).
  { unfold without. induction key as [|b key IH]; [done|]. cbn [existsb forallb]. rewrite IH.
    by destruct (Byte.eqb b x0a), (Byte.eqb b x0d), (Byte.eqb b x00), (forallb _ key), (forallb _ key). }
  rewrite He. destruct (Z.ltb_spec (zlen key) CryptoKey.MIN_KEY_LEN).
  { split; [done|]. intros (? & [= <-] & ? & _). lia. }
  destruct (without x0a key) eqn:E1, (without x0d key) eqn:E2, (without x00 key) eqn:E3; cbn [andb negb];
    try (split; [done|intros (? & [= <-] & _ & ? & ? & ? & _); congruence]).
  cbv zeta. destruct (Z.ltb_spec (zlen (str_trim key)) CryptoKey.MIN_KEY_LEN).
  - split; [done|]. intros (? & [= <-] & _ & _ & _ & _ & -> & ?). lia.
  - split; [intros [= <-]; by exists key|]. by intros (? & [= <-] & _ & _ & _ & _ & -> & _).
Qed.

(** A key file that ends with a line end, as editors and [openssl rand] write it, is refused,
    although the code trims the key afterwards. *)
Theorem key_file_newline env read_file path key :
  var env (txt "DFIM_CRYPTO_KEY") = None -> var env (txt "DFIM_CRYPTO_KEY_FILE") = Some path ->
  read_file path = Some (key ++ [x0a]) -> CryptoKey.configure_litcrypt_key env read_file = Panic.
Proof.
  intros Hk Hp Hr. unfold CryptoKey.configure_litcrypt_key, CryptoKey.resolve_crypto_key. rewrite Hk, Hp, Hr. cbn [ok_or].
  destruct (_ <? _); [done|]. rewrite existsb_app. cbn. by rewrite orb_true_r.
Qed.

(** ** [dfim-ebpf-user/build.rs] *)

Module Probe.

Record Package := { name : text; root_dir : text; no_default_features : bool; features : list text }.

Inductive Toolchain := Nightly | Custom (toolchain : text).

Definition as_str (t : Toolchain) : text := match t with Nightly => txt "nightly" | Custom toolchain => toolchain end.

Definition target_arch_fixup (target_arch : text) : text :=
  if starts_with target_arch (txt "riscv64") then txt "riscv64" else target_arch.

(** What cargo prints, one JSON message per line *)
Inductive Message :=
| CompilerArtifact (executable : option text) (target_name : text)
| CompilerMessage (rendered : option text)
| TextLine (line : text)
| OtherMessage.

Record Command := { program : text; args : list text; rustflags : text; removed : list text }.

(** Cargo and the file system as the script sees them *)
Record Host := {
  spawns : Command -> bool;
  messages : Command -> list (option Message);
  (** [None]: [wait] fails *)
  exit_success : Command -> option bool;
  is_dir : text -> bool;
  removes : text -> bool;
  copies : text -> text -> bool;
  writes : text -> bool
}.

Inductive BuildError :=
| OutDirNotSet | EndianNotSet | UnsupportedEndian (endian : text) | SpawnFailed | WaitFailed | CargoFailed
| StaleDirectory (dst : text) | CopyFailed (dst : text) | PlaceholderFailed.

(** The files written, oldest first: the destination and the source, or the placeholder *)
Inductive Content := CopyOf (binary : text) | Placeholder.
Abbreviation B := (stm (list (text * Content)) BuildError).

(** [PathBuf::join] of a name *)
Definition path_join (dir file : text) : text :=
  if starts_with file (txt "/") then file
  else match last dir with Some x2f => dir ++ file | _ => dir ++ txt "/" ++ file end.

Definition bpf_target (endian : text) : outcome BuildError text :=
  if bytes_eqb endian (txt "big") then Ok (txt "bpfeb")
  else if bytes_eqb endian (txt "little") then Ok (txt "bpfel")
  else Err (UnsupportedEndian endian).

Definition encoded_rustflags (arch : text) : text :=
  concat [txt "--cfg=bpf_target_arch="; [x22]; arch; [x22]; [x1f]; txt "-Cdebuginfo=2"; [x1f]; txt "-Clink-arg=--btf"; [x1f];
          txt "-Cllvm-args=-bpf-stack-size=16384"].

Definition cargo_command (p : Package) (toolchain : Toolchain) (target arch out_dir : text) : Command := {|
  program := txt "rustup";
  args := [txt "run"; as_str toolchain; txt "cargo"; txt "build"; txt "--package"; p.(name); txt "-Z"; txt "build-std=core";
           txt "--bins"; txt "--message-format=json"; txt "--release"; txt "--target"; target] ++
          (if p.(no_default_features) then [txt "--no-default-features"] else []) ++
          [txt "--features"; join (txt ",") p.(features)] ++
          [txt "--target-dir"; path_join out_dir (txt "bpf-target")];
  rustflags := encoded_rustflags arch;
  removed := [txt "RUSTC"; txt "RUSTC_WORKSPACE_WRAPPER"] |}.

(** The loop over the messages; a line that is not JSON panics. *)
Fixpoint executables (ms : list (option Message)) : outcome BuildError (list (text * text)) :=
  match ms with
  | [] => Ok []
  | None :: _ => Panic
  | Some (CompilerArtifact (Some executable) target_name) :: ms => r ← executables ms; Ok ((target_name, executable) :: r)
  | Some _ :: ms => executables ms
  end.

Section model.
Context (h : Host) (env : Env).

Definition copy_executable (out_dir : text) (e : text * text) : B unit :=
  let dst := path_join out_dir (fst e) in
  lift (if h.(is_dir) dst && negb (h.(removes) dst) then Err (StaleDirectory dst) else Ok tt) ;;
  lift (if h.(copies) (snd e) dst then Ok tt else Err (CopyFailed dst)) ;;
  modify (fun files => files ++ [(dst, CopyOf (snd e))]).

Definition build_package (toolchain : Toolchain) (target arch out_dir : text) (p : Package) : B unit :=
  let cmd := cargo_command p toolchain target arch out_dir in
  lift (if h.(spawns) cmd then Ok tt else Err SpawnFailed) ;;
  exes ← lift (executables (h.(messages) cmd));
  ok ← lift (ok_or (h.(exit_success) cmd) WaitFailed);
  lift (if (ok : bool) then Ok tt else Err CargoFailed) ;;
  iterM (copy_executable out_dir) exes.

Definition build_ebpf (packages : list Package) (toolchain : Toolchain) : B unit :=
  out_dir ← lift (ok_or (env (txt "OUT_DIR")) OutDirNotSet);
  endian ← lift (ok_or (env (txt "CARGO_CFG_TARGET_ENDIAN")) EndianNotSet);
  t ← lift (bpf_target endian);
  arch ← lift (unwrap (var env (txt "CARGO_CFG_TARGET_ARCH")));
  let arch := target_arch_fixup arch in
  let target := t ++ txt "-unknown-none" in
  iterM (build_package toolchain target arch out_dir) packages.

Definition dfim_ebpf : Package :=
  {| name := txt "dfim-ebpf"; root_dir := txt "../dfim-ebpf"; no_default_features := false; features := [] |}.

Definition main : B unit :=
  match env (txt "DFIM_SKIP_EBPF_BUILD") with
  | Some _ =>
      out_dir ← lift (ok_or (env (txt "OUT_DIR")) OutDirNotSet);
      let placeholder := path_join out_dir (txt "dfim-ebpf") in
      lift (if h.(writes) placeholder then Ok tt else Err PlaceholderFailed) ;;
      modify (fun files => files ++ [(placeholder, Placeholder)])
  | None => build_ebpf [dfim_ebpf] Nightly
  end.
End model.

Lemma copy_all_Ok h out_dir exes files files' : iterM (copy_executable h out_dir) exes files = (Ok tt, files') ->
  files' = files ++ map (fun e => (path_join out_dir (fst e), CopyOf (snd e))) exes.
Proof.
  revert files. induction exes as [|e exes IH]; intros files Hc; [injection Hc as <-; by rewrite app_nil_r|].
  cbn [iterM] in Hc. apply stm_bind_Ok in Hc as ([] & s1 & He & Hc). unfold copy_executable in He.
  apply stm_bind_Ok in He as (? & ? & [_ ->]%stm_lift_Ok & He). apply stm_bind_Ok in He as (? & ? & [_ ->]%stm_lift_Ok & He).
  injection He as <-. rewrite (IH _ Hc). cbn [map]. by rewrite <- app_assoc.
Qed.

(** What a successful build leaves behind.  Without the skip variable cargo was run once, with
    the nightly toolchain, for the BPF target of the build's byte order, and succeeded; the
    output directory received the executables that it reported, each under the name of its
    target, in their order, and nothing else.  With the variable, only the placeholder. *)
Theorem build_ebpf_exact h env files files' : main h env files = (Ok tt, files') ->
  exists out_dir, env (txt "OUT_DIR") = Some out_dir /\
    ((env (txt "DFIM_SKIP_EBPF_BUILD") <> None /\ files' = files ++ [(path_join out_dir (txt "dfim-ebpf"), Placeholder)]) \/
     exists endian t arch exes, env (txt "DFIM_SKIP_EBPF_BUILD") = None /\
       env (txt "CARGO_CFG_TARGET_ENDIAN") = Some endian /\ bpf_target endian = Ok t /\
       var env (txt "CARGO_CFG_TARGET_ARCH") = Some arch /\
       let cmd := cargo_command dfim_ebpf Nightly (t ++ txt "-unknown-none") (target_arch_fixup arch) out_dir in
       executables (h.(messages) cmd) = Ok exes /\ h.(exit_success) cmd = Some true /\
       files' = files ++ map (fun e => (path_join out_dir (fst e), CopyOf (snd e))) exes).
Proof.
  unfold main. destruct (env (txt "DFIM_SKIP_EBPF_BUILD")) as [v|] eqn:Hskip; intros Hm.
  - apply stm_bind_Ok in Hm as (out & ? & [Ho ->]%stm_lift_Ok & Hm). apply ok_or_Ok in Ho. exists out. split; [done|]. left.
    cbv zeta in Hm. apply stm_bind_Ok in Hm as (? & ? & [_ ->]%stm_lift_Ok & Hm). by injection Hm as <-.
  - unfold build_ebpf in Hm. apply stm_bind_Ok in Hm as (out & ? & [Ho ->]%stm_lift_Ok & Hm). apply ok_or_Ok in Ho.
    apply stm_bind_Ok in Hm as (endian & ? & [He ->]%stm_lift_Ok & Hm). apply ok_or_Ok in He.
    apply stm_bind_Ok in Hm as (t & ? & [Ht ->]%stm_lift_Ok & Hm). apply stm_bind_Ok in Hm as (arch & ? & [Ha ->]%stm_lift_Ok & Hm).
    cbv zeta in Hm. cbn [iterM] in Hm. apply stm_bind_Ok in Hm as ([] & s1 & Hp & Hm). injection Hm as ->.
    unfold build_package in Hp. cbv zeta in Hp. apply stm_bind_Ok in Hp as (? & ? & [_ ->]%stm_lift_Ok & Hp).
    apply stm_bind_Ok in Hp as (exes & ? & [Hx ->]%stm_lift_Ok & Hp). apply stm_bind_Ok in Hp as (ok & ? & [Hok ->]%stm_lift_Ok & Hp).
    apply ok_or_Ok in Hok. apply stm_bind_Ok in Hp as (? & ? & [Hs ->]%stm_lift_Ok & Hp). destruct ok; [|done].
    exists out. split; [done|]. right. exists endian, t, arch, exes. do 3 (split; [done|]). split.
    + by destruct (var env (txt "CARGO_CFG_TARGET_ARCH")) as [a|]; [injection Ha as ->|].
    + cbv zeta. split; [done|]. split; [done|]. by apply copy_all_Ok in Hp.
Qed.
End Probe.

(** ** Concrete environments *)

Module BuildWitness.
#[local] Existing Instance Toy.hash.
#[local] Existing Instance toy_hash_laws.
#[local] Existing Instance Toy.sig.
#[local] Existing Instance toy_sig_laws.

(** The environment of a build for the machine of [GuardWitness] *)
Definition env (compiled : Z) : Env := fun k =>
  if bytes_eqb k Trust.UEFI_APP then Some (txt "1")
  else if bytes_eqb k (txt "OUT_DIR") then Some (txt "/out")
  else if bytes_eqb k Trust.PUBLIC_KEY_HEX then Some (hex_encode (pk_of GuardWitness.sk))
  else if bytes_eqb k Trust.KEY_ID_HEX then Some (hex_encode GuardWitness.key_id)
  else if bytes_eqb k Trust.MIN_RELEASE then Some (to_string compiled)
  else None.

Lemma deployment_trust_exact_witness : exists file t, Trust.main (env 3) true = Ok file /\
  TrustProofs.read_trust file = Some t /\ t.(BOOT_MIN_RELEASE) = 3.
Proof.
  destruct (TrustProofs.deployment_trust_exact (env 3) true) as [H1 _]; [by vm_compute|].
  destruct (Trust.main (env 3) true) as [file| |] eqn:E; [|by vm_compute in E..].
  destruct (H1 file eq_refl) as (t & Hr & (_ & _ & v & Hv & Hp) & _). exists file, t. split; [done|]. split; [done|].
  assert (Hv' : var (env 3) Trust.MIN_RELEASE = Some (txt "3")) by by vm_compute.
  rewrite Hv' in Hv. injection Hv as <-. vm_compute in Hp. by injection Hp.
Defined.

Lemma built_machine_boots_witness : exists file trust, Trust.main (env 3) true = Ok file /\
  TrustProofs.read_trust file = Some trust /\
  run_boot_guard (GuardWitness.firmware 7 true) trust = Some ([LoadImage GuardWitness.image; StartImage], Returned SUCCESS).
Proof.
  apply (TrustProofs.built_machine_boots (env 3) (GuardWitness.firmware 7 true) GuardWitness.image GuardWitness.sk
    GuardWitness.key_id 3 9 7 GuardWitness.blob (baseline_bytes GuardWitness.key_id 7) 0x27);
    try (by vm_compute); [by left; vm_compute|..]; split; try done; eexists; by vm_compute.
Defined.
End BuildWitness.
