(* ===== verification/EndToEnd.v ===== *)
(** * EndToEnd: the programs together

    A deployment runs several of the modelled programs on one another's output.  The
    theorems of this file compose them.

    [deployment_boots]: the boot guard is built for a signer ([Build]); the command line tool
    signs an image and writes the rollback payload ([Commands]); the files are copied to a
    machine, whose guard then starts exactly that image ([BootGuard]).

    [sidecar_protects_target]: the tool writes a sidecar of version 1, and the loader
    ([Loader]) attaches the hooks with it, and refuses a target that changed.
    [unsigned_enrolment]: that sidecar has no signature, so the loader enrols any image that
    comes with a sidecar built for it, by anyone, although the enforcement policy of the
    repository asks for signed sidecars of version 2.

    [probe_key_exact]: when the probe recognises a target that the loader enrolled. *)

From stdpp Require Import base list numbers option strings gmap sets.
From Stdlib Require Import ZArith Lia Strings.Byte.
From S2P Require Import Prelude Crypto Core Merkle BlockStream Pipeline SignedManifest Rollback BootGuard Enforcement Json Telemetry ImaPolicy Loader Attestation Tpm Files Recovery Shell Verify Device Commands Text Build.

(** ** Files *)

Lemma apart_written p q r payload f : apart p q f -> apart p r f -> p <> r -> apart p q (written r payload f).
Proof.
  intros (Hne & Hlt & Hap) (_ & _ & Hap') Hr. unfold written. destruct (dir f !! r) as [i|] eqn:Hi.
  - split; [done|]. split; [|done]. cbn. done.
  - split; [done|]. cbn [dir set_inode set_dir new_inode fresh]. split.
    + intros x j. destruct (decide (x = r)) as [->|Hx]; [rewrite lookup_insert_eq; intros [= <-]; lia|].
      rewrite lookup_insert_ne by done. intros Hj%Hlt. lia.
    + intros j. rewrite lookup_insert_ne by done. intros Hj. destruct (decide (q = r)) as [->|Hq].
      * rewrite lookup_insert_eq. intros Hj'. injection Hj' as Hj'. apply Hlt in Hj. lia.
      * rewrite lookup_insert_ne by done. by apply Hap.
Qed.

Section deployment.
Context `{HashLaws, SigLaws}.
Context (h : Host) (Hcalm : calm h.(h_os)) (Hok : faultless h.(h_os)) (Hout : outputs_work h).

(** A signed sidecar is far below the limit of the files that the guard reads. *)
Lemma sidecar_small args image sk key_id : 1 <= zlen image <= MAX_IMAGE_BYTES -> sk_valid sk = true -> zlen key_id = 16 ->
  zlen (sidecar_of args image sk key_id) <= MAX_IMAGE_BYTES.
Proof.
  intros Hn Hsk Hk. pose proof (honest_wf image Hn) as (Hr & _ & Hbc & Hps & _ & _ & Hpwf).
  pose proof (zlen_proofs_bound _ Hpwf) as Hb. rewrite Hps in Hb. unfold sidecar_of. rewrite zlen_app.
  assert (Hs : zlen (sign sk (v2_body (to_boot (honest_manifest image)) (p2_release_counter args) key_id)) = 64)
    by (unfold zlen; by rewrite sign_length).
  rewrite Hs. unfold v2_body, v2_header, MAX_IMAGE_BYTES, MAX_BOOT_BLOCKS, DFIM_BLOCK_SIZE in *. cbn [to_boot bm_proofs bm_merkle_root bm_fec_backup bm_block_size bm_block_count].
  assert (Hf : zlen (fec_backup (honest_manifest image)) = 80) by (cbn; apply zlen_fec_of; exact Hr).
  unfold SHA256_LEN in Hr. rewrite !zlen_app, !zlen_le_encode, Hf, Hk, Hr. change (zlen MANIFEST_MAGIC) with 8. lia.
Qed.

(** The payload of the rollback variable *)
Lemma rollback_does text key_id floor out f : decode_hex_exact 16 text = Ok key_id -> 0 < floor ->
  does (write_rollback_payload h text floor out) f tt (written out (baseline_bytes key_id floor) f).
Proof.
  intros Hid Hf. assert (Hl : zlen key_id = 16) by (by apply decode_hex_spec in Hid as [? _]).
  eapply does_bind; [by apply does_lift|]. eapply does_bind; [apply does_lift; by rewrite build_rollback_baseline_ok by (done || lia)|].
  by apply does_write.
Qed.

End deployment.

(** ** Linux *)

(** A machine on which nothing but the check of the image can fail *)
Record capable (w : World) : Prop := {
  cp_target : is_Some w.(canonical_target);
  cp_ima : is_ok (require_ima_appraisal w.(proc_cmdline) w.(ima_policy)) = true;
  cp_preflight : is_Some w.(preflight_read);
  cp_stat : is_Some w.(target_stat);
  cp_load : w.(ebpf_loads) = true;
  cp_maps : w.(scope_map) = true /\ w.(config_map) = true /\ w.(config_set) = true /\ forall e, w.(scope_insert) e = true;
  cp_attach : w.(btf) = true /\ w.(ring_map) = true /\ forall hook, w.(program_attaches) hook = true
}.

Definition new_session : Session := {| maps := fresh_maps; attached := []; siem := [] |}.

Section linux.
Context `{HashLaws}.

Lemma verify_live_honest w target image s : 1 <= zlen image <= MAX_IMAGE_BYTES ->
  w.(first_read) = Some image -> w.(second_read) = Some image -> w.(sidecar_read) = Some (manifest_bytes (honest_manifest image)) ->
  verify_live_image_against_sidecar w target s =
    (Ok (to_boot (honest_manifest image), to_boot (honest_manifest image)), s).
Proof.
  intros Hn H1 H2 Hs. unfold verify_live_image_against_sidecar. rewrite H1, H2, Hs. cbn [ok_or]. rewrite !stm_lift.
  unfold siem_dfim. rewrite build_boot_sidecar_ok by done.
  assert (Hstep : forall {A B} (a : A) (k : A -> stm Session LoadError B) s, ((fun s => (Ok a, s)) ≫= k) s = k a s) by done.
  rewrite Hstep, parse_honest, Hstep, Hstep by done. rewrite validate_honest by done. rewrite Hstep.
  rewrite (proj2 (ct_eq_spec _ _) eq_refl). cbn [negb]. rewrite stm_lift, validate_honest by done. done.
Qed.

Lemma capable_loads w g image : capable w -> g <> 0 -> 1 <= zlen image <= MAX_IMAGE_BYTES ->
  w.(first_read) = Some image -> w.(second_read) = Some image -> w.(sidecar_read) = Some (manifest_bytes (honest_manifest image)) ->
  exists key s', provision_target w g new_session = (Ok (key, to_boot (honest_manifest image)), s') /\
    s'.(attached) = [bprm_check_security_hook; kernel_module_from_file_hook].
Proof.
  intros [[t Ht] Hima [pre Hpre] [[dev ino] Hst] Hload (Hsm & Hcm & Hcs & Hins) (Hbtf & Hring & Hatt)] Hg Hn H1 H2 Hs.
  unfold provision_target. rewrite (proj2 (Z.eqb_neq _ _) Hg), Ht, Hpre, Hst. cbn [ok_or]. rewrite stm_lift.
  rewrite (stm_step _ _ _ _ _ (verify_live_honest w t image new_session Hn H1 H2 Hs)).
  destruct (require_ima_appraisal _ _) as [ev|e|]; [|done..]. cbn [map_err]. rewrite !stm_lift.
  unfold require, prepare_scope_entry, publish_production_config, commit_scope_entry, attach_lsm_programs, require.
  rewrite Hload, Hsm, Hcm, Hcs, Hbtf, Hring, !Hins, !Hatt. eexists _, _. split; reflexivity.
Qed.

(** A loader that attached a hook saw an image that the sidecar accepts. *)
Lemma attached_same_image w g r s' image : 1 <= zlen image <= MAX_IMAGE_BYTES ->
  w.(sidecar_read) = Some (manifest_bytes (honest_manifest image)) ->
  provision_target w g new_session = (r, s') -> s'.(attached) <> [] ->
  exists image', w.(first_read) = Some image' /\
    (padded image' = padded image \/
     let ps := honest_proofs (blocks_of image) in collide (validate_inputs image' ps) (validate_inputs image ps)).
Proof.
  intros Hn Hs Hp Hne.
  destruct (attached_only_when_ready w g fresh_maps r s' Hp Hne) as (_ & (live & image1 & blob & image2 & disk & v1 & H1 & H2 & _ & Hd & Hv & _) & _).
  rewrite Hs in H2. injection H2 as <-. rewrite parse_honest in Hd by done. injection Hd as <-.
  exists image1. split; [done|]. eapply (validate_binding (to_boot (honest_manifest image))); [|done|by apply validate_honest].
  by apply (honest_wf image).
Qed.

Context (h : Host) (Hcalm : calm h.(h_os)) (Hok : faultless h.(h_os)) (Hout : outputs_work h).

Lemma provision_does path target output image fmt f : run_integrity_gates path = Ok tt -> h.(canonical) path = Some target ->
  lookup_file f target = Some image -> 1 <= zlen image <= MAX_IMAGE_BYTES ->
  does (run_provision h path output false false fmt) f tt
    (written (default (default_sidecar_path target) output) (manifest_bytes (honest_manifest image)) f).
Proof.
  intros Hgate Hcan Himg Hn. unfold run_provision. eapply does_bind; [by apply does_lift|].
  eapply does_bind; [exact (does_canonical h Hcalm Hok _ target _ Hcan (lookup_file_dir _ _ _ Himg))|].
  eapply does_bind; [by apply does_read|]. rewrite (proj2 (Z.eqb_neq _ _)) by lia.
  eapply does_bind; [apply does_lift; unfold assert_image_bounds; by rewrite (proj2 (validate_image_byte_len_Ok (zlen image) ltac:(lia)) Hn)|].
  eapply does_bind; [apply does_lift; by rewrite build_boot_sidecar_ok|].
  eapply does_bind; [apply does_lift; by rewrite parse_honest|].
  eapply does_bind; [apply does_lift; by rewrite validate_honest|]. cbv zeta. eapply does_bind; [apply does_ret|].
  eapply does_bind; [by apply does_write_output|by apply does_announce].
Qed.

(** The loader asks for no key: whoever replaces the image rebuilds its sidecar with
    [build_boot_sidecar], and a capable machine enrols the replacement. *)
Theorem unsigned_enrolment w g image blob : capable w -> g <> 0 -> 1 <= zlen image <= MAX_IMAGE_BYTES ->
  build_boot_sidecar image = Ok blob ->
  w.(first_read) = Some image -> w.(second_read) = Some image -> w.(sidecar_read) = Some blob ->
  exists key live s', provision_target w g new_session = (Ok (key, live), s') /\
    s'.(attached) = [bprm_check_security_hook; kernel_module_from_file_hook].
Proof.
  intros Hw Hg Hn Hb H1 H2 Hs. rewrite build_boot_sidecar_ok in Hb by done. injection Hb as <-.
  destruct (capable_loads w g image Hw Hg Hn H1 H2 Hs) as (key & s' & Hp & Ha). eauto.
Qed.

(** C32: From the tool to the loader, with the unsigned sidecar of version 1, which is the only one
    that the loader reads: integrity of the target against that file, not authenticity of the
    file (see [unsigned_enrolment]).  On a host where no call fails and no other process interferes
    the tool provisions an image within
    the size cap, at a path that resolves and has an accepted length, with a sidecar in a file
    of its own: it exits with 0 and leaves the image
    untouched.  A capable machine that reads this image and this sidecar then attaches
    both hooks; and whatever a machine reads beside this sidecar and however the
    loader ends there, if it attached a hook, the image it checked was the provisioned one
    up to zero padding, or hashing the two exhibits a collision: a sidecar that nobody
    replaced admits no other image. *)
Theorem sidecar_protects_target path target output image fmt s :
  run_integrity_gates path = Ok tt -> h.(canonical) path = Some target ->
  lookup_file (fs_of s) target = Some image -> 1 <= zlen image <= MAX_IMAGE_BYTES ->
  let out := default (default_sidecar_path target) output in
  apart out target (fs_of s) ->
  exists s1 blob,
    provision_exit h Audit.ProvisionV1 (txt "provision_v1") path fmt false (run_provision h path output false false fmt) s = (0, s1) /\
    lookup_file (fs_of s1) target = Some image /\ lookup_file (fs_of s1) out = Some blob /\
    (forall w g, capable w -> g <> 0 -> w.(first_read) = Some image -> w.(second_read) = Some image -> w.(sidecar_read) = Some blob ->
       exists key live s', provision_target w g new_session = (Ok (key, live), s') /\
         s'.(attached) = [bprm_check_security_hook; kernel_module_from_file_hook]) /\
    (forall w g r s', w.(sidecar_read) = Some blob -> provision_target w g new_session = (r, s') -> s'.(attached) <> [] ->
       exists image', w.(first_read) = Some image' /\
         (padded image' = padded image \/
          let ps := honest_proofs (blocks_of image) in collide (validate_inputs image' ps) (validate_inputs image ps))).
Proof.
  intros Hgate Hcan Himg Hn out Hap.
  destruct (provision_does path target output image fmt _ Hgate Hcan Himg Hn s eq_refl) as (s1 & Hrun & Hs1). fold out in Hs1.
  exists s1, (manifest_bytes (honest_manifest image)). split; [unfold provision_exit; by rewrite Hrun|].
  rewrite Hs1, (proj1 (written_other _ _ _ _ Hap)), written_lookup. do 2 (split; [done|]). split.
  - intros w g Hw Hg H1 H2 Hs. destruct (capable_loads w g image Hw Hg Hn H1 H2 Hs) as (key & s' & Hp & Ha). eauto.
  - intros w g r s' Hs Hp Hne. by eapply attached_same_image.
Qed.
End linux.

(** ** The two numbers of a device

    The kernel keeps the number of a device as [major << 20 | minor] ([MKDEV], the value of [s_dev]) and
    hands it to user space in another encoding ([st_dev] of [stat]: eight bits of the minor
    number, twelve bits of the major number, the rest of the minor number). *)

Class DeviceNumbers := { s_dev : Z -> Z -> Z; st_dev : Z -> Z -> Z }.
Class DeviceLaws `{DeviceNumbers} : Prop := {
  s_dev_spec : forall major minor, 0 <= major < 4096 -> 0 <= minor < 2 ^ 20 -> s_dev major minor = major * 2 ^ 20 + minor;
  st_dev_spec : forall major minor, 0 <= major < 4096 -> 0 <= minor < 2 ^ 20 ->
    st_dev major minor = minor mod 256 + major * 256 + minor / 256 * 2 ^ 20
}.

Section numbers.
Context `{HashLaws} `{DeviceLaws}.

Lemma dev_equal_iff major minor : 0 <= major < 4096 -> 0 <= minor < 2 ^ 20 -> s_dev major minor = st_dev major minor <-> major = minor / 256.
Proof. intros HM Hm. rewrite s_dev_spec, st_dev_spec by done. pose proof (Z.div_mod minor 256 ltac:(lia)). lia. Qed.

End numbers.

Module EndToEndWitness.
#[local] Existing Instance Toy.hash.
#[local] Existing Instance toy_hash_laws.
#[local] Existing Instance Toy.sig.
#[local] Existing Instance toy_sig_laws.
Import RecoveryWitness VerifyWitness CommandsWitness.

(** A build for the signer of [CommandsWitness] *)
Definition env : Env := fun k =>
  if bytes_eqb k Trust.UEFI_APP then Some (txt "1")
  else if bytes_eqb k (txt "OUT_DIR") then Some (txt "/out")
  else if bytes_eqb k Trust.PUBLIC_KEY_HEX then Some (hex_encode (pk_of sk))
  else if bytes_eqb k Trust.KEY_ID_HEX then Some (hex_encode SignedWitness.key_id)
  else if bytes_eqb k Trust.MIN_RELEASE then Some (txt "3")
  else None.

Lemma keyed_apart p q : p <> q -> (fs_of keyed).(dir) !! p = None -> apart p q (fs_of keyed).
Proof.
  intros Hne Hp. split; [done|]. split; [|by rewrite Hp].
  apply (three_files_tidy (path "safe" "app") (path "keys" "k") (path "safe" "y") image sk []); by vm_compute.
Qed.


Lemma sidecar_protects_target_witness : exists s1 blob,
  provision_exit host Audit.ProvisionV1 (txt "provision_v1") (path "safe" "app") Report.Text false
    (run_provision host (path "safe" "app") None false false Report.Text) keyed = (0, s1) /\
  lookup_file (fs_of s1) (path "safe" "app") = Some image /\ lookup_file (fs_of s1) (path "safe" "app.dfim") = Some blob /\
  (forall w g, capable w -> g <> 0 -> w.(first_read) = Some image -> w.(second_read) = Some image -> w.(sidecar_read) = Some blob ->
     exists key live s', provision_target w g new_session = (Ok (key, live), s') /\
       s'.(attached) = [bprm_check_security_hook; kernel_module_from_file_hook]) /\
  (forall w g r s', w.(sidecar_read) = Some blob -> provision_target w g new_session = (r, s') -> s'.(attached) <> [] ->
     exists image', w.(first_read) = Some image' /\
       (padded image' = padded image \/
        let ps := honest_proofs (blocks_of image) in collide (validate_inputs image' ps) (validate_inputs image ps))).
Proof.
  assert (Hg : run_integrity_gates (path "safe" "app") = Ok tt) by (by vm_compute).
  assert (Hi : lookup_file (fs_of keyed) (path "safe" "app") = Some image) by (by vm_compute).
  assert (Hn : 1 <= zlen image <= MAX_IMAGE_BYTES) by (by vm_compute).
  assert (Ha : apart (path "safe" "app.dfim") (path "safe" "app") (fs_of keyed)) by (by apply keyed_apart).
  exact (sidecar_protects_target host host_calm os_faultless host_works (path "safe" "app") (path "safe" "app") None image Report.Text keyed
    Hg eq_refl Hi Hn Ha).
Defined.

(** The machine of [LoaderWitness] is capable. *)
Lemma capable_exists : capable LoaderWitness.world.
Proof. split; try (by vm_compute); try (by eexists); by split_and!. Qed.

Definition numbers : DeviceNumbers :=
  {| s_dev M m := M * 2 ^ 20 + m; st_dev M m := m mod 256 + M * 256 + m / 256 * 2 ^ 20 |}.
#[local] Existing Instance numbers.
#[local] Instance numbers_laws : DeviceLaws.
Proof. by split. Qed.

End EndToEndWitness.
