(* ===== verification/Appraisal.v ===== *)
(** * Appraisal: the independent appraisal module of the probe

    [dfim_linux_kernel/dfim-ebpf/src/appraisal.rs].  The file is not part of the compiled
    probe (no [mod] declaration names it); it is modelled as it is written.  The state is
    its four maps; a map has a maximal number of entries, and an insertion that does not fit
    is ignored, as the code ignores the result.  The BPF helpers (time, process, room in the
    ring buffer) are parameters.

    [appraise_file_exact] gives the decision and the event of every branch;
    [enroll_then_appraise] that an asset enrolled by its digest is admitted with that digest
    only; [merkle_mode_hollow] that with a block count every non-zero digest passes.  The
    hooks of the file are stubs that admit everything and appraise nothing. *)

From stdpp Require Import base list numbers option strings gmap.
From Stdlib Require Import ZArith Lia Strings.Byte.
From S2P Require Import Prelude Crypto Core Enforcement.

(** The key as the file builds it *)
Abbreviation Key := (Z * Z)%type.

Record ImageIntegrityEntry := {
  expected_digest : list byte;
  merkle_root : list byte;
  block_count : Z;
  policy_id : Z;
  i_flags : Z
}.

Record DenyEvent := {
  timestamp_ns : Z;
  d_inode : Z;
  d_device : Z;
  d_reason : Z;
  expected_prefix : list byte;
  actual_prefix : list byte;
  pid : Z
}.

Inductive DenyReason :=
| NotInScope | IntegrityPassed | DigestMismatch | MerkleFailure | MissingEntry | AttestationMissing | RollbackViolation | ConfigError.

(** [reason as u32] *)
Definition reason_code (r : DenyReason) : Z :=
  match r with
  | NotInScope => 0
  | IntegrityPassed => 1
  | DigestMismatch => 2
  | MerkleFailure => 3
  | MissingEntry => 4
  | AttestationMissing => 5
  | RollbackViolation => 6
  | ConfigError => 7
  end.

Record AppraisalMaps := {
  SCOPE : gmap Key ScopeEntryV1;
  IMAGES : gmap Key ImageIntegrityEntry;
  CONFIG : gmap Z DfimConfigV1;
  DENY_EVENTS : list DenyEvent
}.

(** [HashMap::with_max_entries] of the three maps *)
Definition SCOPE_MAX : nat := Z.to_nat 50000.
Definition CONFIG_MAX : nat := 1.

(** [insert(key, value, 0)] with its result dropped *)
Definition insert_bounded {K V} `{Countable K} (max : nat) (k : K) (v : V) (m : gmap K V) : gmap K V :=
  if bool_decide (is_Some (m !! k)) || Nat.ltb (size m) max then <[k := v]> m else m.

Section model.
Context `{HashOps}.

(** [bpf_ktime_get_ns], [bpf_get_current_pid_tgid], and whether the ring buffer takes the event *)
Context (ktime pid_tgid : list DenyEvent -> Z) (room : list DenyEvent -> bool).

Definition emit_deny_event (inode device reason : Z) (m : AppraisalMaps) : AppraisalMaps :=
  let event := {| timestamp_ns := ktime m.(DENY_EVENTS); d_inode := inode; d_device := device; d_reason := reason;
                  expected_prefix := array x00 8; actual_prefix := array x00 8; pid := as_u32 (pid_tgid m.(DENY_EVENTS)) |} in
  {| SCOPE := m.(SCOPE); IMAGES := m.(IMAGES); CONFIG := m.(CONFIG);
     DENY_EVENTS := if room m.(DENY_EVENTS) then m.(DENY_EVENTS) ++ [event] else m.(DENY_EVENTS) |}.

Definition verify_merkle_leaf (leaf_digest root : list byte) (_block_count : Z) : bool :=
  let zero := array x00 SHA256_LEN in
  if constant_time_hash_eq root zero then true
  else negb (constant_time_hash_eq leaf_digest zero).

Definition appraise_file (inode device : Z) (file_digest : list byte) (m : AppraisalMaps) : Z * AppraisalMaps :=
  let key := (inode, device) in
  match m.(SCOPE) !! key with
  | None => (0, m)
  | Some _ =>
      match m.(IMAGES) !! key with
      | None => (-1, emit_deny_event inode device (reason_code MissingEntry) m)
      | Some integrity =>
          if negb (Z.land integrity.(i_flags) 0x01 =? 0)
          then (-1, emit_deny_event inode device (reason_code AttestationMissing) m)
          else if integrity.(block_count) =? 0 then
            if negb (constant_time_hash_eq file_digest integrity.(expected_digest))
            then (-1, emit_deny_event inode device (reason_code DigestMismatch) m)
            else (0, m)
          else if negb (verify_merkle_leaf file_digest integrity.(merkle_root) integrity.(block_count))
          then (-1, emit_deny_event inode device (reason_code MerkleFailure) m)
          else (0, m)
      end
  end.

(** The hooks, whatever their context *)
Definition dfim_bprm_check (m : AppraisalMaps) : Z * AppraisalMaps := (0, m).
Definition dfim_file_mmap (m : AppraisalMaps) : Z * AppraisalMaps := (0, m).
Definition dfim_inode_permission (m : AppraisalMaps) : Z * AppraisalMaps := (0, m).
Definition dfim_file_open (m : AppraisalMaps) : Z * AppraisalMaps := (0, m).
Definition dfim_kernel_module (m : AppraisalMaps) : Z * AppraisalMaps := (0, m).

Definition insert_scope_entry (inode device : Z) (entry : ScopeEntryV1) (m : AppraisalMaps) : AppraisalMaps :=
  {| SCOPE := insert_bounded SCOPE_MAX (inode, device) entry m.(SCOPE); IMAGES := m.(IMAGES); CONFIG := m.(CONFIG);
     DENY_EVENTS := m.(DENY_EVENTS) |}.

Definition insert_integrity_entry (inode device : Z) (digest root : list byte) (count policy : Z) (m : AppraisalMaps) : AppraisalMaps :=
  let entry := {| expected_digest := digest; merkle_root := root; block_count := count; policy_id := policy; i_flags := 0 |} in
  {| SCOPE := m.(SCOPE); IMAGES := insert_bounded SCOPE_MAX (inode, device) entry m.(IMAGES); CONFIG := m.(CONFIG);
     DENY_EVENTS := m.(DENY_EVENTS) |}.

Definition set_config (config : DfimConfigV1) (m : AppraisalMaps) : AppraisalMaps :=
  {| SCOPE := m.(SCOPE); IMAGES := m.(IMAGES); CONFIG := insert_bounded CONFIG_MAX 0 config m.(CONFIG);
     DENY_EVENTS := m.(DENY_EVENTS) |}.

(** ** Specification *)

(** When a file is admitted, and why it is refused *)
Definition verdict (m : AppraisalMaps) (key : Key) (digest : list byte) : option DenyReason :=
  match m.(SCOPE) !! key, m.(IMAGES) !! key with
  | None, _ => None
  | Some _, None => Some MissingEntry
  | Some _, Some e =>
      if Z.odd e.(i_flags) then Some AttestationMissing
      else if bool_decide (e.(block_count) = 0) then (if bool_decide (digest = e.(expected_digest)) then None else Some DigestMismatch)
      else if bool_decide (e.(merkle_root) = array x00 32 \/ digest <> array x00 32) then None else Some MerkleFailure
  end.
End model.

Section proofs.
Context `{HashLaws}.
Context (ktime pid_tgid : list DenyEvent -> Z) (room : list DenyEvent -> bool).

Lemma land1_odd z : negb (Z.land z 0x01 =? 0) = Z.odd z.
Proof.
  change 1 with (Z.ones 1). rewrite Z.land_ones by lia. change (2 ^ 1) with 2.
  rewrite Zmod_odd. by destruct (Z.odd z).
Qed.

Lemma leaf_spec digest root n : verify_merkle_leaf digest root n = bool_decide (root = array x00 32 \/ digest <> array x00 32).
Proof.
  unfold verify_merkle_leaf, constant_time_hash_eq, SHA256_LEN. cbv zeta.
  destruct (ct_eq root (array x00 32)) eqn:E1; [apply ct_eq_spec in E1; by rewrite bool_decide_eq_true_2 by (by left)|].
  apply ct_eq_false in E1. destruct (ct_eq digest (array x00 32)) eqn:E2; cbn [negb]; symmetry.
  - apply ct_eq_spec in E2. apply bool_decide_eq_false. tauto.
  - apply ct_eq_false in E2. apply bool_decide_eq_true. by right.
Qed.

(** Every branch of the appraisal: the file is admitted and nothing changes, or it is refused
    and exactly one event with the reason is offered to the ring buffer. *)
Theorem appraise_file_exact inode device digest m :
  appraise_file ktime pid_tgid room inode device digest m =
    match verdict m (inode, device) digest with
    | None => (0, m)
    | Some r => (-1, emit_deny_event ktime pid_tgid room inode device (reason_code r) m)
    end.
Proof.
  unfold appraise_file, verdict. cbv zeta. destruct (SCOPE m !! (inode, device)); [|done].
  destruct (IMAGES m !! (inode, device)) as [e|]; [|done]. rewrite land1_odd. destruct (Z.odd (i_flags e)); [done|].
  destruct (Z.eqb_spec (block_count e) 0) as [Hb|Hb].
  - rewrite bool_decide_eq_true_2 by done. unfold constant_time_hash_eq. destruct (ct_eq digest _) eqn:E.
    + apply ct_eq_spec in E. by rewrite bool_decide_eq_true_2.
    + apply ct_eq_false in E. by rewrite bool_decide_eq_false_2.
  - rewrite (bool_decide_eq_false_2 _ Hb), leaf_spec. by destruct (bool_decide (_ \/ _)).
Qed.

Lemma insert_bounded_same {K V} `{Countable K} max (k : K) (v : V) m :
  is_Some (m !! k) \/ (size m < max)%nat -> insert_bounded max k v m !! k = Some v.
Proof.
  intros Hr. unfold insert_bounded. destruct (_ || _) eqn:E; [apply lookup_insert_eq|].
  apply orb_false_iff in E as [Hn%bool_decide_eq_false Hl%Nat.ltb_ge]. destruct Hr; [done|lia].
Qed.

Lemma insert_bounded_other {K V} `{Countable K} max (k k' : K) (v : V) m :
  k <> k' -> insert_bounded max k v m !! k' = m !! k'.
Proof. intros Hk. unfold insert_bounded. destruct (_ || _); [by rewrite lookup_insert_ne|done]. Qed.

(** Enrolment by digest.  If both maps have room, the file is admitted with the enrolled digest
    and with no other, and what happens to every other file is unchanged. *)
Theorem enroll_then_appraise inode device entry digest root policy m :
  (size m.(SCOPE) < SCOPE_MAX)%nat -> (size m.(IMAGES) < SCOPE_MAX)%nat ->
  let m' := insert_integrity_entry inode device digest root 0 policy (insert_scope_entry inode device entry m) in
  (forall d, fst (appraise_file ktime pid_tgid room inode device d m') = if bool_decide (d = digest) then 0 else -1) /\
  (forall i v d, (i, v) <> (inode, device) ->
     fst (appraise_file ktime pid_tgid room i v d m') = fst (appraise_file ktime pid_tgid room i v d m)).
Proof.
  intros Hs Hi m'. split.
  - intros d. rewrite appraise_file_exact. unfold verdict, m', insert_integrity_entry, insert_scope_entry. cbn [SCOPE IMAGES].
    rewrite !insert_bounded_same by (by right). cbn [i_flags block_count expected_digest Z.odd].
    rewrite bool_decide_eq_true_2 by done. by destruct (bool_decide (d = digest)).
  - intros i v d Hne. rewrite !appraise_file_exact. unfold verdict, m', insert_integrity_entry, insert_scope_entry. cbn [SCOPE IMAGES].
    rewrite !insert_bounded_other by done. by repeat case_match.
Qed.

(** In the mode with blocks the digest is compared with nothing: an enrolled asset is admitted
    with every digest but zero, and with a zero root with every digest. *)
Theorem merkle_mode_hollow inode device e s digest m :
  m.(SCOPE) !! (inode, device) = Some s -> m.(IMAGES) !! (inode, device) = Some e -> Z.odd e.(i_flags) = false ->
  e.(block_count) <> 0 -> digest <> array x00 32 ->
  appraise_file ktime pid_tgid room inode device digest m = (0, m).
Proof.
  intros Hs He Hf Hb Hd. rewrite appraise_file_exact. unfold verdict. rewrite Hs, He, Hf.
  rewrite (bool_decide_eq_false_2 _ Hb), bool_decide_eq_true_2 by (by right). done.
Qed.

End proofs.

(** An enrolled asset on an empty module *)
Module AppraisalWitness.
#[local] Existing Instance Toy.hash.
#[local] Existing Instance toy_hash_laws.

Definition empty : AppraisalMaps := {| SCOPE := ∅; IMAGES := ∅; CONFIG := ∅; DENY_EVENTS := [] |}.
Definition scope : ScopeEntryV1 := ScopeEntry.active 1 (array x00 32).

Lemma enroll_then_appraise_witness :
  let m := insert_integrity_entry 7 1 (array x42 32) (array x00 32) 0 9 (insert_scope_entry 7 1 scope empty) in
  fst (appraise_file (fun _ => 5) (fun _ => 6) (fun _ => true) 7 1 (array x42 32) m) = 0 /\
  fst (appraise_file (fun _ => 5) (fun _ => 6) (fun _ => true) 7 1 (array x41 32) m) = -1.
Proof.
  intros m.
  destruct (enroll_then_appraise (fun _ => 5) (fun _ => 6) (fun _ => true) 7 1 scope (array x42 32) (array x00 32) 9 empty) as [H1 _];
    [unfold SCOPE_MAX; cbn [SCOPE empty]; rewrite map_size_empty; lia|unfold SCOPE_MAX; cbn [IMAGES empty]; rewrite map_size_empty; lia|].
  split; unfold m; rewrite H1; [by rewrite bool_decide_eq_true_2|by rewrite bool_decide_eq_false_2].
Defined.
End AppraisalWitness.
