(* ===== verification/Commitment.v ===== *)
(** * Commitment: key derivation, manifest authentication and the build identity

    [dfim_core_engine/src] [kdf.rs], [phasor.rs], and the labels of [secrets.rs] that they
    use.  The HMAC and HKDF of the crates [hmac] and [hkdf], the allocator, and the macro
    [lc!] that hides literals are parameters.

    The salt is the digest of the two truncated inputs ([derive_salt_exact]); the manifest
    text reads back as the two lists of numbers ([manifest_read_back]), so that equal tags
    under one seed are tags of the same lists or a collision of the MAC
    ([manifest_authentication]); the build identity binds the list of terms as long as no role
    holds a NUL ([build_identity_binding], and [build_identity_nul_ambiguous] without that
    condition). *)

From stdpp Require Import base list numbers option strings.
From Stdlib Require Import ZArith Lia Strings.Byte.
From S2P Require Import Prelude Crypto Core Json Text.

Definition NEWLINE : byte := x0a.
Definition BAR : byte := x7c.

(** ** Interfaces *)

(** [Hmac::<Sha256>::new_from_slice(key)], then [update] and [finalize]; and
    [Hkdf::<Sha256>::new(Some(salt), ikm).expand(info, okm)] with the length of [okm]. *)
Class MacOps := {
  hmac_sha256 : list byte -> option (list byte -> list byte);
  hkdf_sha256 : list byte -> list byte -> list byte -> Z -> option (list byte)
}.

(** HMAC takes keys of every length; HKDF expands to at most 255 blocks. *)
Class MacLaws `{MacOps} : Prop := {
  hmac_accepts : forall key, exists mac, hmac_sha256 key = Some mac /\ forall msg, length (mac msg) = 32%nat;
  hkdf_expands : forall salt ikm info n, 0 <= n <= 255 * 32 ->
    exists okm, hkdf_sha256 salt ikm info n = Some okm /\ zlen okm = n
}.

(** The feature [hardening] and what [lc!] returns at run time for a literal. *)
Class Literals := { hardening : bool; lc : list byte -> list byte }.
Class LiteralLaws `{Literals} : Prop := { lc_decrypts : forall s, lc s = s }.

(** ** Operations *)

Section labels.
Context `{Literals}.

Definition lc_static (s : list byte) : list byte := if hardening then lc s else s.

Definition protocol_id : list byte := lc_static (txt "dfim_integrity_protocol_v1").
Definition default_salt_label : list byte := lc_static (txt "DFIM-INTEGRITY-v1").
Definition anchors_label : list byte := lc_static (txt "anchors").

Definition protocol_id_const : list byte := protocol_id.
Definition default_salt_label_const : list byte := default_salt_label.
End labels.

Section model.
Context `{HashOps} `{MacOps} `{Literals}.

Definition AUTH_INFO : list byte := txt "dfim-manifest-auth-v1".

Definition derive_salt (salt_label seed : list byte) : DfimResult (list byte) :=
  if zlen seed =? 0 then Err EmptyInput
  else
    let label_len := Z.min (zlen salt_label) 200 in
    let seed_len := Z.min (zlen seed) 56 in
    let buf := array x00 256 in
    l ← slice salt_label 0 label_len;
    buf ← copy_into buf 0 label_len l;
    s ← slice seed 0 seed_len;
    buf ← copy_into buf label_len (label_len + seed_len) s;
    b ← slice buf 0 (label_len + seed_len);
    Ok (sha256_digest b).

Definition derive_authentication_key (seed salt info : list byte) : DfimResult (list byte) :=
  ok_or (hkdf_sha256 salt seed info DK_LEN) IntegrityFailure.

Definition authentication_tag (key manifest_bytes : list byte) : DfimResult (list byte) :=
  if zlen manifest_bytes =? 0 then Err EmptyInput
  else
    mac ← ok_or (hmac_sha256 key) IntegrityFailure;
    copy_into (array x00 DK_LEN) 0 DK_LEN (mac manifest_bytes).

(** One round of the two loops: the text so far and the index of the number *)
Definition push_number (st : list byte * Z) (c : Z) : list byte * Z :=
  let '(s, i) := st in ((if i >? 0 then s ++ [BAR] else s) ++ to_string c, i + 1).

Definition numbers (l : list Z) : list byte := fst (fold_left push_number l ([], 0)).

Definition canonical_manifest_bytes (coords abjad : list Z) : DfimResult (list byte) :=
  if (zlen coords =? 0) && (zlen abjad =? 0) then Err EmptyInput
  else
    let coords_str := numbers coords in
    let abjad_str := numbers abjad in
    Ok (protocol_id_const ++ [NEWLINE] ++ anchors_label ++ [NEWLINE] ++ coords_str ++ [NEWLINE] ++ abjad_str).

Definition authenticate_manifest (seed manifest_bytes : list byte) : DfimResult (list byte) :=
  salt ← derive_salt default_salt_label_const seed;
  key ← derive_authentication_key seed salt AUTH_INFO;
  authentication_tag key manifest_bytes.

(** [reserved] tells whether the allocator grants the reservation. *)
Definition hkdf_sha256_expand (reserved : Z -> bool) (ikm salt info : list byte) (out_len : Z) : DfimResult (list byte) :=
  if (zlen ikm =? 0) || (out_len =? 0) || (out_len >? DK_LEN * 4) then Err InvalidParameter
  else if negb (reserved out_len) then Err ParameterOverflow
  else ok_or (hkdf_sha256 salt ikm info out_len) IntegrityFailure.

(** [phi_rad] and [weight] are the bit patterns of [f32]: the code only takes [to_bits]. *)
Record PhasorTerm := { role : list byte; rank : Z; axis : Z; phi_rad : Z; weight : Z }.

Definition append_canonical_term (term : PhasorTerm) (out : list byte) : list byte :=
  let out := out ++ term.(role) in
  let out := out ++ [x00] in
  let out := out ++ le_encode 4 term.(rank) in
  let out := out ++ le_encode 4 term.(axis) in
  let out := out ++ le_encode 4 term.(phi_rad) in
  out ++ le_encode 4 term.(weight).

Definition build_identity_hash (terms : list PhasorTerm) : DfimResult (list byte) :=
  if zlen terms =? 0 then Err EmptyInput
  else Ok (sha256_digest (fold_left (fun buf term => append_canonical_term term buf) terms [])).

Definition build_identity_hex (hash : list byte) : DfimResult (list byte) := digest_to_hex hash.
End model.

(** ** Specification: reading a manifest back *)

Definition read_numbers (s : list byte) : option (list Z) :=
  match s with [] => Some [] | _ => mapM read_number (split_on BAR s) end.

Definition read_manifest `{Literals} (m : list byte) : option (list Z * list Z) :=
  match split_on NEWLINE m with
  | [p; a; c; b] =>
      if bytes_eqb p protocol_id && bytes_eqb a anchors_label then
        coords ← read_numbers c; abjad ← read_numbers b; Some (coords, abjad)
      else None
  | _ => None
  end.

(** ** Numbers *)

Lemma to_string_nonempty n : u64 n -> to_string n <> [].
Proof.
  intros Hn. destruct (dec_loop_head 39 n) as (c & l & He & _); [by apply u64_digits|lia|].
  unfold to_string. by rewrite He.
Qed.

Lemma push_numbers l s i : 0 < i ->
  fst (fold_left push_number l (s, i)) = s ++ concat (map (fun c => BAR :: to_string c) l).
Proof.
  revert s i. induction l as [|c l IH]; intros s i Hi; [symmetry; apply app_nil_r|].
  cbn [fold_left push_number map concat]. rewrite IH by lia.
  rewrite Z.gtb_ltb, (proj2 (Z.ltb_lt 0 i)) by lia. by rewrite <- !app_assoc.
Qed.

Lemma join_bars s l : join [BAR] (s :: l) = s ++ concat (map (cons BAR) l).
Proof. revert s. induction l as [|t l IH]; intros s; [symmetry; apply app_nil_r|]. change (s ++ BAR :: join [BAR] (t :: l) = s ++ BAR :: t ++ concat (map (cons BAR) l)). by rewrite IH. Qed.

Lemma numbers_join l : numbers l = join [BAR] (map to_string l).
Proof.
  destruct l as [|c l]; [done|]. unfold numbers. cbn [fold_left push_number map].
  rewrite push_numbers by lia. rewrite join_bars, map_map. done.
Qed.

Lemma numbers_without c l : is_digit c = false -> c <> BAR -> Forall u64 l -> without c (numbers l) = true.
Proof.
  intros Hc Hb Hl. rewrite numbers_join. destruct Hl as [|n l Hn Hl]; [done|]. cbn [map]. rewrite join_bars.
  unfold without. rewrite forallb_app. apply andb_true_intro.
  split; [apply to_string_without; [done|apply Hn]|].
  induction Hl as [|m l Hm Hl IH]; [done|]. cbn [map concat app forallb]. rewrite forallb_app. apply andb_true_intro. split.
  - apply negb_true_iff, not_true_iff_false. intros He%byte_eqb_eq. by subst.
  - apply andb_true_intro. split; [|done]. apply to_string_without; [done|apply Hm].
Qed.

Lemma read_numbers_numbers l : Forall u64 l -> read_numbers (numbers l) = Some l.
Proof.
  intros Hl. rewrite numbers_join. destruct Hl as [|n l Hn Hl]; [done|].
  unfold read_numbers. pose proof (to_string_nonempty n Hn).
  destruct (join [BAR] (map to_string (n :: l))) as [|b s] eqn:Hj.
  { cbn [map] in Hj. rewrite join_bars in Hj. by apply app_eq_nil in Hj as [? _]. }
  rewrite <- Hj, split_join; [| done |].
  - apply mapM_Some. rewrite Forall2_fmap_l. apply Forall_Forall2_diag.
    by apply (Forall_impl u64); [constructor|apply read_number_to_string].
  - apply Forall_map, (Forall_impl u64); [by constructor|]. intros m Hm. apply to_string_without; [done|apply Hm].
Qed.

(** ** The salt and the tag *)

Section proofs.
Context `{HashLaws} `{MacLaws} `{LiteralLaws}.

Lemma lc_static_plain s : lc_static s = s.
Proof. unfold lc_static. destruct hardening; [apply lc_decrypts|done]. Qed.

(** The documented salt is the digest of the label followed by the seed.  It is, for labels
    of at most 200 bytes and seeds of at most 56; what lies beyond is ignored. *)
Theorem derive_salt_exact label seed :
  derive_salt label seed =
    if zlen seed =? 0 then Err EmptyInput else Ok (sha256_digest (take 200 label ++ take 56 seed)).
Proof.
  unfold derive_salt. destruct (zlen seed =? 0); [done|]. cbv zeta.
  assert (Ht : forall k (l : list byte), Z.min (zlen l) (Z.of_nat k) = zlen (take k l))
    by (intros; unfold zlen; rewrite length_take; lia).
  assert (Hs : forall k (l : list byte), @slice DfimError _ l 0 (Z.min (zlen l) (Z.of_nat k)) = Ok (take k l)).
  { intros k l. rewrite slice_take by (unfold zlen; lia). f_equal. unfold zlen.
    destruct (decide (k <= length l)%nat); [by replace (Z.to_nat _) with k by lia|].
    rewrite !take_ge by lia. done. }
  rewrite (Hs 200%nat), ok_bind. change 200 with (Z.of_nat 200). change 56 with (Z.of_nat 56).
  rewrite (Hs 56%nat), !Ht.
  pose proof (f_equal Z.of_nat (length_take label 200)) as Hl1.
  pose proof (f_equal Z.of_nat (length_take seed 56)) as Hl2.
  change (array x00 256) with ([] ++ array x00 256).
  rewrite (fill_next [] (take 200 label)) by (unfold zlen in *; simpl; lia). rewrite ok_bind, app_nil_l, ok_bind.
  rewrite fill_next by (unfold zlen in *; lia). rewrite ok_bind, slice_head by (by rewrite zlen_app). by rewrite ok_bind.
Qed.

Lemma tag_exact key m : exists mac, hmac_sha256 key = Some mac /\
  authentication_tag key m = if zlen m =? 0 then Err EmptyInput else Ok (mac m).
Proof.
  destruct (hmac_accepts key) as (mac & Hm & Hl). exists mac. split; [done|]. unfold authentication_tag.
  destruct (zlen m =? 0); [done|]. rewrite Hm. cbn [ok_or]. rewrite ok_bind, copy_into_ok.
  - rewrite splice_all; [done|]. by rewrite Hl.
  - done.
  - by rewrite zlen_array.
  - unfold zlen. by rewrite Hl.
Qed.

(** The key of a seed *)
Lemma authenticate_exact seed : seed <> [] -> exists key mac,
  hkdf_sha256 (sha256_digest (default_salt_label ++ take 56 seed)) seed AUTH_INFO DK_LEN = Some key /\
  zlen key = DK_LEN /\ hmac_sha256 key = Some mac /\ (forall m, zlen (mac m) = DK_LEN) /\
  forall m, authenticate_manifest seed m = if zlen m =? 0 then Err EmptyInput else Ok (mac m).
Proof.
  intros Hs. set (salt := sha256_digest (default_salt_label ++ take 56 seed)).
  destruct (hkdf_expands salt seed AUTH_INFO DK_LEN) as (key & Hk & Hkl); [by unfold DK_LEN|].
  destruct (hmac_accepts key) as (mac & Hm & Hml). exists key, mac.
  split_and!; [done..|intros m; unfold zlen; by rewrite Hml|]. intros m.
  unfold authenticate_manifest. rewrite derive_salt_exact.
  rewrite (proj2 (Z.eqb_neq _ _)) by (pose proof (zlen_pos seed Hs); lia). rewrite ok_bind.
  change (take 200 default_salt_label_const) with (take 200 default_salt_label).
  rewrite take_ge by (unfold default_salt_label; rewrite lc_static_plain; by vm_compute; lia).
  fold salt. unfold derive_authentication_key. rewrite Hk. cbn [ok_or]. rewrite ok_bind.
  destruct (tag_exact key m) as (mac' & Hm' & ->). by simplify_eq.
Qed.

Lemma manifest_read_back coords abjad : Forall u64 coords -> Forall u64 abjad -> 
  canonical_manifest_bytes coords abjad = Err EmptyInput /\ coords = [] /\ abjad = [] \/
  exists m, canonical_manifest_bytes coords abjad = Ok m /\ m <> [] /\ read_manifest m = Some (coords, abjad).
Proof.
  intros Hc Ha. unfold canonical_manifest_bytes.
  destruct ((zlen coords =? 0) && (zlen abjad =? 0)) eqn:E.
  { apply andb_true_iff in E as [?%Z.eqb_eq%zlen_0_nil ?%Z.eqb_eq%zlen_0_nil]. by left. }
  right. eexists. split; [done|]. unfold protocol_id_const, read_manifest, protocol_id, anchors_label.
  rewrite !lc_static_plain. split; [done|]. cbn [app].
  rewrite split_on_app by done. rewrite split_on_app by done.
  rewrite split_on_app by (by apply numbers_without). rewrite split_on_without by (by apply numbers_without).
  rewrite !bytes_eqb_refl. cbn [andb]. rewrite !read_numbers_numbers by done. done.
Qed.

(** C29: Manifest authentication.  For every seed of 32 bytes and every two lists of [u64] that
    are not both empty, the canonical text is built and reads back as exactly these lists; its tag is
    produced, has 32 bytes and is the MAC of the text under the key that HKDF derives from
    the seed with the salt [SHA256(label || seed)]; and any other lists with the same tag
    under the same seed are a collision of the MAC under that key.  An empty manifest is
    refused under that seed; and the derivation of a salt refuses an empty seed with any label,
    and no other. *)
Theorem manifest_authentication seed coords abjad :
  zlen seed = DK_LEN -> Forall u64 coords -> Forall u64 abjad -> coords <> [] \/ abjad <> [] ->
  (forall label s, derive_salt label s = Err EmptyInput <-> s = []) /\ authenticate_manifest seed [] = Err EmptyInput /\
  exists m tag, canonical_manifest_bytes coords abjad = Ok m /\ read_manifest m = Some (coords, abjad) /\
    authenticate_manifest seed m = Ok tag /\ zlen tag = DK_LEN /\
    exists key mac, hkdf_sha256 (sha256_digest (default_salt_label ++ seed)) seed AUTH_INFO DK_LEN = Some key /\
      hmac_sha256 key = Some mac /\ tag = mac m /\
      forall coords' abjad' m', Forall u64 coords' -> Forall u64 abjad' ->
        canonical_manifest_bytes coords' abjad' = Ok m' -> authenticate_manifest seed m' = Ok tag ->
        coords' = coords /\ abjad' = abjad \/ m' <> m /\ mac m' = mac m.
Proof.
  intros Hs Hc Ha Hne. assert (Hs0 : seed <> []) by (intros ->; by vm_compute in Hs).
  destruct (authenticate_exact seed Hs0) as (key & mac & Hk & _ & Hm & Hml & Hauth).
  rewrite take_ge in Hk by (unfold zlen, DK_LEN in Hs; lia).
  split; [intros label s; rewrite derive_salt_exact; by destruct s|]. split; [by rewrite Hauth|].
  destruct (manifest_read_back coords abjad Hc Ha) as [(_ & -> & ->)|(m & Hcm & Hm0 & Hr)]; [by destruct Hne|].
  assert (Hz : forall x : list byte, x <> [] -> (zlen x =? 0) = false)
    by (intros x Hx; apply Z.eqb_neq; pose proof (zlen_pos x Hx); lia).
  exists m, (mac m). split_and!; [done..| |done|]; [by rewrite Hauth, Hz|].
  exists key, mac. split_and!; [done..|]. intros c' a' m' Hc' Ha' Hcm'.
  destruct (manifest_read_back c' a' Hc' Ha') as [(He & _)|(m2 & He & Hm2 & Hr')]; rewrite He in Hcm'; simplify_eq.
  rewrite Hauth, Hz by done. intros [= Heq]. destruct (decide (m' = m)) as [->|]; [left|by right].
  rewrite Hr in Hr'. by simplify_eq.
Qed.

(** The key material for a build identity: refused exactly on an empty secret, on a length
    of 0 or above 128, and when memory runs out; otherwise as long as asked. *)
Theorem hkdf_expand_exact reserved ikm salt info n : 0 <= n ->
  match hkdf_sha256_expand reserved ikm salt info n with
  | Ok okm => ikm <> [] /\ 1 <= n <= 128 /\ reserved n = true /\ zlen okm = n /\ hkdf_sha256 salt ikm info n = Some okm
  | Err InvalidParameter => ikm = [] \/ n = 0 \/ 128 < n
  | Err e => e = ParameterOverflow /\ reserved n = false
  | Panic => False
  end.
Proof.
  intros Hn. unfold hkdf_sha256_expand. unfold DK_LEN. rewrite Z.gtb_ltb.
  destruct (Z.eqb_spec (zlen ikm) 0) as [Hnil%zlen_0_nil|Hi]; [by left|].
  destruct (Z.eqb_spec n 0); [by right; left|]. destruct (Z.ltb_spec (32 * 4) n); [right; right; lia|]. cbn [orb].
  destruct (reserved n) eqn:Er; [|done]. cbn [negb].
  destruct (hkdf_expands salt ikm info n) as (okm & Hk & Hl); [lia|]. rewrite Hk. cbn [ok_or].
  split_and!; [by intros ->|lia|lia|done|done|done].
Qed.

(** ** The build identity *)

Definition u32 (z : Z) : Prop := 0 <= z <= U32_MAX.

(** The types of the fields, and a role without NUL *)
Definition term_wf (t : PhasorTerm) : Prop :=
  without x00 t.(role) = true /\ u32 t.(rank) /\ u32 t.(axis) /\ u32 t.(phi_rad) /\ u32 t.(weight).

Definition term_bytes (t : PhasorTerm) : list byte :=
  t.(role) ++ x00 :: le_encode 4 t.(rank) ++ le_encode 4 t.(axis) ++ le_encode 4 t.(phi_rad) ++ le_encode 4 t.(weight).

Lemma append_term t out : append_canonical_term t out = out ++ term_bytes t.
Proof. unfold append_canonical_term, term_bytes. cbv zeta. by rewrite <- !app_assoc. Qed.

Lemma append_terms terms out :
  fold_left (fun buf t => append_canonical_term t buf) terms out = out ++ concat (map term_bytes terms).
Proof.
  revert out. induction terms as [|t terms IH]; intros out; [symmetry; apply app_nil_r|].
  cbn [fold_left map concat]. by rewrite IH, append_term, <- app_assoc.
Qed.

Lemma role_split p q x y : without x00 p = true -> without x00 q = true -> p ++ x00 :: x = q ++ x00 :: y -> p = q /\ x = y.
Proof.
  intros Hp Hq He. assert (Hs : split_on x00 (p ++ x00 :: x) = split_on x00 (q ++ x00 :: y)) by by rewrite He.
  rewrite !split_on_app in Hs by done. injection Hs as -> _. apply app_inv_head in He. by injection He.
Qed.

Lemma le4_split a b x y : u32 a -> u32 b -> le_encode 4 a ++ x = le_encode 4 b ++ y -> a = b /\ x = y.
Proof.
  intros Ha Hb He. apply app_inj_1 in He as [He ->]; [|by rewrite !length_le_encode]. split; [|done].
  apply (f_equal le_decode) in He. rewrite !le_decode_encode_small in He; [done|unfold u32, U32_MAX in *; lia..].
Qed.

Lemma terms_injective ts us : Forall term_wf ts -> Forall term_wf us ->
  concat (map term_bytes ts) = concat (map term_bytes us) -> ts = us.
Proof.
  intros Ht. revert us. induction Ht as [|t ts (Hr & Hk & Hx & Hp & Hw) Ht IH]; intros us Hu He;
    destruct Hu as [|u us (Hr' & Hk' & Hx' & Hp' & Hw') Hu]; cbn [map concat] in He; [done| | |].
  - unfold term_bytes in He. by destruct (role u).
  - unfold term_bytes in He. by destruct (role t).
  - unfold term_bytes in He. rewrite <- !app_assoc in He. cbn [app] in He.
    apply role_split in He as [He1 He]; [|done..]. rewrite <- !app_assoc in He.
    apply le4_split in He as [He2 He]; [|done..]. apply le4_split in He as [He3 He]; [|done..].
    apply le4_split in He as [He4 He]; [|done..]. apply le4_split in He as [He5 He]; [|done..].
    rewrite (IH us Hu He). destruct t, u. cbn in *. by subst.
Qed.

(** The build identity binds the terms: two lists with the same hash are the same list, or
    their encodings are two strings with the same digest. *)
Theorem build_identity_binding ts us h : Forall term_wf ts -> Forall term_wf us ->
  build_identity_hash ts = Ok h -> build_identity_hash us = Ok h ->
  ts = us \/ collision (concat (map term_bytes ts)) (concat (map term_bytes us)).
Proof.
  intros Ht Hu. unfold build_identity_hash. destruct (zlen ts =? 0), (zlen us =? 0); try done.
  rewrite !append_terms, !app_nil_l. intros [= Hts] [= Hus]. rewrite <- Hus in Hts.
  destruct (sha256_inj_or_collision _ _ Hts) as [He|Hc]; [left|by right]. by apply terms_injective.
Qed.

(** Without the condition on roles it does not: a role may hold the encoding of a whole
    term. *)
Theorem build_identity_nul_ambiguous t u : let r := {| role := term_bytes t ++ role u; rank := rank u; axis := axis u;
    phi_rad := phi_rad u; weight := weight u |} in
  [t; u] <> [r] /\ build_identity_hash [t; u] = build_identity_hash [r].
Proof.
  intros r. split; [done|]. unfold build_identity_hash. rewrite !append_terms. cbn [map concat].
  unfold r at 2. unfold term_bytes at 3. cbn [role rank axis phi_rad weight]. rewrite !app_nil_r, !app_nil_l, <- app_assoc. done.
Qed.
End proofs.

(** ** Concrete inputs *)

Module ToyCommitment.
(** Instances made of the toy digest *)
Definition mac : MacOps := {|
  hmac_sha256 key := Some (fun m => Toy.toy_digest (key ++ m));
  hkdf_sha256 salt ikm info n := Some (take (Z.to_nat n) (Toy.toy_digest (salt ++ ikm ++ info) ++ array x00 n))
|}.
Definition literals : Literals := {| hardening := true; lc := id |}.

Lemma mac_laws : @MacLaws mac.
Proof.
  split.
  - intros key. eexists. split; [done|]. intros m. apply length_toy_digest.
  - intros salt ikm info n Hn. eexists. split; [done|]. unfold zlen. rewrite length_take, length_app.
    unfold array. rewrite length_replicate. lia.
Qed.

Lemma literal_laws : @LiteralLaws literals.
Proof. by split. Qed.
End ToyCommitment.

Section witnesses.
#[local] Existing Instance Toy.hash.
#[local] Existing Instance toy_hash_laws.
#[local] Existing Instance ToyCommitment.mac.
#[local] Existing Instance ToyCommitment.mac_laws.
#[local] Existing Instance ToyCommitment.literals.
#[local] Existing Instance ToyCommitment.literal_laws.

Lemma manifest_authentication_witness :
  exists m tag, canonical_manifest_bytes [7; 1024] [U64_MAX] = Ok m /\
    m = txt "dfim_integrity_protocol_v1" ++ [x0a] ++ txt "anchors" ++ [x0a] ++ txt "7|1024" ++ [x0a] ++ txt "18446744073709551615" /\
    authenticate_manifest (array x42 32) m = Ok tag /\ zlen tag = 32.
Proof.
  destruct (manifest_authentication (array x42 32) [7; 1024] [U64_MAX]) as (_ & _ & m & tag & Hm & _ & Ht & Hl & _);
    [by vm_compute|repeat constructor; by vm_compute|repeat constructor; by vm_compute|by left|].
  exists m, tag. split_and!; [done| |done|done]. vm_compute in Hm. by injection Hm as <-.
Defined.

Definition term (n : Z) : PhasorTerm := {| role := txt "noor"; rank := n; axis := 0; phi_rad := 0xc0010819; weight := 0x3d209020 |}.

Lemma build_identity_binding_witness :
  [term 1; term 2] = [term 1; term 2] \/
  collision (concat (map term_bytes [term 1; term 2])) (concat (map term_bytes [term 1; term 2])).
Proof.
  apply (build_identity_binding [term 1; term 2] [term 1; term 2] (Toy.toy_digest (concat (map term_bytes [term 1; term 2]))));
    [repeat constructor; by vm_compute| repeat constructor; by vm_compute|by vm_compute|by vm_compute].
Defined.
End witnesses.
