(* ===== verification/Fips.v ===== *)
(** * Fips: the power-on self tests and the operating mode

    [dfim_core_engine/src/fips.rs].  The module keeps one atomic byte, the mode; every
    operation loads it once and [fips_module_init] stores it after the known-answer tests.
    The hash and the MAC are the parameters of [Crypto] and [Commitment].

    [known_answers_hold] evaluates the tests on the SHA-256 of FIPS 180-4 (the definition
    that [Sha256Bpf] proves the in-kernel code to implement) and the HMAC of RFC 2104 on top
    of it: the vectors of the source are right and initialisation succeeds.
    [self_test_decides] is the behaviour over every sequence of initialisations, with
    implementations that may change or fail between them. *)

From stdpp Require Import base list numbers option strings sets.
From Stdlib Require Import ZArith Lia Strings.Byte.
From S2P Require Import Prelude Crypto Core Sha256Bpf Json Commitment.

(** ** Known answers *)

Definition bytes (l : list Z) : list byte := map z2b l.

Definition SHA256_KAT_EMPTY_INPUT : list byte := [].
Definition SHA256_KAT_EMPTY_EXPECTED : list byte := bytes [
  0xe3; 0xb0; 0xc4; 0x42; 0x98; 0xfc; 0x1c; 0x14; 0x9a; 0xfb; 0xf4; 0xc8; 0x99; 0x6f; 0xb9; 0x24;
  0x27; 0xae; 0x41; 0xe4; 0x64; 0x9b; 0x93; 0x4c; 0xa4; 0x95; 0x99; 0x1b; 0x78; 0x52; 0xb8; 0x55].

Definition SHA256_KAT_ABC_INPUT : list byte := txt "abc".
Definition SHA256_KAT_ABC_EXPECTED : list byte := bytes [
  0xba; 0x78; 0x16; 0xbf; 0x8f; 0x01; 0xcf; 0xea; 0x41; 0x41; 0x40; 0xde; 0x5d; 0xae; 0x22; 0x23;
  0xb0; 0x03; 0x61; 0xa3; 0x96; 0x17; 0x7a; 0x9c; 0xb4; 0x10; 0xff; 0x61; 0xf2; 0x00; 0x15; 0xad].

Definition HMAC_KAT_KEY : list byte := array x0b 20.
Definition HMAC_KAT_MSG : list byte := txt "Hi There".
Definition HMAC_KAT_EXPECTED : list byte := bytes [
  0xb0; 0x34; 0x4c; 0x61; 0xd8; 0xdb; 0x38; 0x53; 0x5c; 0xa8; 0xaf; 0xce; 0xaf; 0x0b; 0xf1; 0x2b;
  0x88; 0x1d; 0xc2; 0x00; 0xc9; 0x83; 0x3d; 0xa7; 0x26; 0xe9; 0x37; 0x6c; 0x2e; 0x32; 0xcf; 0xf7].

(** ** The mode *)

Inductive FipsMode := FipsValidated | SoftwareOnly | SelfTestFailed.

Definition FIPS_MODE_FIPS_VALIDATED : Z := 1.
Definition FIPS_MODE_SOFTWARE : Z := 2.
Definition FIPS_MODE_FAILED : Z := 3.

(** [FIPS_MODE] as the program starts *)
Definition FIPS_MODE : Z := FIPS_MODE_SOFTWARE.

Definition fips_mode (mode : Z) : FipsMode :=
  if mode =? FIPS_MODE_FIPS_VALIDATED then FipsValidated
  else if mode =? FIPS_MODE_SOFTWARE then SoftwareOnly
  else SelfTestFailed.

Definition assert_fips_operational (mode : Z) : DfimResult unit :=
  match fips_mode mode with
  | SelfTestFailed => Err IntegrityFailure
  | _ => Ok tt
  end.

Section model.
Context `{HashOps} `{MacOps}.

(** With the feature [full], which is the only one that compiles this module *)
Definition run_power_on_self_tests_software : DfimResult bool :=
  let empty_hash := sha256_digest SHA256_KAT_EMPTY_INPUT in
  if negb (constant_time_hash_eq empty_hash SHA256_KAT_EMPTY_EXPECTED) then Ok false
  else
    let abc_hash := sha256_digest SHA256_KAT_ABC_INPUT in
    if negb (constant_time_hash_eq abc_hash SHA256_KAT_ABC_EXPECTED) then Ok false
    else
      mac ← unwrap (hmac_sha256 HMAC_KAT_KEY);
      hash ← copy_into (array x00 SHA256_LEN) 0 SHA256_LEN (mac HMAC_KAT_MSG);
      if negb (constant_time_hash_eq hash HMAC_KAT_EXPECTED) then Ok false
      else
        let double_hash := sha256_digest (sha256_digest (txt "fips-pct-140-3")) in
        let single_hash := sha256_digest (txt "fips-pct-140-3") in
        if constant_time_hash_eq double_hash single_hash then Ok false else Ok true.

(** Without it: the two hashes only *)
Definition run_power_on_self_tests_hash_only : bool :=
  if negb (constant_time_hash_eq (sha256_digest SHA256_KAT_EMPTY_INPUT) SHA256_KAT_EMPTY_EXPECTED) then false
  else if negb (constant_time_hash_eq (sha256_digest SHA256_KAT_ABC_INPUT) SHA256_KAT_ABC_EXPECTED) then false
  else true.

(** The same with and without the feature [fips-hsm]; a panic in the tests stores nothing. *)
Definition fips_module_init : stm Z DfimError FipsMode :=
  passed ← lift run_power_on_self_tests_software;
  if negb passed then (put FIPS_MODE_FAILED ;; lift (Err IntegrityFailure))
  else (put FIPS_MODE_SOFTWARE ;; mret SoftwareOnly).

Definition fips_sha256 (mode : Z) (data : list byte) : list byte :=
  match fips_mode mode with
  | SelfTestFailed => array x00 SHA256_LEN
  | SoftwareOnly | FipsValidated => sha256_digest data
  end.

Definition fips_hmac_sha256 (mode : Z) (key data : list byte) : DfimResult (list byte) :=
  match fips_mode mode with
  | SelfTestFailed => Ok (array x00 SHA256_LEN)
  | SoftwareOnly | FipsValidated =>
      match hmac_sha256 key with
      | Some mac => copy_into (array x00 SHA256_LEN) 0 SHA256_LEN (mac data)
      | None => Ok (array x00 SHA256_LEN)
      end
  end.

Definition fips_continuous_test : bool :=
  let a := sha256_digest (txt "fips-continuous-test-1") in
  let b := sha256_digest (txt "fips-continuous-test-1") in
  constant_time_hash_eq a b &&
  negb (constant_time_hash_eq a (sha256_digest (txt "fips-continuous-test-2"))).
End model.

(** ** RFC 2104 and RFC 5869 over the SHA-256 of FIPS 180-4 *)

Module Standard.
Definition H : list byte -> list byte := BpfSha.fips_sha256.

Definition xor_pad (pad : Z) (key : list byte) : list byte := map (fun b => z2b (Z.lxor (b2z b) pad)) key.

(** The key, hashed if it is longer than a block, filled with zeros to a block of 64 bytes *)
Definition block_key (key : list byte) : list byte :=
  let k := if zlen key >? 64 then H key else key in k ++ array x00 (64 - zlen k).

Definition hmac (key msg : list byte) : list byte :=
  H (xor_pad 0x5c (block_key key) ++ H (xor_pad 0x36 (block_key key) ++ msg)).

(** [T(i) | ... | T(i + k - 1)] after [T(i - 1)] *)
Fixpoint expand (k : nat) (prk info last : list byte) (i : Z) : list byte :=
  match k with
  | O => []
  | S k => let t := hmac prk (last ++ info ++ [z2b i]) in t ++ expand k prk info t (i + 1)
  end.

Definition hkdf (salt ikm info : list byte) (n : Z) : list byte :=
  take (Z.to_nat n) (expand (Z.to_nat (div_ceil n 32)) (hmac salt ikm) info [] 1).

Definition mac : MacOps := {|
  hmac_sha256 key := Some (hmac key);
  hkdf_sha256 salt ikm info n := if (0 <=? n) && (n <=? 255 * 32) then Some (hkdf salt ikm info n) else None
|}.
End Standard.

Lemma length_H data : length (Standard.H data) = 32%nat.
Proof. apply (@sha256_length _ BpfSha.bpf_hash_laws). Qed.

Lemma length_hkdf_blocks k prk info last i : length (Standard.expand k prk info last i) = (32 * k)%nat.
Proof.
  revert last i. induction k as [|k IH]; intros last i; [done|]. cbn [Standard.expand]. rewrite length_app, IH.
  unfold Standard.hmac. rewrite length_H. lia.
Qed.

(** The standards satisfy what the callers rely on. *)
Lemma standard_mac_laws : @MacLaws Standard.mac.
Proof.
  split.
  - intros key. eexists. split; [done|]. intros m. apply length_H.
  - intros salt ikm info n Hn. cbn [hkdf_sha256 Standard.mac].
    rewrite (proj2 (Z.leb_le 0 n)), (proj2 (Z.leb_le n _)) by lia. cbn [andb]. eexists. split; [done|].
    unfold Standard.hkdf, zlen. rewrite length_take, length_hkdf_blocks. unfold div_ceil.
    pose proof (Z.div_mod (n + 32 - 1) 32 ltac:(lia)). pose proof (Z.mod_pos_bound (n + 32 - 1) 32 ltac:(lia)). lia.
Qed.

(** ** Theorems *)

(** The known answers of the source are those of the standards: with the SHA-256 of FIPS
    180-4 and the HMAC of RFC 2104 every power-on test and the continuous test pass, and
    initialisation succeeds and leaves the software mode from every earlier mode, a failed
    one included. *)
Theorem known_answers_hold :
  @run_power_on_self_tests_software BpfSha.bpf_hash Standard.mac = Ok true /\
  @run_power_on_self_tests_hash_only BpfSha.bpf_hash = true /\
  @fips_continuous_test BpfSha.bpf_hash = true /\
  forall mode, @fips_module_init BpfSha.bpf_hash Standard.mac mode = (Ok SoftwareOnly, FIPS_MODE_SOFTWARE).
Proof.
  assert (Ht : @run_power_on_self_tests_software BpfSha.bpf_hash Standard.mac = Ok true) by (vm_compute; reflexivity).
  split_and!; [exact Ht|vm_compute; reflexivity|vm_compute; reflexivity|].
  intros mode. unfold fips_module_init, mbind, stm_bind, lift. by rewrite Ht.
Qed.

(** Whether the tests of an implementation pass *)
Definition answers_right `{HashOps} (mac : list byte -> list byte) : Prop :=
  sha256 SHA256_KAT_EMPTY_INPUT = SHA256_KAT_EMPTY_EXPECTED /\ sha256 SHA256_KAT_ABC_INPUT = SHA256_KAT_ABC_EXPECTED /\
  mac HMAC_KAT_MSG = HMAC_KAT_EXPECTED /\
  sha256 (sha256 (txt "fips-pct-140-3")) <> sha256 (txt "fips-pct-140-3").

(** The mode after a sequence of initialisations, each with the implementation it finds *)
Definition after (inits : list (HashOps * MacOps)) : Z :=
  fold_left (fun mode i => snd (@fips_module_init (fst i) (snd i) mode)) inits FIPS_MODE.

Lemma init_modes (h : HashOps) (k : MacOps) mode :
  let mode' := snd (@fips_module_init h k mode) in
  mode' = mode \/ mode' = FIPS_MODE_SOFTWARE \/ mode' = FIPS_MODE_FAILED.
Proof.
  unfold fips_module_init, mbind, stm_bind, lift, put.
  destruct run_power_on_self_tests_software as [[]| |]; cbn; auto.
Qed.

Lemma after_snoc inits h k : after (inits ++ [(h, k)]) = snd (@fips_module_init h k (after inits)).
Proof. unfold after. by rewrite fold_left_app. Qed.

Lemma after_modes inits : after inits = FIPS_MODE_SOFTWARE \/ after inits = FIPS_MODE_FAILED.
Proof.
  induction inits as [|[h k] inits IH] using rev_ind; [by left|].
  rewrite after_snoc. destruct (init_modes h k (after inits)) as [->|[->| ->]]; auto.
Qed.

Lemma copy_all (l : list byte) : length l = 32%nat -> @copy_into DfimError _ (array x00 SHA256_LEN) 0 SHA256_LEN l = Ok l.
Proof.
  intros Hl. rewrite copy_into_ok; [|done|by rewrite zlen_array|unfold zlen; by rewrite Hl].
  by rewrite splice_all.
Qed.

Lemma tests_decide `{HashLaws} `{MacLaws} : exists mac, hmac_sha256 HMAC_KAT_KEY = Some mac /\
  exists b, run_power_on_self_tests_software = Ok b /\ (b = true <-> answers_right mac).
Proof.
  destruct (hmac_accepts HMAC_KAT_KEY) as (mac & Hm & Hl). exists mac. split; [done|].
  assert (Ha : answers_right mac <-> ct_eq (sha256 SHA256_KAT_EMPTY_INPUT) SHA256_KAT_EMPTY_EXPECTED = true /\
    ct_eq (sha256 SHA256_KAT_ABC_INPUT) SHA256_KAT_ABC_EXPECTED = true /\ ct_eq (mac HMAC_KAT_MSG) HMAC_KAT_EXPECTED = true /\
    ct_eq (sha256 (sha256 (txt "fips-pct-140-3"))) (sha256 (txt "fips-pct-140-3")) = false)
    by (rewrite !ct_eq_spec, ct_eq_false; done).
  unfold run_power_on_self_tests_software, constant_time_hash_eq, sha256_digest. rewrite Hm.
  cbn [unwrap]. rewrite ok_bind, copy_all by apply Hl. rewrite ok_bind.
  revert Ha. generalize (answers_right mac). intros P.
  generalize (ct_eq (sha256 SHA256_KAT_EMPTY_INPUT) SHA256_KAT_EMPTY_EXPECTED),
    (ct_eq (sha256 SHA256_KAT_ABC_INPUT) SHA256_KAT_ABC_EXPECTED), (ct_eq (mac HMAC_KAT_MSG) HMAC_KAT_EXPECTED),
    (ct_eq (sha256 (sha256 (txt "fips-pct-140-3"))) (sha256 (txt "fips-pct-140-3"))).
  intros [] [] [] [] Ha; eexists; (split; [reflexivity|rewrite Ha; intuition congruence]).
Qed.

(** C33: The self tests decide.  After any sequence of initialisations, whatever implementations
    they found, the mode is never the validated one; and an initialisation with a hash and a
    MAC that behave as documented does not panic and does exactly this.  If every known
    answer is right it succeeds, and from then on the digests are those of the hash and of
    the MAC.  If one is wrong it is an integrity failure, the module reports that it is not
    operational, and every digest is 32 zero bytes, until the next initialisation. *)
Theorem self_test_decides inits (h : HashOps) (k : MacOps) : @HashLaws h -> @MacLaws k ->
  fips_mode (after inits) <> FipsValidated /\
  let r := @fips_module_init h k (after inits) in
  let mode := after (inits ++ [(h, k)]) in
  exists mac, hmac_sha256 HMAC_KAT_KEY = Some mac /\
    (answers_right mac -> fst r = Ok SoftwareOnly /\ assert_fips_operational mode = Ok tt /\
      (forall data, fips_sha256 mode data = sha256 data) /\
      forall key data, exists f, hmac_sha256 key = Some f /\ fips_hmac_sha256 mode key data = Ok (f data)) /\
    (~ answers_right mac -> fst r = Err IntegrityFailure /\ assert_fips_operational mode = Err IntegrityFailure /\
      (forall data, fips_sha256 mode data = array x00 32) /\
      forall key data, fips_hmac_sha256 mode key data = Ok (array x00 32)).
Proof.
  intros Hh Hk. split; [destruct (after_modes inits) as [-> | ->]; done|]. intros r mode.
  destruct tests_decide as (mac & Hm & b & Hb & Hiff). exists mac. split; [done|].
  unfold mode. rewrite after_snoc. fold r. unfold r, fips_module_init, mbind, stm_bind, lift, put. rewrite Hb.
  split; intros Ha.
  - rewrite (proj2 Hiff Ha). cbn. split_and!; [done..|]. intros key data.
    destruct (hmac_accepts key) as (f & Hf & Hl). exists f. split; [done|].
    change (fips_hmac_sha256 FIPS_MODE_SOFTWARE key data = Ok (f data)). unfold fips_hmac_sha256. cbn [fips_mode Z.eqb].
    cbn. rewrite Hf. by apply copy_all.
  - destruct b; [by destruct Ha; apply Hiff|]. done.
Qed.

(** The standards pass on a module whose last initialisation failed. *)
Lemma self_test_decides_witness :
  assert_fips_operational (after [(Toy.hash, ToyCommitment.mac); (BpfSha.bpf_hash, Standard.mac)]) = Ok tt.
Proof.
  destruct (self_test_decides [(Toy.hash, ToyCommitment.mac)] BpfSha.bpf_hash Standard.mac BpfSha.bpf_hash_laws standard_mac_laws)
    as (_ & mac & Hm & Hr & _).
  apply Hr. injection Hm as <-. unfold answers_right. split_and!; vm_compute; [reflexivity..|discriminate].
Defined.
