(* ===== verification/BootLog.v ===== *)
(** * BootLog: what the boot guard prints

    The texts of [dfim_core_engine/src/secrets.rs] and the output of
    [dfim_windows_uefi/src/main.rs]: the log lines of [run_boot_guard], the line on the
    console of [emit_hardware_log], and the halt line.  [run_boot_console] is the boot
    decision again, with every line it prints, in the order of the code.  The macro [lc!]
    and the [Debug] texts of the [uefi] crate are parameters.

    [boot_console_refines] shows that printing changes nothing of what the machine does: the
    run with its output is the run of [BootGuard], with each event replaced by what is
    printed for it.  [hardware_line_identifies] that the console line of a refusal names the
    phase and the error, and nothing else. *)

From stdpp Require Import base list numbers option strings.
From Stdlib Require Import ZArith Lia Strings.Byte.
From S2P Require Import Prelude Crypto Core Json Text Pipeline SignedManifest Rollback BootGuard Commitment.

(** ** The texts *)

Definition phase_literal (p : Phase) : text :=
  match p with
  | phase_bootmgfw_read => txt "BOOTMGFW_READ"
  | phase_manifest_read => txt "MANIFEST_READ"
  | phase_manifest_parse => txt "MANIFEST_PARSE"
  | phase_integrity_pipeline => txt "INTEGRITY_PIPELINE"
  | phase_load_image => txt "LOAD_IMAGE"
  | phase_start_image => txt "START_IMAGE"
  end.

Section texts.
Context `{Literals}.

Definition phase_text (p : Phase) : text := lc_static (phase_literal p).

Definition log_hw_prefix : text := lc_static (txt "[DFIM-HW-LOG] phase=").
Definition log_halt_prefix : text := lc_static (txt "[DFIM] Boot sequence halted — status=").
Definition log_fec_corrected : text := lc_static (txt "Hamming FEC corrected manifest bit-rot; blocks=").
Definition log_merkle_passed : text := lc_static (txt "Merkle O(log N) validation passed; blocks=").
Definition log_handoff : text := lc_static (txt "Handoff to verified bootmgfw.efi via LoadImage/StartImage").
Definition log_gate : text := lc_static (txt "DFIM Windows UEFI Boot Guard — Layer-0 integrity gate").
Definition log_dfim_fatal_prefix : text := lc_static (txt "DFIM FATAL phase=").
Definition log_load_image_failed : text := lc_static (txt "LoadImage failed:").
Definition log_start_image_failed : text := lc_static (txt "StartImage failed:").
Definition CRLF : text := [x0d; x0a].
Definition log_hw_log_line_prefix : text := lc_static (CRLF ++ txt "[DFIM-HW-LOG] phase=").
Definition log_hw_log_error_suffix : text := lc_static (txt " error=").
Definition log_halt_line_prefix : text := lc_static (CRLF ++ txt "[DFIM] Boot sequence halted — status=").
Definition log_halt_line_suffix : text := lc_static CRLF.

(** [DfimError::as_str] with its literals hidden *)
Definition error_text (e : DfimError) : text := lc_static (bytes_of_string (as_str e)).
End texts.

(** ** Output *)

Inductive Level := Info | Warn | Error.

(** A line of the logger, a write to the console, or something the machine does *)
Inductive Out := Log (level : Level) (line : text) | Stdout (line : text) | Act (event : Event).

Section model.
Context `{HashOps, SigOps} `{Literals}.

(** [{status:?}] and [{err:?}] *)
Context (status_debug : Status -> text) (load_error start_error : text).

(** The format string prints the phase twice. *)
Definition hardware_line (phase : Phase) (err : DfimError) : text :=
  log_hw_log_line_prefix ++ phase_text phase ++ phase_text phase ++ log_hw_log_error_suffix ++ error_text err ++ CRLF.

Definition emit_hardware_log (phase : Phase) (err : DfimError) : list Out :=
  [Log Error (log_dfim_fatal_prefix ++ phase_text phase ++ txt " code=" ++ error_text err);
   Stdout (hardware_line phase err)].

Definition halt_output (status : Status) : list Out :=
  [Stdout (log_halt_line_prefix ++ status_debug status ++ log_halt_line_suffix); Act (ColdReset status)].

Definition fatal_output (phase : Phase) (err : DfimError) : list Out :=
  emit_hardware_log phase err ++ halt_output SECURITY_VIOLATION.

(** The output so far, and the rest of the run *)
Definition or_fatal {A} (out : list Out) (phase : Phase) (m : DfimResult A) (k : A -> option (list Out * Ending)) :
    option (list Out * Ending) :=
  match m with
  | Ok a => k a
  | Err e => Some (out ++ fatal_output phase e, Reset SECURITY_VIOLATION)
  | Panic => None
  end.

Definition run_boot_console (fw : Firmware) (trust : DeploymentTrust) : option (list Out * Ending) :=
  if negb fw.(helpers_init) then Some ([], Returned ABORTED)
  else
    let out := [Log Info log_gate] in
    or_fatal out phase_bootmgfw_read (read_volume_file fw BOOTMGFW_PATH) (fun boot_image =>
    or_fatal out phase_manifest_read (read_volume_file fw BOOTMGFW_MANIFEST_PATH) (fun manifest_bytes =>
    or_fatal out phase_manifest_parse (read_authenticated_rollback_floor fw trust) (fun persisted_floor =>
    or_fatal out phase_manifest_parse (effective_minimum_release trust.(BOOT_MIN_RELEASE) persisted_floor) (fun minimum_release =>
    let trust_policy := {| public_key_sec1 := trust.(BOOT_PUBLIC_KEY); expected_key_id := trust.(BOOT_KEY_ID);
                           minimum_release := minimum_release |} in
    or_fatal out phase_integrity_pipeline (validate_signed_boot_image_v2 boot_image manifest_bytes trust_policy) (fun validated =>
    let boot := validated.(vs_boot) in
    let out := out ++ [if boot.(fec_corrected) then Log Warn (log_fec_corrected ++ to_string boot.(blocks_verified))
                       else Log Info (log_merkle_passed ++ to_string boot.(blocks_verified));
                       Log Info log_handoff] in
    let out := out ++ [Act (LoadImage boot.(payload))] in
    if negb (fw.(load_image) boot.(payload)) then
      Some (out ++ emit_hardware_log phase_load_image IntegrityFailure ++
              [Log Error (log_load_image_failed ++ txt " " ++ load_error)] ++ halt_output LOAD_ERROR, Reset LOAD_ERROR)
    else
      let out := out ++ [Act StartImage] in
      if negb fw.(start_image) then
        Some (out ++ emit_hardware_log phase_start_image IntegrityFailure ++
                [Log Error (log_start_image_failed ++ txt " " ++ start_error)] ++ [Act UnloadImage] ++ halt_output LOAD_ERROR,
              Reset LOAD_ERROR)
      else Some (out, Returned SUCCESS)))))).

(** [main] *)
Definition main_status (e : Ending) : option Status := match e with Returned s => Some s | Reset _ => None end.

(** ** Specification *)

(** What the console shows of an event, the logger apart *)
Definition console_of (ev : Event) : list Out :=
  match ev with
  | HardwareLog phase err => [Stdout (hardware_line phase err)]
  | ColdReset status => halt_output status
  | ev => [Act ev]
  end.

Definition unlogged (out : list Out) : list Out :=
  List.filter (fun o => match o with Log _ _ => false | _ => true end) out.
End model.

Section proofs.
Context `{HashOps, SigOps} `{LiteralLaws}.
Context (status_debug : Status -> text) (load_error start_error : text).

Lemma unlogged_app o1 o2 : unlogged (o1 ++ o2) = unlogged o1 ++ unlogged o2.
Proof. apply List.filter_app. Qed.

(** The two runs, side by side *)
Definition matches_run (c : option (list Out * Ending)) (r : option (list Event * Ending)) : Prop :=
  match c, r with
  | Some (out, e), Some (evs, e') => e = e' /\ unlogged out = concat (map (console_of status_debug) evs)
  | None, None => True
  | _, _ => False
  end.

Lemma matches_or_halt {A} out phase (m : DfimResult A) k k' : unlogged out = [] -> (forall a, matches_run (k a) (k' a)) ->
  matches_run (or_fatal status_debug out phase m k) (or_halt phase m k').
Proof.
  intros Ho Hk. destruct m as [a|e|]; [apply Hk| |done]. cbn. split; [done|]. by rewrite unlogged_app, Ho.
Qed.

(** The output follows the events.  The run with its output ends as the run of the boot guard and
    what it shows, the logger apart, is what is shown for each of its events, in their order. *)
Theorem boot_console_refines fw trust :
  matches_run (run_boot_console status_debug load_error start_error fw trust) (run_boot_guard fw trust).
Proof.
  unfold run_boot_console, run_boot_guard. destruct (helpers_init fw); [|done]. cbn [negb].
  repeat (apply matches_or_halt; [done|intros ?]). cbv zeta.
  destruct (load_image fw _); cbn [negb]; [|by destruct (fec_corrected _)].
  destruct (start_image fw); cbn [negb]; by destruct (fec_corrected _).
Qed.

(** ** Reading a refusal *)

Definition phases : list Phase :=
  [phase_bootmgfw_read; phase_manifest_read; phase_manifest_parse; phase_integrity_pipeline; phase_load_image; phase_start_image].

Definition errors : list DfimError :=
  [InvalidParameter; ParameterOverflow; BufferTooShort; BufferTooLong; UncorrectableError; CorruptMetadata; IntegrityFailure;
   WorkCapExceeded; EmptyInput].

(** The phase and the error of a console line *)
Definition read_refusal (line : text) : option (Phase * DfimError) :=
  List.find (fun pe => bytes_eqb line (hardware_line (fst pe) (snd pe))) (List.list_prod phases errors).

(** The line as text, whether or not its literals are hidden *)
Definition plain_line (pe : Phase * DfimError) : text :=
  CRLF ++ txt "[DFIM-HW-LOG] phase=" ++ phase_literal (fst pe) ++ phase_literal (fst pe) ++ txt " error=" ++
  bytes_of_string (as_str (snd pe)) ++ CRLF.

Lemma hardware_line_plain phase err : hardware_line phase err = plain_line (phase, err).
Proof.
  unfold hardware_line, plain_line, log_hw_log_line_prefix, log_hw_log_error_suffix, error_text, phase_text.
  rewrite !lc_static_plain. by rewrite <- app_assoc.
Qed.

(** The refusal on the console identifies its cause: from the line alone, whether or not the literals
    of the build are hidden, the phase and the error are recovered. *)
Theorem hardware_line_identifies phase err : read_refusal (hardware_line phase err) = Some (phase, err).
Proof.
  assert (Hf : forall line l, List.find (fun pe => bytes_eqb line (hardware_line (fst pe) (snd pe))) l =
    List.find (fun pe => bytes_eqb line (plain_line pe)) l).
  { intros line. induction l as [|[p e] l IH]; [done|]. cbn [List.find fst snd]. by rewrite hardware_line_plain, IH. }
  unfold read_refusal. rewrite Hf, hardware_line_plain. by destruct phase, err; vm_compute.
Qed.
End proofs.
