(* ===== verification/TestKit.v ===== *)
(** * TestKit: unit tests as computations

    A test of the repository is a computation that ends or panics; its assertions are
    branches.  A panic of the code under test is a panic of the test. *)

From stdpp Require Import base list numbers option.
From Stdlib Require Import ZArith Lia Strings.Byte.
From S2P Require Import Prelude.

Abbreviation check := (outcome Empty_set).
Definition Test : Type := check unit.

(** [assert!], [assert_eq!], [assert_ne!] *)
Definition assert (b : bool) : Test := if b then Ok tt else Panic.
Definition assert_eq {A} `{EqDecision A} (a b : A) : Test := assert (bool_decide (a = b)).
Definition assert_ne {A} `{EqDecision A} (a b : A) : Test := assert (negb (bool_decide (a = b))).

(** [Result::expect] and [Result::unwrap] *)
Definition expect {E A} (m : outcome E A) : check A :=
  match m with Ok a => Ok a | _ => Panic end.

(** A call whose [Result] is looked at *)
Definition result {E A} (m : outcome E A) : check (A + E) :=
  match m with Ok a => Ok (inl a) | Err e => Ok (inr e) | Panic => Panic end.

Definition assert_ok {E A} (m : outcome E A) : Test := r ← result m; assert (if r is inl _ then true else false).
Definition assert_is_err {E A} (m : outcome E A) : Test := r ← result m; assert (if r is inr _ then true else false).

(** [assert_eq!(m, Err(e))] *)
Definition assert_err {E A} `{EqDecision E} (m : outcome E A) (e : E) : Test :=
  r ← result m; assert (if r is inr e' then bool_decide (e' = e) else false).

(** [for x in l { f(x) }] *)
Definition for_each {A} (l : list A) (f : A -> Test) : Test := foldM (fun _ a => f a) tt l.

Definition passes (t : Test) : Prop := t = Ok tt.

Lemma assert_ok_spec {E A} (m : outcome E A) : passes (assert_ok m) <-> exists a, m = Ok a.
Proof. unfold passes. destruct m; cbn; split; intros Hx; (done || destruct Hx; done || eauto). Qed.

Lemma assert_err_spec {E A} `{EqDecision E} (m : outcome E A) e : passes (assert_err m e) <-> m = Err e.
Proof.
  unfold passes, assert. destruct m; cbn; [done| |done]. case_bool_decide; naive_solver.
Qed.

Lemma assert_eq_refl {A} `{EqDecision A} (a : A) : assert_eq a a = Ok tt.
Proof. unfold assert_eq. by rewrite bool_decide_true. Qed.

Lemma for_each_passes {A} (l : list A) f : (forall a, a ∈ l -> passes (f a)) -> passes (for_each l f).
Proof.
  unfold for_each. induction l as [|a l IH]; intros Hf; [done|].
  cbn [foldM]. rewrite (Hf a) by (by left). cbn. apply IH. intros b Hb. apply Hf. by right.
Qed.

(** A suite evaluated at once *)
Lemma evaluate (ts : list Test) : forallb is_ok ts = true -> Forall passes ts.
Proof.
  rewrite forallb_forall, List.Forall_forall. intros Hts t Ht. specialize (Hts t Ht).
  destruct t as [[]|[]|]; done.
Qed.

(** Slicing is the same whatever the type of the errors. *)
Lemma slice_any {E F A} (l : list A) a b r : @slice E A l a b = Ok r -> @slice F A l a b = Ok r.
Proof. unfold slice. destruct (_ && _); [|done]. congruence. Qed.

(** ** Code with state *)

(** A call whose error panics, and one that has to fail, in code with state *)
Definition unwrapped {S E A} (m : stm S E A) : stm S Empty_set A := fun s => let '(r, s) := m s in (expect r, s).
Definition fails {S E A} (m : stm S E A) : stm S Empty_set unit := fun s => let '(r, s) := m s in (assert_is_err r, s).

Lemma unwrapped_Ok {S E A} (m : stm S E A) s a s' : m s = (Ok a, s') -> unwrapped m s = (Ok a, s').
Proof. unfold unwrapped. by intros ->. Qed.

Lemma fails_Err {S E A} (m : stm S E A) s e s' : m s = (Err e, s') -> fails m s = (Ok tt, s').
Proof. unfold fails. by intros ->. Qed.

(** ** Texts *)

(** [str::contains], [str::ends_with] *)
Fixpoint contains (s p : list byte) : bool :=
  starts_with s p || match s with [] => false | _ :: s => contains s p end.

Definition ends_with (s p : list byte) : bool := starts_with (reverse s) (reverse p).

Lemma starts_with_extend s t p : starts_with s p = true -> starts_with (s ++ t) p = true.
Proof. intros [r ->]%starts_with_app. apply starts_with_app. exists (r ++ t). by rewrite app_assoc. Qed.

Lemma contains_left s t p : contains s p = true -> contains (s ++ t) p = true.
Proof.
  induction s as [|a s IH]; cbn [contains app].
  - rewrite orb_false_r. destruct p; [|done]. by destruct t.
  - rewrite !orb_true_iff. intros [Hs|Hs]; [left; by apply (starts_with_extend (a :: s))|right; by apply IH].
Qed.

Lemma contains_right s t p : contains t p = true -> contains (s ++ t) p = true.
Proof. intros Ht. induction s as [|a s IH]; [done|]. cbn [contains app]. by rewrite IH, orb_true_r. Qed.

(** A text without one of the bytes of a pattern does not contain it. *)
Lemma contains_In s p c : contains s p = true -> In c p -> In c s.
Proof.
  assert (Hst : forall p s, starts_with s p = true -> In c p -> In c s).
  { clear. intros p. induction p as [|b p IH]; intros [|a s]; cbn; try done.
    rewrite andb_true_iff, byte_eqb_eq. intros [-> Hp] [-> |Hc]; [by left|right; by apply IH]. }
  induction s as [|a s IH]; cbn [contains]; rewrite orb_true_iff; intros [Hs|Hs] Hc; [by eapply Hst|done|by eapply Hst|right; by apply IH].
Qed.
