(* ===== verification/TestsCore.v ===== *)
(** * TestsCore: the unit tests of [dfim_core_engine]

    Each test of the engine as a computation on the model, with the proof that it passes.  The
    hash of a test is the class [HashOps]: tests that hash a few bytes are evaluated with
    SHA-256 itself ([BpfSha.bpf_hash]), tests on whole blocks are proved for every hash
    that satisfies [HashLaws]. *)

From stdpp Require Import base list numbers option strings.
From Stdlib Require Import ZArith Lia Strings.Byte.
From S2P Require Import Prelude Crypto Core Hamming Sha256Bpf Merkle BlockStream StateDb Pipeline BootValidate.
From S2P Require Import Enforcement Json ImaPolicy Commitment Fips TestKit.

(** The byte [b] xor [m] *)
Definition flip_bits (b : byte) (m : Z) : byte := z2b (Z.lxor (b2z b) m).

(** [l[i] ^= m] *)
Definition xor_at (l : list byte) (i m : Z) : check (list byte) :=
  b ← index l i; store l i (flip_bits b m).

(** ** [observer.rs], [integrity_gate.rs], [crypto.rs], [digest.rs] *)

Definition observer_exceeds_on_overflow : Test :=
  obs ← expect (Observer.new 2);
  obs ← expect (Observer.tick obs);
  obs ← expect (Observer.tick obs);
  assert_err (Observer.tick obs) WorkCapExceeded.

Definition rejects_empty_path_gate : Test := assert_err (assert_target_path 0) InvalidParameter.
Definition rejects_block_index_out_of_range : Test := assert_err (assert_block_index 4 4) IntegrityFailure.
Definition accepts_image_at_cap : Test := assert_ok (assert_image_bounds MAX_IMAGE_BYTES).

Section digests.
Context `{HashOps}.

Definition equal_hashes_match : Test :=
  let h := array xab 32 in
  assert (constant_time_hash_eq h h).

Definition single_bit_flip_rejects : Test :=
  b ← store (array x00 32) 0 x01;
  assert (negb (constant_time_hash_eq (array x00 32) b)).

Definition empty_manifest_rejected : Test := assert_err (manifest_digest []) EmptyInput.

Definition sha256_known_vector : Test :=
  let digest := sha256_digest [] in
  let expected := bytes [
    0xe3; 0xb0; 0xc4; 0x42; 0x98; 0xfc; 0x1c; 0x14; 0x9a; 0xfb; 0xf4; 0xc8; 0x99; 0x6f;
    0xb9; 0x24; 0x27; 0xae; 0x41; 0xe4; 0x64; 0x9b; 0x93; 0x4c; 0xa4; 0x95; 0x99; 0x1b;
    0x78; 0x52; 0xb8; 0x55] in
  assert_eq digest expected.
End digests.

Lemma engine_basics_tests_pass : let _ := BpfSha.bpf_hash in
  Forall passes [observer_exceeds_on_overflow; rejects_empty_path_gate; rejects_block_index_out_of_range;
    accepts_image_at_cap; equal_hashes_match; single_bit_flip_rejects; empty_manifest_rejected; sha256_known_vector].
Proof. apply evaluate. by vm_compute. Qed.

(** ** [hamming.rs] *)

Definition parity_count_hamming_7_4 : Test :=
  r ← expect (parity_bit_count 4);
  assert_eq r 3 ;;
  t ← expect (codeword_bit_length 4);
  assert_eq t 7.

Definition parity_count_hamming_15_11 : Test :=
  r ← expect (parity_bit_count 11);
  assert_eq r 4 ;;
  t ← expect (codeword_bit_length 11);
  assert_eq t 15.

Definition hamming_7_4_single_bit_correction : Test :=
  let data := 11 in
  cw ← expect (encode_bits data 4);
  for_each (range 0 7) (fun bit =>
    m ← shl 64 1 bit;
    let flipped := Z.lxor cw m in
    ds ← expect (decode_bits flipped 4);
    let '(decoded, syndrome) := ds in
    assert_eq decoded data ;;
    assert_ne syndrome 0).

(** [u64::count_ones] *)
Definition count_ones (n : Z) : Z := zlen (filter (fun i => Z.testbit n i = true) (range 0 64)).

(** The loop with its [continue] and [break]: whether a mask was found *)
Fixpoint find_mask (masks : list Z) (cw data : Z) : check bool :=
  match masks with
  | [] => Ok false
  | mask :: masks =>
      if negb (count_ones mask =? 2) then find_mask masks cw data
      else
        let flipped := Z.lxor cw mask in
        ds ← expect (decode_bits flipped 4);
        if negb (fst ds =? data) then Ok true else find_mask masks cw data
  end.

Definition hamming_double_bit_not_restored : Test :=
  let data := 0xb in
  cw ← expect (encode_bits data 4);
  top ← shl 64 1 7;
  found ← find_mask (range 1 top) cw data;
  assert found.

Definition round_trip_block_codec : Test :=
  let input := txt "DFIM Layer-0 FEC" in
  encoded ← expect (encode_block input);
  decoded ← expect (decode_block encoded);
  assert_eq decoded input.

Lemma hamming_tests_pass : Forall passes [parity_count_hamming_7_4; parity_count_hamming_15_11;
  hamming_7_4_single_bit_correction; hamming_double_bit_not_restored; round_trip_block_codec].
Proof. apply evaluate. by vm_compute. Qed.

(** ** [merkle.rs] *)

Section merkle.
Context `{HashOps}.

Definition sample_leaves (n : Z) : list (list byte) := map (fun i => txt "leaf-" ++ to_string i) (range 0 n).

Definition merkle_forged_leaf_rejected : Test :=
  let leaves := sample_leaves 4 in
  tree ← expect (build leaves);
  proof ← expect (prove tree 0);
  let forged := txt "forged-leaf-data" in
  ok ← expect (verify_proof tree.(root) forged 0 proof);
  assert (negb ok).

Definition merkle_proof_index_swap_rejected : Test :=
  let leaves := sample_leaves 4 in
  tree ← expect (build leaves);
  proof ← expect (prove tree 0);
  leaf ← index leaves 0;
  ok ← expect (verify_proof tree.(root) leaf 1 proof);
  assert (negb ok).

Definition merkle_4096_leaves_build_verify : Test :=
  let refs := sample_leaves 4096 in
  tree ← expect (build refs);
  assert_eq (leaf_count tree) 4096 ;;
  for_each [0; 1; 2047; 4095] (fun idx =>
    proof ← expect (prove tree idx);
    leaf ← index refs idx;
    ok ← expect (verify_proof tree.(root) leaf idx proof);
    assert ok).
End merkle.

Lemma merkle_small_tests_pass : let _ := BpfSha.bpf_hash in
  Forall passes [merkle_forged_leaf_rejected; merkle_proof_index_swap_rejected].
Proof. apply evaluate. by vm_compute. Qed.

(** ** [enforcement_policy.rs] *)

Module EnforcementTests.
Definition ready_config (generation : Z) : DfimConfigV1 := DfimConfig.production generation.
Definition active_scope (generation : Z) : ScopeEntryV1 := ScopeEntry.active generation (array xab 32).

Definition unprotected_asset_is_allowed_without_config : Test :=
  assert_eq (evaluate_enforcement None None) AllowUnprotected.

Definition protected_asset_denies_missing_config : Test :=
  assert_eq (evaluate_enforcement (Some (active_scope 7)) None) DenyInvalidConfig.

Definition protected_asset_denies_unsupported_schema : Test :=
  let c := ready_config 7 in
  let config := {| magic := c.(magic); schema_version := DFIM_CONFIG_SCHEMA_V1 + 1; struct_size := c.(struct_size);
    deployment_profile := c.(deployment_profile); c_policy_generation := c.(c_policy_generation);
    flags := c.(flags); c_reserved := c.(c_reserved) |} in
  assert_eq (evaluate_enforcement (Some (active_scope 7)) (Some config)) DenyInvalidConfig.

Definition protected_asset_denies_stale_policy_generation : Test :=
  assert_eq (evaluate_enforcement (Some (active_scope 8)) (Some (ready_config 7))) DenyStaleGeneration.

Definition protected_asset_with_ready_config_delegates_content_to_ima : Test :=
  assert_eq (evaluate_enforcement (Some (active_scope 7)) (Some (ready_config 7))) AllowProtectedToIma.

Definition pending_scope_is_not_committed_protection : Test :=
  let scope := ScopeEntry.pending 7 (array xcd 32) in
  assert_eq (evaluate_enforcement (Some scope) (Some (ready_config 7))) AllowPendingEnrollment.

Definition malformed_scope_state_denies : Test :=
  let s := active_scope 7 in
  let scope := {| s_policy_generation := s.(s_policy_generation); state := 99; s_reserved := s.(s_reserved);
    expected_merkle_root := s.(expected_merkle_root) |} in
  assert_eq (evaluate_enforcement (Some scope) (Some (ready_config 7))) DenyInvalidScope.

(** [size_of] of a [repr(C)] structure whose fields have these sizes and alignments: every field
    starts at a multiple of its alignment, the end is rounded up to the largest. *)
Definition size_of (fields : list (Z * Z)) : Z :=
  let stop := fold_left (fun at_ '(size, align) => div_ceil at_ align * align + size) fields 0 in
  let most := fold_left Z.max (map snd fields) 1 in
  div_ceil stop most * most.

Definition u32_ : Z * Z := (4, 4).
Definition u64_ : Z * Z := (8, 8).

Definition abi_sizes_are_stable : Test :=
  assert_eq (size_of [u32_; u32_; u32_; u32_; u64_; u32_; u32_]) 32 ;;
  assert_eq (size_of [u64_; u64_]) 16 ;;
  assert_eq (size_of [u64_; u32_; u32_; (32, 1)]) 48 ;;
  assert_eq (size_of [u64_; u64_; u32_; u64_]) 32.

Lemma enforcement_tests_pass : Forall passes [unprotected_asset_is_allowed_without_config;
  protected_asset_denies_missing_config; protected_asset_denies_unsupported_schema;
  protected_asset_denies_stale_policy_generation; protected_asset_with_ready_config_delegates_content_to_ima;
  pending_scope_is_not_committed_protection; malformed_scope_state_denies; abi_sizes_are_stable].
Proof. apply evaluate. by vm_compute. Qed.
End EnforcementTests.

(** ** [ima_policy.rs] *)

Module ImaTests.
Definition POLICY : list byte :=
  txt "appraise func=BPRM_CHECK appraise_type=imasig" ++ [x0a] ++ txt "appraise func=MODULE_CHECK appraise_type=imasig" ++ [x0a].

Definition accepts_enforce_mode_with_exec_and_module_rules : Test :=
  let evidence := inspect_ima_policy (txt "quiet ima_appraise=enforce") POLICY in
  assert (is_production_ready evidence).

Definition rejects_fix_mode : Test :=
  let evidence := inspect_ima_policy (txt "ima_appraise=fix") POLICY in
  assert (negb (is_production_ready evidence)).

Definition rejects_missing_exec_rule : Test :=
  let evidence := inspect_ima_policy (txt "ima_appraise=enforce") (txt "appraise func=MODULE_CHECK appraise_type=imasig") in
  assert (negb (is_production_ready evidence)).

Definition rejects_measure_only_rules : Test :=
  let evidence := inspect_ima_policy (txt "ima_appraise=enforce")
    (txt "measure func=BPRM_CHECK" ++ [x0a] ++ txt "measure func=MODULE_CHECK") in
  assert (negb (is_production_ready evidence)).

Lemma ima_tests_pass : Forall passes [accepts_enforce_mode_with_exec_and_module_rules; rejects_fix_mode;
  rejects_missing_exec_rule; rejects_measure_only_rules].
Proof. apply evaluate. by vm_compute. Qed.
End ImaTests.

(** ** [kdf.rs], [phasor.rs], [fips.rs] *)

Module KdfTests.
Section tests.
Context `{HashOps} `{MacOps} `{Literals}.

Definition seed : list byte := array x42 DK_LEN.

Definition derive_salt_is_deterministic_and_domain_separated : Test :=
  a ← expect (derive_salt (txt "label") seed);
  b ← expect (derive_salt (txt "label") seed);
  c ← expect (derive_salt (txt "other") seed);
  assert_eq a b ;;
  assert_ne a c.

Definition derive_salt_rejects_empty_seed : Test := assert_err (derive_salt (txt "label") []) EmptyInput.

Definition derive_authentication_key_is_deterministic : Test :=
  a ← expect (derive_authentication_key seed (txt "salt") AUTH_INFO);
  b ← expect (derive_authentication_key seed (txt "salt") AUTH_INFO);
  c ← expect (derive_authentication_key seed (txt "salt") (txt "other"));
  assert_eq a b ;;
  assert_ne a c.

Definition authentication_tag_changes_with_manifest : Test :=
  key ← expect (derive_authentication_key seed (txt "salt") AUTH_INFO);
  t1 ← expect (authentication_tag key (txt "manifest-a"));
  t2 ← expect (authentication_tag key (txt "manifest-b"));
  assert_ne t1 t2.

Definition authenticate_manifest_is_deterministic_and_seed_bound : Test :=
  let m := txt "manifest-bytes" in
  t1 ← expect (authenticate_manifest seed m);
  t2 ← expect (authenticate_manifest seed m);
  other ← expect (authenticate_manifest (array x24 DK_LEN) m);
  assert_eq t1 t2 ;;
  assert_ne t1 other.

(** With an allocator that grants the reservation *)
Definition hkdf_expand_produces_requested_length : Test :=
  out ← expect (hkdf_sha256_expand (fun _ => true) (txt "ikm") (txt "salt") (txt "info") 32);
  assert_eq (zlen out) 32.

Definition build_identity_hash_rejects_empty_terms : Test := assert_err (build_identity_hash []) EmptyInput.

Definition build_identity_hash_is_deterministic : Test :=
  let terms := [
    {| role := txt "noor"; rank := 1; axis := 0; phi_rad := 0xc00107d9; weight := 0x3d20901d |};
    {| role := txt "hadid"; rank := 2; axis := 1; phi_rad := 0x4010e939; weight := 0x3d8c124e |}] in
  h1 ← expect (build_identity_hash terms);
  h2 ← expect (build_identity_hash terms);
  assert_eq h1 h2.

Definition build_identity_hash_distinguishes_terms : Test :=
  let a := [{| role := txt "x"; rank := 1; axis := 0; phi_rad := 0; weight := 0x3f800000 |}] in
  let b := [{| role := txt "x"; rank := 2; axis := 0; phi_rad := 0; weight := 0x3f800000 |}] in
  ha ← expect (build_identity_hash a);
  hb ← expect (build_identity_hash b);
  assert_ne ha hb.

Definition fips_kat_sha256_empty_passes : Test :=
  let h := sha256_digest SHA256_KAT_EMPTY_INPUT in
  assert (constant_time_hash_eq h SHA256_KAT_EMPTY_EXPECTED).

Definition fips_kat_sha256_abc_passes : Test :=
  let h := sha256_digest SHA256_KAT_ABC_INPUT in
  assert (constant_time_hash_eq h SHA256_KAT_ABC_EXPECTED).

Definition fips_kat_hmac_passes : Test :=
  mac ← unwrap (hmac_sha256 HMAC_KAT_KEY);
  hash ← copy_into (array x00 SHA256_LEN) 0 SHA256_LEN (mac HMAC_KAT_MSG);
  assert (constant_time_hash_eq hash HMAC_KAT_EXPECTED).

Definition fips_kat_double_hash_not_equal_single : Test :=
  let single := sha256_digest (txt "fips-pct-140-3") in
  let double := sha256_digest single in
  assert (negb (constant_time_hash_eq double single)).

(** The tests start in the mode the static is declared with; the tests of one process share it, in
    any order, which [fips_tests_pass_from] below allows for. *)
Definition fips_module_init_returns_software_mode (mode0 : Z) : Test :=
  mode ← expect (fst (fips_module_init mode0));
  assert (match mode with SoftwareOnly => true | _ => false end).

Definition fips_continuous_test_passes : Test := assert fips_continuous_test.

Definition fips_sha256_produces_correct_output (mode0 : Z) : Test :=
  let '(r, mode) := fips_module_init mode0 in
  _ ← expect r;
  let h := fips_sha256 mode (txt "abc") in
  assert (constant_time_hash_eq h SHA256_KAT_ABC_EXPECTED).

Definition fips_assert_operational_after_init (mode0 : Z) : Test :=
  let '(r, mode) := fips_module_init mode0 in
  _ ← expect r;
  assert_ok (assert_fips_operational mode).
End tests.

(** SHA-256, HMAC and HKDF as their standards define them *)
#[local] Existing Instance BpfSha.bpf_hash.
#[local] Existing Instance Standard.mac.

Lemma kdf_tests_pass (l : Literals) : LiteralLaws ->
  Forall passes [derive_salt_is_deterministic_and_domain_separated; derive_salt_rejects_empty_seed;
    derive_authentication_key_is_deterministic; authentication_tag_changes_with_manifest;
    authenticate_manifest_is_deterministic_and_seed_bound; hkdf_expand_produces_requested_length;
    build_identity_hash_rejects_empty_terms; build_identity_hash_is_deterministic;
    build_identity_hash_distinguishes_terms].
Proof.
  intros Hl. assert (Hs : default_salt_label_const = txt "DFIM-INTEGRITY-v1").
  { unfold default_salt_label_const, default_salt_label, lc_static. rewrite lc_decrypts. by destruct hardening. }
  unfold authenticate_manifest_is_deterministic_and_seed_bound, authenticate_manifest. rewrite Hs.
  apply evaluate. by vm_compute.
Qed.

Lemma fips_tests_pass : Forall passes [fips_kat_sha256_empty_passes; fips_kat_sha256_abc_passes; fips_kat_hmac_passes;
  fips_kat_double_hash_not_equal_single; fips_continuous_test_passes].
Proof. apply evaluate. by vm_compute. Qed.

(** Whatever the other tests left in the static *)
Lemma fips_tests_pass_from mode0 : Forall passes [fips_module_init_returns_software_mode mode0;
  fips_sha256_produces_correct_output mode0; fips_assert_operational_after_init mode0].
Proof.
  unfold fips_module_init_returns_software_mode, fips_sha256_produces_correct_output, fips_assert_operational_after_init.
  pose proof known_answers_hold as (_ & _ & _ & Hi). rewrite Hi. apply evaluate. by vm_compute.
Qed.
End KdfTests.

(** ** [state_db.rs] *)

Module StateDbTests.
Section tests.
Context `{HashOps}.

Definition minimal_sidecar : check (list byte) :=
  n ← add_usize BOOT_HEADER_PREFIX_LEN 4;
  let blob := array x00 n in
  blob ← copy_into blob 0 8 BOOT_SIDECAR_MAGIC;
  blob ← copy_into blob 8 12 (le_encode 4 BOOT_SIDECAR_VERSION);
  blob ← copy_into blob 12 16 (le_encode 4 (as_u32 DFIM_BLOCK_SIZE));
  blob ← copy_into blob 16 20 (le_encode 4 1);
  blob ← copy_into blob 20 52 (array xab 32);
  copy_into blob 52 56 (le_encode 4 4).

Definition rejects_plaintext_license_injection : Test :=
  assert_err (parse_authenticated_state_db (txt "STATE_HASH_CLOCK_VALID_A")) CorruptMetadata.

Definition rejects_sixteen_byte_clock_vector : Test :=
  assert_err (parse_authenticated_state_db (array x00 16)) CorruptMetadata.

Definition wrapped_round_trip : Test :=
  sidecar ← minimal_sidecar;
  wrapped ← expect (wrap_authenticated_state_db sidecar);
  parsed ← expect (parse_authenticated_state_db wrapped);
  assert_eq parsed sidecar.

Definition wrapped_checksum_tamper_fails : Test :=
  sidecar ← minimal_sidecar;
  wrapped ← expect (wrap_authenticated_state_db sidecar);
  last ← sub_usize (zlen wrapped) 1;
  wrapped ← xor_at wrapped last 0x01;
  assert_err (parse_authenticated_state_db wrapped) IntegrityFailure.
End tests.

Lemma state_db_tests_pass : let _ := BpfSha.bpf_hash in
  Forall passes [rejects_plaintext_license_injection; rejects_sixteen_byte_clock_vector; wrapped_round_trip;
    wrapped_checksum_tamper_fails].
Proof. apply evaluate. by vm_compute. Qed.
End StateDbTests.

(** ** [parser.rs] and [boot_validate.rs] *)

Module BlockTests.
Section tests.
Context `{HashOps}.

(** [(0..n).map(|i| vec![i; DFIM_BLOCK_SIZE])] *)
Definition sample_blocks (n : Z) : list (list byte) := map (fun i => array (z2b i) DFIM_BLOCK_SIZE) (range 0 n).

(** The 40 bytes of metadata, encoded *)
Definition sample_fec (root : list byte) (n : Z) : check (list byte) :=
  meta ← expect (meta ← @copy_into DfimError _ (array x00 40) 0 32 root;
    meta ← copy_into meta 32 36 (le_encode 4 (as_u32 DFIM_BLOCK_SIZE));
    copy_into meta 36 40 (le_encode 4 (as_u32 n)));
  expect (encode_block meta).

(** The step count and the siblings of block [i] *)
Definition push_proof (tree : MerkleTree) (blob : list byte) (i : Z) : check (list byte) :=
  proof ← expect (prove tree i);
  let blob := blob ++ [z2b (as_u8 (zlen proof.(steps)))] in
  Ok (fold_left (fun blob step => blob ++ step.(sibling)) proof.(steps) blob).

(** The header, the backup and the proofs, one after the other *)
Definition sample_blob (tree : MerkleTree) (n : Z) : check (list byte) :=
  let root := tree.(root) in
  fec ← sample_fec root n;
  let blob := BLOCK_STREAM_MAGIC ++ le_encode 4 BLOCK_STREAM_VERSION ++ le_encode 4 (as_u32 DFIM_BLOCK_SIZE) ++
    le_encode 4 (as_u32 n) ++ root ++ le_encode 4 (as_u32 (zlen fec)) ++ fec in
  foldM (push_proof tree) blob (range 0 n).

Definition parse_block_stream_round_trip : Test :=
  let blocks := sample_blocks 4 in
  tree ← expect (build blocks);
  blob ← sample_blob tree (zlen blocks);
  parsed ← expect (parse_block_stream blob);
  assert_eq parsed.(block_count) (zlen blocks).

(** The manifest with the backup copied into its buffer *)
Definition sample_manifest (root : list byte) (n : Z) (fec : list byte) : check CompactManifest :=
  backup ← copy_into (array x00 MAX_FEC_BACKUP) 0 (zlen fec) fec;
  Ok {| cm_merkle_root := root; cm_block_size := as_u32 DFIM_BLOCK_SIZE; cm_block_count := as_u32 n;
        cm_fec_len := as_u16 (zlen fec); cm_fec_backup := backup |}.

(** One proof in the layout of the maps: the loop over the steps fills the siblings. *)
Definition sample_proof (tree : MerkleTree) (i : Z) : check CompactProof :=
  p ← expect (prove tree i);
  js ← foldM (fun '(j, sibs) step => sibs ← store sibs j step.(sibling); Ok (j + 1, sibs))
    (0, array (array x00 SHA256_LEN) MAX_PROOF_STEPS) p.(steps);
  Ok {| step_count := as_u8 (zlen p.(steps)); siblings := snd js |}.

Definition compact_validation_matches_tree : Test :=
  let blocks := sample_blocks 4 in
  let image := concat blocks in
  tree ← expect (build blocks);
  let root := tree.(root) in
  fec ← sample_fec root (zlen blocks);
  manifest ← sample_manifest root (zlen blocks) fec;
  proofs ← foldM (fun ps i => cp ← sample_proof tree i; Ok (ps ++ [cp])) [] (range 0 (zlen blocks));
  _ ← expect (validate_boot_image_compact image manifest proofs);
  Ok tt.

Definition resolve_metadata_rejects_merkle_fec_mismatch : Test :=
  let blocks := sample_blocks 2 in
  tree ← expect (build blocks);
  let root := tree.(root) in
  fec ← sample_fec root (zlen blocks);
  manifest ← sample_manifest root (zlen blocks) fec;
  merkle_root ← xor_at manifest.(cm_merkle_root) 0 0xff;
  let manifest := {| cm_merkle_root := merkle_root; cm_block_size := manifest.(cm_block_size);
    cm_block_count := manifest.(cm_block_count); cm_fec_len := manifest.(cm_fec_len);
    cm_fec_backup := manifest.(cm_fec_backup) |} in
  assert_err (resolve_metadata_compact manifest) CorruptMetadata.

Definition resolve_metadata_rejects_double_bit_fec_rot : Test :=
  let blocks := sample_blocks 2 in
  tree ← expect (build blocks);
  let root := tree.(root) in
  fec ← sample_fec root (zlen blocks);
  fec ← xor_at fec 0 0x03;
  fec ← xor_at fec 1 0x05;
  manifest ← sample_manifest root (zlen blocks) fec;
  assert_err (resolve_metadata_compact manifest) CorruptMetadata.
End tests.

(** The numbers of blocks the tests use *)
Definition sampled (n : Z) : Prop := n = 2 \/ n = 4 \/ n = 8.

Lemma sampled_small n : sampled n -> 2 <= n <= 8.
Proof. unfold sampled. lia. Qed.

Lemma sample_blocks_ok n : sampled n -> blocks_of (concat (sample_blocks n)) = sample_blocks n /\
  zlen (concat (sample_blocks n)) = n * 4096 /\ zlen (sample_blocks n) = n /\ sample_blocks n <> [].
Proof. intros [-> |[-> | ->]]; (split_and!; [by vm_compute..|done]). Qed.
#[local] Opaque sample_blocks.

Section proofs.
Context `{HashLaws}.

(** The proofs of all the leaves, written one after the other *)
Lemma proofs_loop {A} leaves t (g : MerkleProof -> list A) (f : list A -> Z -> check (list A)) acc :
  build leaves = Ok t -> 3 * zlen leaves <= USIZE_MAX ->
  (forall acc i p, prove t i = Ok p -> p ∈ honest_proofs leaves -> f acc i = Ok (acc ++ g p)) ->
  foldM f acc (range 0 (zlen leaves)) = Ok (acc ++ concat (map g (honest_proofs leaves))).
Proof.
  intros Hb Hl Hf. set (at_ := fun i => proof_of (path (layers_of (length leaves) (map leaf_hash leaves)) i)).
  rewrite (foldM_append _ (fun i => g (at_ (Z.to_nat i)))).
  - do 3 f_equal. unfold honest_proofs, range, zlen. rewrite Z.sub_0_r, Nat2Z.id. fold at_.
    change (map ?f ?l) with (f <$> l). rewrite <- !list_fmap_compose. apply list_fmap_ext.
    intros _ i _. cbn. by rewrite Z.add_0_l, Nat2Z.id.
  - intros out i Hi%elem_of_range. unfold zlen in Hi. apply Hf.
    + replace i with (Z.of_nat (Z.to_nat i)) at 1 by lia. apply (prove_ok leaves); [done..|lia].
    + apply list_elem_of_fmap. eexists. split; [done|]. apply elem_of_seq. lia.
Qed.

(** What the tests build is the manifest of the image. *)
Lemma sample_ok n : sampled n -> exists t, build (sample_blocks n) = Ok t /\
  root t = Merkle.merkle_root (sample_blocks n) /\ zlen (root t) = 32 /\ sample_fec (root t) n = Ok (fec_of (root t) n).
Proof.
  intros Hn. destruct (sample_blocks_ok n Hn) as (_ & _ & Hl & Hne).
  pose proof (sampled_small n Hn). eexists. split; [apply build_ok; [done|unfold USIZE_MAX; lia]|]. cbn [root]. split; [done|].
  pose proof (zlen_merkle_root _ Hne) as Hr. split; [done|]. unfold sample_fec.
  assert (Hm : as_u32 n = n /\ as_u32 DFIM_BLOCK_SIZE = DFIM_BLOCK_SIZE) by (by destruct Hn as [-> |[-> | ->]]).
  rewrite (proj1 Hm), (proj2 Hm). match goal with |- context [expect ?m] => change m with (build_metadata (Merkle.merkle_root (sample_blocks n)) n) end.
  rewrite build_metadata_ok by done. cbn [expect]. rewrite ok_bind. by rewrite (proj1 (fec_of_encodes _ n Hr)).
Qed.

Lemma sample_image_small n : sampled n -> 1 <= zlen (concat (sample_blocks n)) <= MAX_IMAGE_BYTES.
Proof.
  intros Hn. pose proof (sampled_small n Hn). rewrite (proj1 (proj2 (sample_blocks_ok n Hn))). unfold MAX_IMAGE_BYTES, MAX_BOOT_BLOCKS, DFIM_BLOCK_SIZE. lia.
Qed.

(** The manifest of the sample image *)
Lemma sample_honest n : sampled n -> let m := honest_manifest (concat (sample_blocks n)) in
  manifest_wf m /\ m = {| merkle_root := Merkle.merkle_root (sample_blocks n); block_size := DFIM_BLOCK_SIZE; block_count := n;
    fec_backup := fec_of (Merkle.merkle_root (sample_blocks n)) n; proofs := honest_proofs (sample_blocks n) |}.
Proof.
  intros Hn m. split; [apply honest_wf, (sample_image_small n Hn)|].
  destruct (sample_blocks_ok n Hn) as (Hb & _ & Hl & _). unfold m, honest_manifest. by rewrite Hb, Hl.
Qed.

Lemma fold_siblings ss blob : fold_left (fun blob step => blob ++ step.(sibling)) ss blob = blob ++ concat (map sibling ss).
Proof. revert blob. induction ss as [|s ss IH]; intros blob; cbn; [by rewrite app_nil_r|]. by rewrite IH, <- app_assoc. Qed.

Lemma sample_proofs_wf n : sampled n -> Forall proof_wf (honest_proofs (sample_blocks n)).
Proof. intros Hn. destruct (sample_honest n Hn) as [Hwf Heq]. rewrite Heq in Hwf. apply Hwf. Qed.

(** The bytes the tests write are those of the manifest of the image. *)
Lemma sample_blob_ok n t : sampled n -> build (sample_blocks n) = Ok t ->
  sample_blob t n = Ok (manifest_bytes (honest_manifest (concat (sample_blocks n)))).
Proof.
  intros Hn Hb. destruct (sample_ok n Hn) as (t' & Hb' & Hroot & Hr & Hfec). rewrite Hb in Hb'. injection Hb' as <-.
  destruct (sample_honest n Hn) as [_ Heq]. destruct (sample_blocks_ok n Hn) as (_ & _ & Hl & _).
  pose proof (sample_proofs_wf n Hn) as Hps. pose proof (sampled_small n Hn) as [Hs1 Hs2].
  assert (Hloop : forall acc, foldM (push_proof t) acc (range 0 n) =
    Ok (acc ++ concat (map proof_bytes (honest_proofs (sample_blocks n))))).
  { intros acc. rewrite <- Hl at 1. apply (proofs_loop _ t proof_bytes); [done|unfold USIZE_MAX; lia|].
    clear acc. intros acc i p Hp Hin. unfold push_proof. rewrite Hp. cbn [expect]. rewrite ok_bind, fold_siblings. f_equal.
    rewrite <- app_assoc. f_equal. unfold proof_bytes. cbn. do 2 f_equal.
    rewrite Forall_forall in Hps. destruct (Hps p) as [Hm _]; [done|]. unfold as_u8, MAX_PROOF_STEPS in *.
    pose proof (zlen_nonneg (steps p)). rewrite Z.mod_small by lia. reflexivity. }
  unfold sample_blob. cbv zeta. rewrite Hfec, ok_bind, Hloop, zlen_fec_of by done. f_equal.
  rewrite Heq. unfold manifest_bytes, header_bytes. cbn [merkle_root block_size block_count fec_backup proofs].
  rewrite Hroot, zlen_fec_of by (by rewrite <- Hroot). replace (as_u32 n) with n by (unfold as_u32; rewrite Z.mod_small; lia).
  by rewrite <- !app_assoc.
Qed.

Lemma parse_block_stream_round_trip_passes : passes parse_block_stream_round_trip.
Proof.
  assert (H4 : sampled 4) by (by right; left). destruct (sample_ok 4 H4) as (t & Hb & _).
  destruct (sample_honest 4 H4) as [Hwf Heq]. destruct (sample_blocks_ok 4 H4) as (_ & _ & Hl & _).
  unfold passes, parse_block_stream_round_trip. cbv zeta. rewrite Hl, Hb. cbn [expect].
  rewrite ok_bind, (sample_blob_ok 4 t H4 Hb), ok_bind, (parse_ok _ Hwf (zlen_manifest_bound _ Hwf)). cbn [expect].
  rewrite ok_bind, Heq. cbn [block_count]. apply assert_eq_refl.
Qed.

(** The buffers of the tests are the compact forms. *)
Lemma fill_siblings ss : forall pre n, zlen ss <= n ->
  foldM (fun '(j, sibs) step => sibs ← store sibs j step.(sibling); Ok (j + 1, sibs)) (zlen pre, pre ++ array (array x00 SHA256_LEN) n) ss =
    @Ok Empty_set _ (zlen pre + zlen ss, pre ++ map sibling ss ++ array (array x00 SHA256_LEN) (n - zlen ss)).
Proof.
  induction ss as [|s ss IH]; intros pre n Hn; cbn [foldM map app].
  { rewrite !zlen_nil, Z.add_0_r, Z.sub_0_r. done. }
  rewrite zlen_cons in *. pose proof (zlen_nonneg ss). pose proof (zlen_nonneg pre).
  rewrite store_ok by (rewrite zlen_app, zlen_array; lia). rewrite !ok_bind.
  replace (splice (pre ++ array (array x00 SHA256_LEN) n) (Z.to_nat (zlen pre)) [sibling s])
    with ((pre ++ [sibling s]) ++ array (array x00 SHA256_LEN) (n - 1)).
  - replace (zlen pre + 1) with (zlen (pre ++ [sibling s])) by (rewrite zlen_app; done). rewrite IH by lia.
    rewrite zlen_app, <- app_assoc. cbn [app]. change (zlen [sibling s]) with 1. do 2 f_equal; [lia|]. do 3 f_equal. f_equal. lia.
  - unfold splice, zlen. rewrite Nat2Z.id, take_app_length, <- app_assoc. cbn [app]. do 2 f_equal.
    rewrite drop_app_ge by lia. cbn [length]. replace (length pre + 1 - length pre)%nat with 1%nat by lia.
    unfold array. rewrite drop_replicate. f_equal. lia.
Qed.

Lemma sample_proof_ok t i p : prove t i = Ok p -> proof_wf p -> sample_proof t i = Ok (compact_proof p).
Proof.
  intros Hp [Hm _]. unfold sample_proof. rewrite Hp. cbn [expect]. rewrite ok_bind.
  pose proof (fill_siblings (steps p) [] MAX_PROOF_STEPS Hm) as Hf. cbn [app] in Hf. change (zlen []) with 0 in Hf.
  rewrite Hf, ok_bind. unfold compact_proof. cbn [snd]. pose proof (zlen_nonneg (steps p)). unfold as_u8, MAX_PROOF_STEPS in *.
  by rewrite Z.mod_small by lia.
Qed.

Lemma sample_manifest_ok root n fec : sampled n -> zlen fec = 80 ->
  sample_manifest root n fec = Ok {| cm_merkle_root := root; cm_block_size := DFIM_BLOCK_SIZE; cm_block_count := n;
    cm_fec_len := 80; cm_fec_backup := fec ++ array x00 48 |}.
Proof.
  intros Hn Hf. unfold sample_manifest. rewrite copy_into_ok by (rewrite ?zlen_array; unfold MAX_FEC_BACKUP; lia).
  rewrite ok_bind, Hf, splice_0. replace (length fec) with 80%nat by (unfold zlen in Hf; lia). by destruct Hn as [-> |[-> | ->]].
Qed.

Lemma compact_validation_matches_tree_passes : passes compact_validation_matches_tree.
Proof.
  assert (H4 : sampled 4) by (by right; left). destruct (sample_ok 4 H4) as (t & Hb & Hroot & Hr & Hfec).
  destruct (sample_honest 4 H4) as [_ Heq]. destruct (sample_blocks_ok 4 H4) as (_ & _ & Hl & _).
  pose proof (sample_proofs_wf 4 H4) as Hps. pose proof (zlen_fec_of (root t) 4 Hr) as Hf.
  assert (Hloop : foldM (fun ps i => cp ← sample_proof t i; Ok (ps ++ [cp])) [] (range 0 4) =
    Ok (map compact_proof (honest_proofs (sample_blocks 4)))).
  { rewrite <- Hl at 1. rewrite (proofs_loop _ t (fun p => [compact_proof p])); [|done|unfold USIZE_MAX; lia|].
    - by rewrite concat_singletons.
    - intros acc i p Hp Hin. rewrite Forall_forall in Hps. by rewrite (sample_proof_ok t i p Hp (Hps p Hin)). }
  unfold passes, compact_validation_matches_tree. cbv zeta. rewrite Hl, Hb. cbn [expect].
  rewrite ok_bind, Hfec, ok_bind, (sample_manifest_ok _ 4 _ H4 Hf), ok_bind, Hloop, ok_bind.
  pose proof (validators_agree (concat (sample_blocks 4)) (to_boot (honest_manifest (concat (sample_blocks 4))))) as Hv.
  pose proof (validate_honest (concat (sample_blocks 4)) (sample_image_small 4 H4)) as Hh. rewrite Hh in Hv. clear Hh. rewrite Heq in Hv. unfold compact_manifest in Hv.
  cbn [to_boot bm_proofs bm_fec_backup bm_merkle_root bm_block_size bm_block_count proofs fec_backup merkle_root block_size block_count] in Hv.
  rewrite <- Hroot, Hf in Hv. change (MAX_FEC_BACKUP - 80) with 48 in Hv.
  rewrite Hv; [reflexivity|exact Hps|unfold MAX_FEC_BACKUP; lia|reflexivity].
Qed.

(** A manifest whose root is not the one of its backup *)
Lemma mismatch_rejected r r' fec : zlen r = 32 -> zlen fec = 80 -> decoded_fec fec = metadata r 2 -> r' <> r ->
  passes (assert_err (resolve_metadata_compact {| cm_merkle_root := r'; cm_block_size := DFIM_BLOCK_SIZE; cm_block_count := 2;
    cm_fec_len := 80; cm_fec_backup := fec ++ array x00 48 |}) CorruptMetadata).
Proof.
  intros Hr Hf Hd Hne. apply assert_err_spec. unfold resolve_metadata_compact.
  rewrite (resolve_into_eq _ fec); [|by apply slice_head|by intros ->|by rewrite Hf|lia|done].
  cbn [cm_merkle_root cm_block_size cm_block_count]. rewrite Hd. unfold checked_meta, le_word. rewrite zlen_metadata by done.
  unfold metadata, SHA256_LEN. rewrite (slice_here r _ 0 32) by lia.
  replace (slice (r ++ le_encode 4 DFIM_BLOCK_SIZE ++ le_encode 4 2) 32 (32 + 4))
    with (@Ok DfimError _ (le_encode 4 DFIM_BLOCK_SIZE)) by (symmetry; slice_app).
  replace (slice (r ++ le_encode 4 DFIM_BLOCK_SIZE ++ le_encode 4 2) 36 (36 + 4))
    with (@Ok DfimError _ (le_encode 4 2)) by (symmetry; slice_app).
  rewrite !ok_bind. unfold constant_time_hash_eq. cbn. by rewrite (proj2 (ct_eq_false r' r) Hne).
Qed.

(** A flipped byte, and what two flipped bits in each half of a codeword pair make of a byte *)
Lemma flip_ff b : flip_bits b 0xff <> b.
Proof. by destruct b; vm_compute. Qed.

Lemma rot_decodes b c1 c2 : enc_byte b = [c1; c2] -> dec_pair (flip_bits c1 0x03, flip_bits c2 0x05) <> b.
Proof. intros [= <- <-]. by destruct b; vm_compute. Qed.

Lemma xor_head b l m : xor_at (b :: l) 0 m = Ok (flip_bits b m :: l).
Proof.
  unfold xor_at. change (index (b :: l) 0) with (@Ok Empty_set _ b).
  rewrite ok_bind, store_ok by (rewrite zlen_cons; pose proof (zlen_nonneg l); lia). done.
Qed.

Lemma xor_second a b l m : xor_at (a :: b :: l) 1 m = Ok (a :: flip_bits b m :: l).
Proof.
  unfold xor_at. change (index (a :: b :: l) 1) with (@Ok Empty_set _ b).
  rewrite ok_bind, store_ok by (rewrite !zlen_cons; pose proof (zlen_nonneg l); lia). done.
Qed.

Lemma decoded_fec_of r n : zlen r = 32 -> decoded_fec (fec_of r n) = metadata r n.
Proof. intros Hr. apply dec_enc, Forall_Forall2_diag, Forall_true. by left. Qed.

Lemma root_head (r : list byte) : zlen r = 32 -> exists b r', r = b :: r'.
Proof. destruct r as [|b r']; [done|eauto]. Qed.

Lemma resolve_mismatch_test_passes : passes resolve_metadata_rejects_merkle_fec_mismatch.
Proof.
  assert (H2 : sampled 2) by (by left). destruct (sample_ok 2 H2) as (t & Hb & _ & Hr & Hfec).
  destruct (sample_blocks_ok 2 H2) as (_ & _ & Hl & _). pose proof (zlen_fec_of (root t) 2 Hr) as Hf.
  unfold passes, resolve_metadata_rejects_merkle_fec_mismatch. cbv zeta. rewrite Hl, Hb. cbn [expect].
  rewrite ok_bind, Hfec, ok_bind, (sample_manifest_ok _ 2 _ H2 Hf), ok_bind.
  cbn [cm_merkle_root cm_block_size cm_block_count cm_fec_len cm_fec_backup]. pose proof (decoded_fec_of (root t) 2 Hr) as Hd.
  destruct (root_head _ Hr) as (b & r' & Hh). rewrite Hh at 1. rewrite xor_head, ok_bind.
  apply (mismatch_rejected (root t)); [done..|]. rewrite Hh. intros [= He]. by apply flip_ff in He.
Qed.

Lemma resolve_rot_test_passes : passes resolve_metadata_rejects_double_bit_fec_rot.
Proof.
  assert (H2 : sampled 2) by (by left). destruct (sample_ok 2 H2) as (t & Hb & _ & Hr & Hfec).
  destruct (sample_blocks_ok 2 H2) as (_ & _ & Hl & _). pose proof (zlen_fec_of (root t) 2 Hr) as Hf.
  unfold passes, resolve_metadata_rejects_double_bit_fec_rot. cbv zeta. rewrite Hl, Hb. cbn [expect].
  rewrite ok_bind, Hfec, ok_bind. pose proof (decoded_fec_of (root t) 2 Hr) as Hd.
  destruct (root_head _ Hr) as (b & r' & Hh). destruct (enc_byte b) as [|c1 [|c2 []]] eqn:He; try discriminate.
  assert (Hfo : fec_of (root t) 2 = c1 :: c2 :: concat (map enc_byte (r' ++ le_encode 4 DFIM_BLOCK_SIZE ++ le_encode 4 2)))
    by (unfold fec_of, metadata; rewrite Hh; cbn [app map concat]; by rewrite He).
  rewrite Hfo in Hf, Hd |- *. rewrite xor_head, ok_bind, xor_second, ok_bind, (sample_manifest_ok _ 2 _ H2), ok_bind by exact Hf.
  set (b' := dec_pair (flip_bits c1 0x03, flip_bits c2 0x05)).
  apply (mismatch_rejected (b' :: r')); [by rewrite Hh, !zlen_cons in *|exact Hf| |].
  - unfold decoded_fec, metadata in *. rewrite Hh in Hd. cbn [chunks_exact2 map app] in *.
    apply (f_equal (@List.tl byte)) in Hd. cbn [List.tl] in Hd. by rewrite Hd.
  - rewrite Hh. intros [= Hx]. by apply (rot_decodes b c1 c2 He).
Qed.

Lemma block_tests_pass : Forall passes [parse_block_stream_round_trip; compact_validation_matches_tree;
  resolve_metadata_rejects_merkle_fec_mismatch; resolve_metadata_rejects_double_bit_fec_rot].
Proof.
  repeat constructor; [apply parse_block_stream_round_trip_passes|apply compact_validation_matches_tree_passes|
    apply resolve_mismatch_test_passes|apply resolve_rot_test_passes].
Qed.

Lemma zlen_sample_leaves n : 0 <= n -> zlen (sample_leaves n) = n.
Proof. intros Hn. unfold sample_leaves, zlen. rewrite length_map, zlen_range_nat. lia. Qed.
#[local] Opaque sample_leaves.

Lemma merkle_4096_passes : passes merkle_4096_leaves_build_verify.
Proof.
  assert (Hin : Forall (fun i => 0 <= i < 4096) [0; 1; 2047; 4095]) by (repeat constructor; lia).
  pose proof (zlen_sample_leaves 4096 ltac:(lia)) as Hl.
  assert (Hne : sample_leaves 4096 <> []) by (intros He; by rewrite He in Hl).
  destruct (merkle_complete (sample_leaves 4096) Hne) as (t & Hb & _ & Hc); [unfold USIZE_MAX; lia|].
  unfold passes, merkle_4096_leaves_build_verify. cbv zeta. rewrite Hb. cbn [expect]. rewrite ok_bind.
  assert (Hcount : leaf_count t = 4096).
  { rewrite build_ok in Hb by (done || unfold USIZE_MAX; lia). injection Hb as <-. unfold leaf_count. cbn [layers].
    destruct (layers_of_cons (length (sample_leaves 4096)) (map leaf_hash (sample_leaves 4096))) as [ls ->]. cbn [head].
    unfold zlen in *. by rewrite length_map. }
  rewrite Hcount, assert_eq_refl, ok_bind. apply for_each_passes. intros idx Hidx.
  rewrite Forall_forall in Hin. specialize (Hin idx Hidx).
  destruct (lookup_lt_is_Some_2 (sample_leaves 4096) (Z.to_nat idx)) as [leaf Hleaf]; [unfold zlen in Hl; lia|].
  destruct (Hc _ _ Hleaf) as (p & Hp & _ & Hv). rewrite Z2Nat.id in Hp, Hv by lia.
  unfold passes, index. rewrite Hp. cbn [expect]. rewrite ok_bind, (proj2 (Z.leb_le 0 idx)), Hleaf by lia. cbn [unwrap].
  rewrite ok_bind, Hv. done.
Qed.
End proofs.
End BlockTests.

(** ** [merkle.rs]: flipping any bit of any leaf

    The test hashes some thousands of strings; it is proved for every hash, up to a
    collision of that hash. *)

Module TamperTest.
Section tests.
Context `{HashOps}.

Definition merkle_single_bit_tamper_rejected : Test :=
  let leaves := sample_leaves 8 in
  tree ← expect (build leaves);
  let root := tree.(root) in
  for_each (zip (range 0 (zlen leaves)) leaves) (fun '(i, leaf) =>
    if zlen leaf =? 0 then Ok tt
    else
      for_each (range 0 (zlen leaf)) (fun bit_byte =>
        for_each (range 0 8) (fun bit =>
          m ← shl 8 1 bit;
          tampered ← xor_at leaf bit_byte m;
          proof ← expect (prove tree i);
          ok ← expect (verify_proof root tampered i proof);
          assert (negb ok)))).
End tests.

(** A byte flipped at one bit differs. *)
Lemma flip_differs i : 0 <= i < 8 -> exists m, @shl Empty_set 8 1 i = Ok m /\ forall b, flip_bits b m <> b.
Proof.
  intros Hi. assert (Hc : forallb (fun i => match @shl Empty_set 8 1 i with
    | Ok m => forallb (fun z => negb (Byte.eqb (flip_bits (z2b z) m) (z2b z))) (range 0 256) | _ => false end) (range 0 8) = true)
    by (by vm_compute).
  pose proof (range_forallb _ _ _ Hc i Hi) as Hm. cbv beta in Hm. destruct (shl 8 1 i) as [m| |]; [|done..]. exists m. split; [done|].
  intros b. pose proof (range_forallb _ _ _ Hm (b2z b) (b2z_range b)) as Hb. cbv beta in Hb. rewrite z2b_b2z in Hb.
  apply negb_true_iff in Hb. intros He. rewrite He in Hb. by rewrite (proj2 (byte_eqb_eq b b) eq_refl) in Hb.
Qed.

Lemma xor_at_differs l k m : 0 <= k < zlen l -> (forall b, flip_bits b m <> b) -> exists l', xor_at l k m = Ok l' /\ l' <> l /\ zlen l' = zlen l.
Proof.
  intros Hk Hm. destruct (lookup_lt_is_Some_2 l (Z.to_nat k)) as [b Hb]; [unfold zlen in Hk; lia|].
  unfold xor_at, index, store. rewrite (proj2 (Z.leb_le 0 k)), Hb, (proj2 (Z.ltb_lt k _)) by lia. cbn. eexists. split_and!; [done| |unfold zlen; by rewrite length_insert].
  intros He. apply (f_equal (lookup (Z.to_nat k))) in He. rewrite list_lookup_insert_eq in He by (unfold zlen in Hk; lia).
  rewrite Hb in He. injection He as He. by apply Hm in He.
Qed.

(** A byte of the second part, of the first part *)
Lemma xor_at_right a l k m l' : 0 <= k -> xor_at l k m = Ok l' -> xor_at (a ++ l) (zlen a + k) m = Ok (a ++ l').
Proof.
  intros Hk. unfold xor_at, index, store. pose proof (zlen_nonneg a).
  rewrite (proj2 (Z.leb_le 0 k)), (proj2 (Z.leb_le 0 (zlen a + k))) by lia.
  replace (Z.to_nat (zlen a + k)) with (length a + Z.to_nat k)%nat by (unfold zlen; lia).
  rewrite lookup_app_r, Nat.add_sub' by lia. destruct (l !! Z.to_nat k) as [b|] eqn:Hb; [|done]. cbn [unwrap]. rewrite !ok_bind.
  apply lookup_lt_Some in Hb. rewrite (proj2 (Z.ltb_lt k _)) by (unfold zlen; lia).
  rewrite (proj2 (Z.ltb_lt (zlen a + k) _)) by (rewrite zlen_app; unfold zlen; lia). cbn [andb].
  intros [= <-]. f_equal. by rewrite insert_app_r.
Qed.

Lemma xor_at_left a l k m a' : 0 <= k -> xor_at a k m = Ok a' -> xor_at (a ++ l) k m = Ok (a' ++ l).
Proof.
  intros Hk. unfold xor_at, index, store. rewrite (proj2 (Z.leb_le 0 k)) by lia.
  destruct (a !! Z.to_nat k) as [b|] eqn:Hb; [|done]. pose proof (lookup_lt_Some _ _ _ Hb) as Hlt.
  rewrite lookup_app_l, Hb by done. cbn [unwrap]. rewrite !ok_bind. rewrite (proj2 (Z.ltb_lt k _)) by (unfold zlen; lia).
  rewrite (proj2 (Z.ltb_lt k _)) by (rewrite zlen_app; unfold zlen; lia). cbn [andb].
  intros [= <-]. f_equal. by rewrite insert_app_l.
Qed.

Lemma for_each_or {A} (l : list A) f (P : Prop) : (forall a, a ∈ l -> passes (f a) \/ P) -> passes (for_each l f) \/ P.
Proof.
  unfold for_each. induction l as [|a l IH]; intros Hf; [by left|].
  destruct (Hf a) as [Ha|]; [by left| |by right]. cbn [foldM]. rewrite Ha, ok_bind. apply IH. intros b Hb. apply Hf. by right.
Qed.

Section proofs.
Context `{HashLaws}.

Lemma tampered_leaf_rejected leaves t i leaf tampered p : build leaves = Ok t -> 3 * zlen leaves <= USIZE_MAX ->
  leaves !! i = Some leaf -> tampered <> leaf -> prove t (Z.of_nat i) = Ok p ->
  verify_proof (root t) tampered (Z.of_nat i) p = Ok false \/ exists x y, collision x y.
Proof.
  intros Hb Hl Hi Hne Hp. destruct (merkle_complete leaves) as (t' & Hb' & _ & Hc); [by intros ->|done|].
  rewrite Hb in Hb'. injection Hb' as <-. destruct (Hc i leaf Hi) as (p' & Hp' & Hlen & Hv). rewrite Hp in Hp'. injection Hp' as <-.
  pose proof (height_le (length leaves)) as Hh. assert (Hpl : zlen (steps p) <= USIZE_MAX) by (unfold zlen in *; lia).
  destruct (verify_total (root t) tampered i p Hpl) as ([] & Hr); [|by left]. right.
  destruct (verify_same_proof (root t) tampered leaf i p) as [He|(x & y & _ & _ & Hxy)]; [done| |done..|by exists x, y].
  pose proof (lookup_lt_Some _ _ _ Hi) as Hlt. rewrite (prove_ok leaves) in Hp by done. injection Hp as <-. cbn [steps proof_of].
  apply Forall_fmap. eapply Forall_impl; [apply path_lengths; [rewrite length_map; lia..|apply leaf_hash_lengths]|].
  intros s Hs. cbn. unfold zlen. by rewrite Hs.
Qed.

(** The test passes, or evaluating it exhibits a collision of the hash. *)
Lemma tamper_test_passes : passes merkle_single_bit_tamper_rejected \/ exists x y, collision x y.
Proof.
  pose proof (BlockTests.zlen_sample_leaves 8 ltac:(lia)) as Hl. assert (Hb : 3 * zlen (sample_leaves 8) <= USIZE_MAX) by (unfold USIZE_MAX; lia).
  pose proof (build_ok (sample_leaves 8) ltac:(intros He; by rewrite He in Hl) Hb) as Ht.
  set (t := {| root := _ |}) in Ht. unfold passes, merkle_single_bit_tamper_rejected. cbv zeta. rewrite Ht. cbn [expect]. rewrite ok_bind.
  apply for_each_or. intros [z leaf] (k & Hk)%list_elem_of_lookup. apply lookup_zip_Some in Hk as [Hz Hleaf].
  apply range_lookup in Hz as [-> Hlt]. rewrite Z.add_0_l in *. destruct (zlen leaf =? 0); [by left|].
  apply for_each_or. intros j Hj%elem_of_range. apply for_each_or. intros bit Hbit%elem_of_range.
  destruct (flip_differs bit Hbit) as (m & -> & Hm). rewrite ok_bind.
  destruct (xor_at_differs leaf j m Hj Hm) as (tampered & -> & Hne & _). rewrite ok_bind.
  assert (Hkl : (k < length (sample_leaves 8))%nat) by (by eapply lookup_lt_Some).
  pose proof (prove_ok _ t k Ht Hb Hkl) as Hp. rewrite Hp. cbn [expect]. rewrite ok_bind.
  destruct (tampered_leaf_rejected _ t k leaf tampered _ Ht Hb Hleaf Hne Hp) as [-> |Hc]; [by left|by right].
Qed.
End proofs.
End TamperTest.

(** ** [tests/integration_tests.rs] of the engine *)

Module IntegrationTests.
Section tests.
Context `{HashOps}.

Definition integration_sidecar_hash_roundtrip : Test :=
  let file_data := txt "DFIM integration: boot image provisioning and verification" in
  let digest := sha256_digest file_data in
  let redigest := sha256_digest file_data in
  assert (constant_time_hash_eq digest redigest).

Definition integration_tampered_file_detection : Test :=
  let original := txt "boot-image-v1.0.0-integrity-sealed" in
  let tampered := txt "boot-image-v1.0.0-malware-added " in
  let h1 := sha256_digest original in
  let h2 := sha256_digest tampered in
  assert (negb (constant_time_hash_eq h1 h2)).

Definition integration_multi_block_integrity : Test :=
  let blocks := BlockTests.sample_blocks 16 in
  let digests := map sha256_digest blocks in
  for_each (zip (range 0 (zlen blocks)) blocks) (fun '(i, block) =>
    d ← index digests i;
    assert (constant_time_hash_eq (sha256_digest block) d)).

Definition integration_boot_block_constants : Test :=
  assert_eq MAX_BOOT_BLOCKS 64 ;;
  assert_eq DFIM_BLOCK_SIZE 4096.

Definition integration_max_image_size : Test :=
  max ← mul_usize MAX_BOOT_BLOCKS DFIM_BLOCK_SIZE;
  assert_eq max 262144 ;;
  let valid := array x00 max in
  assert_eq (zlen (sha256_digest valid)) SHA256_LEN.

Definition integration_eval_license_tag_chain : Test :=
  let state := txt "DFIMSTAT-v1-eval-state" in
  let tag := sha256_digest state in
  let verify := sha256_digest state in
  assert (constant_time_hash_eq tag verify) ;;
  let tampered := txt "DFIMSTAT-v1-eval-TAMPERED" in
  let bad_tag := sha256_digest tampered in
  assert (negb (constant_time_hash_eq tag bad_tag)).

Definition integration_constant_time_no_leak : Test :=
  let a := sha256_digest (txt "aaaa") in
  let b := sha256_digest (txt "bbbb") in
  assert (constant_time_hash_eq a a) ;;
  assert (negb (constant_time_hash_eq a b)).

Definition integration_fec_roundtrip : Test :=
  let data := txt "DFIM-Hamming-FEC-Test-Data-16bytes" in
  encoded ← expect (encode_block data);
  decoded ← expect (decode_block encoded);
  assert_eq decoded data.

(** The printed line is not modelled; the comparison in it cannot fail. *)
Definition integration_fec_detects_corruption : Test :=
  let data := txt "TestData---16byte" in
  encoded ← expect (encode_block data);
  encoded ← (if zlen encoded >? 2 then xor_at encoded 2 0x0f else Ok encoded);
  _ ← expect (decode_block encoded);
  Ok tt.

Definition integration_fec_empty_input : Test := assert_is_err (encode_block []).

Definition integration_full_pipeline : Test :=
  let file := txt "DFIM full pipeline integration test data" in
  let hash := sha256_digest file in
  encoded ← expect (encode_block hash);
  decoded ← expect (decode_block encoded);
  assert_eq decoded hash ;;
  d ← slice decoded 0 (Z.min SHA256_LEN (zlen decoded));
  decoded_hash ← copy_into (array x00 SHA256_LEN) 0 SHA256_LEN d;
  assert (constant_time_hash_eq decoded_hash hash).
End tests.

Lemma integration_tests_pass : let _ := BpfSha.bpf_hash in
  Forall passes [integration_sidecar_hash_roundtrip; integration_tampered_file_detection; integration_boot_block_constants;
    integration_eval_license_tag_chain; integration_constant_time_no_leak; integration_fec_roundtrip;
    integration_fec_detects_corruption; integration_fec_empty_input; integration_full_pipeline].
Proof. apply evaluate. by vm_compute. Qed.

(** The two tests that hash many blocks, with every hash *)
Lemma integration_block_tests_pass `{HashLaws} : Forall passes [integration_multi_block_integrity; integration_max_image_size].
Proof.
  repeat constructor.
  - apply for_each_passes. intros [z b] (k & Hk)%list_elem_of_lookup. apply lookup_zip_Some in Hk as [Hz Hb].
    apply range_lookup in Hz as [-> _]. unfold index. rewrite Z.add_0_l, (proj2 (Z.leb_le 0 _)), Nat2Z.id by lia.
    change (map ?f ?l) with (f <$> l). rewrite list_lookup_fmap, Hb. cbn. unfold passes, constant_time_hash_eq. by rewrite ct_eq_refl.
  - unfold integration_max_image_size. change (mul_usize MAX_BOOT_BLOCKS DFIM_BLOCK_SIZE) with (@Ok Empty_set _ 262144).
    rewrite ok_bind, assert_eq_refl, ok_bind. cbv zeta. unfold sha256_digest. rewrite zlen_sha256. apply assert_eq_refl.
Qed.
End IntegrationTests.
