(* ===== verification/TestsUefi.v ===== *)
(** * TestsUefi: the unit tests of [dfim_windows_uefi] and [dfim_host_init]

    Tests whose outcome depends on the signature scheme hold for every scheme with the laws
    [SigLaws], up to a forgery of that scheme; tests whose outcome depends on a whole block
    hashing differently, up to a collision of the hash.  The rest is evaluated.

    The tests of the licence gate each work in a directory of their own, which they create and
    remove: the state file starts absent, and file operations succeed. *)

From stdpp Require Import base list numbers option strings.
From Stdlib Require Import ZArith Lia Strings.Byte.
From S2P Require Import Prelude Crypto Core Hamming Sha256Bpf Merkle BlockStream Pipeline SignedManifest Rollback.
From S2P Require Import BootValidate HostInit Json TestKit TestsCore.

(** ** [rollback.rs] *)

Module RollbackTests.
Definition KEY_ID : list byte := txt "DFIM-ROLLBACK-01".

Definition rollback_baseline_round_trip : Test :=
  payload ← expect (build_rollback_baseline KEY_ID 42);
  r ← expect (parse_rollback_baseline payload KEY_ID);
  assert_eq r 42.

Definition rollback_baseline_rejects_wrong_key_and_zero_counter : Test :=
  assert_err (build_rollback_baseline KEY_ID 0) InvalidParameter ;;
  payload ← expect (build_rollback_baseline KEY_ID 4);
  assert_err (parse_rollback_baseline payload (array xaa 16)) IntegrityFailure.

Definition persisted_floor_can_only_raise_compiled_floor : Test :=
  a ← expect (effective_minimum_release 7 9);
  assert_eq a 9 ;;
  b ← expect (effective_minimum_release 9 7);
  assert_eq b 9.

Lemma rollback_tests_pass : Forall passes [rollback_baseline_round_trip;
  rollback_baseline_rejects_wrong_key_and_zero_counter; persisted_floor_can_only_raise_compiled_floor].
Proof. apply evaluate. by vm_compute. Qed.
End RollbackTests.

(** ** [dfim_host_init] *)

Module LicenseTests.
#[export] Instance EvalLicenseError_eq_dec : EqDecision EvalLicenseError.
Proof. solve_decision. Defined.

(** The test sets [DFIM_PRODUCTION]; the build is the default one. *)
Definition production_env_disables_host_gate_requirement : Test :=
  assert (negb (host_gate_required false (Some (txt "1")))).

Section tests.
Context `{HashOps}.

Definition run_license (now : Z) (file : option (list byte)) : check (option (list byte)) :=
  let '(r, file) := check_eval_license works now file in
  _ ← expect r;
  Ok file.

Definition seed_state (activation last : Z) : check (option (list byte)) :=
  let '(r, file) := write_state works {| activation_timestamp := activation; last_execution_timestamp := last |} None in
  _ ← expect r;
  Ok file.

(** [read_state] of the path: a file that is absent cannot be read. *)
Definition read_path (file : option (list byte)) : LicenseResult LicenseState :=
  match file with Some content => read_state works content | None => Err StateUnreadable end.

Definition integrity_tag_detects_header_tamper : Test :=
  let state := {| activation_timestamp := 1700000000; last_execution_timestamp := 1700000100 |} in
  header ← expect (encode_state_header state);
  header ← xor_at header 12 0x01;
  file ← copy_into (array x00 STATE_FILE_LEN) 0 STATE_HEADER_LEN header;
  original ← expect (encode_state_header state);
  file ← copy_into file STATE_HEADER_LEN (zlen file) (compute_state_integrity original);
  assert_err (read_path (Some file)) StateUnreadable.

Definition first_run_creates_authenticated_file : Test :=
  let now := 3000000 in
  file ← run_license now None;
  bytes ← unwrap file;
  assert_eq (zlen bytes) STATE_FILE_LEN ;;
  magic ← slice bytes 0 8;
  assert_eq magic STATE_MAGIC ;;
  state ← expect (read_path file);
  assert_eq state.(activation_timestamp) now ;;
  assert_eq state.(last_execution_timestamp) now.

Definition success_updates_last_execution_watermark : Test :=
  let activation := 3000000 in
  file ← run_license activation None;
  file ← run_license (activation + 3600) file;
  state ← expect (read_path file);
  assert_eq state.(activation_timestamp) activation ;;
  assert_eq state.(last_execution_timestamp) (activation + 3600).

Definition clock_rollback_triggers_err10 : Test :=
  let t0 := 4000000 in
  file ← run_license t0 None;
  assert_err (fst (check_eval_license works (t0 - 1) file)) ClockTampering.

Definition backdate_before_activation_triggers_err10 : Test :=
  file ← seed_state 5000000 5000000;
  assert_err (fst (check_eval_license works 4999999 file)) ClockTampering.

Definition expired_when_delta_exceeds_thirty_days : Test :=
  let activation := 1000000 in
  file ← seed_state activation activation;
  assert_err (fst (check_eval_license works (activation + EVAL_PERIOD_SECS + 1) file)) Expired.

Definition valid_on_day_thirty_boundary : Test :=
  let activation := 2000000 in
  file ← seed_state activation activation;
  assert_ok (fst (check_eval_license works (activation + EVAL_PERIOD_SECS) file)).

Definition rejects_truncated_state_file : Test := assert_err (read_path (Some (array x00 8))) StateUnreadable.

Definition rejects_plaintext_state_injection : Test :=
  assert_err (read_path (Some (txt "STATE_HASH_CLOCK_VALID_A"))) StateUnreadable.

Definition rejects_legacy_xor_state_blob : Test := assert_err (read_path (Some (array x5a 16))) StateUnreadable.
End tests.

Lemma license_tests_pass : let _ := BpfSha.bpf_hash in
  Forall passes [production_env_disables_host_gate_requirement; integrity_tag_detects_header_tamper;
    first_run_creates_authenticated_file; success_updates_last_execution_watermark; clock_rollback_triggers_err10;
    backdate_before_activation_triggers_err10; expired_when_delta_exceeds_thirty_days; valid_on_day_thirty_boundary;
    rejects_truncated_state_file; rejects_plaintext_state_injection; rejects_legacy_xor_state_blob].
Proof. apply evaluate. by vm_compute. Qed.
End LicenseTests.

(** ** [manifest.rs] and [pipeline.rs] *)

Module SidecarTests.
Section tests.
Context `{HashOps}.

Definition round_trip_parse_generated_manifest : Test :=
  let blocks := BlockTests.sample_blocks 4 in
  let image := concat blocks in
  blob ← expect (build_boot_sidecar image);
  parsed ← expect (parse_boot_manifest blob);
  assert_eq parsed.(bm_block_count) (zlen blocks).

Definition parse_rejects_proof_depth_above_ebpf_cap : Test :=
  let image := concat (BlockTests.sample_blocks 4) in
  blob ← expect (build_boot_sidecar image);
  b ← slice blob 52 56;
  let fec_len := le_decode b in
  proof_step_offset ← add_usize 56 fec_len;
  blob ← store blob proof_step_offset (z2b (as_u8 (MAX_PROOF_STEPS + 1)));
  assert_err (parse_boot_manifest blob) InvalidParameter.

Definition build_fixture (block_count : Z) : check (list byte * BootManifest) :=
  let blocks := BlockTests.sample_blocks block_count in
  let image := concat blocks in
  tree ← expect (build blocks);
  blob ← BlockTests.sample_blob tree block_count;
  manifest ← expect (parse_boot_manifest blob);
  Ok (image, manifest).

Definition validate_passes_for_signed_fixture : Test :=
  im ← build_fixture 8;
  let '(image, manifest) := im in
  result ← expect (validate_boot_image image manifest);
  assert_eq result.(blocks_verified) 8 ;;
  assert (negb result.(fec_corrected)).

Definition validate_rejects_tampered_block : Test :=
  im ← build_fixture 4;
  let '(image, manifest) := im in
  image ← xor_at image (DFIM_BLOCK_SIZE + 10) 0xff;
  assert_err (validate_boot_image image manifest) IntegrityFailure.
End tests.

Section proofs.
Context `{HashLaws}.

Lemma build_fixture_ok n : BlockTests.sampled n ->
  build_fixture n = Ok (concat (BlockTests.sample_blocks n), to_boot (honest_manifest (concat (BlockTests.sample_blocks n)))).
Proof.
  intros Hn. destruct (BlockTests.sample_ok n Hn) as (t & Hb & _). unfold build_fixture. cbv zeta. rewrite Hb. cbn [expect].
  rewrite ok_bind, (BlockTests.sample_blob_ok n t Hn Hb), ok_bind.
  pose proof (parse_honest _ (BlockTests.sample_image_small n Hn)) as Hp. by rewrite Hp.
Qed.

(** An image of the right size is accepted or an integrity failure. *)
Lemma check_blocks_decide root ps k blocks : Forall proof_wf ps -> Z.of_nat k + zlen blocks <= zlen ps ->
  (exists z, foldM (check_block root ps) (Z.of_nat k) blocks = Ok z) \/
  foldM (check_block root ps) (Z.of_nat k) blocks = Err IntegrityFailure.
Proof.
  intros Hwf. revert k. induction blocks as [|b blocks IH]; intros k Hl; [left; by eexists|].
  rewrite zlen_cons in Hl. pose proof (zlen_nonneg blocks). cbn [foldM].
  destruct (lookup_lt_is_Some_2 ps k) as [p Hp]; [unfold zlen in *; lia|].
  rewrite Forall_forall in Hwf. destruct (Hwf p) as [Hmax _]; [by eapply list_elem_of_lookup_2|].
  destruct (verify_total root b k p) as [ok Hok]; [unfold MAX_PROOF_STEPS, USIZE_MAX in *; lia|].
  unfold check_block at 2 4, index. rewrite (proj2 (Z.leb_le 0 _)), Nat2Z.id, Hp by lia. cbn [unwrap].
  rewrite ok_bind, Hok, ok_bind. destruct ok; [|by right]. cbn [negb]. rewrite ok_bind.
  replace (Z.of_nat k + 1) with (Z.of_nat (S k)) by lia. apply IH. lia.
Qed.

Lemma validate_decides image image' : 1 <= zlen image <= MAX_IMAGE_BYTES -> zlen image' = zlen image ->
  (exists v, validate_boot_image image' (to_boot (honest_manifest image)) = Ok v) \/
  validate_boot_image image' (to_boot (honest_manifest image)) = Err IntegrityFailure.
Proof.
  intros Hn Hz. pose proof (honest_wf image Hn) as (_ & _ & _ & Hps & _ & _ & Hwf). cbn [proofs honest_manifest block_count] in Hps, Hwf.
  assert (Hn' : 1 <= zlen image' <= MAX_IMAGE_BYTES) by lia. destruct (div_ceil_bounds _ Hn) as [Hc _].
  pose proof (zlen_blocks_of image Hn) as Hl. pose proof (zlen_blocks_of image' Hn') as Hl'. rewrite Hz in Hl'.
  unfold validate_boot_image. rewrite (proj2 (validate_image_byte_len_Ok (zlen image') ltac:(lia)) Hn'), ok_bind.
  rewrite resolve_honest, ok_bind by done. cbn [to_boot bm_proofs honest_manifest proofs]. rewrite Hps, Z.eqb_refl. cbn [negb].
  rewrite (proj2 (partition_ok image' Hn')), ok_bind, Hl', Hl. unfold as_u32.
  rewrite Z.mod_small, Z.eqb_refl by (unfold MAX_BOOT_BLOCKS in *; lia). cbn [negb].
  destruct (check_blocks_decide (Merkle.merkle_root (blocks_of image)) (honest_proofs (blocks_of image)) 0 (blocks_of image') Hwf)
    as [[z Hf]|Hf]; [lia| |]; change (Z.of_nat 0) with 0 in Hf; rewrite Hf; [left; by eexists|by right].
Qed.

(** A flipped image is rejected, or hashing it exhibits a collision. *)
Lemma tampered_image_rejected image image' : 1 <= zlen image <= MAX_IMAGE_BYTES -> zlen image' = zlen image -> image' <> image ->
  validate_boot_image image' (to_boot (honest_manifest image)) = Err IntegrityFailure \/ exists x y, collision x y.
Proof.
  intros Hn Hz Hne. destruct (validate_decides image image' Hn Hz) as [[v Hv]|Hv]; [right|by left].
  pose proof (honest_wf image Hn) as (_ & _ & _ & _ & _ & _ & Hwf).
  destruct (validate_binding (to_boot (honest_manifest image)) image' image v _ Hwf Hv (validate_honest image Hn)) as [Hp|(x & y & _ & _ & Hc)];
    [|by exists x, y]. exfalso. unfold padded in Hp. apply app_inj_1 in Hp as [? _]; [done|]. unfold zlen in Hz. lia.
Qed.

Lemma manifest_round_trip_passes : passes round_trip_parse_generated_manifest.
Proof.
  assert (H4 : BlockTests.sampled 4) by (by right; left). pose proof (BlockTests.sample_image_small 4 H4) as Hs.
  destruct (BlockTests.sample_blocks_ok 4 H4) as (_ & _ & Hl & _). destruct (BlockTests.sample_honest 4 H4) as [_ Heq].
  unfold passes, round_trip_parse_generated_manifest. cbv zeta. pose proof (build_boot_sidecar_ok _ Hs) as Hb. rewrite Hb. cbn [expect].
  rewrite ok_bind. pose proof (parse_honest _ Hs) as Hp. rewrite Hp. cbn [expect]. rewrite ok_bind, Hl, Heq. apply assert_eq_refl.
Qed.

(** The first proof of a sidecar claims 17 steps. *)
Lemma deep_proof_rejected m c tail : manifest_wf m -> zlen (BlockStream.header_bytes m ++ c :: tail) <= USIZE_MAX -> b2z c = 17 ->
  parse_boot_manifest (BlockStream.header_bytes m ++ c :: tail) = Err InvalidParameter.
Proof.
  intros Hwf Hlen Hc. unfold parse_boot_manifest. rewrite parse_header by done.
  destruct Hwf as (_ & _ & Hbc & _). rewrite range_cons by lia. cbn [foldM].
  assert (Hp : parse_proof (BlockStream.header_bytes m ++ c :: tail) (zlen (BlockStream.header_bytes m), []) 0 = Err InvalidParameter).
  { unfold parse_proof. rewrite zlen_app, zlen_cons in Hlen |- *. pose proof (zlen_nonneg tail). pose proof (zlen_nonneg (BlockStream.header_bytes m)).
    rewrite Z.geb_leb, (proj2 (Z.leb_gt _ _)) by lia. unfold index. rewrite (proj2 (Z.leb_le 0 _)) by lia.
    rewrite list_lookup_middle by (unfold zlen; by rewrite Nat2Z.id). cbn [unwrap]. rewrite ok_bind, Hc.
    unfold checked_add. rewrite (proj2 (Z.leb_le _ _)) by lia. cbn [ok_or]. by rewrite ok_bind. }
  by rewrite Hp.
Qed.

Lemma proof_depth_passes : passes parse_rejects_proof_depth_above_ebpf_cap.
Proof.
  assert (H4 : BlockTests.sampled 4) by (by right; left). pose proof (BlockTests.sample_image_small 4 H4) as Hs.
  unfold passes, parse_rejects_proof_depth_above_ebpf_cap. cbv zeta. pose proof (build_boot_sidecar_ok _ Hs) as Hb.
  pose proof (honest_wf _ Hs) as Hwf. revert Hb Hwf. generalize (honest_manifest (concat (BlockTests.sample_blocks 4))).
  generalize (concat (BlockTests.sample_blocks 4)). clear H4 Hs. intros image m Hb Hwf.
  rewrite Hb. cbn [expect]. rewrite ok_bind. unfold manifest_bytes. set (tail := concat (map proof_bytes (proofs m))).
  destruct (header_fields m tail Hwf) as (Hhl & _ & _ & _ & _ & _ & H52 & _).
  rewrite (slice_any _ _ _ _ H52), ok_bind. pose proof Hwf as (_ & _ & Hbc & Hps & Hfec & _ & Hpwf). rewrite le_decode_encode_small by lia.
  unfold add_usize. rewrite (proj2 (Z.leb_le _ _)), ok_bind by (unfold USIZE_MAX; lia). rewrite <- Hhl.
  assert (Ht : exists c rest, tail = c :: rest).
  { unfold tail. destruct (proofs m) as [|p ps]; [by rewrite zlen_nil in Hps; lia|]. by eexists _, _. }
  destruct Ht as (c & rest & Ht). rewrite Ht. rewrite store_ok by (rewrite zlen_app, zlen_cons; pose proof (zlen_nonneg rest); pose proof (zlen_nonneg (BlockStream.header_bytes m)); lia).
  rewrite ok_bind. unfold splice.
  replace (Z.to_nat (zlen (BlockStream.header_bytes m))) with (length (BlockStream.header_bytes m)) by (unfold zlen; lia).
  rewrite take_app_length. cbn [app length]. rewrite drop_app_ge by lia. replace (length (BlockStream.header_bytes m) + 1 - length (BlockStream.header_bytes m))%nat with 1%nat by lia. cbn [drop].
  apply assert_err_spec, deep_proof_rejected; [done| |done].
  pose proof (zlen_manifest_bound m Hwf) as Hm. unfold manifest_bytes in Hm. fold tail in Hm. rewrite Ht in Hm.
  rewrite drop_0. rewrite zlen_app, zlen_cons in Hm |- *. exact Hm.
Qed.

Lemma fixture_validates : passes validate_passes_for_signed_fixture.
Proof.
  assert (H8 : BlockTests.sampled 8) by (by right; right). pose proof (BlockTests.sample_image_small 8 H8) as Hs.
  destruct (BlockTests.sample_blocks_ok 8 H8) as (Hb & _ & Hl & _).
  unfold passes, validate_passes_for_signed_fixture. rewrite build_fixture_ok, ok_bind by done.
  pose proof (validate_honest _ Hs) as Hv. rewrite Hv. cbn [expect]. rewrite ok_bind. cbn [blocks_verified fec_corrected].
  by rewrite Hb, Hl.
Qed.

(** The test passes, or the tampered block collides with the honest one. *)
Lemma tampered_block_test_passes : passes validate_rejects_tampered_block \/ exists x y, collision x y.
Proof.
  assert (H4 : BlockTests.sampled 4) by (by right; left). pose proof (BlockTests.sample_image_small 4 H4) as Hs.
  destruct (BlockTests.sample_blocks_ok 4 H4) as (_ & Hz & _).
  unfold passes, validate_rejects_tampered_block. rewrite build_fixture_ok, ok_bind by done. set (image := concat _) in *.
  destruct (TamperTest.xor_at_differs image (DFIM_BLOCK_SIZE + 10) 0xff) as (image' & Hx & Hne & Hzl);
    [unfold DFIM_BLOCK_SIZE; lia|apply BlockTests.flip_ff|].
  rewrite Hx, ok_bind. destruct (tampered_image_rejected image image' Hs) as [->|Hc]; [done..|by left|by right].
Qed.
End proofs.
End SidecarTests.

(** ** [signed_manifest.rs] *)

Module SignedTests.
Definition PRIVATE_KEY : list byte := array x11 32.
Definition KEY_ID : list byte := txt "DFIM-TEST-KEY-01".
Definition fixture : list byte := array x4d (DFIM_BLOCK_SIZE * 2).

Section tests.
Context `{HashOps} `{SigOps}.

Definition policy (minimum_release : Z) : check TrustedManifestPolicy :=
  pk ← expect (public_key_sec1_from_private PRIVATE_KEY);
  Ok {| public_key_sec1 := pk; expected_key_id := KEY_ID; minimum_release := minimum_release |}.

Definition signed_v2_round_trip_is_verified : Test :=
  blob ← expect (build_signed_boot_sidecar_v2 fixture PRIVATE_KEY KEY_ID 7);
  p ← policy 7;
  verified ← expect (parse_and_verify_boot_sidecar_v2 blob p);
  assert_eq verified.(vm_release_counter) 7 ;;
  assert_eq verified.(vm_key_id) KEY_ID ;;
  assert_eq verified.(vm_manifest).(bm_block_count) 2.

Definition trusted_pipeline_validates_signed_image : Test :=
  let image := fixture in
  blob ← expect (build_signed_boot_sidecar_v2 image PRIVATE_KEY KEY_ID 7);
  p ← policy 7;
  validated ← expect (validate_signed_boot_image_v2 image blob p);
  assert_eq validated.(vs_release_counter) 7 ;;
  assert_eq validated.(vs_boot).(blocks_verified) 2.

Definition trusted_pipeline_rejects_image_tamper : Test :=
  let image := fixture in
  blob ← expect (build_signed_boot_sidecar_v2 image PRIVATE_KEY KEY_ID 7);
  tampered ← xor_at image 3 1;
  p ← policy 7;
  assert_err (validate_signed_boot_image_v2 tampered blob p) IntegrityFailure.

Definition signed_v2_rejects_payload_tamper : Test :=
  blob ← expect (build_signed_boot_sidecar_v2 fixture PRIVATE_KEY KEY_ID 7);
  blob ← xor_at blob V2_MERKLE_ROOT_OFFSET 1;
  p ← policy 7;
  assert_err (parse_and_verify_boot_sidecar_v2 blob p) IntegrityFailure.

Definition signed_v2_rejects_signature_tamper : Test :=
  blob ← expect (build_signed_boot_sidecar_v2 fixture PRIVATE_KEY KEY_ID 7);
  last ← sub_usize (zlen blob) 1;
  blob ← xor_at blob last 1;
  p ← policy 7;
  assert_err (parse_and_verify_boot_sidecar_v2 blob p) IntegrityFailure.

Definition signed_v2_rejects_rollback : Test :=
  blob ← expect (build_signed_boot_sidecar_v2 fixture PRIVATE_KEY KEY_ID 6);
  p ← policy 7;
  assert_err (parse_and_verify_boot_sidecar_v2 blob p) IntegrityFailure.

Definition signed_v2_rejects_wrong_key_id : Test :=
  blob ← expect (build_signed_boot_sidecar_v2 fixture PRIVATE_KEY (array xaa 16) 7);
  p ← policy 7;
  assert_err (parse_and_verify_boot_sidecar_v2 blob p) IntegrityFailure.

Definition trusted_parser_rejects_legacy_v1 : Test :=
  legacy ← expect (build_boot_sidecar fixture);
  p ← policy 1;
  assert_err (parse_and_verify_boot_sidecar_v2 legacy p) InvalidParameter.
End tests.

Lemma fixture_small : 1 <= zlen fixture <= MAX_IMAGE_BYTES /\ zlen (blocks_of fixture) = 2.
Proof. by vm_compute. Qed.
#[local] Opaque fixture.

Section honest.
Context `{HashLaws} `{SigLaws}.

Lemma body_bound m release key_id : zlen key_id = 16 ->
  manifest_wf {| merkle_root := m.(bm_merkle_root); block_size := m.(bm_block_size);
    block_count := m.(bm_block_count); fec_backup := m.(bm_fec_backup); proofs := m.(bm_proofs) |} ->
  zlen (v2_body m release key_id) + 64 <= USIZE_MAX.
Proof.
  intros Hk (Hr & _ & Hbc & Hps & Hfec & _ & Hpwf). cbn in Hr, Hbc, Hps, Hfec, Hpwf.
  apply zlen_v2_body_bound; [done..|unfold MAX_BOOT_BLOCKS in *; lia|lia].
Qed.

(** The checks of the trusted parser on the sidecar of an image, with any signature *)
Lemma honest_parses image sk release key_id sg trusted floor : 1 <= zlen image <= MAX_IMAGE_BYTES -> sk_valid sk = true ->
  0 < release < 2 ^ 64 -> zlen key_id = 16 -> zlen trusted = 16 -> zlen sg = 64 ->
  let body := v2_body (to_boot (honest_manifest image)) release key_id in
  parse_and_verify_boot_sidecar_v2 (body ++ sg)
      {| public_key_sec1 := pk_of sk; expected_key_id := trusted; minimum_release := floor |} =
    if release <? floor then Err IntegrityFailure
    else if negb (bytes_eqb key_id trusted) then Err IntegrityFailure
    else if negb (sig_valid sg) then Err IntegrityFailure
    else if negb (sig_verify (pk_of sk) body sg) then Err IntegrityFailure
    else Ok {| vm_manifest := to_boot (honest_manifest image); vm_release_counter := release; vm_key_id := key_id |}.
Proof.
  intros Hn Hsk Hr Hk Ht Hs body. pose proof (honest_wf image Hn) as Hwf.
  pose proof (zlen_merkle_root _ (blocks_of_ne image Hn)) as Hroot. unfold body.
  set (trust := {| public_key_sec1 := _ |}). rewrite (parse_v2_exact (to_boot (honest_manifest image)) release key_id sg trust Hwf Hr Hk Ht Hs
    (body_bound (to_boot (honest_manifest image)) _ _ Hk Hwf)). unfold trust. cbn [minimum_release expected_key_id public_key_sec1].
  rewrite pk_of_valid by done. cbn [negb]. destruct (release <? floor); [done|]. destruct (bytes_eqb _ _); [|done]. cbn [negb].
  destruct (sig_valid sg); [|done]. cbn [negb]. destruct (sig_verify _ _ _); [|done]. cbn [negb].
  cbn [to_boot bm_fec_backup bm_merkle_root honest_manifest fec_backup merkle_root].
  rewrite (proj2 (fec_of_encodes _ _ Hroot)), ok_bind, zlen_metadata by done. cbn [Z.ltb Z.compare].
  unfold metadata, SHA256_LEN. change (40 <? 40) with false. cbv iota. rewrite slice_here, ok_bind by lia.
  unfold constant_time_hash_eq. by rewrite ct_eq_refl.
Qed.
End honest.

Section proofs.
Context `{HashLaws} `{SigLaws} (Hsk : sk_valid PRIVATE_KEY = true).

(** What the fixture's signer signs *)
Definition body (release : Z) (key_id : list byte) : list byte := v2_body (to_boot (honest_manifest fixture)) release key_id.

Lemma test_policy_ok floor : policy floor = Ok {| public_key_sec1 := pk_of PRIVATE_KEY; expected_key_id := KEY_ID; minimum_release := floor |}.
Proof.
  unfold policy, public_key_sec1_from_private. rewrite Hsk. cbn [negb]. unfold zlen. by rewrite pk_of_length.
Qed.

Lemma fixture_signed key_id release : 0 < release ->
  build_signed_boot_sidecar_v2 fixture PRIVATE_KEY key_id release = Ok (body release key_id ++ sign PRIVATE_KEY (body release key_id)).
Proof. intros Hr. exact (build_signed_ok fixture PRIVATE_KEY key_id release (proj1 fixture_small) Hr Hsk). Qed.

(** The checks of the trusted parser on what the fixture's signer wrote *)
Lemma fixture_parses release key_id sg floor : 0 < release < 2 ^ 64 -> zlen key_id = 16 -> zlen sg = 64 ->
  parse_and_verify_boot_sidecar_v2 (body release key_id ++ sg)
      {| public_key_sec1 := pk_of PRIVATE_KEY; expected_key_id := KEY_ID; minimum_release := floor |} =
    if release <? floor then Err IntegrityFailure
    else if negb (bytes_eqb key_id KEY_ID) then Err IntegrityFailure
    else if negb (sig_valid sg) then Err IntegrityFailure
    else if negb (sig_verify (pk_of PRIVATE_KEY) (body release key_id) sg) then Err IntegrityFailure
    else Ok {| vm_manifest := to_boot (honest_manifest fixture); vm_release_counter := release; vm_key_id := key_id |}.
Proof. intros Hr Hk Hs. exact (honest_parses fixture PRIVATE_KEY release key_id sg KEY_ID floor (proj1 fixture_small) Hsk Hr Hk eq_refl Hs). Qed.

Lemma own_signature release key_id : sig_valid (sign PRIVATE_KEY (body release key_id)) = true /\
  sig_verify (pk_of PRIVATE_KEY) (body release key_id) (sign PRIVATE_KEY (body release key_id)) = true /\
  zlen (sign PRIVATE_KEY (body release key_id)) = 64.
Proof. split_and!; [by apply sign_valid|by apply sign_verifies|unfold zlen; by rewrite sign_length]. Qed.

Lemma fixture_accepted : parse_and_verify_boot_sidecar_v2 (body 7 KEY_ID ++ sign PRIVATE_KEY (body 7 KEY_ID))
    {| public_key_sec1 := pk_of PRIVATE_KEY; expected_key_id := KEY_ID; minimum_release := 7 |} =
  Ok {| vm_manifest := to_boot (honest_manifest fixture); vm_release_counter := 7; vm_key_id := KEY_ID |}.
Proof. destruct (own_signature 7 KEY_ID) as (Hv & Hs & Hl). rewrite fixture_parses by done. by rewrite Hv, Hs. Qed.

(** The tests that need no assumption on the scheme but its laws *)
Lemma signed_tests_pass : Forall passes [signed_v2_round_trip_is_verified; trusted_pipeline_validates_signed_image;
  signed_v2_rejects_rollback; signed_v2_rejects_wrong_key_id].
Proof.
  destruct fixture_small as [Hn Hl]. repeat constructor; unfold passes.
  - unfold signed_v2_round_trip_is_verified. rewrite fixture_signed by done. cbn [expect].
    rewrite ok_bind, test_policy_ok, ok_bind, fixture_accepted. cbn [expect]. rewrite ok_bind.
    cbn [vm_release_counter vm_key_id vm_manifest to_boot bm_block_count honest_manifest block_count].
    by rewrite Hl, !assert_eq_refl.
  - unfold trusted_pipeline_validates_signed_image. rewrite fixture_signed by done. cbn [expect].
    rewrite ok_bind, test_policy_ok, ok_bind. unfold validate_signed_boot_image_v2. rewrite fixture_accepted, ok_bind.
    cbn [vm_manifest]. rewrite validate_honest by done. rewrite ok_bind. cbn [expect]. rewrite ok_bind.
    cbn [vs_release_counter vs_boot blocks_verified vm_release_counter]. by rewrite Hl, !assert_eq_refl.
  - unfold signed_v2_rejects_rollback. rewrite fixture_signed by done. cbn [expect]. rewrite ok_bind, test_policy_ok, ok_bind.
    apply assert_err_spec. destruct (own_signature 6 KEY_ID) as (_ & _ & Hs). by rewrite (fixture_parses 6 KEY_ID _ 7 ltac:(lia) eq_refl Hs).
  - unfold signed_v2_rejects_wrong_key_id. rewrite fixture_signed by done. cbn [expect]. rewrite ok_bind, test_policy_ok, ok_bind.
    apply assert_err_spec. destruct (own_signature 7 (array xaa 16)) as (_ & _ & Hs).
    by rewrite (fixture_parses 7 (array xaa 16) _ 7 ltac:(lia) eq_refl Hs).
Qed.

Lemma flip_one b : flip_bits b 1 <> b.
Proof. by destruct b; vm_compute. Qed.

(** The image test, up to a collision of the hash *)
Lemma image_tamper_test_passes : passes trusted_pipeline_rejects_image_tamper \/ exists x y, collision x y.
Proof.
  destruct fixture_small as [Hn _]. unfold passes, trusted_pipeline_rejects_image_tamper. cbv zeta. rewrite fixture_signed by done.
  cbn [expect]. rewrite ok_bind.
  destruct (TamperTest.xor_at_differs fixture 3 1) as (t & -> & Hne & Hz); [|apply flip_one|].
  { pose proof (zlen_blocks_of fixture Hn). destruct fixture_small as [_ Hl]. unfold div_ceil, DFIM_BLOCK_SIZE in *.
    Z.to_euclidean_division_equations; lia. }
  rewrite ok_bind, test_policy_ok, ok_bind. unfold validate_signed_boot_image_v2. rewrite fixture_accepted, ok_bind. cbn [vm_manifest].
  destruct (SidecarTests.tampered_image_rejected fixture t Hn Hz Hne) as [->|Hc]; [by left|by right].
Qed.

(** The signature of the fixture verifies for other bytes, or another signature for its bytes. *)
Definition forgery : Prop := exists msg sg, sig_verify (pk_of PRIVATE_KEY) msg sg = true /\
  (msg, sg) <> (body 7 KEY_ID, sign PRIVATE_KEY (body 7 KEY_ID)).

Lemma signature_tamper_test_passes : passes signed_v2_rejects_signature_tamper \/ forgery.
Proof.
  unfold passes, signed_v2_rejects_signature_tamper. rewrite fixture_signed by done. cbn [expect]. rewrite ok_bind.
  destruct (own_signature 7 KEY_ID) as (_ & _ & Hl). set (b := body 7 KEY_ID) in *. set (sg := sign PRIVATE_KEY b) in *.
  pose proof (zlen_nonneg b). unfold sub_usize. rewrite zlen_app, Hl, (proj2 (Z.leb_le _ _)), ok_bind by lia.
  destruct (TamperTest.xor_at_differs sg 63 1) as (sg' & Hx & Hne & Hz); [lia|apply flip_one|].
  replace (zlen b + 64 - 1) with (zlen b + 63) by lia. rewrite (TamperTest.xor_at_right b sg 63 1 sg' ltac:(lia) Hx), ok_bind, test_policy_ok, ok_bind. unfold b. rewrite fixture_parses by (done || lia). fold b.
  change (7 <? 7) with false. rewrite bytes_eqb_refl. cbn [negb].
  destruct (sig_valid sg'); [|by left]. cbn [negb]. destruct (sig_verify _ b sg') eqn:Hv; [right|by left].
  exists b, sg'. split; [exact Hv|]. intros Hs%(f_equal snd). cbn [snd] in Hs. by apply Hne.
Qed.

(** The root sits at its offset in the signed bytes. *)
Lemma body_at_root m release key_id : zlen key_id = 16 -> exists pre post, zlen pre = V2_MERKLE_ROOT_OFFSET /\
  forall r, v2_body {| bm_merkle_root := r; bm_block_size := m.(bm_block_size); bm_block_count := m.(bm_block_count);
    bm_fec_backup := m.(bm_fec_backup); bm_proofs := m.(bm_proofs) |} release key_id = pre ++ r ++ post.
Proof.
  intros Hk. exists (MANIFEST_MAGIC ++ le_encode 4 SIGNED_MANIFEST_VERSION ++ le_encode 4 V2_HEADER_LEN ++
    le_encode 4 m.(bm_block_size) ++ le_encode 4 m.(bm_block_count) ++ le_encode 8 release ++ key_id ++
    le_encode 4 V2_SIGNATURE_ALGORITHM ++ le_encode 4 V2_SIGNATURE_LEN).
  exists (le_encode 4 (zlen m.(bm_fec_backup)) ++ m.(bm_fec_backup) ++ concat (map proof_bytes m.(bm_proofs))). split.
  - rewrite !zlen_app, !zlen_le_encode, Hk. done.
  - intros r. unfold v2_body, v2_header. cbn [bm_merkle_root bm_block_size bm_block_count bm_fec_backup bm_proofs]. by rewrite <- !app_assoc.
Qed.

Lemma payload_tamper_test_passes : passes signed_v2_rejects_payload_tamper \/ forgery.
Proof.
  destruct fixture_small as [Hn _]. pose proof (honest_wf fixture Hn) as Hwf. pose proof Hwf as (Hroot & _). cbn [merkle_root honest_manifest] in Hroot.
  unfold passes, signed_v2_rejects_payload_tamper. rewrite fixture_signed by done. cbn [expect]. rewrite ok_bind.
  destruct (own_signature 7 KEY_ID) as (Hsv & _ & Hl). set (m := to_boot (honest_manifest fixture)) in *.
  destruct (TamperTest.xor_at_differs m.(bm_merkle_root) 0 1) as (r' & Hx & Hne & Hz); [cbn; unfold SHA256_LEN in Hroot; lia|apply flip_one|].
  set (m' := {| bm_merkle_root := r'; bm_block_size := m.(bm_block_size); bm_block_count := m.(bm_block_count);
    bm_fec_backup := m.(bm_fec_backup); bm_proofs := m.(bm_proofs) |}).
  destruct (body_at_root m 7 KEY_ID eq_refl) as (pre & post & Hpre & Hbody).
  assert (Hb : body 7 KEY_ID = pre ++ m.(bm_merkle_root) ++ post) by (unfold body; fold m; rewrite <- Hbody; by destruct m).
  assert (Hb' : v2_body m' 7 KEY_ID = pre ++ r' ++ post) by exact (Hbody r').
  assert (Ht : xor_at (body 7 KEY_ID ++ sign PRIVATE_KEY (body 7 KEY_ID)) V2_MERKLE_ROOT_OFFSET 1 =
    Ok (v2_body m' 7 KEY_ID ++ sign PRIVATE_KEY (body 7 KEY_ID))).
  { apply TamperTest.xor_at_left; [done|]. rewrite Hb, Hb', <- Hpre, <- (Z.add_0_r (zlen pre)).
    apply TamperTest.xor_at_right; [done|]. by apply TamperTest.xor_at_left. }
  rewrite Ht, ok_bind, test_policy_ok, ok_bind.
  assert (Hwf' : manifest_wf {| merkle_root := m'.(bm_merkle_root); block_size := m'.(bm_block_size);
    block_count := m'.(bm_block_count); fec_backup := m'.(bm_fec_backup); proofs := m'.(bm_proofs) |}).
  { destruct Hwf as (_ & Hrest). split; [|exact Hrest]. cbn [m' bm_merkle_root merkle_root]. by rewrite Hz. }
  set (trust := {| public_key_sec1 := _ |}). rewrite (parse_v2_exact m' 7 KEY_ID _ trust Hwf' ltac:(lia) eq_refl eq_refl Hl (body_bound m' 7 KEY_ID eq_refl Hwf')). unfold trust. cbn [minimum_release expected_key_id public_key_sec1].
  change (7 <? 7) with false. rewrite bytes_eqb_refl, pk_of_valid, Hsv by done. cbn [negb].
  destruct (sig_verify _ _ _) eqn:Hv; [right|by left]. eexists _, _. split; [exact Hv|]. intros He%(f_equal fst). cbn [fst] in He. rewrite Hb, Hb' in He.
  apply app_inv_head, app_inv_tail in He. by apply Hne.
Qed.

(** The version of an unsigned sidecar is not the signed one. *)
Lemma v1_rejected m policy : manifest_wf m -> 156 <= zlen (manifest_bytes m) ->
  parse_and_verify_boot_sidecar_v2 (manifest_bytes m) policy = Err InvalidParameter.
Proof.
  intros Hwf Hl. destruct (header_fields m (concat (map proof_bytes (proofs m))) Hwf) as (_ & Hm & Hv & _).
  fold (manifest_bytes m) in Hm, Hv. unfold parse_and_verify_boot_sidecar_v2.
  change (checked_add V2_HEADER_LEN V2_SIGNATURE_LEN) with (Some 156). cbn [ok_or]. rewrite ok_bind, (proj2 (Z.ltb_ge _ _)) by done.
  rewrite Hm, ok_bind, bytes_eqb_refl. cbn [negb]. by rewrite Hv, ok_bind, read_u32_encode, ok_bind by done.
Qed.

Lemma two_proofs leaves : zlen leaves = 2 -> 33 <= zlen (concat (map proof_bytes (honest_proofs leaves))).
Proof.
  destruct leaves as [|b0 [|b1 [|b2 l]]]; intros Hl; [discriminate Hl|discriminate Hl| |rewrite !zlen_cons in Hl; pose proof (zlen_nonneg l); lia].
  change (honest_proofs [b0; b1]) with [proof_of [sha256 b1]; proof_of [sha256 b0]]. unfold proof_bytes. cbn [map concat proof_of steps sibling].
  rewrite !zlen_app, !zlen_cons, !zlen_app, !zlen_sha256, zlen_nil. lia.
Qed.

Lemma legacy_test_passes : passes trusted_parser_rejects_legacy_v1.
Proof.
  destruct fixture_small as [Hn Hl]. pose proof (honest_wf fixture Hn) as Hwf.
  unfold passes, trusted_parser_rejects_legacy_v1. pose proof (build_boot_sidecar_ok fixture Hn) as Hb. rewrite Hb. cbn [expect].
  rewrite ok_bind, test_policy_ok, ok_bind. apply assert_err_spec, v1_rejected; [done|].
  destruct (header_fields (honest_manifest fixture) [] Hwf) as (Hhl & _). unfold manifest_bytes. rewrite zlen_app, Hhl.
  cbn [honest_manifest fec_backup proofs]. rewrite zlen_fec_of by (apply zlen_merkle_root, blocks_of_ne, Hn).
  pose proof (two_proofs (blocks_of fixture) Hl). lia.
Qed.
End proofs.
End SignedTests.
