(* ===== verification/TestsCli.v ===== *)
(** * TestsCli: the unit tests of [dfim_cli_provisioner] and of the loader's deny log

    The hash is SHA-256 itself; the signature scheme is any scheme with the laws [SigLaws] that
    accepts the private keys of the tests.  A tampered signature is rejected up to a forgery. *)

From stdpp Require Import base list numbers option strings.
From Stdlib Require Import ZArith Lia Strings.Byte.
From S2P Require Import Prelude Crypto Core Sha256Bpf Json Enforcement Telemetry Attestation Tpm.
From S2P Require Import ImaPolicy Text Files Shell Device TestKit TestsCore.

(** ** [attestation.rs] *)

Module AttestationTests.
#[local] Existing Instance BpfSha.bpf_hash.

#[export] Instance AttestationChallenge_eq_dec : EqDecision AttestationChallenge.
Proof. solve_decision. Defined.
#[export] Instance AttestationEvidence_eq_dec : EqDecision AttestationEvidence.
Proof. solve_decision. Defined.
#[export] Instance AttestationPolicy_eq_dec : EqDecision AttestationPolicy.
Proof. solve_decision. Defined.

Definition AK_PRIVATE : list byte := array x33 32.

Definition challenge (nonce : byte) (release_counter : Z) : AttestationChallenge :=
  {| nonce := array nonce 32; ch_release_counter := release_counter; ch_policy_generation := 12; ch_merkle_root := array xa5 32 |}.

Definition pcr_values_ : list (list byte) := [array x00 32; array x02 32; array x04 32; array x07 32; array x0e 32].

(** The bitmap: one bit for each selected register *)
Definition select (bitmap : list byte) (pcr : Z) : check (list byte) :=
  b ← index bitmap (pcr / 8);
  store bitmap (pcr / 8) (z2b (Z.lor (b2z b) (Z.shiftl 1 (pcr mod 8)))).

Definition marshal_quote (c : AttestationChallenge) (values : list (list byte)) (selected_pcrs : list Z) : check (list byte) :=
  let extra_data := attestation_qualifying_data c in
  bitmap ← foldM select (array x00 3) selected_pcrs;
  let digest := sha256_digest (concat values) in
  Ok (be_encode 4 TPM_GENERATED_VALUE ++ be_encode 2 TPM_ST_ATTEST_QUOTE ++ be_encode 2 0 ++
    be_encode 2 (as_u16 (zlen extra_data)) ++ extra_data ++ be_encode 8 1 ++ be_encode 4 0 ++ be_encode 4 0 ++ [x01] ++
    be_encode 8 1 ++ be_encode 4 1 ++ be_encode 2 TPM_ALG_SHA256 ++ [x03] ++ bitmap ++
    be_encode 2 (as_u16 (zlen digest)) ++ digest).

Section tests.
Context `{SigOps}.

(** [SigningKey::from_bytes], with the [must] of the tests *)
Definition signing_key : check (list byte) := if sk_valid AK_PRIVATE then Ok AK_PRIVATE else Panic.

Definition fixture (c : AttestationChallenge) : check (AttestationEvidence * AttestationPolicy) :=
  let values := pcr_values_ in
  quote ← marshal_quote c values ATTESTED_PCRS;
  key ← signing_key;
  let sg := sign key quote in
  public_key ← copy_into (array x00 33) 0 33 (pk_of key);
  Ok ({| quote := quote; signature := sg; pcr_values := values |},
      {| ak_public_key_sec1 := public_key; expected_pcr_values := values; minimum_release := 8;
         expected_policy_generation := 12; expected_merkle_root := array xa5 32 |}).

Definition verifier_accepts_fresh_policy_bound_quote : Test :=
  let request := challenge x11 9 in
  ep ← fixture request;
  result ← TestKit.expect (verify_attestation ep.1 request ep.2);
  assert_eq result.(va_release_counter) 9 ;;
  assert_eq result.(va_policy_generation) 12.

Definition verifier_rejects_replayed_nonce : Test :=
  let request := challenge x11 9 in
  ep ← fixture request;
  assert_is_err (verify_attestation ep.1 (challenge x22 9) ep.2).

Definition verifier_rejects_signature_and_pcr_substitution : Test :=
  let request := challenge x11 9 in
  ep ← fixture request;
  sg ← xor_at ep.1.(signature) 0 1;
  assert_is_err (verify_attestation {| quote := ep.1.(quote); signature := sg; pcr_values := ep.1.(pcr_values) |} request ep.2) ;;
  ep ← fixture request;
  value ← index ep.1.(pcr_values) 4;
  value ← xor_at value 0 1;
  values ← store ep.1.(pcr_values) 4 value;
  assert_is_err (verify_attestation {| quote := ep.1.(quote); signature := ep.1.(signature); pcr_values := values |} request ep.2).

Definition verifier_rejects_wrong_pcr_selection_and_rollback : Test :=
  let request := challenge x11 9 in
  ep ← fixture request;
  quote ← marshal_quote request ep.1.(pcr_values) [0; 2; 4; 7; 13];
  key ← signing_key;
  let sg := sign key quote in
  assert_is_err (verify_attestation {| quote := quote; signature := sg; pcr_values := ep.1.(pcr_values) |} request ep.2) ;;
  let rollback := challenge x11 7 in
  ep ← fixture rollback;
  assert_is_err (verify_attestation ep.1 rollback ep.2).

Definition challenge_and_evidence_wire_formats_round_trip : Test :=
  let request := challenge x44 21 in
  request_bytes ← TestKit.expect (encode_attestation_challenge request);
  parsed ← TestKit.expect (parse_attestation_challenge request_bytes);
  assert_eq parsed request ;;
  ep ← fixture request;
  evidence_bytes ← TestKit.expect (encode_attestation_evidence ep.1);
  parsed ← TestKit.expect (parse_attestation_evidence evidence_bytes);
  assert_eq parsed ep.1.

Definition evidence_wire_format_rejects_truncation_and_trailing_data : Test :=
  let request := challenge x44 21 in
  ep ← fixture request;
  encoded ← TestKit.expect (encode_attestation_evidence ep.1);
  n ← sub_usize (zlen encoded) 1;
  short ← slice encoded 0 n;
  assert_is_err (parse_attestation_evidence short) ;;
  let encoded := encoded ++ [x00] in
  assert_is_err (parse_attestation_evidence encoded).

Definition verifier_policy_wire_format_round_trips : Test :=
  let request := challenge x55 11 in
  ep ← fixture request;
  encoded ← TestKit.expect (encode_attestation_policy ep.2);
  parsed ← TestKit.expect (parse_attestation_policy encoded);
  assert_eq parsed ep.2 ;;
  zero_generation ← copy_into encoded 53 61 (array x00 8);
  assert_is_err (parse_attestation_policy zero_generation).
End tests.

Section proofs.
Context `{SigLaws} (Hsk : sk_valid AK_PRIVATE = true).

(** The quote of the fixture, and the fixture *)
Definition quote_of (c : AttestationChallenge) (pcrs : list Z) : list byte :=
  match marshal_quote c pcr_values_ pcrs with Ok q => q | _ => [] end.

Definition fixture_policy : AttestationPolicy :=
  {| ak_public_key_sec1 := pk_of AK_PRIVATE; expected_pcr_values := pcr_values_; minimum_release := 8;
     expected_policy_generation := 12; expected_merkle_root := array xa5 32 |}.

Definition fixture_evidence (c : AttestationChallenge) : AttestationEvidence :=
  {| quote := quote_of c ATTESTED_PCRS; signature := sign AK_PRIVATE (quote_of c ATTESTED_PCRS); pcr_values := pcr_values_ |}.

Lemma marshal_ok c pcrs bitmap : foldM select (array x00 3) pcrs = Ok bitmap -> marshal_quote c pcr_values_ pcrs = Ok (quote_of c pcrs).
Proof. intros Hm. unfold quote_of, marshal_quote. rewrite Hm. reflexivity. Qed.

Lemma public_key_copied : @copy_into Empty_set _ (array x00 33) 0 33 (pk_of AK_PRIVATE) = Ok (pk_of AK_PRIVATE).
Proof.
  pose proof (pk_of_length AK_PRIVATE Hsk) as Hl.
  rewrite copy_into_ok; [|lia|rewrite zlen_array; lia|unfold zlen; rewrite Hl; lia]. f_equal. apply splice_all. by rewrite Hl.
Qed.

Lemma fixture_ok c : fixture c = Ok (fixture_evidence c, fixture_policy).
Proof.
  unfold fixture, signing_key. rewrite (marshal_ok c ATTESTED_PCRS [x95; x40; x00] eq_refl), ok_bind, Hsk, ok_bind.
  rewrite public_key_copied, ok_bind. reflexivity.
Qed.

(** What an honest signature leaves to check *)
Lemma verify_signed q values c : verify_attestation {| quote := q; signature := sign AK_PRIVATE q; pcr_values := values |} c fixture_policy =
  if c.(ch_release_counter) <? 8 then Err BelowFloor
  else if negb (c.(ch_policy_generation) =? 12) then Err GenerationMismatch
  else if negb (constant_time_hash_eq c.(ch_merkle_root) (array xa5 32)) then Err RootNotEnrolled
  else
    parsed ← parse_quote q;
    if negb (constant_time_hash_eq parsed.(extra_data) (attestation_qualifying_data c)) then Err BindingMismatch
    else
      pcrs_allowed values pcr_values_ ;;
      if negb (constant_time_hash_eq parsed.(pcr_digest) (sha256_digest_chunked values)) then Err PcrDigestMismatch
      else Ok {| va_release_counter := c.(ch_release_counter); va_policy_generation := c.(ch_policy_generation);
                 va_merkle_root := c.(ch_merkle_root) |}.
Proof.
  unfold verify_attestation, fixture_policy. cbn [signature quote pcr_values ak_public_key_sec1 minimum_release expected_policy_generation
    expected_merkle_root expected_pcr_values]. rewrite sign_valid, pk_of_valid, sign_verifies by exact Hsk. reflexivity.
Qed.

Lemma fresh_quote_passes : passes verifier_accepts_fresh_policy_bound_quote.
Proof.
  unfold passes, verifier_accepts_fresh_policy_bound_quote. cbv zeta. rewrite fixture_ok, ok_bind. cbn [fst snd]. unfold fixture_evidence.
  rewrite verify_signed. vm_compute. reflexivity.
Qed.

Lemma replay_test_passes : passes verifier_rejects_replayed_nonce.
Proof.
  unfold passes, verifier_rejects_replayed_nonce. cbv zeta. rewrite fixture_ok, ok_bind. cbn [fst snd]. unfold fixture_evidence.
  rewrite verify_signed. vm_compute. reflexivity.
Qed.

(** Another signature for the quote of the fixture *)
Definition forgery : Prop := let q := quote_of (challenge x11 9) ATTESTED_PCRS in
  exists sg, sg <> sign AK_PRIVATE q /\ sig_verify (pk_of AK_PRIVATE) q sg = true.

Lemma substitution_test_passes : passes verifier_rejects_signature_and_pcr_substitution \/ forgery.
Proof.
  unfold passes, verifier_rejects_signature_and_pcr_substitution. cbv zeta. rewrite fixture_ok, !ok_bind. cbn [fst snd].
  unfold fixture_evidence. cbn [signature quote pcr_values].
  set (q := quote_of (challenge x11 9) ATTESTED_PCRS). set (sg := sign AK_PRIVATE q).
  assert (Hl : zlen sg = 64) by (unfold zlen, sg; by rewrite sign_length by exact Hsk).
  destruct (TamperTest.xor_at_differs sg 0 1) as (sg' & Hx & Hne & _); [lia|intros b; destruct b; discriminate|]. rewrite Hx, ok_bind.
  assert (Hv : sig_verify (pk_of AK_PRIVATE) q sg' = true \/
    assert_is_err (verify_attestation {| quote := q; signature := sg'; pcr_values := pcr_values_ |} (challenge x11 9) fixture_policy) = Ok tt).
  { unfold verify_attestation, fixture_policy. cbn [signature quote pcr_values ak_public_key_sec1].
    rewrite pk_of_valid by exact Hsk. destruct (sig_valid sg'); [|right; reflexivity].
    destruct (sig_verify _ q sg'); [by left|right; reflexivity]. }
  destruct Hv as [Hv|Hv]; [right; by exists sg'|left]. rewrite Hv, !ok_bind. cbn [fst snd signature quote pcr_values].
  change (index pcr_values_ 4) with (@Ok Empty_set _ (array x0e 32)). rewrite ok_bind.
  change (xor_at (array x0e 32) 0 1) with (@Ok Empty_set _ (x0f :: array x0e 31)). rewrite ok_bind.
  change (store pcr_values_ 4 (x0f :: array x0e 31)) with (@Ok Empty_set _ [array x00 32; array x02 32; array x04 32; array x07 32; x0f :: array x0e 31]).
  rewrite ok_bind, verify_signed. vm_compute. reflexivity.
Qed.

Lemma selection_test_passes : passes verifier_rejects_wrong_pcr_selection_and_rollback.
Proof.
  unfold passes, verifier_rejects_wrong_pcr_selection_and_rollback. cbv zeta. rewrite (fixture_ok (challenge x11 9)), ok_bind. cbn [fst snd].
  change (pcr_values (fixture_evidence (challenge x11 9))) with pcr_values_.
  rewrite (marshal_ok (challenge x11 9) [0; 2; 4; 7; 13] [x95; x20; x00] eq_refl), ok_bind. unfold signing_key. rewrite Hsk, ok_bind.
  rewrite verify_signed.
  match goal with |- (_ ← assert_is_err ?m; _) = _ => assert (Hm : assert_is_err m = Ok tt) by (vm_compute; reflexivity); rewrite Hm end.
  rewrite ok_bind, (fixture_ok (challenge x11 7)), ok_bind. cbn [fst snd]. unfold fixture_evidence. rewrite verify_signed. vm_compute. reflexivity.
Qed.

(** A list of known length, element by element *)
Ltac spell l Hl :=
  match type of Hl with
  | length l = O => apply nil_length_inv in Hl; subst l
  | length l = S _ => let b := fresh "b" in let l' := fresh "l" in
      destruct l as [|b l']; [discriminate Hl|]; cbn [length] in Hl; apply Nat.succ_inj in Hl; spell l' Hl
  end.

Lemma wire_test_passes : passes challenge_and_evidence_wire_formats_round_trip.
Proof.
  unfold passes, challenge_and_evidence_wire_formats_round_trip. cbv zeta.
  set (c := challenge x44 21).
  assert (Hc : encode_attestation_challenge c = Ok (challenge_bytes c)) by (vm_compute; reflexivity).
  assert (Hp : parse_attestation_challenge (challenge_bytes c) = Ok c) by (vm_compute; reflexivity).
  rewrite Hc. cbn [TestKit.expect]. rewrite ok_bind, Hp. cbn [TestKit.expect]. rewrite ok_bind, assert_eq_refl, ok_bind, fixture_ok, ok_bind.
  cbn [fst snd]. unfold fixture_evidence. set (q := quote_of c ATTESTED_PCRS).
  pose proof (sign_length AK_PRIVATE q Hsk) as Hl. revert Hl. generalize (sign AK_PRIVATE q). intros sg Hl. 
  assert (He : encode_attestation_evidence {| quote := q; signature := sg; pcr_values := pcr_values_ |} =
    Ok (evidence_bytes {| quote := q; signature := sg; pcr_values := pcr_values_ |})).
  { apply encode_evidence_ok. vm_compute. split; [reflexivity|discriminate]. }
  rewrite He. cbn [TestKit.expect]. rewrite ok_bind.
  assert (Hr : parse_attestation_evidence (evidence_bytes {| quote := q; signature := sg; pcr_values := pcr_values_ |}) =
    Ok {| quote := q; signature := sg; pcr_values := pcr_values_ |}) by (spell sg Hl; vm_compute; reflexivity).
  rewrite Hr. cbn [TestKit.expect]. rewrite ok_bind. apply assert_eq_refl.
Qed.

Lemma truncation_test_passes : passes evidence_wire_format_rejects_truncation_and_trailing_data.
Proof.
  unfold passes, evidence_wire_format_rejects_truncation_and_trailing_data. cbv zeta. rewrite fixture_ok, ok_bind. cbn [fst snd].
  unfold fixture_evidence. set (q := quote_of (challenge x44 21) ATTESTED_PCRS).
  pose proof (sign_length AK_PRIVATE q Hsk) as Hl. revert Hl. generalize (sign AK_PRIVATE q). intros sg Hl.
  spell sg Hl. vm_compute. reflexivity.
Qed.

Lemma policy_test_passes : passes verifier_policy_wire_format_round_trips.
Proof.
  unfold passes, verifier_policy_wire_format_round_trips. cbv zeta. rewrite fixture_ok, ok_bind. cbn [fst snd].
  unfold fixture_policy. pose proof (pk_of_length AK_PRIVATE Hsk) as Hl. pose proof (pk_of_valid AK_PRIVATE Hsk) as Hv.
  revert Hl Hv. generalize (pk_of AK_PRIVATE). intros pk Hl Hv.
  set (p := {| ak_public_key_sec1 := pk |}).
  assert (He : encode_attestation_policy p = Ok (policy_bytes p)) by (clear Hv; subst p; spell pk Hl; vm_compute; reflexivity).
  rewrite He. cbn [TestKit.expect]. rewrite ok_bind.
  assert (Hlen : zlen pk = 33) by (unfold zlen; by rewrite Hl).
  assert (Hr : parse_attestation_policy (policy_bytes p) = Ok p).
  { apply parse_policy_Ok. split_and!; [|split_and!; [exact Hv|discriminate|discriminate]|reflexivity].
    assert (Hpcr : pcrs_wf pcr_values_) by (split; [reflexivity|repeat (constructor; [reflexivity|]); constructor]).
    unfold policy_wf. cbn [p ak_public_key_sec1 expected_pcr_values minimum_release expected_policy_generation expected_merkle_root].
    split; [exact Hlen|]. split; [exact Hpcr|]. split; [reflexivity|lia]. }
  rewrite Hr. cbn [TestKit.expect]. rewrite ok_bind, assert_eq_refl, ok_bind. set (p0 := {| ak_public_key_sec1 := pk; expected_pcr_values := pcr_values_;
    minimum_release := 8; expected_policy_generation := 0; expected_merkle_root := array xa5 32 |}).
  assert (Hz : @copy_into Empty_set _ (policy_bytes p) 53 61 (array x00 8) = Ok (policy_bytes p0)) by (clear -Hl; subst p p0; spell pk Hl; vm_compute; reflexivity).
  assert (H1 : zlen (policy_bytes p0) = 253) by (clear -Hl; subst p0; spell pk Hl; vm_compute; reflexivity).
  assert (H2 : bad_envelope (policy_bytes p0) POLICY_MAGIC = Ok false) by (clear -Hl; subst p0; spell pk Hl; vm_compute; reflexivity).
  assert (H3 : @slice AttestError _ (policy_bytes p0) 12 45 = Ok pk) by (clear -Hl; subst p0; spell pk Hl; vm_compute; reflexivity).
  assert (H4 : (b ← slice (policy_bytes p0) 45 53; read_le_u64 b) = Ok 8) by (clear -Hl; subst p0; spell pk Hl; vm_compute; reflexivity).
  assert (H5 : (b ← slice (policy_bytes p0) 53 61; read_le_u64 b) = Ok 0) by (clear -Hl; subst p0; spell pk Hl; vm_compute; reflexivity).
  rewrite Hz, ok_bind. unfold parse_attestation_policy. rewrite H1, H2. cbn [negb Z.eqb]. change (253 =? POLICY_WIRE_LEN) with true. cbn [negb].
  rewrite ok_bind, H3, ok_bind, Hv. cbn [negb]. rewrite H4, ok_bind. cbn [Z.eqb]. rewrite H5, ok_bind. reflexivity.
Qed.
End proofs.
End AttestationTests.

(** ** [telemetry_sink.rs]

    The clock of each event is a parameter: the tests pass at every time.  A test writes to a
    file of its own, which starts empty. *)

Module TelemetryTests.
Definition u128 (n : Z) : Prop := 0 <= n < 2 ^ 128.

Definition sink_works : SinkResult := {| opens := true; short_write := None; syncs := true |}.

Section tests.
Context `{HashOps}.

Definition audit_event_serializes_stable_schema_and_redacts_path (now : Z) : Test :=
  let asset := raw "C:\Users\Alice\secret 'firmware'.efi" in
  let event := Audit.security now Audit.VerifyV2 Audit.Success asset (Some 42) (Some (array xab 32)) in
  let '(r, jsonl) := Audit.append_event sink_works event [] in
  _ ← TestKit.expect r;
  assert (starts_with jsonl
    (raw "{'schema_version':1,'event_type':'verify_v2','severity':'info','outcome':'success','timestamp_unix_ms':")) ;;
  assert (contains jsonl (raw ",'asset_id':'sha256:")) ;;
  assert (contains jsonl (raw ",'release_counter':42")) ;;
  assert (contains jsonl (raw ",'merkle_root':'" ++ concat (replicate 32 (txt "ab")) ++ [QUOTE])) ;;
  assert (negb (contains jsonl (txt "Alice"))) ;;
  assert (negb (contains jsonl (txt "firmware"))) ;;
  assert (ends_with jsonl [x0a]).

Definition provision_event_serializes_dry_run_flag (now : Z) : Test :=
  let asset := txt "/boot/image.efi" in
  let event := Audit.provision now Audit.ProvisionV2 Audit.Success asset (Some 7) (Some (array xcd 32)) true in
  let '(r, jsonl) := Audit.append_event sink_works event [] in
  _ ← TestKit.expect r;
  assert (contains jsonl (raw "'event_type':'provision_v2'")) ;;
  assert (contains jsonl (raw "'release_counter':7")) ;;
  assert (contains jsonl (raw ",'dry_run':true")).

Definition json_escape_handles_all_control_and_special_characters : Test :=
  assert_eq (json_escape_bf (txt "quote" ++ [QUOTE] ++ txt " slash" ++ [BACKSLASH] ++ txt " line" ++ [x0a] ++ txt " tab" ++ [x09] ++
      txt " nul" ++ [x00] ++ txt " unit" ++ [x1f]))
    (raw "quote\' slash\\ line\n tab\t nul\u0000 unit\u001f").

Definition append_preserves_existing_jsonl_records (now1 now2 : Z) : Test :=
  let asset := txt "/boot/first" in
  let first := Audit.security now1 Audit.VerifyV1 Audit.Failure asset None None in
  let second := Audit.security now2 Audit.RecoveryV2 Audit.Success asset (Some 7) None in
  let '(r, jsonl) := Audit.append_event sink_works first [] in
  _ ← TestKit.expect r;
  let '(r, jsonl) := Audit.append_event sink_works second jsonl in
  _ ← TestKit.expect r;
  let ls := ImaPolicy.lines jsonl in
  assert_eq (zlen ls) 2 ;;
  assert (match ls !! 0%nat with Some line => contains line (txt "verify_v1") | None => false end) ;;
  assert (match ls !! 1%nat with Some line => contains line (txt "recovery_v2") | None => false end).

(** The path is a directory, which cannot be opened for appending. *)
Definition configured_sink_is_fail_closed_when_append_fails (now : Z) (os : SinkResult) : Test :=
  let asset := txt "/boot/asset" in
  let event := Audit.security now Audit.VerifyV1 Audit.Success asset None None in
  assert_is_err (fst (Audit.append_event os event [])).
End tests.

(** A line around its timestamp *)
Definition audit_pre (e : Audit.TelemetryEvent) : list byte :=
  raw "{'schema_version':" ++ to_string Audit.SCHEMA_VERSION ++ raw ",'event_type':'" ++ Audit.event_str e.(Audit.event_type) ++
  raw "','severity':'" ++ Audit.severity e.(Audit.outcome) ++ raw "','outcome':'" ++ Audit.outcome_str e.(Audit.outcome) ++
  raw "','timestamp_unix_ms':".

Definition audit_post (e : Audit.TelemetryEvent) : list byte :=
  raw ",'asset_id':'" ++ json_escape_bf e.(Audit.t_asset_id) ++ [QUOTE] ++
  opt_field e.(Audit.release_counter) (fun r => raw ",'release_counter':" ++ to_string r) ++
  opt_field e.(Audit.merkle_root) (fun r => raw ",'merkle_root':'" ++ hex_encode r ++ [QUOTE]) ++
  (if e.(Audit.dry_run) then raw ",'dry_run':true" else []) ++ txt "}".

Lemma audit_split e : Audit.to_json_line e =
  (audit_pre e ++ to_string e.(Audit.timestamp_unix_ms) ++ audit_post e) ++ [x0a].
Proof. unfold Audit.to_json_line, audit_pre, audit_post. by rewrite <- !app_assoc. Qed.

(** The digits of a clock contain no letter and no line break. *)
Lemma clock_digits now : u128 now -> exists ds, to_string now = ds /\ forallb is_digit ds = true /\ no_newline ds = true.
Proof.
  intros Hn. eexists. split; [done|]. split; [apply dec_loop_digits; unfold u128 in Hn; lia|].
  apply (no_newline_dec 39). unfold u128 in Hn. lia.
Qed.

(** A letter that neither part of a line has *)
Lemma not_contained pre ds post p c : forallb is_digit ds = true -> is_digit c = false -> In c p ->
  existsb (Byte.eqb c) pre = false -> existsb (Byte.eqb c) post = false -> contains (pre ++ ds ++ post) p = false.
Proof.
  intros Hds Hc Hp H1 H2. apply not_true_iff_false. intros Hx. apply (contains_In _ _ c Hx) in Hp.
  assert (Hno : forall l, existsb (Byte.eqb c) l = false -> ~ In c l).
  { intros l Hl Hin. apply not_true_iff_false in Hl. apply Hl, existsb_exists. exists c. split; [done|]. apply byte_eqb_refl. }
  apply in_app_iff in Hp as [Hp|Hp]; [by apply (Hno pre)|]. apply in_app_iff in Hp as [Hp|Hp]; [|by apply (Hno post)].
  rewrite forallb_forall in Hds. apply Hds in Hp. congruence.
Qed.

Lemma ends_with_newline s : ends_with (s ++ [x0a]) [x0a] = true.
Proof. unfold ends_with. by rewrite reverse_app. Qed.

#[local] Existing Instance BpfSha.bpf_hash.

(** Where a text is found: before the timestamp, after it *)
Ltac found :=
  first [ apply contains_left, contains_left; vm_compute; reflexivity
        | apply contains_left, contains_right, contains_right; vm_compute; reflexivity ].

Lemma schema_test_passes now : u128 now -> passes (audit_event_serializes_stable_schema_and_redacts_path now).
Proof.
  intros Hn. unfold passes, audit_event_serializes_stable_schema_and_redacts_path, Audit.append_event. cbv zeta.
  set (e := Audit.security _ _ _ _ _ _). cbn [append_line sink_works opens short_write syncs negb TestKit.expect].
  rewrite ok_bind, app_nil_l, audit_split. change (Audit.timestamp_unix_ms e) with now.
  destruct (clock_digits now Hn) as (ds & -> & Hds & _). rewrite ends_with_newline.
  assert (H1 : forall p, starts_with (audit_pre e) p = true -> starts_with ((audit_pre e ++ ds ++ audit_post e) ++ [x0a]) p = true)
    by (intros p Hp; by do 2 apply starts_with_extend).
  rewrite H1 by (vm_compute; reflexivity). clear H1. cbn [assert]. rewrite ok_bind.
  assert (Hno : forall p c, In c p -> is_digit c = false -> existsb (Byte.eqb c) (audit_pre e) = false ->
    existsb (Byte.eqb c) (audit_post e ++ [x0a]) = false -> contains ((audit_pre e ++ ds ++ audit_post e) ++ [x0a]) p = false).
  { intros p c Hp Hc Hpre Hpost. rewrite <- !app_assoc. by apply (not_contained _ _ _ _ c). }
  rewrite (Hno (txt "Alice") x41) by (vm_compute; auto). rewrite (Hno (txt "firmware") x77) by (vm_compute; auto 10). clear Hno.
  match goal with |- context [assert (contains ?j (raw ",'asset_id':'sha256:"))] =>
    assert (H1 : contains j (raw ",'asset_id':'sha256:") = true) by found; rewrite H1; clear H1;
    assert (H1 : contains j (raw ",'release_counter':42") = true) by found; rewrite H1; clear H1;
    assert (H1 : contains j (raw ",'merkle_root':'" ++ concat (replicate 32 (txt "ab")) ++ [QUOTE]) = true) by found; rewrite H1 end.
  reflexivity.
Qed.

Lemma dry_run_test_passes now : u128 now -> passes (provision_event_serializes_dry_run_flag now).
Proof.
  intros Hn. unfold passes, provision_event_serializes_dry_run_flag, Audit.append_event. cbv zeta.
  set (e := Audit.provision _ _ _ _ _ _ _). cbn [append_line sink_works opens short_write syncs negb TestKit.expect].
  rewrite ok_bind, app_nil_l, audit_split. change (Audit.timestamp_unix_ms e) with now.
  destruct (clock_digits now Hn) as (ds & -> & _).
  match goal with |- context [assert (contains ?j (raw "'event_type':'provision_v2'"))] =>
    assert (H1 : contains j (raw "'event_type':'provision_v2'") = true) by found; rewrite H1; clear H1;
    assert (H1 : contains j (raw "'release_counter':7") = true) by found; rewrite H1; clear H1;
    assert (H1 : contains j (raw ",'dry_run':true") = true) by found; rewrite H1 end.
  reflexivity.
Qed.

Lemma escape_test_passes : passes json_escape_handles_all_control_and_special_characters.
Proof. vm_compute. reflexivity. Qed.

Lemma closed_test_passes now os : os.(opens) = false -> passes (configured_sink_is_fail_closed_when_append_fails now os).
Proof.
  intros Ho. unfold passes, configured_sink_is_fail_closed_when_append_fails, Audit.append_event, append_line. by rewrite Ho.
Qed.

(** Two lines are read back as two lines. *)
Lemma pieces_line acc s l : no_newline s = true ->
  pieces (fun c => bytes_eqb [c] [x0a]) acc (s ++ x0a :: l) = (acc ++ s) :: pieces (fun c => bytes_eqb [c] [x0a]) [] l.
Proof.
  revert acc. induction s as [|c s IH]; intros acc Hs; [by rewrite app_nil_r|]. cbn [no_newline forallb] in Hs.
  apply andb_true_iff in Hs as [Hc%negb_true_iff Hs]. cbn [app pieces]. rewrite Hc, IH by done. by rewrite <- app_assoc.
Qed.

Lemma two_lines s t : no_newline s = true -> no_newline t = true -> strip_cr s = s -> strip_cr t = t ->
  ImaPolicy.lines ((s ++ [x0a]) ++ t ++ [x0a]) = [s; t].
Proof.
  intros Hs Ht Hcs Hct. unfold ImaPolicy.lines. rewrite <- !app_assoc. cbn [app]. rewrite !pieces_line by done. cbn. by rewrite Hcs, Hct.
Qed.

Lemma strip_cr_brace s : strip_cr (s ++ txt "}") = s ++ txt "}".
Proof. unfold strip_cr. change (txt "}") with [x7d]. by rewrite last_snoc. Qed.

Lemma append_test_passes now1 now2 : u128 now1 -> u128 now2 -> passes (append_preserves_existing_jsonl_records now1 now2).
Proof.
  intros Hn1 Hn2. unfold passes, append_preserves_existing_jsonl_records, Audit.append_event. cbv zeta.
  set (e1 := Audit.security now1 _ _ _ _ _). set (e2 := Audit.security now2 _ _ _ _ _).
  cbn [append_line sink_works opens short_write syncs negb TestKit.expect]. rewrite !ok_bind, app_nil_l, !audit_split.
  change (Audit.timestamp_unix_ms e1) with now1. change (Audit.timestamp_unix_ms e2) with now2.
  destruct (clock_digits now1 Hn1) as (d1 & -> & _ & Hd1). destruct (clock_digits now2 Hn2) as (d2 & -> & _ & Hd2).
  assert (Hl : forall e ds, (e = e1 \/ e = e2) -> no_newline ds = true ->
    no_newline (audit_pre e ++ ds ++ audit_post e) = true /\ strip_cr (audit_pre e ++ ds ++ audit_post e) = audit_pre e ++ ds ++ audit_post e).
  { intros e ds He Hds. split.
    - rewrite !no_newline_app, Hds. destruct He as [-> | ->]; vm_compute; reflexivity.
    - assert (Hp : exists x, audit_post e = x ++ txt "}") by (unfold audit_post; rewrite !app_assoc; by eexists).
      destruct Hp as [x ->]. rewrite !app_assoc. apply strip_cr_brace. }
  destruct (Hl e1 d1) as [H1 H2]; [by left|done|]. destruct (Hl e2 d2) as [H3 H4]; [by right|done|].
  rewrite two_lines by done. cbn [lookup list_lookup].
  assert (Hv : contains (audit_pre e1 ++ d1 ++ audit_post e1) (txt "verify_v1") = true) by (apply contains_left; vm_compute; reflexivity).
  assert (Hr : contains (audit_pre e2 ++ d2 ++ audit_post e2) (txt "recovery_v2") = true) by (apply contains_left; vm_compute; reflexivity).
  rewrite Hv, Hr. reflexivity.
Qed.
End TelemetryTests.

(** ** [main.rs], [cli_output.rs], [platform/mod.rs], [raw_stress.rs], [tpm.rs] *)

Module ToolTests.
Definition default_sidecar_path_appends_extension : Test :=
  let p := (false, [txt "C:\EFI\Microsoft\Boot\bootmgfw.efi"]) in
  assert_eq (default_sidecar_path p) (false, [txt "C:\EFI\Microsoft\Boot\bootmgfw.efi.dfim"]).

Definition decode_hex_exact_accepts_v2_key_material : Test :=
  decoded ← TestKit.expect (decode_hex_exact 16 (txt "00112233445566778899aabbccddeeff"));
  first ← index decoded 0;
  assert_eq first x00 ;;
  last ← index decoded 15;
  assert_eq last xff.

Definition decode_hex_exact_rejects_wrong_length_and_non_hex : Test :=
  assert_is_err (decode_hex_exact 16 (txt "00")) ;;
  assert_is_err (decode_hex_exact 16 (txt "zz112233445566778899aabbccddeeff")).

Section report.
Context `{HashOps}.

(** Standard output takes the whole line. *)
Definition json_report_serializes_verify_success_fields : Test :=
  let report := {| Report.command := txt "verify_v1"; Report.outcome := txt "success";
    Report.r_asset_id := asset_id (txt "C:\boot\image.efi"); Report.merkle_root := Some (array xab 32);
    Report.release_counter := None; Report.blocks := Some 4; Report.bytes := None; Report.dry_run := false |} in
  _ ← TestKit.expect (fst (Report.write_stdout report None []));
  Ok tt.
End report.

Definition output_format_rejects_unknown_values : Test := assert_is_err (Report.parse (txt "yaml")).

Definition block_byte_offset_scales_by_block_size : Test := assert_eq (block_byte_offset 512 4096) (512 * 4096).

Definition align_up_rounds_to_alignment_boundary : Test :=
  a ← align_up 1 DIRECT_IO_ALIGN;
  assert_eq a DIRECT_IO_ALIGN ;;
  a ← align_up DIRECT_IO_ALIGN DIRECT_IO_ALIGN;
  assert_eq a DIRECT_IO_ALIGN ;;
  a ← align_up (DIRECT_IO_ALIGN + 1) DIRECT_IO_ALIGN;
  assert_eq a (DIRECT_IO_ALIGN * 2).

Definition direct_io_align_matches_dfim_block_size : Test :=
  assert_eq DIRECT_IO_ALIGN 4096 ;;
  assert_eq DIRECT_IO_ALIGN DFIM_BLOCK_SIZE.

Definition DEV_VDA : Path := (true, [txt "dev"; txt "vda"]).
Definition GOLDEN : Path := (true, [txt "tmp"; txt "golden.bin"]).
Definition OUT : Path := (true, [txt "tmp"; txt "out.jsonl"]).

Definition json_line_contains_phase_and_timing_fields (display : Path -> list byte) : Test :=
  let args := {| rs_device := DEV_VDA; rs_golden := GOLDEN; rs_state := None; rs_cycles := 10; rs_inject_sector := None;
    rs_jsonl_out := OUT |} in
  line ← TestKit.expect (json_line display (txt "RAW-CYCLES") (txt "PASS") args 8192 10 [100; 200] 15 None);
  assert (contains line (raw "'phase':'RAW-CYCLES'")) ;;
  assert (contains line (raw "'timing_ns'")).

Definition default_sidecar_appends_dfim_extension : Test :=
  let golden := (true, [txt "data"; txt "image.bin"]) in
  assert_eq (default_sidecar_path golden) (true, [txt "data"; txt "image.bin.dfim"]).

Definition fault_json_reports_fail_closed_true (display : Path -> list byte) : Test :=
  let args := {| rs_device := DEV_VDA; rs_golden := GOLDEN; rs_state := None; rs_cycles := 1; rs_inject_sector := Some 512;
    rs_jsonl_out := OUT |} in
  line ← TestKit.expect (json_line display (txt "RAW-FAULT-INJECT") (txt "PASS") args 4096 1 [50] 1
    (Some (512, block_byte_offset 512 DFIM_BLOCK_SIZE, true)));
  assert (contains line (raw "'fail_closed':true")).

Definition tpm_candidates_prefer_resource_manager : Test :=
  first ← index TPM_DEVICE_CANDIDATES 0;
  assert_eq first (txt "/dev/tpmrm0") ;;
  second ← index TPM_DEVICE_CANDIDATES 1;
  assert_eq second (txt "/dev/tpm0").

Lemma tool_tests_pass : let _ := BpfSha.bpf_hash in
  Forall passes [default_sidecar_path_appends_extension; decode_hex_exact_accepts_v2_key_material;
    decode_hex_exact_rejects_wrong_length_and_non_hex; json_report_serializes_verify_success_fields;
    output_format_rejects_unknown_values; block_byte_offset_scales_by_block_size; align_up_rounds_to_alignment_boundary;
    direct_io_align_matches_dfim_block_size; default_sidecar_appends_dfim_extension; tpm_candidates_prefer_resource_manager].
Proof. apply evaluate. by vm_compute. Qed.

(** However paths are displayed *)
Lemma json_line_around display phase status args image_len cycles timings elapsed_ms fault avg :
  timings <> [] -> (sum ← sum_u64 timings; Ok (sum `div` zlen timings)) = @Ok CliError _ avg -> exists middle rest,
    json_line display phase status args image_len cycles timings elapsed_ms fault =
      Ok ((raw "{'phase':'" ++ phase ++ raw "','status':'" ++ status ++ raw "','device':'") ++ display args.(rs_device) ++ middle ++ 
          display args.(rs_golden) ++ (raw "','image_bytes':" ++ to_string image_len ++ raw ",'cycles':" ++ to_string cycles ++
            raw ",'timing_ns':{'min':") ++ rest ++
          match fault with
          | Some (sector, offset, rejected) => raw ",'inject_sector':" ++ to_string sector ++ raw ",'inject_byte_offset':" ++
              to_string offset ++ raw ",'fail_closed':" ++ txt (if (rejected : bool) then "true" else "false")
          | None => []
          end ++ txt "}").
Proof.
  intros Hne Ha. unfold json_line. pose proof (zlen_pos timings Hne). rewrite (proj2 (Z.eqb_neq _ _)) by lia. rewrite Ha, ok_bind.
  eexists (raw "','golden':'"), (to_string _ ++ raw ",'max':" ++ to_string _ ++ raw ",'avg':" ++ to_string avg ++
    raw "},'elapsed_ms':" ++ to_string elapsed_ms). rewrite <- !app_assoc. reflexivity.
Qed.

Lemma phase_test_passes display : passes (json_line_contains_phase_and_timing_fields display).
Proof.
  unfold passes, json_line_contains_phase_and_timing_fields. cbv zeta. set (args := {| rs_device := _ |}).
  destruct (json_line_around display (txt "RAW-CYCLES") (txt "PASS") args 8192 10 [100; 200] 15 None 150) as (middle & rest & ->);
    [discriminate|reflexivity|]. cbn [TestKit.expect]. rewrite ok_bind.
  match goal with |- context [assert (contains ?j (raw "'phase':'RAW-CYCLES'"))] =>
    assert (H1 : contains j (raw "'phase':'RAW-CYCLES'") = true) by (apply contains_left; vm_compute; reflexivity); rewrite H1; clear H1;
    assert (H1 : contains j (raw "'timing_ns'") = true) by (do 4 apply contains_right; apply contains_left; vm_compute; reflexivity); rewrite H1 end.
  reflexivity.
Qed.

Lemma fault_test_passes display : passes (fault_json_reports_fail_closed_true display).
Proof.
  unfold passes, fault_json_reports_fail_closed_true. cbv zeta. set (args := {| rs_device := _ |}).
  destruct (json_line_around display (txt "RAW-FAULT-INJECT") (txt "PASS") args 4096 1 [50] 1
    (Some (512, block_byte_offset 512 DFIM_BLOCK_SIZE, true)) 50) as (middle & rest & ->); [discriminate|reflexivity|].
  cbn [TestKit.expect]. rewrite ok_bind.
  match goal with |- context [assert (contains ?j ?p)] =>
    assert (H1 : contains j p = true) by (do 6 apply contains_right; vm_compute; reflexivity); rewrite H1 end.
  reflexivity.
Qed.
End ToolTests.

(** ** [siem_sink.rs] of the loader *)

Module DenyLogTests.
Section tests.
Context `{HashOps}.

Definition integrity_failure_serializes_redacted_asset_id (now : Z) : Test :=
  let event := Siem.from_dfim_error (txt "/opt/guarded/app") IntegrityFailure in
  let '(r, jsonl) := Siem.append_event TelemetryTests.sink_works now event [] in
  _ ← TestKit.expect r;
  assert (contains jsonl (raw "'event_type':'dfim.integrity.failure'")) ;;
  assert (contains jsonl (raw "'severity':'critical'")) ;;
  assert (contains jsonl (raw "'asset_id':'sha256:")) ;;
  assert (negb (contains jsonl (txt "/opt/guarded"))).

Definition policy_deny_maps_enforcement_decision_reason (now : Z) : Test :=
  let event := Siem.from_enforcement_decision 9 42 DenyInvalidConfig 7 in
  let line := Siem.to_json_line now event in
  assert (contains line (raw "'event_type':'dfim.policy.deny'")) ;;
  assert (contains line (raw "'reason_code':'DenyInvalidConfig'")) ;;
  assert (contains line (raw "'policy_generation':7")).

Definition metadata_corrupt_uses_high_severity (now : Z) : Test :=
  let event := Siem.from_dfim_error (txt "/boot/module.ko") CorruptMetadata in
  let line := Siem.to_json_line now event in
  assert (contains line (raw "'event_type':'dfim.metadata.corrupt'")) ;;
  assert (contains line (raw "'severity':'high'")).
End tests.

(** A line around its timestamp and its correlation id *)
Definition deny_pre (e : Siem.SiemDenyEvent) : list byte :=
  raw "{'schema_version':'" ++ Siem.SCHEMA_VERSION ++ raw "','event_type':'" ++ Siem.event_str e.(Siem.event_type) ++
  raw "','severity':'" ++ Siem.severity e.(Siem.event_type) ++ raw "','timestamp_unix_ms':".

Definition deny_mid (e : Siem.SiemDenyEvent) : list byte :=
  raw ",'asset_id':'" ++ json_escape e.(Siem.d_asset_id) ++ raw "','enforcement_layer':'" ++ e.(Siem.enforcement_layer) ++
  raw "','action_taken':'" ++ e.(Siem.action_taken) ++ [QUOTE] ++
  opt_field e.(Siem.reason_code) (fun r => raw ",'reason_code':'" ++ json_escape r ++ [QUOTE]) ++
  opt_field e.(Siem.policy_generation) (fun n => raw ",'policy_generation':" ++ to_string n) ++
  opt_field e.(Siem.d_device_id) (fun n => raw ",'device_id':" ++ to_string n) ++
  opt_field e.(Siem.d_inode) (fun n => raw ",'inode':" ++ to_string n) ++
  opt_field e.(Siem.expected_root) (fun r => raw ",'expected_merkle_root':'" ++ hex_encode r ++ [QUOTE]) ++
  opt_field e.(Siem.calculated_root) (fun r => raw ",'calculated_merkle_root':'" ++ hex_encode r ++ [QUOTE]) ++
  raw ",'correlation_id':'".

Lemma deny_split now e : Siem.to_json_line now e =
  deny_pre e ++ to_string now ++ deny_mid e ++ json_escape (Siem.correlation_id now) ++ raw "'}" ++ [x0a].
Proof. unfold Siem.to_json_line, deny_pre, deny_mid. by rewrite <- !app_assoc. Qed.

#[local] Existing Instance BpfSha.bpf_hash.

Ltac found_deny :=
  first [ apply contains_left; vm_compute; reflexivity
        | apply contains_right, contains_right, contains_left; vm_compute; reflexivity ].

Lemma reason_test_passes now : passes (policy_deny_maps_enforcement_decision_reason now).
Proof.
  unfold passes, policy_deny_maps_enforcement_decision_reason. cbv zeta. rewrite deny_split.
  generalize (to_string now), (json_escape (Siem.correlation_id now)). intros ds hex.
  match goal with |- context [assert (contains ?j (raw "'policy_generation':7"))] =>
    assert (H1 : contains j (raw "'event_type':'dfim.policy.deny'") = true) by found_deny; rewrite H1; clear H1;
    assert (H1 : contains j (raw "'reason_code':'DenyInvalidConfig'") = true) by found_deny; rewrite H1; clear H1;
    assert (H1 : contains j (raw "'policy_generation':7") = true) by found_deny; rewrite H1 end.
  reflexivity.
Qed.

Lemma severity_test_passes now : passes (metadata_corrupt_uses_high_severity now).
Proof.
  unfold passes, metadata_corrupt_uses_high_severity. cbv zeta. rewrite deny_split.
  generalize (to_string now), (json_escape (Siem.correlation_id now)). intros ds hex.
  match goal with |- context [assert (contains ?j (raw "'severity':'high'"))] =>
    assert (H1 : contains j (raw "'event_type':'dfim.metadata.corrupt'") = true) by found_deny; rewrite H1; clear H1;
    assert (H1 : contains j (raw "'severity':'high'") = true) by found_deny; rewrite H1 end.
  reflexivity.
Qed.

(** A correlation id has no slash, whatever the clock. *)
Lemma hex_no_slash fuel n : 0 <= n -> forallb (fun c => negb (Byte.eqb c x2f) && bytes_eqb (escape_char c) [c]) (Siem.hex_loop fuel n) = true.
Proof.
  assert (Hd : forall d, 0 <= d < 16 -> negb (Byte.eqb (hex_digit d) x2f) && bytes_eqb (escape_char (hex_digit d)) [hex_digit d] = true).
  { intros d Hd. apply (range_forallb (fun d => negb (Byte.eqb (hex_digit d) x2f) && bytes_eqb (escape_char (hex_digit d)) [hex_digit d]) 0 16);
      [by vm_compute|done]. }
  revert n. induction fuel as [|fuel IH]; intros n Hn; [done|]. cbn [Siem.hex_loop]. destruct (Z.ltb_spec n 16); cbn [forallb].
  - by rewrite Hd by lia.
  - rewrite forallb_app, IH by (apply Z.div_pos; lia). cbn [forallb]. pose proof (Z.mod_pos_bound n 16 ltac:(lia)). by rewrite Hd by lia.
Qed.

Lemma correlation_no_slash now : 0 <= now -> existsb (Byte.eqb x2f) (json_escape (Siem.correlation_id now)) = false.
Proof.
  intros Hn. pose proof (hex_no_slash 32 now Hn) as Hh. rewrite forallb_forall in Hh. unfold Siem.correlation_id.
  rewrite plain_escape.
  - apply not_true_iff_false. rewrite existsb_exists. intros (c & Hc & He%byte_eqb_eq). subst c. apply in_app_iff in Hc as [Hc|Hc].
    + by vm_compute in Hc; repeat destruct Hc as [Hc|Hc].
    + by apply Hh in Hc.
  - unfold plain. rewrite forallb_app. apply andb_true_iff. split; [by vm_compute|]. apply forallb_forall. intros c Hc.
    apply Hh, andb_true_iff in Hc. apply Hc.
Qed.

Lemma redaction_test_passes now : TelemetryTests.u128 now -> passes (integrity_failure_serializes_redacted_asset_id now).
Proof.
  intros Hn. unfold passes, integrity_failure_serializes_redacted_asset_id, Siem.append_event. cbv zeta.
  cbn [append_line TelemetryTests.sink_works opens short_write syncs negb TestKit.expect]. rewrite ok_bind, app_nil_l, deny_split.
  pose proof (correlation_no_slash now (proj1 Hn)) as Hs. destruct (TelemetryTests.clock_digits now Hn) as (ds & -> & Hds & _).
  revert Hs. generalize (json_escape (Siem.correlation_id now)). intros hex Hs. set (e := Siem.from_dfim_error _ _).
  match goal with |- context [assert (contains ?j (raw "'severity':'critical'"))] =>
    assert (H1 : contains j (raw "'event_type':'dfim.integrity.failure'") = true) by found_deny; rewrite H1; clear H1;
    assert (H1 : contains j (raw "'severity':'critical'") = true) by found_deny; rewrite H1; clear H1;
    assert (H1 : contains j (raw "'asset_id':'sha256:") = true) by found_deny; rewrite H1; clear H1 end.
  rewrite (TelemetryTests.not_contained _ _ _ _ x2f); [reflexivity|exact Hds|reflexivity|by left|by vm_compute|].
  rewrite !existsb_app, Hs. by vm_compute.
Qed.
End DenyLogTests.
