(* ===== verification/TestsApi.v ===== *)
(** * TestsApi: the unit tests of [dfim_management_api] and [dfim_plugin_sdk]

    The clock, the hash of the rate limiter, the MAC and the JSON writer are arbitrary; what
    a test needs of them is a hypothesis.  The tests of the rate limiter read the clock of
    the machine: they pass when it stands still. *)

From stdpp Require Import base gmap list numbers option strings.
From Stdlib Require Import ZArith Lia Strings.Byte Floats.SpecFloat.
From S2P Require Import Prelude Crypto Float64 Json Telemetry ImaPolicy Text Auth RateLimit Siem Plugin Sha256Bpf TestKit.

(** ** [ratelimit.rs] *)

Module RateTests.
(** [now n] is what the [n]th read of the clock gives. *)
Definition test_token_bucket_allows_up_to_burst (now : Z -> Z) : Test :=
  let bucket := bucket_new (f64_of 10) (f64_of 5) (now 0) in
  bucket ← foldM (fun bucket i =>
    let '(allowed, bucket) := try_consume (now (1 + i)) bucket in
    _ ← assert allowed;
    Ok bucket) bucket (range 0 5);
  assert (negb (fst (try_consume (now 6) bucket))).

Section limiter.
Context (hash : IpAddr -> Z).

(** [check] reads the clock for a new bucket and for the refill. *)
Definition test_rate_limiter_multi_ip (now : Z -> Z) : Test :=
  fst ((let ip1 := V4 0xC0A80101 in
        let ip2 := V4 0xC0A80102 in
        b ← RateLimit.check hash ip1 (now 0) (now 1);
        _ ← lift (assert b);
        b ← RateLimit.check hash ip1 (now 2) (now 3);
        _ ← lift (assert (negb b));
        b ← RateLimit.check hash ip2 (now 4) (now 5);
        lift (assert b)) (limiter_new 1 1)).

Definition test_same_ip_maps_to_same_shard : Test :=
  let rl := limiter_new 1 1 in
  let ip := V4 0x0A000007 in
  a ← shard_index hash rl ip;
  b ← shard_index hash rl ip;
  assert_eq a b.

(** [usize::is_power_of_two] *)
Definition is_power_of_two (n : Z) : bool := (0 <? n) && (Z.land n (n - 1) =? 0).

Definition test_shard_count_is_power_of_two : Test :=
  let rl := limiter_new 1 1 in
  _ ← assert_eq (shard_count rl) 64;
  assert (is_power_of_two (shard_count rl)).

Definition test_cleanup_removes_expired_ips (now : Z -> Z) : Test :=
  fst ((let ip := V4 0xAC100009 in
        b ← RateLimit.check hash ip (now 0) (now 1);
        _ ← lift (assert b);
        n ← tracked_ips;
        _ ← lift (assert_eq n 1);
        cleanup 0 (now 2) ;;
        n ← tracked_ips;
        lift (assert_eq n 0)) (limiter_new 1 1)).
End limiter.

(** *** They pass *)

(** A bucket with whole tokens, asked as often as it has tokens and once more *)
Section drain.
Context (rt burst : Z) (Hrate : 0 <= rt <= U32_MAX) (Hburst : 0 <= burst <= U32_MAX).

Lemma consumed now b k : bucket_ok rt burst b -> budget now b = k ->
  exists b', try_consume now b = (1 <=? k, b') /\ bucket_ok rt burst b' /\ budget now b' = k - (if 1 <=? k then 1 else 0).
Proof.
  intros Hb Hk. exists (snd (try_consume now b)).
  destruct (try_consume_spec rt burst Hrate Hburst now b Hb) as (Hok & _ & Hf & _).
  split; [rewrite <- Hk, <- Hf; apply surjective_pairing|]. split; [done|].
  rewrite (budget_after rt burst Hrate Hburst now b Hb), Hk. done.
Qed.
End drain.

Lemma burst_test_passes now t : (forall n, now n = t) -> passes (test_token_bucket_allows_up_to_burst now).
Proof.
  intros Ht. unfold test_token_bucket_allows_up_to_burst, passes. rewrite (Ht 0).
  assert (Hr : 0 <= 10 <= U32_MAX) by (unfold U32_MAX; lia). assert (Hb : 0 <= 5 <= U32_MAX) by (unfold U32_MAX; lia).
  pose proof (bucket_new_ok 10 5 Hb t) as H0. pose proof (budget_new 10 5 Hr Hb t) as K0.
  change (range 0 5) with [0; 1; 2; 3; 4]. cbn [foldM]. rewrite !Ht.
  do 5 (destruct (consumed 10 5 Hr Hb t _ _ H0 K0) as (? & E & H & K); rewrite E; clear H0 K0 E; rename H into H0; rename K into K0;
    match goal with |- context [assert (1 <=? ?k)] => change (assert (1 <=? k)) with (Ok tt : Test) end; rewrite !ok_bind).
  destruct (consumed 10 5 Hr Hb t _ _ H0 K0) as (b' & E & _). by rewrite E.
Qed.

(** A frozen clock leaves a new bucket of one token with nothing after its first request. *)
Lemma one_token t : exists b b', try_consume t (bucket_new (f64_of 1) (f64_of 1) t) = (true, b) /\ try_consume t b = (false, b').
Proof.
  assert (H1 : 0 <= 1 <= U32_MAX) by (unfold U32_MAX; lia).
  destruct (consumed 1 1 H1 H1 t _ _ (bucket_new_ok 1 1 H1 t) (budget_new 1 1 H1 H1 t)) as (b & E & H & K).
  destruct (consumed 1 1 H1 H1 t _ _ H K) as (b' & E' & _). by exists b, b'.
Qed.

(** [check] against the specification, one bucket per address *)
Lemma check_step hash rt burst ip t l m a b : represents hash rt burst l m ->
  try_consume t (default (bucket_new rt burst t) (m !! ip)) = (a, b) ->
  exists l', RateLimit.check hash ip t t l = (Ok a, l') /\ represents hash rt burst l' (<[ip := b]> m).
Proof.
  intros R Hb. destruct (run_op_refines hash rt burst (Check ip t t) l m R) as (l' & E & R').
  cbn [run_op PerIp.step] in *. unfold PerIp.check in *. rewrite Hb in *. cbn [fst snd] in *.
  apply stm_bind_Ok in E as (b' & l'' & E & Er). unfold mret, stm_ret in Er. simplify_eq. by exists l'.
Qed.

Lemma tracked_step hash rt burst l m : represents hash rt burst l m -> tracked_ips l = (Ok (Z.of_nat (size m)), l).
Proof.
  intros R. destruct (run_op_refines hash rt burst TrackedIps l m R) as (l' & E & R').
  cbn [run_op PerIp.step fst] in E. apply stm_bind_Ok in E as (n & l'' & E & Er). unfold mret, stm_ret in Er. simplify_eq.
  assert (l' = l) as -> by (unfold tracked_ips, get, mbind, stm_bind in E; by injection E). done.
Qed.

Lemma multi_ip_test_passes hash now t : (forall n, now n = t) -> passes (test_rate_limiter_multi_ip hash now).
Proof.
  intros Ht. unfold test_rate_limiter_multi_ip, passes. rewrite !Ht. destruct (one_token t) as (b & b' & F1 & F2).
  destruct (check_step hash _ _ (V4 0xC0A80101) t _ _ true b (new_represents hash 1 1)) as (l1 & E1 & R1); [by rewrite lookup_empty|].
  destruct (check_step hash _ _ (V4 0xC0A80101) t _ _ false b' R1) as (l2 & E2 & R2); [by rewrite lookup_insert_eq|].
  destruct (check_step hash _ _ (V4 0xC0A80102) t _ _ true b R2) as (l3 & E3 & _); [by rewrite !lookup_insert_ne, lookup_empty|].
  generalize dependent (limiter_new 1 1). intros l E1.
  by rewrite (stm_step _ _ _ _ _ E1), stm_lift, (stm_step _ _ _ _ _ E2), stm_lift, (stm_step _ _ _ _ _ E3).
Qed.

Lemma cleanup_test_passes hash now t : (forall n, now n = t) -> passes (test_cleanup_removes_expired_ips hash now).
Proof.
  intros Ht. unfold test_cleanup_removes_expired_ips, passes. rewrite !Ht. destruct (one_token t) as (b & _ & F1 & _).
  destruct (check_step hash _ _ (V4 0xAC100009) t _ _ true b (new_represents hash 1 1)) as (l1 & E1 & R1); [by rewrite lookup_empty|].
  destruct (run_op_refines hash _ _ (Cleanup 0 t) l1 _ R1) as (l2 & E2 & R2).
  cbn [run_op PerIp.step fst snd] in E2, R2. apply stm_bind_Ok in E2 as (u & l3 & E2 & Er). unfold mret, stm_ret in Er. simplify_eq.
  generalize dependent (limiter_new 1 1). intros l E1.
  rewrite (stm_step _ _ _ _ _ E1), stm_lift, (stm_step _ _ _ _ _ (tracked_step _ _ _ _ _ R1)), stm_lift.
  rewrite map_size_insert_None, map_size_empty, (stm_step _ _ _ _ _ E2), (stm_step _ _ _ _ _ (tracked_step _ _ _ _ _ R2)) by apply lookup_empty.
  replace (filter _ _) with (∅ : Shard); [reflexivity|]. symmetry. apply map_empty. intros i. apply map_lookup_filter_None. right. intros k _. cbn [snd].
  unfold retained, duration_since. intros ?%Z.ltb_lt. lia.
Qed.

Lemma shard_tests_pass hash : Forall passes [test_same_ip_maps_to_same_shard hash; test_shard_count_is_power_of_two].
Proof.
  constructor; [|constructor; [reflexivity|constructor]]. unfold test_same_ip_maps_to_same_shard, passes.
  rewrite (shard_index_Ok hash _ _ _ _ _ (new_represents hash 1 1)), !ok_bind. apply assert_eq_refl.
Qed.

(** On a slow machine the first two fail: a tenth of a second gives a token back, and so
    does a whole second to a limiter of one request per second. *)
Lemma rate_tests_need_speed :
  test_token_bucket_allows_up_to_burst (fun n => if n <? 6 then 0 else 100000000) = Panic /\
  test_rate_limiter_multi_ip (fun _ => 0) (fun n => if n <? 2 then 0 else 1000000000) = Panic.
Proof. split; vm_compute; reflexivity. Qed.
End RateTests.

(** ** [auth.rs] *)

Module AuthTests.
Definition admin_identity : UserIdentity := {| id_role := txt "admin"; id_tenant := txt "default" |}.

Section identities.
Context `{HashOps}.

Definition test_resolve_identity_matches_and_isolates : Test :=
  let accounts :=
    [(txt "acme_admin", txt "test_pass_acme", {| id_role := txt "admin"; id_tenant := txt "acme-corp" |});
     (txt "megabank_op", txt "test_pass_bank", {| id_role := txt "operator"; id_tenant := txt "megabank" |})] in
  a ← unwrap (resolve_identity accounts (txt "acme_admin") (txt "test_pass_acme"));
  _ ← assert_eq a.(id_role) (txt "admin");
  _ ← assert_eq a.(id_tenant) (txt "acme-corp");
  b ← unwrap (resolve_identity accounts (txt "megabank_op") (txt "test_pass_bank"));
  _ ← assert_eq b.(id_role) (txt "operator");
  assert_ne a.(id_tenant) b.(id_tenant).

Definition test_resolve_identity_rejects_wrong_password : Test :=
  let accounts := [(txt "admin", txt "secret", admin_identity)] in
  assert (if resolve_identity accounts (txt "admin") (txt "wrong") is None then true else false).
End identities.

Section tests.
Context `{HashOps} `{TokenOps}.
Context (env : AuthEnv).

(** [now n] is the [n]th read of the clock, in seconds; [key] the fallback key, if an earlier
    test of the process has drawn one. *)
Definition test_issue_and_verify_token (now : Z -> Z) (key : option text) : Test :=
  fst ((token ← unwrapped (issue_token env (now 0) (txt "admin") (txt "admin") (txt "default"));
        claims ← unwrapped (verify_jwt env (now 1) (txt "Bearer " ++ token));
        _ ← lift (assert_eq claims.(sub) (txt "admin"));
        _ ← lift (assert_eq claims.(role) (txt "admin"));
        lift (assert_eq claims.(tenant) (txt "default"))) key).

Definition test_expired_token_rejected (now : Z -> Z) (key : option text) : Test :=
  fst ((t ← lift (expect (unix_secs (now 0)));
        exp ← lift (sub_usize t 1);
        iat ← lift (sub_usize t 100);
        let claims := {| sub := txt "test"; tenant := txt "default"; role := txt "admin"; exp := exp; iat := iat |} in
        let payload := base64_encode_json (claims_to_json claims) in
        let header := base64_encode_json header_to_json in
        secret ← unwrapped (jwt_secret env);
        mac ← lift (expect (hmac_new secret));
        let sig := b64_encode (mac (header ++ [DOT] ++ payload)) in
        let token := header ++ [DOT] ++ payload ++ [DOT] ++ sig in
        fails (verify_jwt env (now 1) (txt "Bearer " ++ token))) key).

(** [compiled] is [option_env!("DFIM_ADMIN_PASSWORD")], fixed when the test is built. *)
Definition test_login_requires_configured_account (now : Z -> Z) (key compiled : option text) : Test :=
  fst (fails (login env (now 0) {| username := txt "admin"; password := default (txt "ci_test_admin_pass") compiled |}) key).
End tests.

Lemma identity_tests_pass : let _ := BpfSha.bpf_hash in
  Forall passes [test_resolve_identity_matches_and_isolates; test_resolve_identity_rejects_wrong_password].
Proof. apply evaluate. vm_compute. reflexivity. Qed.

Section proofs.
Context `{HashLaws} `{TokenLaws}.
Context (env : AuthEnv) (Henv : env_wf env).
Context (key : option text) (Hkey : state_wf key).
Context (k : text) (key' : option text) (Hk : jwt_secret env key = (Ok k, key')).

(** The clock of a machine: it does not run backwards and is not at the ends of its range. *)
Context (now : Z -> Z) (Hlow : 100 <= now 0) (Hmono : now 0 <= now 1) (Hhigh : now 0 + TOKEN_EXPIRY_SECS <= U64_MAX).

Lemma issue_test_passes : now 1 <= now 0 + TOKEN_EXPIRY_SECS -> passes (test_issue_and_verify_token env now key).
Proof.
  intros Hl. destruct (jwt_secret_Ok env key k key' Henv Hkey Hk) as (_ & _ & Hk').
  destruct (issued_token_verifies env (now 0) (txt "admin") (txt "admin") (txt "default") key k key' (now 1) Hk Hk')
    as (token & Ht & Hv); [lia..|].
  unfold test_issue_and_verify_token, passes. rewrite (stm_step _ _ _ _ _ (unwrapped_Ok _ _ _ _ Ht)).
  rewrite (stm_step _ _ _ _ _ (unwrapped_Ok _ _ _ _ Hv)). reflexivity.
Qed.

Lemma expired_test_passes : passes (test_expired_token_rejected env now key).
Proof.
  destruct (jwt_secret_Ok env key k key' Henv Hkey Hk) as (_ & _ & Hk'). destruct (hmac_any_key k) as [mac Hm].
  unfold test_expired_token_rejected, passes. rewrite stm_lift, (proj2 (unix_secs_Ok (now 0) (now 0))) by lia. cbn [expect].
  rewrite stm_lift. unfold sub_usize. rewrite (proj2 (Z.leb_le 1 (now 0))) by lia.
  rewrite stm_lift, (proj2 (Z.leb_le 100 (now 0))) by lia. cbv zeta.
  set (c := {| sub := txt "test"; tenant := _; role := _; exp := _; iat := _ |}).
  destruct (claims_roundtrip c) as (j & Hj & Hj').
  { unfold claims_wf; cbn [exp iat c]. unfold TOKEN_EXPIRY_SECS in *. lia. }
  rewrite Hj, (stm_step _ _ _ _ _ (unwrapped_Ok _ _ _ _ Hk)), stm_lift, Hm. cbn [expect].
  pose proof (signed_token_verdict env c j k mac key' key' (now 1) Hj Hj' Hk' Hm ltac:(lia)) as Hv.
  rewrite (proj2 (Z.ltb_lt c.(exp) (now 1))) in Hv by (cbn [exp c]; lia).
  unfold token_of in Hv. cbv zeta in Hv. by rewrite (fails_Err _ _ _ _ Hv).
Qed.

(** Without a matching account in the environment *)
Lemma login_test_passes compiled :
  identity_of (configured_accounts env) (txt "admin") (default (txt "ci_test_admin_pass") compiled) = None ->
  passes (test_login_requires_configured_account env now key compiled).
Proof.
  intros Hi. unfold test_login_requires_configured_account, passes, login, validate_credentials.
  rewrite resolve_identity_spec. cbn [username password]. by rewrite Hi.
Qed.
End proofs.
End AuthTests.

(** ** [dfim_plugin_sdk] *)

Module PluginTests.
Definition make_healthy_input : PolicyInput :=
  {| pi_asset_id := txt "sha256:test"; asset_name := txt "test-asset"; pi_asset_kind := txt "kernel"; pi_host_name := txt "node-01";
     pi_merkle_root := Some (txt "aabbccdd"); pi_rollback_counter := 42; pi_attestation_verified := true;
     pi_fec_corrected := 0; pi_tampered_blocks := 0; metadata := ∅ |}.

Definition make_tampered_input : PolicyInput :=
  let inp := make_healthy_input in
  {| pi_asset_id := inp.(pi_asset_id); asset_name := inp.(asset_name); pi_asset_kind := inp.(pi_asset_kind);
     pi_host_name := inp.(pi_host_name); pi_merkle_root := inp.(pi_merkle_root); pi_rollback_counter := inp.(pi_rollback_counter);
     pi_attestation_verified := false; pi_fec_corrected := 3; pi_tampered_blocks := 5; metadata := inp.(metadata) |}.

(** [Vec::contains] *)
Definition has_tag (tags : list text) (t : text) : bool := existsb (bytes_eqb t) tags.

Section tests.
Context `{PolicyOps}.

Definition banking_policy_allows_healthy : Test :=
  let out := evaluate_banking_policy make_healthy_input in
  _ ← assert_eq out.(decision) Allow;
  assert (SFeqb out.(risk_score) (f64_of 0)).

Definition banking_policy_denies_tampered : Test :=
  let out := evaluate_banking_policy make_tampered_input in
  _ ← assert_eq out.(decision) Deny;
  _ ← assert (f64_gt out.(risk_score) (f64_lit 5 10));
  assert (has_tag out.(compliance_tags) (txt "PCI-DSS")).

Definition defense_policy_zero_tolerance : Test :=
  let out := evaluate_defense_policy make_tampered_input in
  _ ← assert_eq out.(decision) Deny;
  assert (SFeqb out.(risk_score) (f64_of 1)).

Definition telecom_policy_risk_scoring : Test :=
  let out := evaluate_telecom_policy make_tampered_input in
  _ ← assert (f64_gt out.(risk_score) (f64_lit 5 10));
  assert (has_tag out.(compliance_tags) (txt "GDPR")).
End tests.

Section engine.
Context `{HashOps}.
Context (w : Wasm).

Definition stats_initialized_zero : Test :=
  assert_eq (size (all_stats w (engine_new w))) 0%nat.

Definition manifest_validation_hash_mismatch : Test :=
  let manifest := {| plugin_id := txt "test"; pl_name := txt "Test"; pl_version := txt "1.0"; author := txt "DFIM";
    description := txt "Test"; industry := txt "general"; compliance := []; wasm_sha256 := txt "deadbeef" |} in
  fst (fails (register_plugin w manifest (txt "invalid wasm")) (engine_new w)).
End engine.

Lemma policy_tests_pass `{PolicyOps} : Forall passes [banking_policy_allows_healthy; banking_policy_denies_tampered;
  defense_policy_zero_tolerance; telecom_policy_risk_scoring].
Proof. apply evaluate. vm_compute. reflexivity. Qed.

Lemma engine_tests_pass w : let _ := BpfSha.bpf_hash in
  Forall passes [stats_initialized_zero w; manifest_validation_hash_mismatch w].
Proof. apply evaluate. vm_compute. reflexivity. Qed.
End PluginTests.

(** ** [siem.rs] *)

Module SiemTests.
(** [format!("{:03}", i)] *)
Definition pad3 (i : Z) : text := let s := to_string i in replicate (3 - length s) x30 ++ s.

(** The entry of a key in an object *)
Fixpoint entry (es : list (text * Ser)) (k : text) : option Ser :=
  match es with
  | [] => None
  | (k', v) :: es => if bytes_eqb k' k then Some v else entry es k
  end.

Section tests.
Context `{SiemOps}.

(** [serde_json::from_str] into a [Value] *)
Context (from_str : text -> option Ser).

(** [Utc::now()] is [now]. *)
Definition make_event (now : Z) : DfimSiemEvent :=
  {| event_id := txt "evt-001"; event_type := txt "dfim.integrity.failure"; severity := txt "critical";
     asset_id := txt "sha256:abcdef1234567890abcdef1234567890abcdef1234567890abcdef1234567890";
     message := txt "Boot image tampered"; host_name := txt "dfim-edge-01"; timestamp := now; outcome := txt "failure";
     merkle_root := Some (txt "aabbccdd"); tampered_blocks := Some 3; fec_corrected := Some 1; rollback_counter := Some 42;
     attestation_verified := Some true; enforcement_action := Some (txt "block") |}.

Definition splunk_hec_output_contains_required_fields (now : Z) : Test :=
  let out := SplunkHecSerializer.(serialize) (make_event now) in
  _ ← assert (contains out (raw "'host'"));
  _ ← assert (contains out (raw "'sourcetype'"));
  _ ← assert (contains out (raw "'tampered_blocks'"));
  assert (contains out (raw "'fec_corrected'")).

Definition elastic_ecs_output_follows_ecs_schema (now : Z) : Test :=
  let out := ElasticEcsSerializer.(serialize) (make_event now) in
  _ ← assert (contains out (raw "'ecs'"));
  _ ← assert (contains out (raw "'8.11.0'"));
  _ ← assert (contains out (raw "'dfim'"));
  assert (contains out (raw "'intrusion_detection'")).

Definition sentinel_cef_output_has_cef_header (now : Z) : Test :=
  let out := SentinelCefSerializer.(serialize) (make_event now) in
  _ ← assert (starts_with out (txt "CEF:0|DFIM|"));
  _ ← assert (contains out (txt "cs1Label=EnforcementAction"));
  assert (contains out (txt "ComplianceStandard")).

Definition rfc5424_output_has_structured_data (now : Z) : Test :=
  let out := Rfc5424SyslogSerializer.(serialize) (make_event now) in
  _ ← assert (contains out (txt "<"));
  _ ← assert (contains out (txt "dfim@48577"));
  _ ← assert (contains out (txt "merkle_root"));
  assert (contains out (txt "rollback_counter")).

Definition ndjson_output_is_valid_json (now : Z) : Test :=
  let out := NdjsonSerializer.(serialize) (make_event now) in
  parsed ← unwrap (from_str out);
  assert (match parsed with
          | SMap es => match entry es (txt "event_type") with Some (SStr s) => bytes_eqb s (txt "dfim.integrity.failure") | _ => false end
          | _ => false
          end).

(** The event [i] of the batch; each reads the clock. *)
Definition numbered (now : Z -> Z) (i : Z) : DfimSiemEvent :=
  let e := make_event (now i) in
  {| event_id := txt "evt-" ++ pad3 i; event_type := e.(event_type); severity := e.(severity); asset_id := e.(asset_id);
     message := e.(message); host_name := e.(host_name); timestamp := e.(timestamp); outcome := e.(outcome);
     merkle_root := e.(merkle_root); tampered_blocks := e.(tampered_blocks); fec_corrected := e.(fec_corrected);
     rollback_counter := e.(rollback_counter); attestation_verified := e.(attestation_verified);
     enforcement_action := e.(enforcement_action) |}.

Definition format_batch_creates_5_events (now : Z -> Z) : Test :=
  let events := map (numbered now) (range 0 5) in
  let batch := format_batch NdjsonSerializer events in
  assert_eq (zlen (lines batch)) 5.

Definition all_formats_serialize_without_error (now : Z) : Test :=
  let event := make_event now in
  for_each [SplunkHec; ElasticEcs; SentinelCef; Rfc5424Syslog; Ndjson] (fun fmt =>
    let s := get_serializer fmt in
    let out := s.(serialize) event in
    assert (negb (bytes_eqb out []))).
End tests.

(** *** What the tests need of [serde_json] *)

(** The strings and member names of a tree *)
Fixpoint names (v : Ser) : list text :=
  match v with
  | SStr s => [s]
  | SSeq l => concat (map names l)
  | SMap es | SStruct es => concat (map (fun kv => fst kv :: names (snd kv)) es)
  | _ => []
  end.

(** A name that JSON writes as it is *)
Definition plain (n : text) : bool :=
  forallb (fun c => (0x20 <=? b2z c) && (b2z c <? 0x7F) && negb (Byte.eqb c QUOTE) && negb (Byte.eqb c x5c)) n.

(** A plain name is in the text, between quotes; the text of a record is read back as an object
    with the same strings. *)
Class JsonLaws `{SiemOps} (from_str : text -> option Ser) : Prop := {
  writes_names : forall v s n, json_text v = Some s -> n ∈ names v -> plain n = true -> contains s ([QUOTE] ++ n ++ [QUOTE]) = true;
  reads_record : forall fields s, NoDup fields.*1 -> json_text (SStruct fields) = Some s ->
    exists es, from_str s = Some (SMap es) /\ forall k v, (k, SStr v) ∈ fields -> entry es k = Some (SStr v)
}.

Ltac mem := solve [reflexivity | simpl; repeat first [apply list_elem_of_here | apply list_elem_of_further]].

Section proofs.
Context `{SiemLaws} (from_str : text -> option Ser) `{!JsonLaws from_str}.

Lemma named v s n p : json_text v = Some s -> p = [QUOTE] ++ n ++ [QUOTE] -> plain n = true -> n ∈ names v -> contains s p = true.
Proof. intros Hs -> Hn Hp. by eapply writes_names. Qed.

(** The text of a tree with a plain name is not empty. *)
Lemma named_nonempty v s n : json_text v = Some s -> plain n = true -> n ∈ names v -> bytes_eqb s [] = false.
Proof. intros Hs Hp Hn. pose proof (named v s n _ Hs eq_refl Hp Hn) as Hc. by destruct s. Qed.

Lemma splunk_test_passes now : passes (splunk_hec_output_contains_required_fields now).
Proof.
  unfold splunk_hec_output_contains_required_fields, passes. cbn [serialize SplunkHecSerializer].
  destruct (json_text_total (splunk_value (make_event now))) as [s Hs]. rewrite Hs. cbn [default from_option id].
  rewrite (named _ _ (txt "host") (raw "'host'") Hs), (named _ _ (txt "sourcetype") (raw "'sourcetype'") Hs), (named _ _ (txt "tampered_blocks") (raw "'tampered_blocks'") Hs),
    (named _ _ (txt "fec_corrected") (raw "'fec_corrected'") Hs) by mem. reflexivity.
Qed.

Lemma ecs_test_passes now : passes (elastic_ecs_output_follows_ecs_schema now).
Proof.
  unfold elastic_ecs_output_follows_ecs_schema, passes. cbn [serialize ElasticEcsSerializer].
  destruct (json_text_total (ecs_value (make_event now))) as [s Hs]. rewrite Hs. cbn [default from_option id].
  rewrite (named _ _ (txt "ecs") (raw "'ecs'") Hs), (named _ _ (txt "8.11.0") (raw "'8.11.0'") Hs), (named _ _ (txt "dfim") (raw "'dfim'") Hs),
    (named _ _ (txt "intrusion_detection") (raw "'intrusion_detection'") Hs) by mem. reflexivity.
Qed.

Lemma ndjson_test_passes now : passes (ndjson_output_is_valid_json from_str now).
Proof.
  unfold ndjson_output_is_valid_json, passes. cbn [serialize NdjsonSerializer].
  destruct (json_text_total (event_value (make_event now))) as [s Hs]. rewrite Hs. cbn [default from_option id].
  unfold event_value in Hs. apply (reads_record (from_str := from_str)) in Hs as (es & -> & He).
  2:{ apply (bool_decide_unpack _). vm_compute. exact I. }
  cbn [unwrap]. rewrite ok_bind, (He (txt "event_type") (txt "dfim.integrity.failure")) by mem. reflexivity.
Qed.

(** [lines] as splitting *)
Lemma pieces_split acc s : pieces (fun c => bytes_eqb [c] [x0a]) acc s =
  match split_on x0a s with p :: ps => (acc ++ p) :: ps | [] => [] end.
Proof.
  revert acc. induction s as [|c s IH]; intros acc; cbn [pieces split_on]; [by rewrite app_nil_r|].
  assert (bytes_eqb [c] [x0a] = Byte.eqb c x0a) as -> by (by destruct c).
  destruct (Byte.eqb c x0a); rewrite IH.
  - destruct (split_on x0a s) eqn:E; [by apply split_on_nonempty in E|]. by rewrite app_nil_r.
  - destruct (split_on x0a s) eqn:E; [by apply split_on_nonempty in E|]. by rewrite <- app_assoc.
Qed.

Lemma lines_join ps q : Forall (fun p => without x0a p = true) (ps ++ [q]) -> q <> [] ->
  length (lines (join [x0a] (ps ++ [q]))) = S (length ps).
Proof.
  intros Hall Hq. unfold lines. rewrite pieces_split, split_join; [|by destruct ps|done].
  replace (match ps ++ [q] with p :: ps => ([] ++ p) :: ps | [] => [] end) with (ps ++ [q]) by (by destruct ps).
  rewrite last_snoc. destruct q; [done|]. rewrite List.length_map, length_app. cbn [length]. lia.
Qed.

Lemma one_line e : without x0a (serialize NdjsonSerializer e) = true.
Proof.
  cbn [serialize NdjsonSerializer]. destruct (json_text_total (event_value e)) as [s Hs]. rewrite Hs. by eapply json_text_one_line.
Qed.

Lemma batch_test_passes now : passes (format_batch_creates_5_events now).
Proof.
  unfold format_batch_creates_5_events, passes. cbn [format_batch format NdjsonSerializer].
  change (range 0 5) with ([0; 1; 2; 3] ++ [4]). rewrite !map_app. unfold zlen. cbn [map]. rewrite lines_join; [reflexivity| |].
  - repeat (constructor; [apply one_line|]). constructor.
  - cbn [serialize NdjsonSerializer]. destruct (json_text_total (event_value (numbered now 4))) as [s Hs]. rewrite Hs.
    cbn [default from_option id]. pose proof (named_nonempty _ s (txt "event_id") Hs eq_refl ltac:(mem)). by destruct s.
Qed.

Lemma formats_test_passes now : passes (all_formats_serialize_without_error now).
Proof.
  unfold all_formats_serialize_without_error. apply for_each_passes. intros fmt _. unfold passes, assert.
  replace (bytes_eqb _ []) with false; [done|]. symmetry.
  destruct fmt; cbn [get_serializer serialize SplunkHecSerializer ElasticEcsSerializer SentinelCefSerializer Rfc5424SyslogSerializer NdjsonSerializer].
  - destruct (json_text_total (splunk_value (make_event now))) as [s Hs]. rewrite Hs. by apply (named_nonempty _ s (txt "host") Hs); [|mem].
  - destruct (json_text_total (ecs_value (make_event now))) as [s Hs]. rewrite Hs. by apply (named_nonempty _ s (txt "ecs") Hs); [|mem].
  - reflexivity.
  - reflexivity.
  - destruct (json_text_total (event_value (make_event now))) as [s Hs]. rewrite Hs. by apply (named_nonempty _ s (txt "event_id") Hs); [|mem].
Qed.
End proofs.

(** A pattern inside one of the literal pieces *)
Ltac seek :=
  lazymatch goal with
  | |- contains (_ ++ _) _ = true => first [apply contains_left; seek | apply contains_right; seek]
  | |- contains (txt _) _ = true => vm_compute; reflexivity
  | |- contains (raw _) _ = true => vm_compute; reflexivity
  end.
Ltac found := match goal with |- context [contains ?s ?p] => assert (contains s p = true) as -> by seek end.

Lemma text_tests_pass `{SiemOps} now : Forall passes [sentinel_cef_output_has_cef_header now; rfc5424_output_has_structured_data now].
Proof.
  constructor; [|constructor; [|constructor]]; unfold passes.
  - unfold sentinel_cef_output_has_cef_header. cbn [serialize SentinelCefSerializer]. unfold cef_text.
    assert (Hs : forall t, starts_with (txt "CEF:0|DFIM|Firmware Integrity Matrix|0.1.0|" ++ t) (txt "CEF:0|DFIM|") = true)
      by (intros t; by apply starts_with_extend).
    rewrite Hs. cbn [assert]. rewrite ok_bind.
    do 2 found. reflexivity.
  - unfold rfc5424_output_has_structured_data. cbn [serialize Rfc5424SyslogSerializer]. unfold syslog_text, syslog_sd.
    do 4 found. reflexivity.
Qed.
End SiemTests.
