(* ===== verification/TestsFiles.v ===== *)
(** * TestsFiles: the tests of [dfim_cli_provisioner] that work on files

    The tests of [verify.rs] and [recovery.rs] and the round trip of [main.rs], on a machine whose
    calls do not fail and with which no other process interferes.  A test starts on any file
    system without hard links; its temporary directory is any path.  The ignored soak test is
    not here. *)

From stdpp Require Import base list numbers option strings gmap.
From Stdlib Require Import ZArith Lia Strings.Byte.
From S2P Require Import Prelude Crypto Core Merkle BlockStream StateDb Pipeline SignedManifest Harness Json Telemetry Files Recovery.
From S2P Require Import Attestation Tpm Shell Verify Device Commands TestKit TestsCore TestsUefi.

(** ** Files of a machine without failures *)

(** No file has two names, and inodes are allocated in order. *)
Definition linked (f : Fs) : Prop :=
  (forall q i, f.(dir) !! q = Some i -> (i < f.(fresh))%nat) /\
  forall p q i, f.(dir) !! p = Some i -> f.(dir) !! q = Some i -> p = q.

Lemma linked_apart p q f : linked f -> p <> q -> apart p q f.
Proof. intros [Hids Hinj] Hne. split_and!; [done|done|]. intros i Hp Hq. by apply Hne, (Hinj p q i). Qed.

Lemma written_linked p b f : linked f -> linked (written p b f).
Proof.
  intros [Hids Hinj]. unfold written. destruct (dir f !! p) as [i|] eqn:Hp; [done|].
  split; unfold set_inode, set_dir, new_inode; cbn [dir fresh].
  - intros q i [[<- <-]|[_ Hq]]%lookup_insert_Some; [lia|]. pose proof (Hids q i Hq). lia.
  - intros q q' i [[<- <-]|[Hn Hq]]%lookup_insert_Some [[<- E]|[Hn' Hq']]%lookup_insert_Some; [done| | |by eapply Hinj].
    + pose proof (Hids q' _ Hq'). lia.
    + pose proof (Hids q _ Hq). lia.
Qed.

Lemma written_at p b f q : linked f -> lookup_file (written p b f) q = if decide (p = q) then Some b else lookup_file f q.
Proof.
  intros Hf. case_decide as Hd; [subst q; apply written_lookup|]. by apply written_other, linked_apart.
Qed.

Lemma written_no_tmp p b f : is_tmp p = false -> (forall q, is_tmp q = true -> f.(dir) !! q = None) ->
  forall q, is_tmp q = true -> (written p b f).(dir) !! q = None.
Proof.
  intros Hp Hf q Hq. unfold written. destruct (dir f !! p) as [i|] eqn:E; cbn [dir set_inode set_dir]; [by apply Hf|].
  rewrite lookup_insert_ne by congruence. by apply Hf.
Qed.

(** The names of the tests *)
Lemma push_join d name suffix : push (join d name) suffix = join d (name ++ suffix).
Proof.
  unfold push, join. cbn [fst snd]. rewrite last_snoc, length_app. cbn [length].
  replace (length (snd d) + 1 - 1)%nat with (length (snd d)) by lia. by rewrite take_app_length.
Qed.

Lemma join_inj d a b : join d a = join d b -> a = b.
Proof. unfold join. intros E. injection E as E. by apply app_inj_2 in E as [_ [= ->]]. Qed.

Lemma join_gate d name : name <> [] -> zlen (os_bytes (join d name)) <= U32_MAX -> run_integrity_gates (join d name) = Ok tt.
Proof.
  intros Hn Hl. unfold run_integrity_gates, assert_target_path. rewrite Z.gtb_ltb, (proj2 (Z.ltb_ge _ _) Hl).
  rewrite (proj2 (Z.eqb_neq _ 0)); [done|]. intros E%zlen_0_nil. unfold os_bytes, join in E. cbn [fst snd] in E.
  apply app_eq_nil in E as [_ E]. revert E. induction (snd d) as [|c l IH]; cbn [app separated]; [done|].
  destruct (l ++ [name]) eqn:El; [by destruct l|]. intros E. by apply app_eq_nil in E as [_ ?].
Qed.

(** What a computation on a shell returns and leaves, whatever else the shell holds *)
Definition yields {E A} (m : stm Shell E A) (f : Fs) (r : outcome E A) (f' : Fs) : Prop :=
  forall s, fs_of s = f -> exists s', m s = (r, s') /\ fs_of s' = f'.

Section yields.
Context {E A B : Type}.

Lemma yields_bind (m : stm Shell E A) (k : A -> stm Shell E B) f a f1 r f2 :
  yields m f (Ok a) f1 -> yields (k a) f1 r f2 -> yields (m ≫= k) f r f2.
Proof.
  intros Hm Hk s Hs. destruct (Hm s Hs) as (s1 & Hm1 & Hs1). destruct (Hk s1 Hs1) as (s2 & Hk2 & Hs2).
  exists s2. split; [|done]. by rewrite (stm_step _ _ _ _ _ Hm1).
Qed.

Lemma yields_eq (m : stm Shell E A) f r r' f' : yields m f r f' -> r = r' -> yields m f r' f'.
Proof. by intros Hm <-. Qed.

Lemma yields_lift (r : outcome E A) f : yields (lift r) f r f.
Proof. intros s Hs. by exists s. Qed.

Lemma yields_unwrapped (m : stm Shell E A) f a f' : yields m f (Ok a) f' -> yields (unwrapped m) f (Ok a) f'.
Proof. intros Hm s Hs. destruct (Hm s Hs) as (s' & Hr & Hf). exists s'. split; [|done]. by apply unwrapped_Ok. Qed.

Lemma yields_fails (m : stm Shell E A) f e f' : yields m f (Err e) f' -> yields (fails m) f (Ok tt) f'.
Proof. intros Hm s Hs. destruct (Hm s Hs) as (s' & Hr & Hf). exists s'. split; [|done]. by eapply fails_Err. Qed.
End yields.

(** ** [verify.rs] *)

Module VerifyTests.
Section tests.
Context `{HashOps, SigOps}.
Context (h : Host) (tmp : Path).

(** [fs::write(..).expect(..)] *)
Definition fs_write (p : Path) (b : list byte) : stm Shell Empty_set unit :=
  unwrapped (on_files (sys_write h.(h_os) (CannotRead p) p b)).

(** The first lines of the tests: an image of [len] bytes and its sidecar in the directory *)
Definition write_image (len : Z) : stm Shell Empty_set (Path * list byte) :=
  let target := join tmp (txt "image.bin") in
  let image := array x4d len in
  fs_write target image ;;
  sidecar ← lift (expect (build_boot_sidecar image));
  fs_write (default_sidecar_path target) sidecar ;;
  mret (target, image).

Definition verify_passes_for_matching_sidecar (s : Shell) : Test :=
  fst (('(target, image) ← write_image (DFIM_BLOCK_SIZE * 2 + 100);
        report ← unwrapped (verify_target h {| va_target := target; va_state := None; va_format := Report.Text |});
        lift (assert_eq report.(vr_block_count) 3)) s).

Definition verify_rejects_tampered_image (s : Shell) : Test :=
  fst (('(target, image) ← write_image (DFIM_BLOCK_SIZE + 64);
        tampered ← lift (xor_at image 0 0x01);
        fs_write target tampered ;;
        fails (verify_target h {| va_target := target; va_state := None; va_format := Report.Text |})) s).

Definition verify_rejects_plaintext_state_injection (s : Shell) : Test :=
  fst (('(target, image) ← write_image (DFIM_BLOCK_SIZE + 64);
        let bogus_state := join tmp (txt "bogus.dat") in
        fs_write bogus_state (txt "STATE_HASH_CLOCK_VALID_A") ;;
        fails (verify_target h {| va_target := target; va_state := Some bogus_state; va_format := Report.Text |})) s).

Definition verify_rejects_license_blob_as_state_db (s : Shell) : Test :=
  fst (('(target, image) ← write_image (DFIM_BLOCK_SIZE + 64);
        let bogus_state := join tmp (txt "license.dat") in
        fs_write bogus_state (array x00 16) ;;
        fails (verify_target h {| va_target := target; va_state := Some bogus_state; va_format := Report.Text |})) s).

(** The policy of a private key *)
Definition trusting (private key_id : list byte) (minimum_release : Z) : check TrustedManifestPolicy :=
  public_key ← expect (public_key_sec1_from_private private);
  Ok {| public_key_sec1 := public_key; expected_key_id := key_id; SignedManifest.minimum_release := minimum_release |}.

Definition verify_v2_enforces_signature_and_release_floor : Test :=
  let PRIVATE_KEY := array x22 32 in
  let KEY_ID := txt "DFIM-VERIFY-V2!!" in
  let image := array x4d (DFIM_BLOCK_SIZE * 2) in
  sidecar ← expect (build_signed_boot_sidecar_v2 image PRIVATE_KEY KEY_ID 9);
  policy ← trusting PRIVATE_KEY KEY_ID 9;
  _ ← assert_ok (verify_v2_image_bytes image sidecar policy);
  let rollback_policy := {| public_key_sec1 := policy.(public_key_sec1); expected_key_id := policy.(expected_key_id);
    SignedManifest.minimum_release := 10 |} in
  assert_is_err (verify_v2_image_bytes image sidecar rollback_policy).

Definition verify_v2_target_accepts_provision_v2_sidecar (s : Shell) : Test :=
  let PRIVATE_KEY := array x42 32 in
  let KEY_ID := txt "0123456789ABCDEF" in
  fst ((let target := join tmp (txt "release.bin") in
        let image := array x5a (DFIM_BLOCK_SIZE * 2) in
        fs_write target image ;;
        sidecar ← lift (expect (build_signed_boot_sidecar_v2 image PRIVATE_KEY KEY_ID 9));
        fs_write (default_sidecar_path target) sidecar ;;
        policy ← lift (trusting PRIVATE_KEY KEY_ID 9);
        let args := {| v2_target := target; v2_state := None; v2_policy := policy; v2_format := Report.Text |} in
        report ← unwrapped (verify_v2_target h args);
        _ ← lift (assert_eq report.(vr_block_count) 2);
        tampered ← lift (xor_at image 0 0x01);
        fs_write target tampered ;;
        fails (verify_v2_target h args)) s).

(** [main.rs] *)
Definition provision_round_trip_matches_uefi_parser : Test :=
  let image := array x4d (DFIM_BLOCK_SIZE * 3 + 512) in
  sidecar ← expect (build_boot_sidecar image);
  manifest ← expect (parse_boot_manifest sidecar);
  _ ← assert_eq manifest.(bm_block_count) 4;
  _ ← expect (validate_boot_image image manifest);
  Ok tt.
End tests.

(** *** They pass *)

Section proofs.
Context `{HashLaws, SigLaws}.
Context (h : Host) (Hcalm : calm h.(h_os)) (Hok : faultless h.(h_os)).
Context (tmp : Path) (Hcan : forall name, h.(canonical) (join tmp name) = Some (join tmp name)).
Context (Hpath : forall name, zlen name <= 16 -> zlen (os_bytes (join tmp name)) <= U32_MAX).

Lemma wrote p b f : yields (fs_write h p b) f (Ok tt) (written p b f).
Proof. apply yields_unwrapped, does_write; done. Qed.

Lemma reads_file_yields p b f : lookup_file f p = Some b -> b <> [] -> yields (read_non_empty_file h p) f (Ok b) f.
Proof.
  intros Hb Hne. unfold read_non_empty_file. eapply yields_bind; [by apply does_read|].
  rewrite (proj2 (Z.eqb_neq _ 0)) by (by intros ?%zlen_0_nil). apply yields_lift.
Qed.

(** The check on what is on the disk *)
Lemma verify_yields name state image raw f : name <> [] -> zlen name <= 16 -> 1 <= zlen image <= MAX_IMAGE_BYTES ->
  lookup_file f (join tmp name) = Some image -> lookup_file f (default (join tmp (name ++ txt ".dfim")) state) = Some raw -> raw <> [] ->
  yields (verify_target h {| va_target := join tmp name; va_state := state; va_format := Report.Text |}) f (verify_against image raw) f.
Proof.
  intros Hn Hl Hsize Himg Hraw Hne. unfold verify_target. cbn [va_target va_state].
  eapply yields_bind; [apply does_lift, join_gate; auto|].
  eapply yields_bind; [exact (does_canonical h Hcalm Hok _ _ _ (Hcan name) (lookup_file_dir _ _ _ Himg))|]. cbv zeta.
  unfold default_sidecar_path. rewrite push_join.
  eapply yields_bind; [apply reads_file_yields; [done|intros E; rewrite E in Hsize; unfold zlen in Hsize; cbn [length] in Hsize; lia]|].
  unfold verify_image_bytes_against_state. rewrite (proj2 (Z.eqb_neq _ 0)) by lia.
  eapply yields_bind; [apply does_lift; unfold assert_image_bounds; by rewrite (proj2 (validate_image_byte_len_Ok (zlen image) ltac:(lia)) Hsize)|].
  eapply yields_bind; [by apply reads_file_yields|]. apply yields_lift.
Qed.

Lemma image_names : join tmp (txt "image.bin") <> join tmp (txt "image.bin" ++ txt ".dfim").
Proof. intros E%join_inj. done. Qed.

Lemma write_image_yields len f : linked f -> 1 <= len <= MAX_IMAGE_BYTES ->
  exists f', yields (write_image h tmp len) f (Ok (join tmp (txt "image.bin"), array x4d len)) f' /\ linked f' /\
    lookup_file f' (join tmp (txt "image.bin")) = Some (array x4d len) /\
    lookup_file f' (join tmp (txt "image.bin" ++ txt ".dfim")) = Some (manifest_bytes (honest_manifest (array x4d len))).
Proof.
  intros Hf Hlen. assert (Hz : zlen (array x4d len) = len) by (rewrite zlen_array; lia).
  eexists. split_and!.
  - unfold write_image. eapply yields_bind; [apply wrote|]. rewrite build_boot_sidecar_ok by lia. cbn [expect].
    eapply yields_bind; [apply yields_lift|]. eapply yields_bind; [apply wrote|]. apply yields_lift.
  - by do 2 apply written_linked.
  - unfold default_sidecar_path. rewrite push_join, !written_at by (done || by apply written_linked).
    rewrite decide_False by (symmetry; apply image_names). by rewrite decide_True.
  - unfold default_sidecar_path. rewrite push_join, !written_at by (done || by apply written_linked). by rewrite decide_True.
Qed.

Lemma verify_honest image : 1 <= zlen image <= MAX_IMAGE_BYTES -> verify_against image (manifest_bytes (honest_manifest image)) =
  Ok {| vr_merkle_root := Merkle.merkle_root (blocks_of image); vr_block_count := zlen (blocks_of image) |}.
Proof.
  intros Hn. apply verify_v1_exact. exists (manifest_bytes (honest_manifest image)), (to_boot (honest_manifest image)). eexists.
  split_and!; [|by apply parse_honest|by apply validate_honest|done|done].
  apply state_db_accepts. right. split; [done|]. by apply manifest_header_ok, honest_wf.
Qed.

Lemma verify_tampered image image' : 1 <= zlen image <= MAX_IMAGE_BYTES -> zlen image' = zlen image -> image' <> image ->
  verify_against image' (manifest_bytes (honest_manifest image)) = Err (TamperDetected IntegrityFailure) \/ exists x y, collision x y.
Proof.
  intros Hn Hz Hne. destruct (SidecarTests.tampered_image_rejected image image' Hn Hz Hne) as [Hv|Hc]; [left|by right].
  unfold verify_against. rewrite (proj2 (state_db_accepts _ (manifest_bytes (honest_manifest image)))).
  2:{ right. split; [done|]. by apply manifest_header_ok, honest_wf. }
  cbn [map_err]. rewrite ok_bind, parse_honest by done. cbn [map_err]. rewrite ok_bind, live_root, ok_bind by lia. by rewrite Hv.
Qed.

Lemma manifest_ne image : manifest_bytes (honest_manifest image) <> [].
Proof. done. Qed.

Lemma yields_passes (m : stm Shell Empty_set unit) s f f' : fs_of s = f -> yields m f (Ok tt) f' -> passes (fst (m s)).
Proof. intros Hs Hm. destruct (Hm s Hs) as (s' & -> & _). done. Qed.

Lemma matching_test_passes s : linked (fs_of s) -> passes (verify_passes_for_matching_sidecar h tmp s).
Proof.
  intros Hs. destruct (write_image_yields (DFIM_BLOCK_SIZE * 2 + 100) _ Hs) as (f' & Hw & _ & Hi & Hsc); [done|].
  assert (Hz : zlen (array x4d (DFIM_BLOCK_SIZE * 2 + 100)) = DFIM_BLOCK_SIZE * 2 + 100) by (apply zlen_array; done).
  unfold verify_passes_for_matching_sidecar. revert Hw Hi Hsc Hz. generalize (array x4d (DFIM_BLOCK_SIZE * 2 + 100)). intros image Hw Hi Hsc Hz.
  assert (Hn : 1 <= zlen image <= MAX_IMAGE_BYTES) by (by rewrite Hz).
  eapply yields_passes; [reflexivity|]. eapply yields_bind; [exact Hw|]. cbv beta iota.
  eapply yields_bind; [apply yields_unwrapped; rewrite <- verify_honest by exact Hn; apply verify_yields; [done..|exact Hn|exact Hi|exact Hsc|apply manifest_ne]|].
  cbn [vr_block_count]. rewrite zlen_blocks_of, Hz by exact Hn. apply yields_lift.
Qed.

Lemma tampered_test_passes s : linked (fs_of s) -> passes (verify_rejects_tampered_image h tmp s) \/ exists x y, collision x y.
Proof.
  intros Hs. destruct (write_image_yields (DFIM_BLOCK_SIZE + 64) _ Hs) as (f' & Hw & Hl & Hi & Hsc); [done|].
  assert (Hz : zlen (array x4d (DFIM_BLOCK_SIZE + 64)) = DFIM_BLOCK_SIZE + 64) by (apply zlen_array; done).
  unfold verify_rejects_tampered_image. revert Hw Hi Hsc Hz. generalize (array x4d (DFIM_BLOCK_SIZE + 64)). intros image Hw Hi Hsc Hz.
  assert (Hn : 1 <= zlen image <= MAX_IMAGE_BYTES) by (by rewrite Hz).
  destruct (TamperTest.xor_at_differs image 0 1) as (t & Ht & Hne & Hzt); [lia|apply SignedTests.flip_one|].
  destruct (verify_tampered image t Hn Hzt Hne) as [Hv|Hc]; [left|by right].
  eapply yields_passes; [reflexivity|]. eapply yields_bind; [exact Hw|]. cbv beta iota. rewrite Ht.
  eapply yields_bind; [apply yields_lift|]. eapply yields_bind; [apply wrote|].
  eapply yields_fails. rewrite <- Hv. apply verify_yields; [done..|lia| | |apply manifest_ne].
  - rewrite written_at, decide_True by done. done.
  - cbn [default from_option]. rewrite written_at, decide_False by (done || apply image_names). done.
Qed.

(** A state file that is neither an envelope nor a sidecar *)
Lemma bogus_state_rejected name bogus s : name <> txt "image.bin" -> bogus <> [] ->
  parse_authenticated_state_db bogus = Err CorruptMetadata -> linked (fs_of s) ->
  passes (fst (('(target, image) ← write_image h tmp (DFIM_BLOCK_SIZE + 64);
    fs_write h (join tmp name) bogus ;;
    fails (verify_target h {| va_target := target; va_state := Some (join tmp name); va_format := Report.Text |})) s)).
Proof.
  intros Hname Hb Hp Hs. destruct (write_image_yields (DFIM_BLOCK_SIZE + 64) _ Hs) as (f' & Hw & Hl & Hi & Hsc); [done|].
  assert (Hz : zlen (array x4d (DFIM_BLOCK_SIZE + 64)) = DFIM_BLOCK_SIZE + 64) by (apply zlen_array; done).
  revert Hw Hi Hsc Hz. generalize (array x4d (DFIM_BLOCK_SIZE + 64)). intros image Hw Hi Hsc Hz.
  assert (Hn : 1 <= zlen image <= MAX_IMAGE_BYTES) by (by rewrite Hz).
  eapply yields_passes; [reflexivity|]. eapply yields_bind; [exact Hw|]. cbv beta iota. eapply yields_bind; [apply wrote|].
  eapply yields_fails. assert (Hv : verify_against image bogus = Err (InvalidState CorruptMetadata)) by (unfold verify_against; by rewrite Hp).
  rewrite <- Hv. apply verify_yields; [done..|exact Hn| | |done].
  - rewrite written_at, decide_False by (done || (by intros E%join_inj)). done.
  - cbn [default from_option]. rewrite written_at, decide_True by done. done.
Qed.

Lemma bogus_tests_pass s : linked (fs_of s) ->
  Forall passes [verify_rejects_plaintext_state_injection h tmp s; verify_rejects_license_blob_as_state_db h tmp s].
Proof.
  intros Hs. constructor; [|constructor; [|constructor]].
  - by apply (bogus_state_rejected (txt "bogus.dat") (txt "STATE_HASH_CLOCK_VALID_A")).
  - by apply (bogus_state_rejected (txt "license.dat") (array x00 16)).
Qed.

Lemma round_trip_test_passes : passes provision_round_trip_matches_uefi_parser.
Proof.
  assert (Hz : zlen (array x4d (DFIM_BLOCK_SIZE * 3 + 512)) = DFIM_BLOCK_SIZE * 3 + 512) by (apply zlen_array; done).
  unfold provision_round_trip_matches_uefi_parser, passes. cbv zeta. revert Hz. generalize (array x4d (DFIM_BLOCK_SIZE * 3 + 512)).
  intros image Hz. assert (Hn : 1 <= zlen image <= MAX_IMAGE_BYTES) by (by rewrite Hz).
  rewrite build_boot_sidecar_ok by exact Hn. cbn [expect]. rewrite ok_bind, parse_honest by exact Hn. cbn [expect].
  rewrite ok_bind. cbn [to_boot bm_block_count honest_manifest block_count]. rewrite zlen_blocks_of, Hz by exact Hn.
  change (assert_eq (div_ceil (DFIM_BLOCK_SIZE * 3 + 512) DFIM_BLOCK_SIZE) 4) with (Ok tt : Test). rewrite ok_bind.
  by rewrite validate_honest by exact Hn.
Qed.

(** *** Signed sidecars *)

Lemma trusting_ok sk key_id floor : sk_valid sk = true -> trusting sk key_id floor =
  Ok {| public_key_sec1 := pk_of sk; expected_key_id := key_id; SignedManifest.minimum_release := floor |}.
Proof. intros Hsk. unfold trusting, public_key_sec1_from_private. rewrite Hsk. cbn [negb]. unfold zlen. by rewrite pk_of_length. Qed.

(** The verdict on the sidecar of an image, for any image and floor *)
Lemma signed_verdict image image' sk key_id release floor : 1 <= zlen image <= MAX_IMAGE_BYTES -> sk_valid sk = true ->
  zlen key_id = 16 -> 0 < release < 2 ^ 64 ->
  let body := v2_body (to_boot (honest_manifest image)) release key_id in
  validate_signed_boot_image_v2 image' (body ++ sign sk body)
      {| public_key_sec1 := pk_of sk; expected_key_id := key_id; SignedManifest.minimum_release := floor |} =
    if release <? floor then Err IntegrityFailure
    else boot ← validate_boot_image image' (to_boot (honest_manifest image));
         Ok {| vs_boot := boot; vs_release_counter := release; vs_key_id := key_id |}.
Proof.
  intros Hn Hsk Hk Hr body. unfold validate_signed_boot_image_v2.
  assert (Hs : zlen (sign sk body) = 64) by (unfold zlen; by rewrite sign_length).
  unfold body. rewrite (SignedTests.honest_parses image sk release key_id _ key_id floor Hn Hsk Hr Hk Hk Hs). fold body.
  destruct (release <? floor); [done|]. rewrite bytes_eqb_refl, sign_valid, sign_verifies by done. done.
Qed.

Lemma floor_test_passes : sk_valid (array x22 32) = true -> passes verify_v2_enforces_signature_and_release_floor.
Proof.
  intros Hsk. assert (Hz : zlen (array x4d (DFIM_BLOCK_SIZE * 2)) = DFIM_BLOCK_SIZE * 2) by (apply zlen_array; done).
  unfold verify_v2_enforces_signature_and_release_floor, passes. cbv zeta. revert Hz. generalize (array x4d (DFIM_BLOCK_SIZE * 2)).
  intros image Hz. assert (Hn : 1 <= zlen image <= MAX_IMAGE_BYTES) by (by rewrite Hz).
  rewrite build_signed_ok by (exact Hn || done). cbn [expect]. rewrite ok_bind, trusting_ok, ok_bind by exact Hsk.
  cbn [public_key_sec1 expected_key_id].
  assert (Hb : map_dfim_error (assert_image_bounds (zlen image)) = Ok tt)
    by (unfold assert_image_bounds; by rewrite (proj2 (validate_image_byte_len_Ok (zlen image) ltac:(lia)) Hn)).
  unfold verify_v2_image_bytes. rewrite (proj2 (Z.eqb_neq _ 0)), Hb, !ok_bind by lia.
  rewrite !signed_verdict by (exact Hn || done). by rewrite validate_honest by exact Hn.
Qed.

Lemma signed_ne body sk : sk_valid sk = true -> body ++ sign sk body <> [].
Proof. intros Hsk [_ E]%app_eq_nil. pose proof (sign_length sk body Hsk) as Hl. by rewrite E in Hl. Qed.

(** The check on what is on the disk *)
Lemma verify_v2_yields name image' image sk key_id release policy f : name <> [] -> zlen name <= 16 ->
  1 <= zlen image' <= MAX_IMAGE_BYTES -> sk_valid sk = true ->
  let body := v2_body (to_boot (honest_manifest image)) release key_id in
  lookup_file f (join tmp name) = Some image' -> lookup_file f (join tmp (name ++ txt ".dfim")) = Some (body ++ sign sk body) ->
  yields (verify_v2_target h {| v2_target := join tmp name; v2_state := None; v2_policy := policy; v2_format := Report.Text |}) f
    (validated ← map_err V2TrustFailed (validate_signed_boot_image_v2 image' (body ++ sign sk body) policy);
     Ok {| vr_merkle_root := validated.(vs_boot).(vb_merkle_root); vr_block_count := validated.(vs_boot).(blocks_verified) |}) f.
Proof.
  intros Hn Hl Hsize Hsk body Himg Hraw. unfold verify_v2_target. cbn [v2_target v2_state v2_policy].
  eapply yields_bind; [apply does_lift, join_gate; auto|].
  eapply yields_bind; [exact (does_canonical h Hcalm Hok _ _ _ (Hcan name) (lookup_file_dir _ _ _ Himg))|]. cbv zeta.
  cbn [default from_option]. unfold default_sidecar_path. rewrite push_join.
  eapply yields_bind; [apply reads_file_yields; [done|intros E; rewrite E in Hsize; unfold zlen in Hsize; cbn [length] in Hsize; lia]|].
  eapply yields_bind; [apply reads_file_yields; [done|by apply signed_ne]|].
  eapply yields_bind; [apply does_lift; by apply signed_envelope|].
  unfold verify_v2_image_bytes. rewrite (proj2 (Z.eqb_neq _ 0)) by lia. unfold assert_image_bounds.
  rewrite (proj2 (validate_image_byte_len_Ok (zlen image') ltac:(lia)) Hsize). cbn [map_dfim_error map_err]. rewrite ok_bind.
  apply yields_lift.
Qed.

Lemma v2_target_test_passes s : sk_valid (array x42 32) = true -> linked (fs_of s) ->
  passes (verify_v2_target_accepts_provision_v2_sidecar h tmp s) \/ exists x y, collision x y.
Proof.
  intros Hsk Hs. assert (Hz : zlen (array x5a (DFIM_BLOCK_SIZE * 2)) = DFIM_BLOCK_SIZE * 2) by (apply zlen_array; done).
  unfold verify_v2_target_accepts_provision_v2_sidecar. cbv zeta. revert Hz. generalize (array x5a (DFIM_BLOCK_SIZE * 2)).
  intros image Hz. assert (Hn : 1 <= zlen image <= MAX_IMAGE_BYTES) by (by rewrite Hz).
  destruct (TamperTest.xor_at_differs image 0 1) as (t & Ht & Hne & Hzt); [lia|apply SignedTests.flip_one|].
  destruct (SidecarTests.tampered_image_rejected image t Hn Hzt Hne) as [Hv|Hc]; [left|by right].
  set (sk := array x42 32) in *. set (key_id := txt "0123456789ABCDEF").
  assert (Hnames : join tmp (txt "release.bin") <> join tmp (txt "release.bin" ++ txt ".dfim")) by (by intros E%join_inj).
  assert (Hdec : forall i, validate_signed_boot_image_v2 i _ _ = _) by (intros i; exact (signed_verdict image i sk key_id 9 9 Hn Hsk eq_refl ltac:(lia))).
  change (9 <? 9) with false in Hdec. cbv iota in Hdec.
  set (body := v2_body (to_boot (honest_manifest image)) 9 key_id) in *.
  eapply yields_passes; [reflexivity|]. eapply yields_bind; [apply wrote|].
  rewrite build_signed_ok by (exact Hn || done). cbn [expect]. eapply yields_bind; [apply yields_lift|].
  eapply yields_bind; [apply wrote|]. unfold default_sidecar_path. rewrite push_join, trusting_ok by exact Hsk.
  eapply yields_bind; [apply yields_lift|]. fold body.
  set (f := written _ _ (written _ _ _)). assert (Hf : linked f) by (by do 2 apply written_linked).
  assert (Hsc : lookup_file f (join tmp (txt "release.bin" ++ txt ".dfim")) = Some (body ++ sign sk body)).
  { unfold f. rewrite written_at, decide_True by (done || by apply written_linked). done. }
  eapply yields_bind.
  { apply yields_unwrapped. eapply yields_eq; [apply (verify_v2_yields (txt "release.bin") image image sk key_id 9); [done|done|exact Hn|exact Hsk| |exact Hsc]|].
    - unfold f. rewrite written_at, decide_False by (congruence || by apply written_linked). rewrite written_at, decide_True by done. done.
    - fold body. rewrite Hdec, validate_honest by exact Hn. reflexivity. }
  cbn [vr_block_count vs_boot blocks_verified]. rewrite zlen_blocks_of, Hz by exact Hn.
  eapply yields_bind; [apply yields_lift|]. rewrite Ht. eapply yields_bind; [apply yields_lift|]. eapply yields_bind; [apply wrote|].
  eapply yields_fails. eapply yields_eq; [apply (verify_v2_yields (txt "release.bin") t image sk key_id 9); [done|done|lia|exact Hsk| |]|].
  - rewrite written_at, decide_True by done. done.
  - rewrite written_at, decide_False by done. exact Hsc.
  - fold body. rewrite Hdec, Hv. reflexivity.
Qed.
End proofs.
End VerifyTests.

(** ** [recovery.rs] *)

Module RecoveryTests.
Definition PRIVATE_KEY : list byte := array x66 32.
Definition KEY_ID : list byte := txt "DFIM-RECOVERY-01".

Section tests.
Context `{HashOps, SigOps}.
Context (os : Os) (unix : bool) (lossy : list byte -> list byte) (pid : Z) (tmp : Path).

Definition policy (minimum_release : Z) : check TrustedManifestPolicy :=
  public_key ← expect (public_key_sec1_from_private PRIVATE_KEY);
  Ok {| public_key_sec1 := public_key; expected_key_id := KEY_ID; SignedManifest.minimum_release := minimum_release |}.

(** [must(fs::write(..))] and [must(fs::read(..))] *)
Definition fs_write (p : Path) (b : list byte) : stm (Proc * Z) Empty_set unit := unwrapped (on_disk (sys_write os CreateFailed p b)).
Definition fs_read (p : Path) : stm (Proc * Z) Empty_set (list byte) := unwrapped (on_disk (sys_read os (ReadFailed p) p)).

Definition recovery_replaces_image_and_sidecar_then_reverifies (s : Proc * Z) : Test :=
  fst ((let target := join tmp (txt "protected.bin") in
        let target_sidecar := join tmp (txt "protected.bin.dfim") in
        let source := join tmp (txt "authorized.bin") in
        let source_sidecar := join tmp (txt "authorized.bin.dfim") in
        let authorized := array xa5 (DFIM_BLOCK_SIZE * 2) in
        sidecar ← lift (expect (build_signed_boot_sidecar_v2 authorized PRIVATE_KEY KEY_ID 11));
        fs_write target (array xcc (zlen authorized)) ;;
        fs_write target_sidecar (txt "corrupt") ;;
        fs_write source authorized ;;
        fs_write source_sidecar sidecar ;;
        policy ← lift (policy 10);
        report ← unwrapped (recover_target_atomically os unix lossy pid {| Recovery.target := target;
          Recovery.target_sidecar := target_sidecar; recovery_image := source; recovery_sidecar := source_sidecar;
          Recovery.policy := policy |});
        _ ← lift (assert_eq report.(r_release_counter) 11);
        b ← fs_read target;
        _ ← lift (assert_eq b authorized);
        b ← fs_read target_sidecar;
        lift (assert_eq b sidecar)) s).

Definition recovery_rejects_rollback_without_touching_target (s : Proc * Z) : Test :=
  fst ((let target := join tmp (txt "protected.bin") in
        let target_sidecar := join tmp (txt "protected.bin.dfim") in
        let source := join tmp (txt "old.bin") in
        let source_sidecar := join tmp (txt "old.bin.dfim") in
        let original := array x77 DFIM_BLOCK_SIZE in
        let old := array x11 DFIM_BLOCK_SIZE in
        fs_write target original ;;
        fs_write target_sidecar (txt "existing-state") ;;
        fs_write source old ;;
        sidecar ← lift (expect (build_signed_boot_sidecar_v2 old PRIVATE_KEY KEY_ID 4));
        fs_write source_sidecar sidecar ;;
        policy ← lift (policy 5);
        fails (recover_target_atomically os unix lossy pid {| Recovery.target := target;
          Recovery.target_sidecar := target_sidecar; recovery_image := source; recovery_sidecar := source_sidecar;
          Recovery.policy := policy |}) ;;
        b ← fs_read target;
        _ ← lift (assert_eq b original);
        b ← fs_read target_sidecar;
        lift (assert_eq b (txt "existing-state"))) s).
End tests.

(** *** They pass *)

Section proofs.
Context `{HashLaws, SigLaws} (Hsk : sk_valid PRIVATE_KEY = true).
Context (os : Os) (Hcalm : calm os) (Hok : faultless os) (unix : bool) (lossy : list byte -> list byte) (pid : Z).
Context (tmp : Path) (Htmp : is_empty_path tmp = false).

Lemma disk_wrote p b s : exists s', fs_write os p b s = (Ok tt, s') /\ (fst s').(fs) = written p b (fst s).(fs).
Proof.
  destruct s as [u n]. cbn [fst]. unfold fs_write, unwrapped, on_disk, sys_write. unfold mbind, stm_bind, sys_create, sys_write_all, syscall, written.
  rewrite !Hcalm, !Hok. unfold clean. destruct (dir (fs u) !! p) as [i|] eqn:Hp; cbn; rewrite Hcalm, Hok; eexists;
    (split; [reflexivity|]); unfold set_inode; cbn; by rewrite ?insert_insert_eq.
Qed.

Lemma disk_read p b s : lookup_file (fst s).(fs) p = Some b -> exists s', fs_read os p s = (Ok b, s') /\ (fst s').(fs) = (fst s).(fs).
Proof.
  destruct s as [u n]. cbn [fst]. intros Hb. unfold fs_read, unwrapped, on_disk, sys_read, syscall. rewrite Hcalm, Hok. cbn [clean].
  rewrite Hb. cbn. by eexists.
Qed.

Lemma reads_back p b s : lookup_file (fst s).(fs) p = Some b -> b <> [] ->
  exists s', read_non_empty os p s = (Ok b, s') /\ (fst s').(fs) = (fst s).(fs).
Proof.
  destruct s as [u n]. cbn [fst]. intros Hb Hne. unfold read_non_empty, mbind, stm_bind, on_disk, sys_read, syscall.
  rewrite Hcalm, Hok. cbn [clean]. rewrite Hb. cbn. rewrite (proj2 (Z.eqb_neq _ 0)) by (by intros ?%zlen_0_nil). by eexists.
Qed.

(** A pair that is not authorised changes nothing. *)
Lemma recover_refused request s image sidecar e : lookup_file (fst s).(fs) request.(recovery_image) = Some image ->
  lookup_file (fst s).(fs) request.(recovery_sidecar) = Some sidecar -> image <> [] -> sidecar <> [] ->
  validate_signed_boot_image_v2 image sidecar request.(Recovery.policy) = Err e ->
  exists s', recover_target_atomically os unix lossy pid request s = (Err (AuthorizationFailed e), s') /\ (fst s').(fs) = (fst s).(fs).
Proof.
  intros Hi Hs Hi0 Hs0 Hv. unfold recover_target_atomically.
  destruct (reads_back _ _ s Hi Hi0) as (s1 & E1 & F1). rewrite (stm_step _ _ _ _ _ E1).
  destruct (reads_back _ _ s1 ltac:(by rewrite F1) Hs0) as (s2 & E2 & F2). rewrite (stm_step _ _ _ _ _ E2), stm_lift, Hv.
  exists s2. split; [done|]. congruence.
Qed.

Lemma recovery_policy_ok floor : policy floor =
  Ok {| public_key_sec1 := pk_of PRIVATE_KEY; expected_key_id := KEY_ID; SignedManifest.minimum_release := floor |}.
Proof. exact (VerifyTests.trusting_ok PRIVATE_KEY KEY_ID floor Hsk). Qed.

(** Files of one directory *)
Lemma written_name n b f m : linked f ->
  lookup_file (written (join tmp n) b f) (join tmp m) = if bytes_eqb n m then Some b else lookup_file f (join tmp m).
Proof.
  intros Hf. rewrite written_at by done. destruct (bytes_eqb n m) eqn:E.
  - apply bytes_eqb_eq in E as ->. by rewrite decide_True.
  - rewrite decide_False; [done|]. intros ->%join_inj. by rewrite bytes_eqb_refl in E.
Qed.

Lemma rollback_test_passes s : linked (fst s).(fs) -> passes (recovery_rejects_rollback_without_touching_target os unix lossy pid tmp s).
Proof.
  intros Hs. assert (Hz : zlen (array x11 DFIM_BLOCK_SIZE) = DFIM_BLOCK_SIZE) by (apply zlen_array; done).
  unfold recovery_rejects_rollback_without_touching_target, passes. cbv zeta.
  revert Hz. generalize (array x11 DFIM_BLOCK_SIZE) (array x77 DFIM_BLOCK_SIZE). intros old original Hz.
  assert (Hn : 1 <= zlen old <= MAX_IMAGE_BYTES) by (by rewrite Hz).
  set (body := v2_body (to_boot (honest_manifest old)) 4 KEY_ID).
  destruct (disk_wrote (join tmp (txt "protected.bin")) original s) as (s1 & E1 & F1). rewrite (stm_step _ _ _ _ _ E1).
  destruct (disk_wrote (join tmp (txt "protected.bin.dfim")) (txt "existing-state") s1) as (s2 & E2 & F2). rewrite (stm_step _ _ _ _ _ E2).
  destruct (disk_wrote (join tmp (txt "old.bin")) old s2) as (s3 & E3 & F3). rewrite (stm_step _ _ _ _ _ E3).
  rewrite stm_lift, build_signed_ok by (exact Hn || done). cbn [expect]. fold body.
  destruct (disk_wrote (join tmp (txt "old.bin.dfim")) (body ++ sign PRIVATE_KEY body) s3) as (s4 & E4 & F4). rewrite (stm_step _ _ _ _ _ E4).
  rewrite stm_lift, recovery_policy_ok. set (request := {| Recovery.target := _ |}).
  rewrite F3, F2, F1 in F4.
  destruct (recover_refused request s4 old (body ++ sign PRIVATE_KEY body) IntegrityFailure) as (s5 & E5 & F5).
  1-2: (cbn [request recovery_image recovery_sidecar]; rewrite F4, !written_name by (by repeat apply written_linked); reflexivity).
  { intros E; rewrite E in Hn; unfold zlen in Hn; cbn [length] in Hn; lia. }
  { by apply VerifyTests.signed_ne. }
  { exact (VerifyTests.signed_verdict old old PRIVATE_KEY KEY_ID 4 5 Hn Hsk eq_refl ltac:(lia)). }
  rewrite (stm_step _ _ _ _ _ (fails_Err _ _ _ _ E5)). rewrite F4 in F5.
  destruct (disk_read (join tmp (txt "protected.bin")) original s5) as (s6 & E6 & F6).
  { rewrite F5, !written_name by (by repeat apply written_linked). reflexivity. }
  rewrite (stm_step _ _ _ _ _ E6), stm_lift, assert_eq_refl.
  destruct (disk_read (join tmp (txt "protected.bin.dfim")) (txt "existing-state") s6) as (s7 & E7 & F7).
  { rewrite F6, F5, !written_name by (by repeat apply written_linked). reflexivity. }
  rewrite (stm_step _ _ _ _ _ E7). reflexivity.
Qed.

Lemma join_not_tmp name : bytes_eqb (drop (length name - 4) name) (txt ".tmp") = false -> is_tmp (join tmp name) = false.
Proof. intros Hn. unfold is_tmp, join. cbn [snd]. by rewrite last_snoc. Qed.

Lemma join_replaceable name : bytes_eqb (drop (length name - 4) name) (txt ".tmp") = false -> bytes_eqb name DOTDOT = false ->
  replaceable (join tmp name).
Proof.
  intros Hn Hd. split; [by apply join_not_tmp|]. split; [unfold file_name, join; cbn [snd]; rewrite last_snoc, Hd; by eexists|].
  exists tmp. split; [|done]. unfold parent, join. cbn [snd fst]. destruct tmp as [r l]. cbn [fst snd].
  destruct (l ++ [name]) as [|c l'] eqn:E; [by destruct l|]. rewrite <- E, length_app. cbn [length].
  replace (length l + 1 - 1)%nat with (length l) by lia. by rewrite take_app_length.
Qed.

Lemma success_test_passes s : tidy (fst s).(fs) -> linked (fst s).(fs) ->
  passes (recovery_replaces_image_and_sidecar_then_reverifies os unix lossy pid tmp s).
Proof.
  intros [_ Ht] Hs. assert (Hz : zlen (array xa5 (DFIM_BLOCK_SIZE * 2)) = DFIM_BLOCK_SIZE * 2) by (apply zlen_array; done).
  unfold recovery_replaces_image_and_sidecar_then_reverifies, passes. cbv zeta.
  revert Hz. generalize (array xa5 (DFIM_BLOCK_SIZE * 2)). intros authorized Hz. generalize (array xcc (zlen authorized)). intros tampered.
  assert (Hn : 1 <= zlen authorized <= MAX_IMAGE_BYTES) by (by rewrite Hz).
  set (body := v2_body (to_boot (honest_manifest authorized)) 11 KEY_ID).
  rewrite stm_lift, build_signed_ok by (exact Hn || done). cbn [expect]. fold body.
  destruct (disk_wrote (join tmp (txt "protected.bin")) tampered s) as (s1 & E1 & F1). rewrite (stm_step _ _ _ _ _ E1).
  destruct (disk_wrote (join tmp (txt "protected.bin.dfim")) (txt "corrupt") s1) as (s2 & E2 & F2). rewrite (stm_step _ _ _ _ _ E2).
  destruct (disk_wrote (join tmp (txt "authorized.bin")) authorized s2) as (s3 & E3 & F3). rewrite (stm_step _ _ _ _ _ E3).
  destruct (disk_wrote (join tmp (txt "authorized.bin.dfim")) (body ++ sign PRIVATE_KEY body) s3) as (s4 & E4 & F4).
  rewrite (stm_step _ _ _ _ _ E4), stm_lift, recovery_policy_ok. set (request := {| Recovery.target := _ |}).
  rewrite F3, F2, F1 in F4.
  pose proof (VerifyTests.signed_verdict authorized authorized PRIVATE_KEY KEY_ID 11 10 Hn Hsk eq_refl ltac:(lia)) as Hv.
  change (11 <? 10) with false in Hv. cbv iota zeta in Hv. rewrite validate_honest, ok_bind in Hv by exact Hn. fold body in Hv.
  match type of Hv with _ = Ok ?x => set (v := x) in Hv end.
  destruct s4 as [p4 n4]. cbn [fst] in F4.
  destruct (recover_completes os unix lossy pid request p4 n4 authorized (body ++ sign PRIVATE_KEY body) v Hcalm Hok) as (p5 & n5 & E5 & L1 & L2).
  { rewrite F4. split; [by do 4 apply written_linked|]. by repeat (apply written_no_tmp; [by apply join_not_tmp|]). }
  1-2: by apply join_replaceable.
  { by intros E%join_inj. }
  { split_and!; [..|exact Hv]; cbn [request recovery_image recovery_sidecar]; rewrite F4, !written_name by (by repeat apply written_linked); reflexivity. }
  { intros E; rewrite E in Hn; unfold zlen in Hn; cbn [length] in Hn; lia. }
  { by apply VerifyTests.signed_ne. }
  rewrite (stm_step _ _ _ _ _ (unwrapped_Ok _ _ _ _ E5)), stm_lift. cbn [report_of r_release_counter vs_release_counter].
  change (assert_eq 11 11) with (Ok tt : Test). cbv iota.
  destruct (disk_read (join tmp (txt "protected.bin")) authorized (p5, n5) L1) as (s6 & E6 & F6).
  rewrite (stm_step _ _ _ _ _ E6), stm_lift, assert_eq_refl.
  destruct (disk_read (join tmp (txt "protected.bin.dfim")) (body ++ sign PRIVATE_KEY body) s6) as (s7 & E7 & F7); [rewrite F6; exact L2|].
  rewrite (stm_step _ _ _ _ _ E7). unfold lift. cbn [fst]. rewrite !assert_eq_refl. reflexivity.
Qed.
End proofs.
End RecoveryTests.
